(* ===== verification/_CoqProject ===== *)
-Q . S2P
Prelude.v
BlockDev.v
FatLayout.v
FatSpec.v
FatFile.v
FatVolume.v
FatDir.v
FatFs.v
FatTree.v
FatFd.v
Frames.v
FrameSafety.v
FrameStore.v
Apic.v
ApicTimer.v
Tlb.v
Paging.v
Loader.v
FlatMemory.v
Heap.v
Gdt.v
Interrupts.v
Pci.v
SdCard.v
SdHost.v
Events.v
EventSafety.v
EventLive.v
Futures.v
Locks.v
KernelLocks.v
Console.v
Harness.v
Suite.v
Boot.v
Cpu.v
ContextSwitch.v
PageTables.v
Process.v
ProcessExamples.v
