(* ===== verification/Prelude.v ===== *)
(** * TAOS kernel: a verification development

    TAOS is a small x86-64 kernel in Rust ([src/kernel/src/]).  This library is
    a shallow embedding of its parts, translated from the source function by
    function, and the theorems that make them correct.

    ** The program and the files

    - [Prelude]: results, panics and divergence of Rust code as an outcome
      monad over a mutable state ([M]), integers kept at their width ([chk]
      panics on overflow as debug builds do, [wrap] wraps), loops, the weakest
      precondition rules, and the lemmas on lists, bytes, bit masks and bit
      fields the components share.
    - File system ([filesys/]).  [BlockDev]: the [BlockDevice] trait as a
      class, its laws, and the in-memory device, which satisfies them.
      [FatLayout]: boot sector, directory entries and FAT entries and their
      bytes ([fat16/boot_sector.rs], [dir_entry.rs], [fat_entry.rs],
      [constants.rs]).  [FatSpec]: the abstract table and directories.
      [FatFile]: [fat16/file.rs].  [FatVolume], [FatDir], [FatFs], [FatTree],
      [FatFd]: [fat16/mod.rs], from formatting and mounting through directories
      and the [FileSystem] operations to the directory tree and the table of
      open files.  The state of these computations is the device; [Fat16] and
      [Fat16File] are records.
    - Physical memory ([memory/*_frame_allocator.rs]).  [Frames]: the boot
      allocator, the bitmap allocator and the static that holds one of them.
      [FrameSafety]: their theorems.  [FrameStore]: the interface the other
      components use, discharged by the bitmap allocator.
    - Virtual memory.  [Apic]: [interrupts/x2apic.rs] over a machine class.
      [ApicTimer]: the registers, the timer and the PIT behind it, and the
      initialisation of the controllers.
      [Tlb]: [memory/tlb.rs] and its handler, and a machine with several cores.
      [Paging]: the mapping operations of [memory/paging.rs] over the [Mapper]
      interface of the [x86_64] crate.  [Heap]: [memory/heap.rs],
      [memory/mod.rs], the page fault handler and the interrupt flag.
      [FlatMemory]: concrete instances of the interfaces, for the examples.
    - Interrupts.  [Gdt]: [interrupts/gdt.rs].  [Interrupts]: the interrupt
      table of [interrupts/idt.rs] and [interrupts/mod.rs].
    - Output and tests.  [Console]: [devices/serial.rs] and [logging.rs].
      [Harness]: the test runner and the panic handlers of [lib.rs] and
      [main.rs].  [Suite]: the tests of [memory/paging.rs] and of
      [filesys/fat16/mod.rs] as programs.
    - Devices ([devices/]).  [Pci]: [pci.rs].  [SdCard]: [sd_card.rs] and
      [mod.rs].  [SdHost]: a reference host controller and card, and the driver
      as a lawful block device on any machine that simulates it.
    - Events ([events/]).  [Events]: runners, queues, wakers.  [EventSafety]
      and [EventLive]: their invariant and their progress.  [Futures]:
      [futures.rs].
    - Locks.  [Locks]: a machine of cores that take guards, are interrupted and
      interrupt each other, and a discipline under which no core is locked out.
      [KernelLocks]: the locks of the kernel, function by function.
    - Boot ([init.rs], [main.rs]).  [Boot]: the interleavings of the cores.
    - Processes ([processes/], [interrupts/idt.rs], [syscalls/]).  [Loader]:
      [loader.rs].  [Cpu]: registers, stack and the assembly, one instruction
      at a time.  [ContextSwitch]: what the assembly does.  [PageTables]: the
      four-level tables of a process.  [Process]: the process table and the
      handlers, which compose events, page tables, frames, interrupt controller
      and processor.  [ProcessExamples]: concrete processes.

    The bitmap allocator serves paging, the loader and process teardown through
    [FrameStore]; paging calls the shootdown of [Tlb], which sends interrupts
    through [Apic]; [Interrupts] puts segments, gates and timer of a core
    together; the timer handler of [Process] reads the stack [Cpu] wrote
    and schedules through [Events]; FAT16 runs on any lawful [BlockDevice], the
    memory device and the SD card among them.

    ** What the theorems show

    - File system: formatting gives a valid volume; creating, removing,
      renaming and listing files and directories and resolving paths do what
      they say and leave the rest of the volume alone;
      a read returns and a write stores exactly the bytes at the cursor; the
      descriptor table stays consistent; create, write and read round-trip.
      A write that needs a cluster beyond the chain fails with [NoSpace].
    - Frames: in any run of the bitmap allocator no frame is handed out twice
      or lost, and the cost of an allocation is bounded; the state after [init]
      and the hand-over from the boot allocator, both where they are safe and
      where a gap in the memory map duplicates frames; double frees.
    - Paging and TLBs: mapping and removal round-trip; every branch of
      remapping; no stale translation while slots are not reused early; the
      kernel's own tests of its page tables succeed on any lawful mapper.
    - Interrupts: what an interrupt of each kind runs on a core after
      [interrupts::init]; the timers of all cores run at the calibrated rate.
    - Devices: the walk of the PCI bus finds exactly the devices present; the
      SD card refines a disk under any sequence of block operations; a block
      access ends whatever the hardware does.
    - Events: the invariant in every reachable state, freedom from panics, no
      poll after completion, a bound on waiting, termination of finite work;
      self-waking futures starve the others.
    - Locks: a core in its event loop can always go on, whatever interrupts it
      takes, as long as the kernel futures it polls keep the discipline; three
      ways in which code that does not keep it locks cores out for ever.
    - Logging: what is sent for a sequence of messages.
    - Boot: initialisation order in all interleavings, a bound on the steps,
      and what the final states are, one of which locks a core out for ever.
    - Processes: loading puts every byte of a program in place; the context
      switches restore exactly what was saved, [r10] and [r11] of a system call
      excepted; a preempted process resumes; an exiting process gives back its
      frames and no others; the process table stays well formed.

    Where the code differs from its comments or its intent, the theorem states
    what the code does.

    ** Code outside the repository

    The [x86_64] crate (frames, pages, page tables, descriptor tables, ports),
    the boot loader's responses, the ELF parser ([goblin]), futures and the
    hardware are classes or arguments.  What is relied on of them is a class of
    laws taken from their documentation, and every such class has a concrete
    instance on which the theorems that use it are applied.

    ** Loops, fuel and bounds

    A loop that is not structural takes fuel, and running out of it is
    [Diverge], never a result.  The theorems on such loops say that a stated
    fuel gives a result.  Reads and writes of a file get one round per byte,
    since each round moves one at least; freeing a chain gets one round per
    cluster of the volume; an allocation one per frame; polls of the SD card
    have the retry count of the source; [run_until_idle] gets the work that is
    left in its futures.  The edge counter of the timer calibration gets as many
    reads as the PIT takes for its edges.  Boot is a step relation and needs no fuel.

    ** Not modelled

    - [print_pci_info], [print_process_table] and the [Debug] format of the
      registers, which only print.
    - [print_nums_after_rand_delay] of [events/futures.rs], which joins futures
      with a library (the module is not compiled into the kernel);
      [filesys/vfs/mod.rs] (empty); the heap allocator, which is a library.
    - The tests of the heap, which exercise that library, the paging test that
      busy-waits for another core, and the test that starts a process and only
      checks the number of its core.
    - Races between cores inside one operation of an event runner or an
      allocator: the operations are atomic, and their locks are modelled apart
      from what they protect ([KernelLocks]).  Weak memory ordering is not
      modelled either. *)

From stdpp Require Export base tactics numbers list list_numbers gmap strings.
From Stdlib Require Export ZArith Lia ZifyBool ZifyNat.
#[global] Open Scope Z_scope.

Declare Scope rust_scope.
Delimit Scope rust_scope with rust.

(** ** Outcomes of Rust code

    [Ok] and [Err] are the two constructors of [Result]; [Panic] is a panic
    (failed [assert!], [expect], index out of range, overflow of a checked
    operation, division by zero); [Diverge] is a loop that used up its fuel. *)

Inductive outcome (E A : Type) : Type :=
| Ok (a : A)
| Err (e : E)
| Panic
| Diverge.
Arguments Ok {E A} a.
Arguments Err {E A} e.
Arguments Panic {E A}.
Arguments Diverge {E A}.

(** State passing over a mutable state [S]; the state survives an error, as a
    [&mut self] does when a method returns early with [?]. *)

Definition M (S E A : Type) : Type := S -> outcome E A * S.

Definition ret {S E A} (a : A) : M S E A := fun s => (Ok a, s).
Definition err {S E A} (e : E) : M S E A := fun s => (Err e, s).
Definition panic {S E A} : M S E A := fun s => (Panic, s).
Definition diverge {S E A} : M S E A := fun s => (Diverge, s).

Definition bind {S E A B} (m : M S E A) (k : A -> M S E B) : M S E B :=
  fun s =>
    match m s with
    | (Ok a, s') => k a s'
    | (Err e, s') => (Err e, s')
    | (Panic, s') => (Panic, s')
    | (Diverge, s') => (Diverge, s')
    end.

Notation "'let!' x ':=' m 'in' k" := (bind m (fun x => k))
  (at level 10, x pattern, m at level 100, k at level 200,
   format "'[v' 'let!'  x  ':='  m  'in' '/' k ']'") : rust_scope.
Notation "m ';!' k" := (bind m (fun _ => k))
  (at level 150, right associativity, format "'[v' m  ';!' '/' k ']'") : rust_scope.
#[global] Open Scope rust_scope.

Definition get_state {S E} : M S E S := fun s => (Ok s, s).
Definition put_state {S E} (s : S) : M S E unit := fun _ => (Ok tt, s).

(** [assert!(b)]. *)
Definition rassert {S E} (b : bool) : M S E unit := if b then ret tt else panic.

(** [opt.expect(..)], [opt.unwrap()], a bounds-checked index. *)
Definition expect {S E A} (o : option A) : M S E A :=
  match o with Some a => ret a | None => panic end.

(** [opt.ok_or(e)?]. *)
Definition ok_or {S E A} (o : option A) (e : E) : M S E A :=
  match o with Some a => ret a | None => err e end.

(** ** Machine integers

    A [w]-bit unsigned integer is a [Z] in [0, 2^w).  [wrap w] is an [as]
    cast to [w] bits; [chk w] is the result of an arithmetic operation of the
    development profile, which panics when it does not fit. *)

Definition wrap (w x : Z) : Z := x mod 2 ^ w.
Definition fits (w x : Z) : bool := (0 <=? x) && (x <? 2 ^ w).
Definition chk {S E} (w x : Z) : M S E Z := if fits w x then ret x else panic.
Definition checked {A} (b : bool) (a : A) : option A := if b then Some a else None.

(** Checked division: the only failure of an unsigned division is a zero divisor. *)
Definition div_chk {S E} (a b : Z) : M S E Z := if b =? 0 then panic else ret (a / b).
Definition rem_chk {S E} (a b : Z) : M S E Z := if b =? 0 then panic else ret (a mod b).

(** [a.div_ceil(b)]. *)
Definition div_ceil (a b : Z) : Z := (a + b - 1) / b.

(** Length of a slice as a [usize]. *)
Definition len {A} (l : list A) : Z := Z.of_nat (length l).
#[global] Arguments len {A} l : simpl never.

(** Slice index. *)
Definition idx {A} (l : list A) (i : Z) : option A := l !! Z.to_nat i.
#[global] Arguments idx {A} l i : simpl never.

(** Element assignment [l[i] = x]; the caller has checked the bound. *)
Definition upd {A} (l : list A) (i : Z) (x : A) : list A := <[Z.to_nat i := x]> l.
#[global] Arguments upd {A} l i x : simpl never.

(** [vec![x; n]]. *)
Definition vec {A} (x : A) (n : Z) : list A := replicate (Z.to_nat n) x.
#[global] Arguments vec {A} x n : simpl never.

(** The half-open range [a..b]. *)
Definition range (a b : Z) : list Z := seqZ a (b - a).
#[global] Arguments range a b : simpl never.

(** [buf[off..off + src.len()].copy_from_slice(src)] and
    [&buf[off..off + n]], for bounds the caller has checked. *)
Definition splice {A} (buf : list A) (off : Z) (src : list A) : list A :=
  take (Z.to_nat off) buf ++ src ++ drop (Z.to_nat off + length src) buf.
Definition slice {A} (buf : list A) (off n : Z) : list A :=
  take (Z.to_nat n) (drop (Z.to_nat off) buf).
#[global] Arguments splice {A} buf off src : simpl never.
#[global] Arguments slice {A} buf off n : simpl never.

(** A [for] loop whose body may return early with a value. *)
Fixpoint for_each {S E I R} (xs : list I) (body : I -> M S E (option R)) : M S E (option R) :=
  match xs with
  | [] => ret None
  | i :: xs' =>
      let! r := body i in
      match r with
      | Some v => ret (Some v)
      | None => for_each xs' body
      end
  end.

(** A [for] loop that only has effects. *)
Fixpoint for_do {S E I} (xs : list I) (body : I -> M S E unit) : M S E unit :=
  match xs with
  | [] => ret tt
  | i :: xs' => body i ;! for_do xs' body
  end.

(** A [for] loop that threads local variables. *)
Fixpoint for_fold {S E I A} (xs : list I) (a : A) (body : A -> I -> M S E A) : M S E A :=
  match xs with
  | [] => ret a
  | i :: xs' => let! a' := body a i in for_fold xs' a' body
  end.

(** ** Parts of a state

    [zoom] runs a computation on a component of the state, reached by [get_]
    and replaced by [set_].  [attempt] hands a [Result] to the caller as a
    value; [unwrap] is [.expect(..)] on it and [ignore] drops it. *)

Definition zoom {S T E A} (get_ : S -> T) (set_ : T -> S -> S) (m : M T E A) : M S E A :=
  fun s => let '(r, t) := m (get_ s) in (r, set_ t s).

Definition attempt {S E E' A} (m : M S E A) : M S E' (A + E) :=
  fun s =>
    match m s with
    | (Ok a, s') => (Ok (inl a), s')
    | (Err e, s') => (Ok (inr e), s')
    | (Panic, s') => (Panic, s')
    | (Diverge, s') => (Diverge, s')
    end.
Definition unwrap {S E E' A} (m : M S E A) : M S E' A :=
  let! r := attempt m in match r with inl a => ret a | inr _ => panic end.
Definition ignore {S E E' A} (m : M S E A) : M S E' unit :=
  let! _ := attempt m in ret tt.
Definition map_err {S E E' A} (f : E -> E') (m : M S E A) : M S E' A :=
  let! r := attempt m in match r with inl a => ret a | inr e => err (f e) end.

(** ** Little-endian integers *)

Definition to_le2 (x : Z) : list Z := [x mod 256; (x / 256) mod 256].
Definition to_le4 (x : Z) : list Z :=
  [x mod 256; (x / 256) mod 256; (x / 65536) mod 256; (x / 16777216) mod 256].
Definition of_le2 (b0 b1 : Z) : Z := b0 + 256 * b1.
Definition of_le4 (b0 b1 b2 b3 : Z) : Z := b0 + 256 * b1 + 65536 * b2 + 16777216 * b3.

#[global] Arguments of_le2 b0 b1 : simpl never.
#[global] Arguments of_le4 b0 b1 b2 b3 : simpl never.

(** ** Automation *)

Create HintDb taos.

(** [lia] that understands [/] and [mod]. *)
Ltac dlia := Z.div_mod_to_equations; lia.
Ltac dnia := Z.div_mod_to_equations; nia.

(** Give the name [x] to the term [t] in [Hc], with the equation [H]; unlike
    [remember] this leaves no local definition in the proof. *)
Tactic Notation "name" uconstr(t) "in" hyp(Hc) "as" ident(x) ident(H) :=
  let tmp := fresh in
  set (tmp := t) in Hc; let body := eval unfold tmp in tmp in
  assert (tmp = body) as H by reflexivity;
  revert H Hc; generalize tmp; clear tmp; intros x H Hc.

(** Case on the boolean test a definition branches on. *)
Ltac case_test :=
  match goal with
  | |- context [if ?b then _ else _] => destruct b eqn:?
  | H : context [if ?b then _ else _] |- _ => destruct b eqn:?
  end.

(** ** Laws of the monad *)

Section monad.
Context {S E : Type}.

Lemma bind_ok {A B} (m : M S E A) (k : A -> M S E B) s a s' :
  m s = (Ok a, s') -> bind m k s = k a s'.
Proof. unfold bind. by intros ->. Qed.

Lemma bind_err {A B} (m : M S E A) (k : A -> M S E B) s e s' :
  m s = (Err e, s') -> bind m k s = (Err e, s').
Proof. unfold bind. by intros ->. Qed.

Lemma bind_panic {A B} (m : M S E A) (k : A -> M S E B) s s' :
  m s = (Panic, s') -> bind m k s = (Panic, s').
Proof. unfold bind. by intros ->. Qed.

Lemma bind_diverge {A B} (m : M S E A) (k : A -> M S E B) s s' :
  m s = (Diverge, s') -> bind m k s = (Diverge, s').
Proof. unfold bind. by intros ->. Qed.

(** Inversion: a bind that returns [Ok] ran both halves. *)
Lemma bind_ok_inv {A B} (m : M S E A) (k : A -> M S E B) s b s' :
  bind m k s = (Ok b, s') -> exists a s1, m s = (Ok a, s1) /\ k a s1 = (Ok b, s').
Proof. unfold bind. destruct (m s) as [[] ?]; naive_solver. Qed.

Lemma bind_assoc {A B C} (m : M S E A) (f : A -> M S E B) (g : B -> M S E C) s :
  bind (bind m f) g s = bind m (fun a => bind (f a) g) s.
Proof. unfold bind. by destruct (m s) as [[] ?]. Qed.

Lemma chk_ok w x (s : S) : 0 <= x < 2 ^ w -> chk (E:=E) w x s = (Ok x, s).
Proof.
  intros H. unfold chk, fits.
  replace (0 <=? x) with true by lia. by replace (x <? 2 ^ w) with true by lia.
Qed.

(** Binds of the primitive operations. *)
Lemma bind_chk {A} w x (k : Z -> M S E A) s : 0 <= x < 2 ^ w -> bind (chk w x) k s = k x s.
Proof. intros Hx. unfold bind. by rewrite chk_ok. Qed.

Lemma bind_get {A} (k : S -> M S E A) s : bind get_state k s = k s s.
Proof. done. Qed.

Lemma bind_put {A} s0 (k : unit -> M S E A) s : bind (put_state s0) k s = k tt s0.
Proof. done. Qed.

Lemma bind_ret {A B} (a : A) (k : A -> M S E B) s : bind (ret a) k s = k a s.
Proof. done. Qed.

Lemma bind_assert {A} b (k : unit -> M S E A) s : b = true -> bind (rassert b) k s = k tt s.
Proof. by intros ->. Qed.

Lemma bind_rem {A} a b (k : Z -> M S E A) s : b <> 0 -> bind (rem_chk a b) k s = k (a mod b) s.
Proof. intros Hb. unfold bind, rem_chk. by replace (b =? 0) with false by lia. Qed.

Lemma bind_expect {A B} (o : option A) a (k : A -> M S E B) s :
  o = Some a -> bind (expect o) k s = k a s.
Proof. by intros ->. Qed.

Lemma chk_panic w x (s : S) : ~ (0 <= x < 2 ^ w) -> chk (E:=E) w x s = (Panic, s).
Proof. intros H. unfold chk, fits. case_test; [lia|done]. Qed.
Lemma for_fold_app {I A} (l1 l2 : list I) (a : A) (body : A -> I -> M S E A) s :
  for_fold (l1 ++ l2) a body s = bind (for_fold l1 a body) (fun a' => for_fold l2 a' body) s.
Proof.
  revert a s. induction l1 as [|x l1 IH]; intros a s; [done|]. cbn.
  rewrite bind_assoc. unfold bind. destruct (body a x s) as [[] ?]; done || apply IH.
Qed.

(** Weakest preconditions: [wp m Q X s] says that [m] started in [s] returns
    a value and a state that satisfy [Q], or panics, and then only if [X]. *)
Definition wp {A} (m : M S E A) (Q : A -> S -> Prop) (X : Prop) (s : S) : Prop :=
  match m s with
  | (Ok a, s') => Q a s'
  | (Panic, _) => X
  | _ => False
  end.

Lemma wp_bind {A B} (m : M S E A) (k : A -> M S E B) Q X s :
  wp m (fun a => wp (k a) Q X) X s -> wp (bind m k) Q X s.
Proof. unfold wp, bind. by destruct (m s) as [[] ?]. Qed.

Lemma wp_mono {A} (m : M S E A) (Q Q' : A -> S -> Prop) (X X' : Prop) s :
  wp m Q X s -> (forall a s', Q a s' -> Q' a s') -> (X -> X') -> wp m Q' X' s.
Proof. unfold wp. destruct (m s) as [[] ?]; naive_solver. Qed.

Lemma wp_ret {A} (a : A) Q X s : Q a s -> wp (ret a) Q X s.
Proof. done. Qed.

Lemma wp_panic {A} (Q : A -> S -> Prop) (X : Prop) s : X -> wp panic Q X s.
Proof. done. Qed.

Lemma wp_get (Q : S -> S -> Prop) X s : Q s s -> wp get_state Q X s.
Proof. done. Qed.

Lemma wp_put s0 (Q : unit -> S -> Prop) X s : Q tt s0 -> wp (put_state s0) Q X s.
Proof. done. Qed.

Lemma wp_expect {A} (o : option A) (Q : A -> S -> Prop) (X : Prop) s :
  (forall a, o = Some a -> Q a s) -> (o = None -> X) -> wp (expect o) Q X s.
Proof. destruct o; unfold wp; cbn; auto. Qed.

Lemma wp_chk w x (Q : Z -> S -> Prop) (X : Prop) s :
  (0 <= x < 2 ^ w -> Q x s) -> (~ (0 <= x < 2 ^ w) -> X) -> wp (chk w x) Q X s.
Proof.
  intros HQ HX. unfold wp. destruct (decide (0 <= x < 2 ^ w)).
  - rewrite chk_ok by done. auto.
  - rewrite chk_panic by done. auto.
Qed.

(** A loop keeps an invariant its body keeps. *)
Lemma wp_for_do {I} (xs : list I) (body : I -> M S E unit) (J : S -> Prop) X s :
  (forall i s, i ∈ xs -> J s -> wp (body i) (fun _ => J) X s) ->
  J s -> wp (for_do xs body) (fun _ => J) X s.
Proof.
  revert s. induction xs as [|i xs IH]; intros s Hb HJ; [done|].
  apply wp_bind. eapply wp_mono; [apply Hb; [set_solver|done]| |done].
  intros [] s' HJ'. apply IH; [|done]. intros j s2 ?. apply Hb. set_solver.
Qed.

(** What [wp] says of a run that is known to have returned. *)
Lemma wp_ok {A} (m : M S E A) Q X s a s' : wp m Q X s -> m s = (Ok a, s') -> Q a s'.
Proof. unfold wp. by intros H1 H2; rewrite H2 in H1. Qed.

Lemma wp_total {A} (m : M S E A) Q X s :
  wp m Q X s -> ~ X -> exists a s', m s = (Ok a, s') /\ Q a s'.
Proof. unfold wp. destruct (m s) as [[] ?]; naive_solver. Qed.

Lemma wp_ok_intro {A} (m : M S E A) (Q : A -> S -> Prop) X s a s' : m s = (Ok a, s') -> Q a s' -> wp m Q X s.
Proof. unfold wp. by intros ->. Qed.
End monad.

Section parts.
Context {S T E E' : Type}.

Lemma zoom_ok {A} (g : S -> T) p (m : M T E A) s r t : m (g s) = (r, t) -> zoom g p m s = (r, p t s).
Proof. unfold zoom. by intros ->. Qed.

Lemma zoom_ok_inv {A} (g : S -> T) p (m : M T E A) s a s' :
  zoom g p m s = (Ok a, s') -> exists t, m (g s) = (Ok a, t) /\ s' = p t s.
Proof. unfold zoom. destruct (m (g s)) as [r t]. intros Heq. injection Heq as -> <-. by exists t. Qed.

Lemma unwrap_ok {A} (m : M S E A) s a s' : m s = (Ok a, s') -> unwrap (E':=E') m s = (Ok a, s').
Proof. unfold unwrap, attempt, bind. by intros ->. Qed.

Lemma unwrap_err {A} (m : M S E A) s e s' : m s = (Err e, s') -> unwrap (E':=E') m s = (Panic, s').
Proof. unfold unwrap, attempt, bind. by intros ->. Qed.

Lemma ignore_ok {A} (m : M S E A) s a s' : m s = (Ok a, s') -> ignore (E':=E') m s = (Ok tt, s').
Proof. unfold ignore, attempt, bind. by intros ->. Qed.

Lemma wp_zoom {A} (g : S -> T) p (m : M T E A) Q X s :
  wp m (fun a t => Q a (p t s)) X (g s) -> wp (zoom g p m) Q X s.
Proof. unfold wp, zoom. by destruct (m (g s)) as [[] ?]. Qed.
End parts.

(** Nothing can be returned as an error: the error type of code without [Result]. *)
Abbreviation no_error := (Empty_set : Type).

#[global] Arguments wp {S E A} m Q X s : simpl never.

(** Step through a [wp] goal. *)
Ltac wp_step :=
  lazymatch goal with
  | |- wp (bind _ _) _ _ _ => apply wp_bind
  | |- wp (ret _) _ _ _ => apply wp_ret
  | |- wp panic _ _ _ => apply wp_panic
  | |- wp get_state _ _ _ => apply wp_get
  | |- wp (put_state _) _ _ _ => apply wp_put
  | |- wp (expect _) _ _ _ => apply wp_expect; [intros ? ?|intros ?]
  | |- wp (chk _ _) _ _ _ => apply wp_chk; intros ?
  end; cbn beta iota.

Lemma wrap_small w x : 0 <= x < 2 ^ w -> wrap w x = x.
Proof. apply Z.mod_small. Qed.

Lemma wrap_range w x : 0 <= w -> 0 <= wrap w x < 2 ^ w.
Proof. intros. apply Z.mod_pos_bound. lia. Qed.

(** ** Lists, slices and ranges *)

Section lists.
Context {A : Type}.
Implicit Types (l src : list A) (x : A).

Lemma len_app l l' : len (l ++ l') = len l + len l'.
Proof. unfold len. rewrite length_app. lia. Qed.

Lemma len_vec x n : 0 <= n -> len (vec x n) = n.
Proof. intros. unfold len, vec. rewrite length_replicate. lia. Qed.

Lemma len_nonneg l : 0 <= len l.
Proof. unfold len. lia. Qed.

Lemma idx_is_Some l i : 0 <= i < len l -> is_Some (idx l i).
Proof. unfold len, idx. intros. apply lookup_lt_is_Some_2. lia. Qed.

Lemma idx_None l i : len l <= i -> idx l i = None.
Proof. unfold len, idx. intros. apply lookup_ge_None_2. lia. Qed.

Lemma idx_Some_lt l i x : 0 <= i -> idx l i = Some x -> i < len l.
Proof. unfold idx, len. intros ? H%lookup_lt_Some. lia. Qed.

Lemma idx_upd_eq l i x : 0 <= i < len l -> idx (upd l i x) i = Some x.
Proof. unfold idx, upd, len. intros. apply list_lookup_insert_eq. lia. Qed.

Lemma idx_upd_ne l i j x : 0 <= i -> 0 <= j -> i <> j -> idx (upd l i x) j = idx l j.
Proof. unfold idx, upd. intros. apply list_lookup_insert_ne. lia. Qed.

Lemma len_upd l i x : len (upd l i x) = len l.
Proof. unfold len, upd. by rewrite length_insert. Qed.

Lemma upd_upd l i x y : upd (upd l i x) i y = upd l i y.
Proof. unfold upd. apply list_insert_insert_eq. Qed.

Lemma upd_comm l i j x y :
  0 <= i -> 0 <= j -> i <> j -> upd (upd l i x) j y = upd (upd l j y) i x.
Proof. unfold upd. intros. apply list_insert_insert_ne. lia. Qed.

Lemma upd_id l i x : idx l i = Some x -> upd l i x = l.
Proof. unfold upd, idx. apply list_insert_id. Qed.

Lemma idx_vec x n i : 0 <= i < n -> idx (vec x n) i = Some x.
Proof. unfold idx, vec. intros. apply lookup_replicate_2. lia. Qed.

Lemma len_splice l off src :
  0 <= off -> off + len src <= len l -> len (splice l off src) = len l.
Proof.
  unfold len, splice. intros. rewrite !length_app, length_take, length_drop. lia.
Qed.

Lemma idx_splice_in l off src i :
  0 <= off -> off + len src <= len l -> off <= i < off + len src ->
  idx (splice l off src) i = idx src (i - off).
Proof.
  unfold idx, splice, len. intros.
  rewrite lookup_app_r by (rewrite length_take; lia).
  rewrite lookup_app_l by (rewrite length_take; lia).
  f_equal. rewrite length_take. lia.
Qed.

Lemma idx_splice_out l off src i :
  0 <= off -> off + len src <= len l -> 0 <= i -> i < off \/ off + len src <= i ->
  idx (splice l off src) i = idx l i.
Proof.
  unfold idx, splice, len. intros ??? [?|?].
  - rewrite lookup_app_l by (rewrite length_take; lia).
    rewrite lookup_take_lt by lia. done.
  - rewrite lookup_app_r by (rewrite length_take; lia).
    rewrite lookup_app_r by (rewrite length_take; lia).
    rewrite lookup_drop. f_equal. rewrite length_take. lia.
Qed.

Lemma len_slice l off n : 0 <= off -> 0 <= n -> off + n <= len l -> len (slice l off n) = n.
Proof. unfold len, slice. intros. rewrite length_take, length_drop. lia. Qed.

Lemma idx_slice l off n i :
  0 <= off -> 0 <= i < n -> idx (slice l off n) i = idx l (off + i).
Proof.
  unfold idx, slice. intros. rewrite lookup_take_lt by lia. rewrite lookup_drop.
  f_equal. lia.
Qed.

(** Reading back the bytes just copied. *)
Lemma slice_splice_same l off src n :
  0 <= off -> off + len src <= len l -> n = len src ->
  slice (splice l off src) off n = src.
Proof.
  unfold slice, splice, len. intros ?? ->.
  rewrite drop_app_length' by (rewrite length_take; lia).
  rewrite Nat2Z.id. apply take_app_length.
Qed.

(** Reading bytes outside the copied range. *)
Lemma slice_splice_other l off src o n :
  0 <= off -> off + len src <= len l -> 0 <= o -> 0 <= n ->
  o + n <= off \/ off + len src <= o ->
  slice (splice l off src) o n = slice l o n.
Proof.
  intros. apply list_eq. intros j.
  destruct (decide (Z.of_nat j < n)).
  - pose proof (idx_slice (splice l off src) o n (Z.of_nat j)) as H4.
    pose proof (idx_slice l o n (Z.of_nat j)) as H5.
    unfold idx in H4, H5. rewrite Nat2Z.id in H4, H5.
    rewrite H4, H5 by lia.
    apply (idx_splice_out l off src (o + Z.of_nat j)); lia.
  - unfold slice. rewrite !lookup_take_ge by lia. done.
Qed.

Lemma slice_upd_other l i x o n :
  0 <= i -> 0 <= o -> 0 <= n -> i < o \/ o + n <= i -> slice (upd l i x) o n = slice l o n.
Proof.
  intros Hi Ho Hn Hout. apply list_eq. intros j. unfold slice, upd.
  destruct (decide (Z.of_nat j < n)); [|by rewrite !lookup_take_ge by lia].
  rewrite !lookup_take_lt, !lookup_drop by lia. apply list_lookup_insert_ne. lia.
Qed.

Lemma slice_all l n : n = len l -> slice l 0 n = l.
Proof. unfold slice, len. intros ->. rewrite drop_0, Nat2Z.id. by rewrite take_ge. Qed.
(** Slices and splices inside one part of a concatenation. *)
Lemma slice_app_mid l l1 r o n :
  0 <= o -> 0 <= n -> o + n <= len l1 -> slice (l ++ l1 ++ r) (len l + o) n = slice l1 o n.
Proof.
  unfold slice, len. intros.
  replace (Z.to_nat (Z.of_nat (length l) + o)) with (length l + Z.to_nat o)%nat by lia.
  rewrite <- drop_drop, drop_app_length, drop_app_le by lia.
  apply take_app_le. rewrite length_drop. lia.
Qed.

Lemma splice_app_mid l l1 r o src :
  0 <= o -> o + len src <= len l1 ->
  splice (l ++ l1 ++ r) (len l + o) src = l ++ splice l1 o src ++ r.
Proof.
  unfold splice, len. intros.
  replace (Z.to_nat (Z.of_nat (length l) + o)) with (length l + Z.to_nat o)%nat by lia.
  rewrite take_app_add, take_app_le by lia.
  replace (length l + Z.to_nat o + length src)%nat with (length l + (Z.to_nat o + length src))%nat by lia.
  rewrite <- drop_drop, drop_app_length, drop_app_le by lia. by rewrite <- !app_assoc.
Qed.

Lemma slice_split l o n m :
  0 <= o -> 0 <= n -> 0 <= m -> slice l o (n + m) = slice l o n ++ slice l (o + n) m.
Proof.
  unfold slice. intros. rewrite (Z2Nat.inj_add n m), (Z2Nat.inj_add o n) by lia.
  rewrite <- drop_drop. symmetry. apply take_take_drop.
Qed.

(** Lists with the same elements. *)
Lemma idx_ext l l' : (forall i, 0 <= i -> idx l i = idx l' i) -> l = l'.
Proof.
  intros Hi. apply list_eq. intros j. specialize (Hi (Z.of_nat j) ltac:(lia)).
  unfold idx in Hi. by rewrite Nat2Z.id in Hi.
Qed.

Lemma idx_app_l l l' i : 0 <= i < len l -> idx (l ++ l') i = idx l i.
Proof. unfold idx, len. intros. apply lookup_app_l. lia. Qed.

Lemma idx_app_r l l' i : len l <= i -> idx (l ++ l') i = idx l' (i - len l).
Proof. unfold idx, len. intros. rewrite lookup_app_r by lia. f_equal. lia. Qed.

(** Two copies in a row are one copy. *)
Lemma splice_split l o s1 s2 :
  0 <= o -> o + len s1 + len s2 <= len l ->
  splice l o (s1 ++ s2) = splice (splice l o s1) (o + len s1) s2.
Proof.
  intros. pose proof (len_nonneg s1). pose proof (len_nonneg s2).
  assert (len (s1 ++ s2) = len s1 + len s2) by apply len_app.
  assert (len (splice l o s1) = len l) by (apply len_splice; lia).
  apply idx_ext. intros i Hi.
  destruct (decide (o + len s1 <= i < o + len s1 + len s2)).
  - rewrite idx_splice_in, idx_app_r, idx_splice_in by lia. f_equal. lia.
  - rewrite (idx_splice_out (splice l o s1)) by lia.
    destruct (decide (o <= i < o + len s1)).
    + by rewrite !idx_splice_in, idx_app_l by lia.
    + by rewrite !idx_splice_out by lia.
Qed.

Lemma upd_splice l i x : 0 <= i < len l -> upd l i x = splice l i [x].
Proof.
  unfold upd, splice, len. intros. rewrite insert_take_drop by lia. cbn. do 3 f_equal. lia.
Qed.

Lemma splice_prefix x m src :
  0 <= m -> len src <= m -> splice (vec x m) 0 src = src ++ vec x (m - len src).
Proof.
  intros Hm Hs. unfold splice. change (Z.to_nat 0) with 0%nat. rewrite take_0, app_nil_l. f_equal.
  unfold vec, len in *. rewrite drop_replicate. f_equal. lia.
Qed.

Lemma splice_nil l o : splice l o [] = l.
Proof. unfold splice. cbn. by rewrite Nat.add_0_r, take_drop. Qed.

Lemma slice_nil l o : slice l o 0 = [].
Proof. done. Qed.

(** Concatenation of equal blocks. *)
Lemma len_concat w (ls : list (list A)) :
  Forall (fun b => len b = w) ls -> len (concat ls) = w * len ls.
Proof.
  induction 1 as [|b ls Hb _ IH]; [cbn; unfold len; cbn; lia|]. cbn [concat].
  rewrite len_app, IH, Hb. unfold len. cbn [length]. lia.
Qed.

Lemma concat_split w (ls : list (list A)) k b :
  Forall (fun b => len b = w) ls -> 0 <= k -> idx ls k = Some b ->
  exists pre post, concat ls = pre ++ b ++ post /\ len pre = k * w /\ len b = w /\
    forall b', concat (upd ls k b') = pre ++ b' ++ post.
Proof.
  intros Hw Hk Hb. unfold idx in Hb. pose proof (lookup_lt_Some _ _ _ Hb) as Hlt.
  exists (concat (take (Z.to_nat k) ls)), (concat (drop (S (Z.to_nat k)) ls)). split_and!.
  - rewrite <- (take_drop_middle _ _ _ Hb) at 1. by rewrite concat_app.
  - rewrite (len_concat w) by by apply Forall_take. unfold len. rewrite length_take, Nat.min_l, Z2Nat.id by lia. lia.
  - exact (Forall_lookup_1 _ _ _ _ Hw Hb).
  - intros b'. unfold upd. rewrite insert_take_drop by done. by rewrite concat_app.
Qed.

Lemma slice_concat w (ls : list (list A)) k b o n :
  Forall (fun b => len b = w) ls -> 0 <= k -> idx ls k = Some b ->
  0 <= o -> 0 <= n -> o + n <= w -> slice (concat ls) (k * w + o) n = slice b o n.
Proof.
  intros Hw Hk Hb ???. destruct (concat_split w ls k b Hw Hk Hb) as (pre & post & -> & <- & ? & _).
  apply slice_app_mid; lia.
Qed.

Lemma splice_concat w (ls : list (list A)) k b o src :
  Forall (fun b => len b = w) ls -> 0 <= k -> idx ls k = Some b ->
  0 <= o -> o + len src <= w ->
  splice (concat ls) (k * w + o) src = concat (upd ls k (splice b o src)).
Proof.
  intros Hw Hk Hb ??. destruct (concat_split w ls k b Hw Hk Hb) as (pre & post & -> & <- & ? & ->).
  apply splice_app_mid; lia.
Qed.
End lists.

Create Rewrite HintDb taos.
#[export] Hint Rewrite @len_app @len_upd : taos.

Section ranges.
Lemma range_nil a b : b <= a -> range a b = [].
Proof. unfold range. intros. apply seqZ_nil. lia. Qed.

Lemma range_cons a b : a < b -> range a b = a :: range (a + 1) b.
Proof.
  unfold range. intros. rewrite seqZ_cons by lia. unfold Z.succ, Z.pred.
  by replace (b - a + -1) with (b - (a + 1)) by lia.
Qed.

Lemma range_app a i b : a <= i <= b -> range a b = range a i ++ range i b.
Proof.
  unfold range. intros. replace (b - a) with ((i - a) + (b - i)) by lia.
  rewrite seqZ_app by lia. by replace (a + (i - a)) with i by lia.
Qed.

Lemma range_split a i b : a <= i < b -> range a b = range a i ++ i :: range (i + 1) b.
Proof. intros. rewrite (range_app a i b) by lia. by rewrite (range_cons i) by lia. Qed.

Lemma range_snoc a b : a <= b -> range a (b + 1) = range a b ++ [b].
Proof.
  intros. rewrite (range_app a b) by lia. f_equal. rewrite range_cons, range_nil by lia. done.
Qed.

Lemma length_range a b : length (range a b) = Z.to_nat (b - a).
Proof. unfold range. by rewrite length_seqZ. Qed.

Lemma map_range_shift {A} (g : Z -> A) c m :
  0 <= m -> map (fun k => g (c + k)) (range 0 m) = map g (range c (c + m)).
Proof.
  intros Hm. rewrite <- (Z2Nat.id m) by done. induction (Z.to_nat m) as [|n IH].
  - by rewrite !range_nil by lia.
  - rewrite Nat2Z.inj_succ. unfold Z.succ. rewrite Z.add_assoc, !range_snoc by lia.
    by rewrite !map_app, IH.
Qed.

(** Bounded search: either some [i] in the range is the first to satisfy a
    decidable predicate, or none does. *)
Lemma first_in_range (P : Z -> bool) a b :
  (exists i, a <= i < b /\ P i = true /\ forall j, a <= j < i -> P j = false) \/
  (forall i, a <= i < b -> P i = false).
Proof.
  destruct (decide (a <= b)) as [Hab|]; [|right; lia].
  assert (exists n, Z.of_nat n = b - a) as [n Hn] by (exists (Z.to_nat (b - a)); lia).
  revert a Hab Hn. induction n as [|n IH]; intros a Hab Hn; [right; lia|].
  destruct (P a) eqn:E; [left; exists a; split_and!; [lia|lia|done|lia]|].
  destruct (IH (a + 1)) as [(i & ? & ? & Hi)|Hn']; [lia|lia| |].
  - left. exists i. split_and!; [lia|lia|done|]. intros j ?.
    destruct (decide (j = a)) as [->|]; [done|]. apply Hi. lia.
  - right. intros i ?. destruct (decide (i = a)) as [->|]; [done|]. apply Hn'. lia.
Qed.

Lemma elem_of_range a b i : i ∈ range a b <-> a <= i < b.
Proof. unfold range. rewrite elem_of_seqZ. lia. Qed.

Lemma NoDup_range a b : NoDup (range a b).
Proof. apply NoDup_seqZ. Qed.

(** [List.find] over a range: the first index, or none. *)
Lemma find_range_first (P : Z -> bool) a b i :
  a <= i < b -> P i = true -> (forall j, a <= j < i -> P j = false) ->
  List.find P (range a b) = Some i.
Proof.
  intros Hi HP Hb. rewrite (range_split a i b) by lia.
  assert (forall l, (forall j, j ∈ l -> P j = false) ->
    List.find P (l ++ i :: range (i + 1) b) = Some i) as Happ.
  { clear Hi. induction l as [|x l IH]; cbn; intros Hl; [by rewrite HP|].
    rewrite (Hl x) by set_solver. apply IH. set_solver. }
  apply Happ. intros j ?%elem_of_range. by apply Hb.
Qed.

Lemma find_ext {A} (P Q : A -> bool) l :
  (forall x, x ∈ l -> P x = Q x) -> List.find P l = List.find Q l.
Proof.
  induction l as [|x l IH]; intros Hl; [done|]. cbn. rewrite (Hl x) by set_solver.
  case_test; [done|]. apply IH. set_solver.
Qed.

Lemma forallb_range (P : Z -> bool) a b :
  forallb P (range a b) = true <-> forall j, a <= j < b -> P j = true.
Proof.
  rewrite forallb_forall. split; intros HP j Hj; apply HP.
  - by apply list_elem_of_In, elem_of_range.
  - by apply elem_of_range, list_elem_of_In.
Qed.

Lemma find_range_none (P : Z -> bool) a b :
  (forall i, a <= i < b -> P i = false) -> List.find P (range a b) = None.
Proof.
  intros Hn. rewrite (find_ext P (fun _ => false)).
  - by induction (range a b).
  - intros i ?%elem_of_range. by apply Hn.
Qed.
End ranges.

(** ** Little-endian round trips *)

Lemma of_to_le2 x : 0 <= x < 65536 -> of_le2 (x mod 256) ((x / 256) mod 256) = x.
Proof. unfold of_le2. intros. dlia. Qed.

Lemma of_to_le4 x :
  0 <= x < 2 ^ 32 ->
  of_le4 (x mod 256) ((x / 256) mod 256) ((x / 65536) mod 256) ((x / 16777216) mod 256) = x.
Proof. unfold of_le4. intros. dlia. Qed.

Definition is_byte (b : Z) : Prop := 0 <= b < 256.

(** ** Bit fields *)

Lemma testbit_above b k n : 0 <= k <= n -> 0 <= b < 2 ^ k -> Z.testbit b n = false.
Proof.
  intros Hk Hb. destruct (decide (b = 0)) as [->|]; [apply Z.bits_0|].
  apply Z.bits_above_log2; [lia|]. apply Z.log2_lt_pow2; [lia|].
  eapply Z.lt_le_trans; [apply Hb|]. apply Z.pow_le_mono_r; lia.
Qed.

(** A shifted field over a narrower one is their sum. *)
Lemma lor_shiftl_add a b k : 0 <= k -> 0 <= b < 2 ^ k -> Z.lor (Z.shiftl a k) b = a * 2 ^ k + b.
Proof.
  intros Hk Hb. rewrite <- Z.shiftl_mul_pow2 by done.
  assert (Hdis : forall n, Z.testbit (Z.shiftl a k) n && Z.testbit b n = false).
  { intros n. destruct (decide (n < k)); [by rewrite Z.shiftl_spec_low|].
    by rewrite (testbit_above b k n), andb_false_r by lia. }
  rewrite Z.add_nocarry_lxor; apply Z.bits_inj'; intros n Hn.
  - rewrite Z.lor_spec, Z.lxor_spec. specialize (Hdis n).
    by destruct (Z.testbit _ n), (Z.testbit b n).
  - by rewrite Z.land_spec, Z.bits_0.
Qed.

(** A masked field, shifted down: the quotient, reduced to the field's width. *)
Lemma shiftr_land_field x k w :
  0 <= k -> 0 <= w -> Z.shiftr (Z.land x (Z.shiftl (Z.ones w) k)) k = (x / 2 ^ k) mod 2 ^ w.
Proof.
  intros Hk Hw. rewrite Z.shiftr_land, Z.shiftr_shiftl_l by done.
  rewrite Z.sub_diag, Z.shiftl_0_r. rewrite Z.land_ones, Z.shiftr_div_pow2 by done. done.
Qed.

(** ** Lists of numbers and booleans *)

Lemma forallb_false_inv {A} (f : A -> bool) (h : list A) :
  forallb f h = false -> exists i y, h !! i = Some y /\ f y = false.
Proof.
  induction h as [|y h IH]; cbn; [done|]. destruct (f y) eqn:E; [|by exists 0%nat, y].
  intros (i & z & Hz)%IH. by exists (S i), z.
Qed.

Lemma sum_insert {A} (f : A -> nat) (h : list A) i y y' :
  h !! i = Some y -> (f y' < f y)%nat -> (sum_list_with f (<[i := y']> h) < sum_list_with f h)%nat.
Proof.
  revert i. induction h as [|z h IH]; intros [|i] Hy Hf; try done.
  - injection Hy as ->. cbn. lia.
  - specialize (IH i Hy Hf). change (<[S i := y']> (z :: h)) with (z :: <[i := y']> h). cbn [sum_list_with]. lia.
Qed.

Lemma exists_max {A} (f : A -> nat) (h : list A) i y :
  h !! i = Some y -> exists j z, h !! j = Some z /\ forall k w, h !! k = Some w -> (f w <= f z)%nat.
Proof.
  revert i y. induction h as [|z h IH]; intros i y Hy; [done|]. destruct h as [|z' h].
  { exists 0%nat, z. split; [done|]. intros [|k] w Hw; [by simplify_eq/=|done]. }
  destruct (IH 0%nat z' eq_refl) as (j & w & Hw & Hmax). destruct (decide (f w <= f z)%nat) as [Hle|Hle].
  - exists 0%nat, z. split; [done|]. intros [|k] u Hu; [by simplify_eq/=|]. specialize (Hmax k u Hu). lia.
  - exists (S j), w. split; [done|]. intros [|k] u Hu; [simplify_eq/=; lia|]. eauto.
Qed.
