(* ===== verification/BlockDev.v ===== *)
(** * Block devices

    [FsError], the [BlockDevice] trait of [filesys/mod.rs] as a type class, what
    a device promises its client as a second class ([BlockDeviceLaws]), and
    [MemoryBlockDevice] of [filesys/block/memory.rs], which discharges it.
    The file system is verified against the class, through [dtriple]: the
    action of a computation on the abstract contents of the disk. *)

From S2P Require Import Prelude.

(** [filesys/mod.rs]: [enum FsError]. *)
Inductive FsError :=
| NotFound
| AlreadyExists
| InvalidName
| IOError
| NotSupported
| InvalidOffset
| NoSpace
| DirectoryNotEmpty.

#[export] Instance FsError_eq_dec : EqDecision FsError.
Proof. solve_decision. Defined.

(** [filesys/mod.rs]: [trait BlockDevice].  [read_block n buf] returns the new
    contents of [buf]. *)
Class BlockDevice (D : Type) := {
  read_block : Z -> list Z -> M D FsError (list Z);
  write_block : Z -> list Z -> M D FsError unit;
  block_size : D -> Z;
  total_blocks : D -> Z
}.

(** The sector size of the file system, [SECTOR_SIZE] in [fat16/constants.rs]. *)
Definition SECTOR_SIZE : Z := 512.

Definition sector_ok (b : list Z) : Prop := len b = SECTOR_SIZE.

(** What a device of 512-byte blocks promises: its contents are a list of
    sectors, a read in range returns the sector and changes nothing, a write in
    range replaces exactly that sector. *)
Class BlockDeviceLaws (D : Type) `{BlockDevice D} := {
  disk : D -> list (list Z);
  dev_ok : D -> Prop;
  dev_block_size d : dev_ok d -> block_size d = SECTOR_SIZE;
  dev_total_blocks d : dev_ok d -> total_blocks d = len (disk d);
  dev_sectors d : dev_ok d -> Forall sector_ok (disk d);
  dev_read d n buf b :
    dev_ok d -> 0 <= n -> len buf = SECTOR_SIZE -> idx (disk d) n = Some b ->
    exists d', read_block n buf d = (Ok b, d') /\ dev_ok d' /\ disk d' = disk d;
  dev_write d n buf :
    dev_ok d -> 0 <= n < len (disk d) -> len buf = SECTOR_SIZE ->
    exists d', write_block n buf d = (Ok tt, d') /\ dev_ok d' /\ disk d' = upd (disk d) n buf
}.

(** ** The in-memory block device *)

Module MemoryBlockDevice.

(** [struct MemoryBlockDevice]. *)
Record MemoryBlockDevice := mk {
  blocks : list (list Z);
  mem_block_size : Z
}.

(** [MemoryBlockDevice::new]. *)
Definition new (total_blocks block_size : Z) : MemoryBlockDevice :=
  {| blocks := map (fun _ => vec 0 block_size) (range 0 total_blocks);
     mem_block_size := block_size |}.

(** [validate_block]. *)
Definition validate_block (block_num : Z) : M MemoryBlockDevice FsError unit :=
  let! self := get_state in
  if len (blocks self) <=? block_num then err IOError else ret tt.

(** [validate_buffer]. *)
Definition validate_buffer (buf : list Z) : M MemoryBlockDevice FsError unit :=
  let! self := get_state in
  if negb (len buf =? mem_block_size self) then err IOError else ret tt.

(** [copy_from_slice] into a slice of length [n] panics unless the lengths agree. *)
Definition copy_from_slice {S} (n : Z) (src : list Z) : M S FsError (list Z) :=
  rassert (n =? len src) ;! ret src.

(** [BlockDevice::read_block] for [MemoryBlockDevice]. *)
Definition mem_read_block (block_num : Z) (buf : list Z) : M MemoryBlockDevice FsError (list Z) :=
  validate_block block_num ;!
  validate_buffer buf ;!
  let! self := get_state in
  let! blk := expect (idx (blocks self) block_num) in
  copy_from_slice (len buf) blk.

(** [BlockDevice::write_block] for [MemoryBlockDevice]. *)
Definition mem_write_block (block_num : Z) (buf : list Z) : M MemoryBlockDevice FsError unit :=
  validate_block block_num ;!
  validate_buffer buf ;!
  let! self := get_state in
  let! blk := expect (idx (blocks self) block_num) in
  let! blk' := copy_from_slice (len blk) buf in
  put_state {| blocks := upd (blocks self) block_num blk';
               mem_block_size := mem_block_size self |}.

(** [BlockDevice::block_size] and [BlockDevice::total_blocks]. *)
Definition mem_total_blocks (self : MemoryBlockDevice) : Z := len (blocks self).

#[global] Instance MemoryBlockDevice_BlockDevice : BlockDevice MemoryBlockDevice := {
  read_block := mem_read_block;
  write_block := mem_write_block;
  block_size := mem_block_size;
  total_blocks := mem_total_blocks
}.

(** Every block has the device's block size: established by [new], kept by
    every operation. *)
Definition wf (d : MemoryBlockDevice) : Prop :=
  Forall (fun b => len b = mem_block_size d) (blocks d).

Lemma new_wf n bs : 0 <= bs -> wf (new n bs).
Proof.
  intros. apply Forall_forall. intros b. cbn. rewrite list_elem_of_In, in_map_iff.
  intros (i & <- & _). by apply len_vec.
Qed.

Lemma mem_read_spec d n buf b :
  wf d -> len buf = mem_block_size d -> 0 <= n -> idx (blocks d) n = Some b ->
  mem_read_block n buf d = (Ok b, d).
Proof.
  intros Hwf Hbuf Hn Hb. pose proof (idx_Some_lt _ _ _ Hn Hb).
  assert (len b = mem_block_size d) by (eapply (Forall_lookup_1 _ _ _ _ Hwf); exact Hb).
  unfold mem_read_block, bind, validate_block, validate_buffer, get_state, bind.
  replace (_ <=? _) with false by lia. cbn.
  replace (negb _) with false by lia. cbn. rewrite Hb. cbn.
  unfold copy_from_slice, bind, rassert. by replace (_ =? _) with true by lia.
Qed.

Lemma mem_write_spec d n buf :
  wf d -> len buf = mem_block_size d -> 0 <= n < len (blocks d) ->
  mem_write_block n buf d =
    (Ok tt, {| blocks := upd (blocks d) n buf; mem_block_size := mem_block_size d |}).
Proof.
  intros Hwf Hbuf Hn. destruct (idx_is_Some (blocks d) n Hn) as [b Hb].
  assert (len b = mem_block_size d) by (eapply (Forall_lookup_1 _ _ _ _ Hwf); exact Hb).
  unfold mem_write_block, bind, validate_block, validate_buffer, get_state, bind.
  replace (_ <=? _) with false by lia. cbn.
  replace (negb _) with false by lia. cbn. rewrite Hb. cbn.
  unfold copy_from_slice, bind, rassert. by replace (_ =? _) with true by lia.
Qed.

Lemma write_wf d n buf :
  wf d -> len buf = mem_block_size d ->
  wf {| blocks := upd (blocks d) n buf; mem_block_size := mem_block_size d |}.
Proof. intros. by apply Forall_insert. Qed.

#[global] Instance MemoryBlockDevice_Laws : BlockDeviceLaws MemoryBlockDevice.
Proof.
  refine {| disk := blocks; dev_ok := fun d => mem_block_size d = SECTOR_SIZE /\ wf d |}.
  - by intros d [? _].
  - done.
  - intros d [Hs Hw]. unfold wf in Hw. by rewrite Hs in Hw.
  - intros d n buf b [Hs Hw] ???. exists d. split; [|done].
    apply mem_read_spec; [done|lia|done|done].
  - intros d n buf [Hs Hw] ??. eexists. split; [apply mem_write_spec; [done|lia|done]|].
    split; [|done]. split; [done|]. apply write_wf; [done|lia].
Defined.

(** A block written and read back is the buffer that was written, and every
    other block is unchanged (for any block size). *)
Theorem write_then_read (d : MemoryBlockDevice) (n m : Z) (buf rbuf : list Z) :
  wf d -> len buf = block_size d -> len rbuf = block_size d ->
  0 <= n < total_blocks d -> 0 <= m < total_blocks d ->
  exists d', write_block n buf d = (Ok tt, d') /\ wf d' /\
    read_block m rbuf d' =
      (if decide (n = m) then (Ok buf, d') else (fst (read_block m rbuf d), d')).
Proof.
  intros Hwf Hb Hr Hn Hm. eexists. split; [by apply mem_write_spec|].
  assert (Hwf' := write_wf d n buf Hwf Hb). split; [done|].
  destruct (idx_is_Some (blocks d) m Hm) as [b Hidx].
  case_decide as Heq.
  - subst m. apply mem_read_spec; [done|done|lia|]. by apply idx_upd_eq.
  - cbn [read_block MemoryBlockDevice_BlockDevice].
    rewrite (mem_read_spec d m rbuf b) by (done || lia). cbn [fst].
    apply mem_read_spec; [done|done|lia|]. cbn. rewrite idx_upd_ne by lia. done.
Qed.

(** Error paths: an out-of-range block or a buffer of the wrong size is an
    [IOError] and leaves the device unchanged. *)
Theorem bad_access_io_error (d : MemoryBlockDevice) (n : Z) (buf : list Z) :
  total_blocks d <= n \/ len buf <> block_size d ->
  read_block n buf d = (Err IOError, d) /\ write_block n buf d = (Err IOError, d).
Proof.
  cbn. unfold mem_read_block, mem_write_block, mem_total_blocks.
  unfold bind, validate_block, validate_buffer, get_state, bind.
  intros H. destruct (len (blocks d) <=? n) eqn:E; [done|]. cbn.
  destruct H; [lia|]. by replace (negb _) with true by lia.
Qed.

End MemoryBlockDevice.

(** ** The action of a computation on the abstract disk *)

Section dtriple.
Context {D : Type} `{BlockDeviceLaws D}.
Implicit Types (K : list (list Z)).

(** From any device whose contents are [K], [m] gives [r] and leaves [K']. *)
Definition dtriple {A} (K : list (list Z)) (m : M D FsError A)
    (r : outcome FsError A) (K' : list (list Z)) : Prop :=
  forall d, dev_ok d -> disk d = K ->
    exists d', m d = (r, d') /\ dev_ok d' /\ disk d' = K'.

Lemma dtriple_ret {A} K (a : A) : dtriple K (ret a) (Ok a) K.
Proof. intros d ??. by exists d. Qed.

Lemma dtriple_err {A} K e : dtriple (A:=A) K (err e) (Err e) K.
Proof. intros d ??. by exists d. Qed.

Lemma dtriple_panic {A} K : dtriple (A:=A) K panic Panic K.
Proof. intros d ??. by exists d. Qed.

Lemma dtriple_bind {A B} K K1 K2 (m : M D FsError A) (k : A -> M D FsError B) a r :
  dtriple K m (Ok a) K1 -> dtriple K1 (k a) r K2 -> dtriple K (bind m k) r K2.
Proof.
  intros Hm Hk d Hd HK. destruct (Hm d Hd HK) as (d1 & E1 & ? & ?).
  destruct (Hk d1) as (d2 & E2 & ? & ?); [done..|]. exists d2.
  by rewrite (bind_ok _ _ _ _ _ E1).
Qed.

Lemma dtriple_bind_err {A B} K K1 (m : M D FsError A) (k : A -> M D FsError B) e :
  dtriple K m (Err e) K1 -> dtriple K (bind m k) (Err e) K1.
Proof.
  intros Hm d Hd HK. destruct (Hm d Hd HK) as (d1 & E1 & ? & ?). exists d1.
  by rewrite (bind_err _ _ _ _ _ E1).
Qed.

Lemma dtriple_bind_panic {A B} K K1 (m : M D FsError A) (k : A -> M D FsError B) :
  dtriple K m Panic K1 -> dtriple K (bind m k) Panic K1.
Proof.
  intros Hm d Hd HK. destruct (Hm d Hd HK) as (d1 & E1 & ? & ?). exists d1.
  by rewrite (bind_panic _ _ _ _ E1).
Qed.

Lemma dtriple_chk K w x : 0 <= x < 2 ^ w -> dtriple K (chk w x) (Ok x) K.
Proof. intros ? d ??. exists d. by rewrite chk_ok. Qed.

Lemma dtriple_chk_panic K w x : ~ (0 <= x < 2 ^ w) -> dtriple K (chk w x) Panic K.
Proof. intros ? d ??. exists d. by rewrite chk_panic. Qed.

Lemma dtriple_div K a b : b <> 0 -> dtriple K (div_chk a b) (Ok (a / b)) K.
Proof. intros ? d ??. exists d. unfold div_chk. by replace (b =? 0) with false by lia. Qed.

Lemma dtriple_expect {A} K (o : option A) a : o = Some a -> dtriple K (expect o) (Ok a) K.
Proof. intros -> d ??. by exists d. Qed.

Lemma dtriple_read K n buf b :
  0 <= n -> len buf = SECTOR_SIZE -> idx K n = Some b -> dtriple K (read_block n buf) (Ok b) K.
Proof. intros ??? d Hd <-. by apply dev_read. Qed.

Lemma dtriple_write K n buf :
  0 <= n < len K -> len buf = SECTOR_SIZE ->
  dtriple K (write_block n buf) (Ok tt) (upd K n buf).
Proof. intros ?? d Hd <-. by apply dev_write. Qed.

Lemma dtriple_get_state {A} K (k : D -> M D FsError A) r K' :
  (forall d, dev_ok d -> disk d = K -> dtriple K (k d) r K') ->
  dtriple K (bind get_state k) r K'.
Proof. intros Hk d Hd HK. unfold bind, get_state. by apply Hk. Qed.

Lemma dtriple_assert {A} K (b : bool) (k : M D FsError A) r K' :
  b = true -> dtriple K k r K' -> dtriple K (bind (rassert b) (fun _ => k)) r K'.
Proof. intros -> Hk. eapply dtriple_bind; [apply dtriple_ret|exact Hk]. Qed.

(** The device invariant gives the shape of the sectors. *)
Lemma dtriple_sectors {A} K (m : M D FsError A) r K' :
  (Forall sector_ok K -> dtriple K m r K') -> dtriple K m r K'.
Proof. intros Hm d Hd HK. apply Hm; [|done|done]. rewrite <- HK. by apply dev_sectors. Qed.

Lemma dtriple_for_do_nil {I} K (body : I -> M D FsError unit) :
  dtriple K (for_do [] body) (Ok tt) K.
Proof. apply dtriple_ret. Qed.

Lemma dtriple_for_do_cons {I} K K1 K2 i xs (body : I -> M D FsError unit) r :
  dtriple K (body i) (Ok tt) K1 -> dtriple K1 (for_do xs body) r K2 ->
  dtriple K (for_do (i :: xs) body) r K2.
Proof. intros. eapply dtriple_bind; eassumption. Qed.

Lemma dtriple_for_each_none {I R} K K1 K2 i xs (body : I -> M D FsError (option R)) r :
  dtriple K (body i) (Ok None) K1 -> dtriple K1 (for_each xs body) r K2 ->
  dtriple K (for_each (i :: xs) body) r K2.
Proof. intros. eapply dtriple_bind; eassumption. Qed.

Lemma dtriple_for_each_some {I R} K K1 i xs (body : I -> M D FsError (option R)) v :
  dtriple K (body i) (Ok (Some v)) K1 -> dtriple K (for_each (i :: xs) body) (Ok (Some v)) K1.
Proof. intros. eapply dtriple_bind; [eassumption|]. apply dtriple_ret. Qed.

(** A search loop that finds nothing, and one that stops at [i]. *)
Lemma dtriple_for_each_all {I R} K xs (body : I -> M D FsError (option R)) :
  (forall i, i ∈ xs -> dtriple K (body i) (Ok None) K) ->
  dtriple K (for_each xs body) (Ok None) K.
Proof.
  induction xs as [|i xs IH]; intros Hb; [apply dtriple_ret|].
  eapply dtriple_for_each_none; [apply Hb; set_solver|]. apply IH. set_solver.
Qed.

Lemma dtriple_for_each_at {I R} K K1 pre i post (body : I -> M D FsError (option R)) v :
  (forall j, j ∈ pre -> dtriple K (body j) (Ok None) K) ->
  dtriple K (body i) (Ok (Some v)) K1 ->
  dtriple K (for_each (pre ++ i :: post) body) (Ok (Some v)) K1.
Proof.
  intros Hb Hi. induction pre as [|j pre IH]; cbn [app]; [by apply dtriple_for_each_some|].
  eapply dtriple_for_each_none; [apply Hb; set_solver|]. apply IH. set_solver.
Qed.

(** A loop that threads local variables without changing the disk. *)
Lemma dtriple_for_fold {I A} K xs (body : A -> I -> M D FsError A) (f : A -> I -> A) a :
  (forall a i, i ∈ xs -> dtriple K (body a i) (Ok (f a i)) K) ->
  dtriple K (for_fold xs a body) (Ok (fold_left f xs a)) K.
Proof.
  revert a. induction xs as [|i xs IH]; intros a Hb; [apply dtriple_ret|].
  eapply dtriple_bind; [apply Hb; set_solver|]. apply IH. set_solver.
Qed.

(** Two triples of one computation from one disk agree (given a device that
    has that disk). *)
Lemma dtriple_det {A} K (m : M D FsError A) r1 K1 r2 K2 d :
  dev_ok d -> disk d = K -> dtriple K m r1 K1 -> dtriple K m r2 K2 -> r1 = r2 /\ K1 = K2.
Proof.
  intros Hd HK H1 H2. destruct (H1 d Hd HK) as (?&?&?&?), (H2 d Hd HK) as (?&?&?&?).
  split; congruence.
Qed.
End dtriple.

#[export] Hint Resolve dtriple_ret dtriple_err dtriple_panic : taos.
