(* ===== verification/FatLayout.v ===== *)
(** * FAT16 on-disk structures

    The constants of [fat16/constants.rs], [FatEntry] ([fat_entry.rs]),
    [BootSector] ([boot_sector.rs]) and [DirEntry83] ([dir_entry.rs]), with the
    byte layout their [repr(C, packed)] gives them on a little-endian target,
    and the round trips between structure and bytes.  Paths and names are byte
    lists (the UTF-8 bytes of a [str]). *)

From S2P Require Import Prelude BlockDev.

(** ** Constants ([fat16/constants.rs]) *)

Definition FAT_ENTRY_SIZE : Z := 2.
Definition ROOT_DIR_ENTRIES : Z := 512.
Definition MAX_FILENAME_LENGTH : Z := 8.
Definition MAX_EXTENSION_LENGTH : Z := 3.
Definition ATTR_READ_ONLY : Z := 0x01.
Definition ATTR_DIRECTORY : Z := 0x10.
Definition ATTR_ARCHIVE : Z := 0x20.
Definition DELETED_ENTRY_MARKER : Z := 0xE5.

(** [core::mem::size_of::<DirEntry83>()] and [::<BootSector>()]. *)
Definition DIR_ENTRY_SIZE : Z := 32.
Definition BOOT_SECTOR_SIZE : Z := 62.
Definition entries_per_sector : Z := SECTOR_SIZE / DIR_ENTRY_SIZE.

(** ** FAT entries ([fat_entry.rs]) *)

Record FatEntry := mkFatEntry { cluster : Z }.

Definition is_end_of_chain (self : FatEntry) : bool := 0xFFF8 <=? cluster self.
Definition is_free_cluster (self : FatEntry) : bool := cluster self =? 0.

(** ** UTF-8 ([core::str::from_utf8]) *)

Definition within (lo hi x : Z) : bool := (lo <=? x) && (x <=? hi).
Definition utf8_cont (b : Z) : bool := within 0x80 0xBF b.

(** The well-formed byte sequences of the Unicode standard. *)
Fixpoint utf8_valid (l : list Z) : bool :=
  match l with
  | [] => true
  | b0 :: r0 =>
      if within 0 0x7F b0 then utf8_valid r0 else
      match r0 with
      | [] => false
      | b1 :: r1 =>
          if within 0xC2 0xDF b0 then utf8_cont b1 && utf8_valid r1 else
          match r1 with
          | [] => false
          | b2 :: r2 =>
              if ((b0 =? 0xE0) && within 0xA0 0xBF b1)
                 || (within 0xE1 0xEC b0 && utf8_cont b1)
                 || ((b0 =? 0xED) && within 0x80 0x9F b1)
                 || (within 0xEE 0xEF b0 && utf8_cont b1)
              then utf8_cont b2 && utf8_valid r2 else
              match r2 with
              | [] => false
              | b3 :: r3 =>
                  (((b0 =? 0xF0) && within 0x90 0xBF b1)
                   || (within 0xF1 0xF3 b0 && utf8_cont b1)
                   || ((b0 =? 0xF4) && within 0x80 0x8F b1))
                  && utf8_cont b2 && utf8_cont b3 && utf8_valid r3
              end
          end
      end
  end.

(** [from_utf8(bytes).unwrap_or("")]. *)
Definition from_utf8_or_empty (l : list Z) : list Z := if utf8_valid l then l else [].

(** [slice.iter().position(|&x| x == c)]. *)
Fixpoint iter_position (c : Z) (l : list Z) : option Z :=
  match l with
  | [] => None
  | x :: r => if x =? c then Some 0 else option_map (Z.add 1) (iter_position c r)
  end.

(** ** Directory entries ([dir_entry.rs]) *)

(** [struct DirEntry83]. *)
Record DirEntry83 := mkDirEntry83 {
  name : list Z;
  ext : list Z;
  attributes : Z;
  reserved : list Z;
  time : Z;
  date : Z;
  start_cluster : Z;
  file_size : Z
}.

(** [entry.name[..n].copy_from_slice(&bytes[..n])] with [n = bytes.len().min(k)],
    over [k] spaces. *)
Definition pad (k : Z) (bytes : list Z) : list Z :=
  splice (vec 0x20 k) 0 (take (Z.to_nat (Z.min (len bytes) k)) bytes).

(** [DirEntry83::new_file]. *)
Definition new_file (nm ex : list Z) (start : Z) : DirEntry83 :=
  {| name := pad 8 nm;
     ext := pad 3 ex;
     attributes := ATTR_ARCHIVE;
     reserved := vec 0 10;
     time := 0;
     date := 0;
     start_cluster := start;
     file_size := 0 |}.

(** [DirEntry83::new_directory]. *)
Definition new_directory (nm : list Z) (start : Z) : DirEntry83 :=
  let entry := new_file nm [] start in
  {| name := entry.(name); ext := entry.(ext); attributes := ATTR_DIRECTORY;
     reserved := entry.(reserved); time := entry.(time); date := entry.(date);
     start_cluster := entry.(start_cluster); file_size := entry.(file_size) |}.

Definition name0 (self : DirEntry83) : Z := default 0 (idx (name self) 0).

(** [DirEntry83::is_deleted], [is_free], [is_directory]. *)
Definition is_deleted (self : DirEntry83) : bool := name0 self =? DELETED_ENTRY_MARKER.
Definition is_free (self : DirEntry83) : bool := name0 self =? 0x00.
Definition is_directory (self : DirEntry83) : bool :=
  negb (Z.land (attributes self) ATTR_DIRECTORY =? 0).

(** [DirEntry83::get_name]. *)
Definition get_name (self : DirEntry83) : list Z :=
  let name_end := default 8 (iter_position 0x20 (name self)) in
  let ext_end := default 3 (iter_position 0x20 (ext self)) in
  let nm := from_utf8_or_empty (slice (name self) 0 name_end) in
  let ex := from_utf8_or_empty (slice (ext self) 0 ext_end) in
  if 0 <? ext_end then nm ++ [0x2E] ++ ex else nm.

(** The 32 bytes of an entry in memory and back. *)
Definition dir_entry_bytes (e : DirEntry83) : list Z :=
  name e ++ ext e ++ [attributes e] ++ reserved e ++ to_le2 (time e) ++ to_le2 (date e)
    ++ to_le2 (start_cluster e) ++ to_le4 (file_size e).

Definition byte_at (b : list Z) (i : Z) : Z := default 0 (idx b i).
Definition le2_at (b : list Z) (i : Z) : Z := of_le2 (byte_at b i) (byte_at b (i + 1)).
Definition le4_at (b : list Z) (i : Z) : Z :=
  of_le4 (byte_at b i) (byte_at b (i + 1)) (byte_at b (i + 2)) (byte_at b (i + 3)).

Definition dir_entry_of (b : list Z) : DirEntry83 :=
  {| name := slice b 0 8;
     ext := slice b 8 3;
     attributes := byte_at b 11;
     reserved := slice b 12 10;
     time := le2_at b 22;
     date := le2_at b 24;
     start_cluster := le2_at b 26;
     file_size := le4_at b 28 |}.

(** The [i]-th entry of a sector buffer,
    [*(buf.as_ptr().add(i * size_of::<DirEntry83>()) as *const DirEntry83)],
    and the store through the same pointer. *)
Definition entry_at (buf : list Z) (i : Z) : DirEntry83 :=
  dir_entry_of (slice buf (i * DIR_ENTRY_SIZE) DIR_ENTRY_SIZE).
Definition put_entry (buf : list Z) (i : Z) (e : DirEntry83) : list Z :=
  splice buf (i * DIR_ENTRY_SIZE) (dir_entry_bytes e).

(** ** Boot sector ([boot_sector.rs]) *)

(** [struct BootSector]. *)
Record BootSector := mkBootSector {
  jump_boot : list Z;
  oem_name : list Z;
  bytes_per_sector : Z;
  sectors_per_cluster : Z;
  reserved_sectors : Z;
  fat_count : Z;
  root_dir_entries : Z;
  total_sectors_16 : Z;
  media_type : Z;
  sectors_per_fat : Z;
  sectors_per_track : Z;
  head_count : Z;
  hidden_sectors : Z;
  total_sectors_32 : Z;
  drive_number : Z;
  reserved1 : Z;
  boot_signature : Z;
  volume_id : Z;
  volume_label : list Z;
  fs_type : list Z
}.

(** The bytes of the structure: [from_raw_parts(&boot_sector as *const u8, ..)]. *)
Definition boot_sector_bytes (s : BootSector) : list Z :=
  jump_boot s ++ oem_name s ++ to_le2 (bytes_per_sector s) ++ [sectors_per_cluster s]
    ++ to_le2 (reserved_sectors s) ++ [fat_count s] ++ to_le2 (root_dir_entries s)
    ++ to_le2 (total_sectors_16 s) ++ [media_type s] ++ to_le2 (sectors_per_fat s)
    ++ to_le2 (sectors_per_track s) ++ to_le2 (head_count s) ++ to_le4 (hidden_sectors s)
    ++ to_le4 (total_sectors_32 s) ++ [drive_number s] ++ [reserved1 s] ++ [boot_signature s]
    ++ to_le4 (volume_id s) ++ volume_label s ++ fs_type s.

(** The structure at the start of a buffer: [ptr::read(data.as_ptr() as *const BootSector)]. *)
Definition boot_sector_of (b : list Z) : BootSector :=
  {| jump_boot := slice b 0 3;
     oem_name := slice b 3 8;
     bytes_per_sector := le2_at b 11;
     sectors_per_cluster := byte_at b 13;
     reserved_sectors := le2_at b 14;
     fat_count := byte_at b 16;
     root_dir_entries := le2_at b 17;
     total_sectors_16 := le2_at b 19;
     media_type := byte_at b 21;
     sectors_per_fat := le2_at b 22;
     sectors_per_track := le2_at b 24;
     head_count := le2_at b 26;
     hidden_sectors := le4_at b 28;
     total_sectors_32 := le4_at b 32;
     drive_number := byte_at b 36;
     reserved1 := byte_at b 37;
     boot_signature := byte_at b 38;
     volume_id := le4_at b 39;
     volume_label := slice b 43 11;
     fs_type := slice b 54 8 |}.

(** ** Well-formed structures: every field in its type *)

Record dir_entry_wf (e : DirEntry83) : Prop := {
  wf_name : length (name e) = 8%nat;
  wf_ext : length (ext e) = 3%nat;
  wf_reserved : length (reserved e) = 10%nat;
  wf_time : 0 <= time e < 65536;
  wf_date : 0 <= date e < 65536;
  wf_start : 0 <= start_cluster e < 65536;
  wf_size : 0 <= file_size e < 2 ^ 32
}.

Record boot_sector_wf (s : BootSector) : Prop := {
  wf_jump : length (jump_boot s) = 3%nat;
  wf_oem : length (oem_name s) = 8%nat;
  wf_label : length (volume_label s) = 11%nat;
  wf_type : length (fs_type s) = 8%nat;
  wf_bps : 0 <= bytes_per_sector s < 65536;
  wf_res : 0 <= reserved_sectors s < 65536;
  wf_root : 0 <= root_dir_entries s < 65536;
  wf_tot16 : 0 <= total_sectors_16 s < 65536;
  wf_spf : 0 <= sectors_per_fat s < 65536;
  wf_spt : 0 <= sectors_per_track s < 65536;
  wf_heads : 0 <= head_count s < 65536;
  wf_hidden : 0 <= hidden_sectors s < 2 ^ 32;
  wf_tot32 : 0 <= total_sectors_32 s < 2 ^ 32;
  wf_vol : 0 <= volume_id s < 2 ^ 32
}.

(** Expose a list of known length as its elements. *)
Ltac explode l H :=
  match type of H with
  | length l = 0%nat => apply nil_length_inv in H; subst l
  | length l = S ?n =>
      let x := fresh "x" in let r := fresh "r" in
      destruct l as [|x r]; [discriminate H|]; cbn in H; apply Nat.succ_inj in H; explode r H
  end.

Theorem dir_entry_of_bytes e : dir_entry_wf e -> dir_entry_of (dir_entry_bytes e) = e.
Proof.
  destruct e as [nm ex at_ re ti da sc fs]. intros []. cbn in *.
  explode nm wf_name0. explode ex wf_ext0. explode re wf_reserved0.
  lazy -[of_le2 of_le4 Z.modulo Z.div]. by rewrite !of_to_le2, of_to_le4 by lia.
Qed.

Theorem boot_sector_of_bytes s tail :
  boot_sector_wf s -> boot_sector_of (boot_sector_bytes s ++ tail) = s.
Proof.
  destruct s as [jb oem bps spc res fc rde t16 mt spf spt hc hs t32 dn r1 bsig vid vl ft].
  intros []. cbn in *.
  explode jb wf_jump0. explode oem wf_oem0. explode vl wf_label0. explode ft wf_type0.
  lazy -[of_le2 of_le4 Z.modulo Z.div]. by rewrite !of_to_le2, !of_to_le4 by lia.
Qed.

Lemma len_dir_entry_bytes e : dir_entry_wf e -> len (dir_entry_bytes e) = DIR_ENTRY_SIZE.
Proof.
  intros []. unfold dir_entry_bytes, len. rewrite !length_app.
  rewrite wf_name0, wf_ext0, wf_reserved0. done.
Qed.

Lemma len_boot_sector_bytes s : boot_sector_wf s -> len (boot_sector_bytes s) = BOOT_SECTOR_SIZE.
Proof.
  intros []. unfold boot_sector_bytes, len. rewrite !length_app.
  rewrite wf_jump0, wf_oem0, wf_label0, wf_type0. done.
Qed.

(** ** Names *)

(** A name part that fits its field: at most [k] bytes, valid UTF-8, no space. *)
Definition part_ok (k : Z) (l : list Z) : Prop :=
  len l <= k /\ utf8_valid l = true /\ 0x20 ∉ l.

Lemma iter_position_None c l : c ∉ l -> iter_position c l = None.
Proof.
  induction l as [|x l IH]; [done|]. cbn. intros [??]%not_elem_of_cons.
  replace (x =? c) with false by lia. by rewrite IH.
Qed.

Lemma iter_position_app c l r : c ∉ l -> iter_position c (l ++ c :: r) = Some (len l).
Proof.
  unfold len. induction l as [|x l IH]; cbn; [by rewrite Z.eqb_refl|].
  intros [??]%not_elem_of_cons. replace (x =? c) with false by lia.
  rewrite IH by done. cbn. f_equal. lia.
Qed.

Lemma pad_small k l : len l <= k -> pad k l = l ++ vec 0x20 (k - len l).
Proof.
  intros Hk. pose proof (len_nonneg l). unfold pad. rewrite Z.min_l by lia.
  rewrite (take_ge l) by (unfold len; lia). apply splice_prefix; lia.
Qed.

Lemma pad_length k l : 0 <= k -> length (pad k l) = Z.to_nat k.
Proof.
  intros. pose proof (len_nonneg l). unfold pad.
  set (src := take _ l). assert (len src <= k).
  { unfold src, len in *. rewrite length_take. lia. }
  apply Nat2Z.inj. rewrite Z2Nat.id by done. change (len (splice (vec 0x20 k) 0 src) = k).
  rewrite len_splice, ?len_vec by (rewrite ?len_vec; lia). done.
Qed.

(** What [get_name] reads of a padded field. *)
Lemma pad_read k l :
  part_ok k l ->
  default k (iter_position 0x20 (pad k l)) = len l /\ slice (pad k l) 0 (len l) = l.
Proof.
  intros (Hk & _ & Hsp). rewrite pad_small by done. split.
  - destruct (decide (len l = k)) as [He|He].
    + rewrite He, Z.sub_diag. change (vec 0x20 0) with (@nil Z). rewrite app_nil_r.
      by rewrite iter_position_None.
    + unfold vec. replace (Z.to_nat (k - len l)) with (S (Z.to_nat (k - len l - 1))) by lia.
      cbn [replicate]. by rewrite iter_position_app.
  - unfold slice, len. rewrite Nat2Z.id. cbn. apply take_app_length.
Qed.

(** [get_name] of a new entry is the name it was made from. *)
Lemma get_name_new_file nm ex c :
  part_ok 8 nm -> part_ok 3 ex ->
  get_name (new_file nm ex c) = match ex with [] => nm | _ => nm ++ [0x2E] ++ ex end.
Proof.
  intros Hn He. unfold get_name, new_file. cbn [name ext].
  destruct (pad_read 8 nm Hn) as [-> ->], (pad_read 3 ex He) as [-> ->].
  unfold from_utf8_or_empty. destruct Hn as (_ & -> & _), He as (_ & -> & _).
  destruct ex as [|x ex]; [done|].
  by replace (0 <? len (x :: ex)) with true by (unfold len; cbn [length]; lia).
Qed.

Lemma get_name_new_directory nm c :
  part_ok 8 nm -> get_name (new_directory nm c) = nm.
Proof.
  intros Hn. change (get_name (new_directory nm c)) with (get_name (new_file nm [] c)).
  rewrite get_name_new_file; [done..|]. by split_and!; [unfold len; cbn; lia|..|set_solver].
Qed.

Lemma new_file_wf nm ex c : 0 <= c < 65536 -> dir_entry_wf (new_file nm ex c).
Proof. intros. split; cbn; rewrite ?pad_length; (done || lia). Qed.

Lemma new_directory_wf nm c : 0 <= c < 65536 -> dir_entry_wf (new_directory nm c).
Proof. intros. split; cbn; rewrite ?pad_length; (done || lia). Qed.

Lemma is_directory_new_file nm ex c : is_directory (new_file nm ex c) = false.
Proof. done. Qed.

Lemma is_directory_new_directory nm c : is_directory (new_directory nm c) = true.
Proof. done. Qed.

#[export] Hint Resolve new_file_wf new_directory_wf : taos.

(** ** Entries of a sector *)

Lemma entry_at_put_same buf i e :
  sector_ok buf -> 0 <= i < entries_per_sector -> dir_entry_wf e ->
  entry_at (put_entry buf i e) i = e.
Proof.
  unfold sector_ok, entries_per_sector, SECTOR_SIZE, DIR_ENTRY_SIZE. intros Hb Hi He.
  unfold entry_at, put_entry. pose proof (len_dir_entry_bytes e He) as Hl.
  unfold DIR_ENTRY_SIZE in *.
  rewrite slice_splice_same by lia. by apply dir_entry_of_bytes.
Qed.

Lemma entry_at_put_other buf i j e :
  sector_ok buf -> 0 <= i < entries_per_sector -> 0 <= j -> i <> j -> dir_entry_wf e ->
  entry_at (put_entry buf i e) j = entry_at buf j.
Proof.
  unfold sector_ok, entries_per_sector, SECTOR_SIZE, DIR_ENTRY_SIZE. intros Hb Hi Hj Hne He.
  unfold entry_at, put_entry. pose proof (len_dir_entry_bytes e He) as Hl.
  unfold DIR_ENTRY_SIZE in *. change (512 / 32) with 16 in Hi.
  rewrite slice_splice_other by lia. done.
Qed.

Lemma put_entry_sector buf i e :
  sector_ok buf -> 0 <= i < entries_per_sector -> dir_entry_wf e -> sector_ok (put_entry buf i e).
Proof.
  unfold sector_ok, entries_per_sector, SECTOR_SIZE, DIR_ENTRY_SIZE, put_entry. intros Hb Hi He.
  pose proof (len_dir_entry_bytes e He). unfold DIR_ENTRY_SIZE in *. change (512 / 32) with 16 in Hi.
  rewrite len_splice by lia. done.
Qed.
