(* ===== verification/FatSpec.v ===== *)
(** * The file allocation table as a function of the disk

    The abstract view the code of [fat16/] is measured against: [fat_get] reads
    a 16-bit entry out of the sectors of one copy of the table, [fat_put]
    replaces one, and their laws; [fill] is the effect of a loop that writes one
    block over a run of sectors; [in_dir] is the scanning order of a directory. *)

From S2P Require Import Prelude BlockDev FatLayout.

(** The sector, relative to the start of the table, and the offset in it of
    the entry of a cluster. *)
Definition fat_sector (c : Z) : Z := c * FAT_ENTRY_SIZE / SECTOR_SIZE.
Definition fat_offset (c : Z) : Z := (c * FAT_ENTRY_SIZE) mod SECTOR_SIZE.

Definition sector_at (K : list (list Z)) (n : Z) : list Z := default [] (idx K n).

(** Entry [c] of the table that starts at sector [s]. *)
Definition fat_get (s : Z) (K : list (list Z)) (c : Z) : Z :=
  le2_at (sector_at K (s + fat_sector c)) (fat_offset c).

(** A sector with one entry replaced, and the table with one entry replaced. *)
Definition fat_patch (b : list Z) (c v : Z) : list Z :=
  upd (upd b (fat_offset c) (v mod 256)) (fat_offset c + 1) ((v / 256) mod 256).
Definition fat_put (s : Z) (K : list (list Z)) (c v : Z) : list (list Z) :=
  upd K (s + fat_sector c) (fat_patch (sector_at K (s + fat_sector c)) c v).

(** The two copies of a table of [spf] sectors hold the same bytes. *)
Definition mirrored (s spf : Z) (K : list (list Z)) : Prop :=
  forall i, 0 <= i < spf -> idx K (s + i) = idx K (s + spf + i).

(** All [spf] sectors of the table lie on the disk. *)
Definition fat_fits (s spf : Z) (K : list (list Z)) : Prop := 0 <= s /\ s + spf <= len K.

Lemma fat_sector_range c spf : 0 <= c < 256 * spf -> 0 <= fat_sector c < spf.
Proof. unfold fat_sector, FAT_ENTRY_SIZE, SECTOR_SIZE. dlia. Qed.

Lemma fat_offset_range c : 0 <= fat_offset c <= 510.
Proof. unfold fat_offset, FAT_ENTRY_SIZE, SECTOR_SIZE. dlia. Qed.

(** Entries of distinct clusters do not overlap. *)
Lemma fat_offset_disjoint c c' :
  0 <= c -> 0 <= c' -> c <> c' -> fat_sector c = fat_sector c' ->
  fat_offset c + 2 <= fat_offset c' \/ fat_offset c' + 2 <= fat_offset c.
Proof. unfold fat_sector, fat_offset, FAT_ENTRY_SIZE, SECTOR_SIZE. dlia. Qed.

Section sectors.
Context (K : list (list Z)) (HK : Forall sector_ok K).

Lemma sector_at_idx n : 0 <= n < len K -> idx K n = Some (sector_at K n).
Proof. intros Hn. unfold sector_at. by destruct (idx_is_Some K n Hn) as [b ->]. Qed.

Lemma sector_at_ok n : 0 <= n < len K -> sector_ok (sector_at K n).
Proof using HK.
  intros Hn. apply sector_at_idx in Hn. eapply (Forall_lookup_1 _ _ _ _ HK). exact Hn.
Qed.

Lemma upd_sectors n b : sector_ok b -> Forall sector_ok (upd K n b).
Proof using HK. intros. by apply Forall_insert. Qed.
End sectors.

Lemma sector_at_upd_eq K n b : 0 <= n < len K -> sector_at (upd K n b) n = b.
Proof. intros. unfold sector_at. by rewrite idx_upd_eq. Qed.

Lemma sector_at_upd_ne K n m b : 0 <= n -> 0 <= m -> n <> m -> sector_at (upd K n b) m = sector_at K m.
Proof. intros. unfold sector_at. by rewrite idx_upd_ne. Qed.

Lemma fat_patch_sector b c v : sector_ok b -> sector_ok (fat_patch b c v).
Proof. unfold sector_ok, fat_patch. by rewrite !len_upd. Qed.

Lemma le2_patch_same b c v :
  sector_ok b -> 0 <= v < 65536 -> le2_at (fat_patch b c v) (fat_offset c) = v.
Proof.
  unfold sector_ok, SECTOR_SIZE. intros Hb Hv. pose proof (fat_offset_range c).
  unfold le2_at, byte_at, fat_patch.
  rewrite (idx_upd_ne _ (fat_offset c + 1)) by lia. rewrite !idx_upd_eq by (rewrite ?len_upd; lia).
  cbn. by apply of_to_le2.
Qed.

Lemma le2_patch_other b c c' v :
  0 <= c -> 0 <= c' -> c <> c' -> fat_sector c = fat_sector c' ->
  le2_at (fat_patch b c v) (fat_offset c') = le2_at b (fat_offset c').
Proof.
  intros ?? Hne Hs. pose proof (fat_offset_range c). pose proof (fat_offset_range c').
  pose proof (fat_offset_disjoint c c').
  unfold le2_at, byte_at, fat_patch. by rewrite !idx_upd_ne by lia.
Qed.

Section fat.
Context (s spf : Z) (K : list (list Z)) (HK : Forall sector_ok K) (Hfit : fat_fits s spf K).

Lemma fat_entry_range c : 0 <= c < 256 * spf -> 0 <= s + fat_sector c < len K.
Proof using Hfit. intros H%fat_sector_range. destruct Hfit. lia. Qed.

Lemma fat_get_put_same c v :
  0 <= c < 256 * spf -> 0 <= v < 65536 -> fat_get s (fat_put s K c v) c = v.
Proof using HK Hfit.
  intros Hc Hv. apply fat_entry_range in Hc. unfold fat_get, fat_put.
  rewrite sector_at_upd_eq by done. apply le2_patch_same; [|done]. by apply sector_at_ok.
Qed.

Lemma fat_get_put_other c c' v :
  0 <= c < 256 * spf -> 0 <= c' < 256 * spf -> c <> c' ->
  fat_get s (fat_put s K c v) c' = fat_get s K c'.
Proof using HK Hfit.
  intros Hc Hc' Hne. pose proof (fat_entry_range c Hc). pose proof (fat_entry_range c' Hc').
  unfold fat_get, fat_put. destruct (decide (fat_sector c = fat_sector c')) as [He|He].
  - rewrite He, sector_at_upd_eq by lia. apply le2_patch_other; lia.
  - rewrite sector_at_upd_ne by lia. done.
Qed.

Lemma fat_put_sectors c v : 0 <= c < 256 * spf -> Forall sector_ok (fat_put s K c v).
Proof using HK Hfit.
  intros Hc. apply fat_entry_range in Hc. apply upd_sectors; [done|].
  by apply fat_patch_sector, sector_at_ok.
Qed.
End fat.

Lemma len_fat_put s K c v : len (fat_put s K c v) = len K.
Proof. apply len_upd. Qed.

(** A write to a sector outside the table does not change it. *)
Lemma fat_get_upd s K n b c :
  0 <= s + fat_sector c -> 0 <= n -> n <> s + fat_sector c ->
  fat_get s (upd K n b) c = fat_get s K c.
Proof. intros. unfold fat_get. by rewrite sector_at_upd_ne by lia. Qed.

(** The entry is a 16-bit value when the sectors hold bytes. *)
Definition bytes_ok (b : list Z) : Prop := Forall is_byte b.

Lemma byte_at_range b i : bytes_ok b -> 0 <= byte_at b i < 256.
Proof.
  intros Hb. unfold byte_at, idx. destruct (b !! Z.to_nat i) as [x|] eqn:E; cbn; [|lia].
  eapply (Forall_lookup_1 _ _ _ _ Hb). exact E.
Qed.

Lemma fat_get_range s K c : Forall bytes_ok K -> 0 <= fat_get s K c < 65536.
Proof.
  intros HK. unfold fat_get, le2_at, of_le2.
  assert (bytes_ok (sector_at K (s + fat_sector c))) as Hb.
  { unfold sector_at, idx. destruct (K !! _) eqn:E; [|apply Forall_nil_2].
    eapply (Forall_lookup_1 _ _ _ _ HK). exact E. }
  pose proof (byte_at_range _ (fat_offset c) Hb).
  pose proof (byte_at_range _ (fat_offset c + 1) Hb). lia.
Qed.

(** ** Runs of sectors *)

(** Sectors [lo, hi) replaced by [b]. *)
Definition fill (K : list (list Z)) (lo hi : Z) (b : list Z) : list (list Z) :=
  splice K lo (vec b (hi - lo)).

Lemma len_fill K lo hi b : 0 <= lo <= hi -> hi <= len K -> len (fill K lo hi b) = len K.
Proof. intros. unfold fill. rewrite len_splice; [done|lia|]. rewrite len_vec; lia. Qed.

Lemma idx_fill K lo hi b i :
  0 <= lo <= hi -> hi <= len K -> 0 <= i ->
  idx (fill K lo hi b) i = if decide (lo <= i < hi) then Some b else idx K i.
Proof.
  intros. assert (len (vec b (hi - lo)) = hi - lo) by (apply len_vec; lia).
  unfold fill. case_decide.
  - rewrite idx_splice_in by lia. apply idx_vec. lia.
  - apply idx_splice_out; lia.
Qed.

Lemma fill_sectors K lo hi b :
  Forall sector_ok K -> sector_ok b -> Forall sector_ok (fill K lo hi b).
Proof.
  intros HK Hb. unfold fill, splice. apply Forall_app_2; [by apply Forall_take|].
  apply Forall_app_2; [by apply Forall_replicate|by apply Forall_drop].
Qed.

Lemma fill_cons K lo hi b :
  0 <= lo < hi -> hi <= len K -> fill (upd K lo b) (lo + 1) hi b = fill K lo hi b.
Proof.
  intros ? Hlen. apply list_eq. intros j.
  assert (forall l : list (list Z), l !! j = idx l (Z.of_nat j)) as Hj.
  { intros. unfold idx. by rewrite Nat2Z.id. }
  rewrite !Hj. rewrite !idx_fill by (rewrite ?len_upd; lia).
  repeat case_decide; try lia; try done.
  - assert (Z.of_nat j = lo) as -> by lia. by rewrite idx_upd_eq by lia.
  - by rewrite idx_upd_ne by lia.
Qed.

Section fill_loop.
Context {D : Type} `{BlockDeviceLaws D}.

(** The loop [for j in a..b { device.write_block(base + j, blk)? }]. *)
Lemma dtriple_fill K base a b blk :
  0 <= base + a -> a <= b -> base + b <= len K -> sector_ok blk ->
  dtriple K (for_do (range a b) (fun j => write_block (base + j) blk)) (Ok tt)
    (fill K (base + a) (base + b) blk).
Proof.
  intros Ha Hab Hb Hblk.
  assert (exists n, Z.of_nat n = b - a) as [n Hn] by (exists (Z.to_nat (b - a)); lia).
  revert K a Ha Hab Hb Hn. induction n as [|n IH]; intros K a Ha Hab Hb Hn.
  - assert (a = b) as -> by lia. rewrite range_nil by lia.
    replace (fill K (base + b) (base + b) blk) with K; [apply dtriple_ret|].
    unfold fill, splice. rewrite Z.sub_diag. change (vec blk 0) with (@nil (list Z)).
    cbn [app length]. by rewrite Nat.add_0_r, take_drop.
  - rewrite range_cons by lia. eapply dtriple_for_do_cons.
    + apply dtriple_write; [lia|done].
    + rewrite <- (fill_cons K (base + a)) by lia.
      replace (base + a + 1) with (base + (a + 1)) by lia.
      apply IH; rewrite ?len_upd; lia.
Qed.
End fill_loop.

(** ** Cluster chains

    [chain s n K c cs]: following the table that starts at sector [s] from
    cluster [c] visits exactly the clusters [cs], all below [n], and ends at an
    end-of-chain mark. *)

Inductive chain (s n : Z) (K : list (list Z)) : Z -> list Z -> Prop :=
| chain_last c : 2 <= c < n -> 0xFFF8 <= fat_get s K c -> chain s n K c [c]
| chain_next c cs :
    2 <= c < n -> fat_get s K c < 0xFFF8 -> chain s n K (fat_get s K c) cs ->
    chain s n K c (c :: cs).

Section chains.
Context (s n : Z) (K : list (list Z)).

Lemma chain_det c cs cs' : chain s n K c cs -> chain s n K c cs' -> cs = cs'.
Proof.
  intros Hc. revert cs'. induction Hc as [c Hr He|c cs Hr He Hc IH]; intros cs' Hc'; inversion Hc'; subst.
  - done.
  - lia.
  - lia.
  - f_equal. by apply IH.
Qed.

Lemma chain_range c cs : chain s n K c cs -> Forall (fun x => 2 <= x < n) cs.
Proof. induction 1; by constructor. Qed.

(** From any cluster of a chain on, it is the chain of that cluster. *)
Lemma chain_suffix c cs x :
  chain s n K c cs -> x ∈ cs -> exists pre post, cs = pre ++ post /\ chain s n K x post.
Proof.
  induction 1 as [c Hr He|c cs Hr He Hc IH]; intros Hx.
  - apply list_elem_of_singleton in Hx as ->. exists [], [c]. split; [done|]. by constructor.
  - apply elem_of_cons in Hx as [->|Hx].
    + exists [], (c :: cs). split; [done|]. by constructor.
    + destruct (IH Hx) as (pre & post & -> & Hp). by exists (c :: pre), post.
Qed.

(** No cluster occurs twice. *)
Lemma chain_NoDup c cs : chain s n K c cs -> NoDup cs.
Proof.
  induction 1 as [c Hr He|c cs Hr He Hc IH]; [apply NoDup_singleton|].
  constructor; [|done]. intros Hin. destruct (chain_suffix _ _ _ Hc Hin) as (pre & post & -> & Hp).
  assert (chain s n K c (c :: pre ++ post)) as Hfull by by constructor.
  pose proof (f_equal length (chain_det _ _ _ Hp Hfull)) as Hl.
  cbn in Hl. rewrite length_app in Hl. lia.
Qed.

(** So it is no longer than the table. *)
Lemma chain_length c cs : chain s n K c cs -> len cs <= n - 2.
Proof.
  intros Hc. pose proof (chain_NoDup _ _ Hc) as Hnd. pose proof (chain_range _ _ Hc) as Hr.
  assert (cs ⊆+ range 2 n) as Hsub.
  { apply NoDup_submseteq; [done|]. intros x Hx. apply elem_of_range.
    by apply (proj1 (Forall_forall _ _) Hr). }
  apply submseteq_length in Hsub. rewrite length_range in Hsub.
  assert (2 < n) by (destruct Hc; lia). unfold len. lia.
Qed.

(** The entry of a cluster of a chain is the next cluster, or the end mark. *)
Lemma chain_step c cs k x :
  chain s n K c cs -> 0 <= k -> idx cs k = Some x ->
  2 <= x < n /\
  ((k + 1 = len cs /\ 0xFFF8 <= fat_get s K x) \/
   (fat_get s K x < 0xFFF8 /\ idx cs (k + 1) = Some (fat_get s K x))).
Proof.
  intros Hc Hk. unfold idx. rewrite Z2Nat.inj_add by lia. change (Z.to_nat 1) with 1%nat.
  rewrite <- (Z2Nat.id k) at 2 by done. unfold len. generalize (Z.to_nat k) as j. clear k Hk.
  induction Hc as [c Hr He|c cs Hr He Hc IH]; intros j Hj.
  - destruct j as [|j]; [|done]. cbn in Hj. injection Hj as <-. split; [done|]. left. cbn. lia.
  - destruct j as [|j]; cbn in Hj.
    + injection Hj as <-. split; [done|]. right. split; [done|]. destruct Hc; done.
    + destruct (IH j Hj) as [Hx [[Hl Hf]|[Hf Hn]]]; (split; [done|]).
      * left. cbn [length]. lia.
      * right. done.
Qed.

(** A chain depends only on the entries of its clusters. *)
Lemma chain_frame K' c cs :
  chain s n K c cs -> (forall x, x ∈ cs -> fat_get s K' x = fat_get s K x) -> chain s n K' c cs.
Proof.
  induction 1 as [c Hr He|c cs Hr He Hc IH]; intros Hsame.
  - constructor; [done|]. rewrite Hsame; set_solver.
  - assert (fat_get s K' c = fat_get s K c) as E by (apply Hsame; set_solver).
    apply chain_next; rewrite ?E; [done..|]. apply IH. set_solver.
Qed.
End chains.
