(* ===== verification/FatFile.v ===== *)
(** * Open files ([filesys/fat16/file.rs])

    [Fat16File] and its operations: reading and writing along a cluster chain,
    seeking, and the file's own copies of the FAT routines. *)

From S2P Require Import Prelude BlockDev FatLayout FatSpec.

(** [filesys/mod.rs]: [enum SeekFrom]. *)
Inductive SeekFrom :=
| Start (offset : Z)
| Current (offset : Z)
| End (offset : Z).

Module Fat16File.

(** [struct Fat16File]. *)
Record Fat16File := mk {
  valid : bool;
  current_cluster : Z;
  position : Z;
  size : Z;
  cluster_size : Z;
  fat_start : Z;
  data_start : Z;
  entry_position : Z
}.

Definition set_current_cluster (c : Z) (f : Fat16File) : Fat16File :=
  mk (valid f) c (position f) (size f) (cluster_size f) (fat_start f) (data_start f) (entry_position f).
Definition set_position (p : Z) (f : Fat16File) : Fat16File :=
  mk (valid f) (current_cluster f) p (size f) (cluster_size f) (fat_start f) (data_start f) (entry_position f).
Definition set_size (n : Z) (f : Fat16File) : Fat16File :=
  mk (valid f) (current_cluster f) (position f) n (cluster_size f) (fat_start f) (data_start f) (entry_position f).

(** ** Operations *)

(** [checked_sub] and [checked_add] on [u64], with [ok_or(InvalidOffset)?]; the
    two signed cases of [seek]. *)
Definition offset_from (base offset : Z) : option Z :=
  if offset <? 0 then checked (Z.abs offset <=? base) (base - Z.abs offset)
  else checked (base + offset <? 2 ^ 64) (base + offset).

(** [File::seek]. *)
Definition seek (pos : SeekFrom) : M Fat16File FsError Z :=
  let! self := get_state in
  let! new_pos :=
    match pos with
    | Start offset => ret offset
    | End offset => ok_or (offset_from (size self) offset) InvalidOffset
    | Current offset => ok_or (offset_from (position self) offset) InvalidOffset
    end in
  if size self <? new_pos then err InvalidOffset
  else put_state (set_position new_pos self) ;! ret new_pos.

(** [File::flush]. *)
Definition flush : M Fat16File FsError unit := ret tt.

Section ops.
Context {D : Type} `{BlockDevice D}.

(** [Fat16File::read_fat_entry]. *)
Definition read_fat_entry (self : Fat16File) (cluster : Z) : M D FsError FatEntry :=
  let offset := cluster * FAT_ENTRY_SIZE in
  let sector := fat_start self + offset / SECTOR_SIZE in
  let sector_offset := offset mod SECTOR_SIZE in
  let! sector_data := read_block sector (vec 0 SECTOR_SIZE) in
  let! b0 := expect (idx sector_data sector_offset) in
  let! b1 := expect (idx sector_data (sector_offset + 1)) in
  ret (mkFatEntry (of_le2 b0 b1)).

(** [Fat16File::write_fat_entry]: only the first copy of the table. *)
Definition write_fat_entry (self : Fat16File) (cluster : Z) (entry : FatEntry) : M D FsError unit :=
  let offset := cluster * FAT_ENTRY_SIZE in
  let sector := fat_start self + offset / SECTOR_SIZE in
  let sector_offset := offset mod SECTOR_SIZE in
  let! sector_data := read_block sector (vec 0 SECTOR_SIZE) in
  let bytes := to_le2 (FatLayout.cluster entry) in
  let sector_data := upd sector_data sector_offset (byte_at bytes 0) in
  let sector_data := upd sector_data (sector_offset + 1) (byte_at bytes 1) in
  write_block sector sector_data.

(** [Fat16File::update_directory_entry]: stores [file_size], the last four
    bytes of the entry. *)
Definition update_directory_entry (self : Fat16File) (new_size : Z) : M D FsError unit :=
  let sector := entry_position self / SECTOR_SIZE in
  let offset := entry_position self mod SECTOR_SIZE in
  let! sector_buffer := read_block sector (vec 0 SECTOR_SIZE) in
  let sector_buffer := splice sector_buffer (offset + 28) (to_le4 (wrap 32 new_size)) in
  write_block sector sector_buffer.

(** [Fat16File::allocate_cluster]. *)
Definition allocate_cluster (self : Fat16File) : M D FsError Z :=
  let! total_clusters := div_chk (data_start self) (cluster_size self) in
  let! r := for_each (range 2 (wrap 16 total_clusters)) (fun cluster =>
    let! entry := read_fat_entry self cluster in
    if is_free_cluster entry then
      write_fat_entry self cluster (mkFatEntry 0xFFFF) ;!
      ret (Some cluster)
    else ret None) in
  match r with
  | Some cluster => ret cluster
  | None => err NoSpace
  end.

(** [Fat16File::cluster_to_sector]: [cluster as u64 - 2] is checked. *)
Definition cluster_to_sector (self : Fat16File) (cluster : Z) : M D FsError Z :=
  let! k := chk 64 (cluster - 2) in
  ret (data_start self + k * (cluster_size self / SECTOR_SIZE)).

(** The loop that reads the sectors of a cluster into [cluster_data]. *)
Definition read_cluster (sector cluster_size : Z) : M D FsError (list Z) :=
  for_fold (range 0 (cluster_size / SECTOR_SIZE)) (vec 0 cluster_size) (fun cluster_data i =>
    let! sector_data := read_block (sector + i) (vec 0 SECTOR_SIZE) in
    ret (splice cluster_data (i * SECTOR_SIZE) sector_data)).

(** The loop that writes [cluster_data] back. *)
Definition write_cluster (sector cluster_size : Z) (cluster_data : list Z) : M D FsError unit :=
  for_do (range 0 (cluster_size / SECTOR_SIZE)) (fun i =>
    write_block (sector + i) (slice cluster_data (i * SECTOR_SIZE) SECTOR_SIZE)).

(** [&mut self] and [&mut device] together. *)
Definition on_device {A} (m : M D FsError A) : M (Fat16File * D) FsError A :=
  fun '(f, d) => let '(r, d') := m d in (r, (f, d')).
Definition self_ : M (Fat16File * D) FsError Fat16File := fun '(f, d) => (Ok f, (f, d)).
Definition modify (g : Fat16File -> Fat16File) : M (Fat16File * D) FsError unit :=
  fun '(f, d) => (Ok tt, (g f, d)).

(** The [while bytes_read < bytes_to_read] loop of [read_with_device]; a
    round copies at least one byte, so [bytes_to_read] rounds are enough. *)
Fixpoint read_loop (fuel : nat) (bytes_to_read bytes_read buf_offset : Z) (buf : list Z)
    : M (Fat16File * D) FsError (Z * list Z) :=
  if negb (bytes_read <? bytes_to_read) then ret (bytes_read, buf) else
  match fuel with
  | O => diverge
  | S fuel' =>
      let! self := self_ in
      let! cluster_offset := rem_chk (position self) (cluster_size self) in
      let bytes_left_in_cluster := cluster_size self - cluster_offset in
      let chunk_size := Z.min bytes_left_in_cluster (bytes_to_read - bytes_read) in
      let! sector := on_device (cluster_to_sector self (current_cluster self)) in
      let! cluster_data := on_device (read_cluster sector (cluster_size self)) in
      let buf := splice buf buf_offset (slice cluster_data cluster_offset chunk_size) in
      let bytes_read := bytes_read + chunk_size in
      let buf_offset := buf_offset + chunk_size in
      modify (set_position (position self + chunk_size)) ;!
      if cluster_offset + chunk_size =? cluster_size self then
        let! next_cluster := on_device (read_fat_entry self (current_cluster self)) in
        if is_end_of_chain next_cluster then ret (bytes_read, buf)
        else
          modify (set_current_cluster (FatLayout.cluster next_cluster)) ;!
          read_loop fuel' bytes_to_read bytes_read buf_offset buf
      else read_loop fuel' bytes_to_read bytes_read buf_offset buf
  end.

(** [File::read_with_device]: the number of bytes read and the new buffer. *)
Definition read_with_device (buf : list Z) : M (Fat16File * D) FsError (Z * list Z) :=
  let! self := self_ in
  if size self <=? position self then ret (0, buf) else
  let bytes_to_read := Z.min (len buf) (size self - position self) in
  read_loop (Z.to_nat bytes_to_read) bytes_to_read 0 0 buf.

(** The [while bytes_written < buf.len()] loop of [write_with_device]. *)
Fixpoint write_loop (fuel : nat) (buf : list Z) (bytes_written buf_offset : Z)
    : M (Fat16File * D) FsError Z :=
  if negb (bytes_written <? len buf) then ret bytes_written else
  match fuel with
  | O => diverge
  | S fuel' =>
      let! self := self_ in
      let! cluster_offset := rem_chk (position self) (cluster_size self) in
      let bytes_left_in_cluster := cluster_size self - cluster_offset in
      let chunk_size := Z.min bytes_left_in_cluster (len buf - bytes_written) in
      let! sector := on_device (cluster_to_sector self (current_cluster self)) in
      let! cluster_data := on_device (read_cluster sector (cluster_size self)) in
      let cluster_data := splice cluster_data cluster_offset (slice buf buf_offset chunk_size) in
      on_device (write_cluster sector (cluster_size self) cluster_data) ;!
      let bytes_written := bytes_written + chunk_size in
      let buf_offset := buf_offset + chunk_size in
      modify (set_position (position self + chunk_size)) ;!
      modify (set_size (Z.max (size self) (position self + chunk_size))) ;!
      if cluster_offset + chunk_size =? cluster_size self then
        let! fat_entry := on_device (read_fat_entry self (current_cluster self)) in
        (if is_end_of_chain fat_entry then
          let! new_cluster := on_device (allocate_cluster self) in
          on_device (write_fat_entry self (current_cluster self) (mkFatEntry new_cluster)) ;!
          modify (set_current_cluster new_cluster)
        else
          modify (set_current_cluster (FatLayout.cluster fat_entry))) ;!
        write_loop fuel' buf bytes_written buf_offset
      else write_loop fuel' buf bytes_written buf_offset
  end.

(** [File::write_with_device]. *)
Definition write_with_device (buf : list Z) : M (Fat16File * D) FsError Z :=
  let! bytes_written := write_loop (length buf) buf 0 0 in
  let! self := self_ in
  on_device (update_directory_entry self (size self)) ;!
  ret bytes_written.
End ops.

(** ** The action of a computation on a file and the disk *)

Section ftriple.
Context {D : Type} `{BlockDeviceLaws D}.
Implicit Types (K : list (list Z)) (f : Fat16File).

(** From the file [f] and any device with contents [K], [m] gives [r] and
    leaves the file [f'] and contents [K']. *)
Definition ftriple {A} f K (m : M (Fat16File * D) FsError A) (r : outcome FsError A) f' K' : Prop :=
  forall d, dev_ok d -> disk d = K ->
    exists d', m (f, d) = (r, (f', d')) /\ dev_ok d' /\ disk d' = K'.

Lemma ftriple_ret {A} f K (a : A) : ftriple f K (ret a) (Ok a) f K.
Proof. intros d ??. by exists d. Qed.

Lemma ftriple_bind {A B} f K f1 K1 (m : M (Fat16File * D) FsError A) a
    (k : A -> M (Fat16File * D) FsError B) r f2 K2 :
  ftriple f K m (Ok a) f1 K1 -> ftriple f1 K1 (k a) r f2 K2 -> ftriple f K (bind m k) r f2 K2.
Proof.
  intros Hm Hk d Hd HK. destruct (Hm d Hd HK) as (d1 & E1 & ? & ?).
  destruct (Hk d1) as (d2 & E2 & ? & ?); [done..|]. exists d2. by rewrite (bind_ok _ _ _ _ _ E1).
Qed.

Lemma ftriple_bind_err {A B} f K f1 K1 (m : M (Fat16File * D) FsError A) e
    (k : A -> M (Fat16File * D) FsError B) :
  ftriple f K m (Err e) f1 K1 -> ftriple f K (bind m k) (Err e) f1 K1.
Proof.
  intros Hm d Hd HK. destruct (Hm d Hd HK) as (d1 & E1 & ? & ?). exists d1.
  by rewrite (bind_err _ _ _ _ _ E1).
Qed.

Lemma ftriple_self {B} f K (k : Fat16File -> M (Fat16File * D) FsError B) r f2 K2 :
  ftriple f K (k f) r f2 K2 -> ftriple f K (bind self_ k) r f2 K2.
Proof. intros Hk. eapply ftriple_bind; [|exact Hk]. intros d ??. by exists d. Qed.

Lemma ftriple_modify {B} f K g (k : M (Fat16File * D) FsError B) r f2 K2 :
  ftriple (g f) K k r f2 K2 -> ftriple f K (bind (modify g) (fun _ => k)) r f2 K2.
Proof. intros Hk. eapply ftriple_bind; [|exact Hk]. intros d ??. by exists d. Qed.

Lemma ftriple_device {A} f K (m : M D FsError A) r K' :
  dtriple K m r K' -> ftriple f K (on_device m) r f K'.
Proof.
  intros Hm d Hd HK. destruct (Hm d Hd HK) as (d' & E & ? & ?). exists d'.
  unfold on_device. by rewrite E.
Qed.

Lemma ftriple_rem {B} f K a b (k : Z -> M (Fat16File * D) FsError B) r f2 K2 :
  b <> 0 -> ftriple f K (k (a mod b)) r f2 K2 -> ftriple f K (bind (rem_chk a b) k) r f2 K2.
Proof.
  intros Hb Hk. eapply ftriple_bind; [|exact Hk]. intros d ??. exists d. unfold rem_chk.
  by replace (b =? 0) with false by lia.
Qed.

Lemma ftriple_sectors {A} f K (m : M (Fat16File * D) FsError A) r f' K' :
  (Forall sector_ok K -> ftriple f K m r f' K') -> ftriple f K m r f' K'.
Proof. intros Hm d Hd HK. apply Hm; [|done|done]. rewrite <- HK. by apply dev_sectors. Qed.
End ftriple.

(** ** The bytes of a file *)

(** Sectors per cluster and the first sector of a cluster. *)
Definition spc (f : Fat16File) : Z := cluster_size f / SECTOR_SIZE.
Definition first_sector (f : Fat16File) (c : Z) : Z := data_start f + (c - 2) * spc f.

Definition cluster_sectors (f : Fat16File) (K : list (list Z)) (c : Z) : list (list Z) :=
  slice K (first_sector f c) (spc f).
Definition cluster_bytes (f : Fat16File) (K : list (list Z)) (c : Z) : list Z :=
  concat (cluster_sectors f K c).

(** The contents of a chain of clusters. *)
Definition contents (f : Fat16File) (K : list (list Z)) (cs : list Z) : list Z :=
  concat (map (cluster_bytes f K) cs).

(** The geometry an open file was given: clusters of whole sectors, a table
    before the data area, [n] clusters on the disk. *)
Record geometry (f : Fat16File) (n : Z) (K : list (list Z)) : Prop := {
  ge_size : cluster_size f = spc f * SECTOR_SIZE;
  ge_spc : 0 < spc f;
  ge_fat : 0 <= fat_start f;
  ge_table : forall c, 2 <= c < n -> fat_start f + fat_sector c < data_start f;
  ge_disk : data_start f + (n - 2) * spc f <= len K;
  ge_width : n <= 65536
}.

(** The file's cursor: the current cluster is the one the position is in. *)
Definition tracks (f : Fat16File) (cs : list Z) : Prop :=
  idx cs (position f / cluster_size f) = Some (current_cluster f).

(** Two files that differ in cursor and size only. *)
Definition same_place (f f' : Fat16File) : Prop :=
  cluster_size f' = cluster_size f /\ fat_start f' = fat_start f /\
  data_start f' = data_start f /\ entry_position f' = entry_position f /\ valid f' = valid f.

Lemma same_place_refl f : same_place f f.
Proof. done. Qed.

Lemma same_place_trans f g h : same_place f g -> same_place g h -> same_place f h.
Proof. unfold same_place. intuition congruence. Qed.

Lemma same_place_geometry f f' n K : same_place f f' -> geometry f n K -> geometry f' n K.
Proof.
  intros (E1 & E2 & E3 & _) []. split; unfold spc in *; rewrite ?E1, ?E2, ?E3; done.
Qed.

Lemma same_place_contents f f' K cs : same_place f f' -> contents f' K cs = contents f K cs.
Proof.
  intros (E1 & E2 & E3 & _). unfold contents, cluster_bytes, cluster_sectors, first_sector, spc.
  by rewrite E1, E3.
Qed.

Section bytes.
Context (f : Fat16File) (n : Z) (K : list (list Z)) (Hg : geometry f n K).

Lemma first_sector_range c : 2 <= c < n ->
  0 <= first_sector f c /\ first_sector f c + spc f <= len K /\ fat_start f + fat_sector c < first_sector f c.
Proof using Hg.
  intros Hc. destruct Hg. pose proof (ge_table0 c Hc).
  assert (0 <= fat_sector c) by (unfold fat_sector, FAT_ENTRY_SIZE, SECTOR_SIZE; dlia).
  unfold first_sector. nia.
Qed.

Lemma cluster_size_pos : 0 < cluster_size f.
Proof using Hg. destruct Hg. unfold SECTOR_SIZE in *. lia. Qed.

Lemma len_cluster_sectors c : 2 <= c < n -> len (cluster_sectors f K c) = spc f.
Proof using Hg. intros Hc%first_sector_range. destruct Hg. apply len_slice; lia. Qed.

Lemma cluster_sectors_ok c : Forall sector_ok K -> Forall sector_ok (cluster_sectors f K c).
Proof. intros HK. by apply Forall_take, Forall_drop. Qed.

Lemma len_cluster_bytes c :
  Forall sector_ok K -> 2 <= c < n -> len (cluster_bytes f K c) = cluster_size f.
Proof using Hg.
  intros HK Hc. unfold cluster_bytes.
  rewrite (len_concat SECTOR_SIZE) by by apply cluster_sectors_ok.
  rewrite len_cluster_sectors by done. destruct Hg. lia.
Qed.

Lemma blocks_ok cs :
  Forall sector_ok K -> Forall (fun c => 2 <= c < n) cs ->
  Forall (fun b => len b = cluster_size f) (map (cluster_bytes f K) cs).
Proof using Hg.
  intros HK Hcs. apply Forall_forall. intros b. rewrite list_elem_of_In, in_map_iff.
  intros (c & <- & Hin). apply len_cluster_bytes; [done|].
  apply list_elem_of_In in Hin. exact (proj1 (Forall_forall _ _) Hcs c Hin).
Qed.

Lemma len_contents cs :
  Forall sector_ok K -> Forall (fun c => 2 <= c < n) cs ->
  len (contents f K cs) = cluster_size f * len cs.
Proof using Hg.
  intros HK Hcs. unfold contents. rewrite (len_concat (cluster_size f)) by by apply blocks_ok.
  unfold len. by rewrite length_map.
Qed.
End bytes.

Lemma idx_map {A B} (g : A -> B) l i : idx (map g l) i = option_map g (idx l i).
Proof. unfold idx. apply list_lookup_fmap. Qed.

(** ** Reading and writing a cluster *)

(** A cluster buffer cut into sectors. *)
Definition chunks (f : Fat16File) (data : list Z) : list (list Z) :=
  map (fun i => slice data (i * SECTOR_SIZE) SECTOR_SIZE) (range 0 (spc f)).

Lemma concat_slices w (data : list Z) k :
  0 <= w -> 0 <= k -> k * w <= len data ->
  concat (map (fun i => slice data (i * w) w) (range 0 k)) = slice data 0 (k * w).
Proof.
  intros Hw Hk. rewrite <- (Z2Nat.id k) by done. induction (Z.to_nat k) as [|m IH]; intros Hlen; [done|].
  rewrite Nat2Z.inj_succ. unfold Z.succ. rewrite range_snoc, map_app, concat_app, IH by nia.
  cbn. rewrite app_nil_r, Z.mul_add_distr_r, Z.mul_1_l. rewrite slice_split by nia.
  by rewrite Z.add_0_l.
Qed.

Section cluster_io.
Context {D : Type} `{BlockDeviceLaws D}.
Context (f : Fat16File) (n : Z) (K : list (list Z)) (Hg : geometry f n K).

(** [write_block] over a run of sectors. *)
Lemma dtriple_write_run (g : Z -> list Z) base a b K0 :
  0 <= base + a -> a <= b -> base + b <= len K0 -> (forall i, a <= i < b -> sector_ok (g i)) ->
  dtriple K0 (for_do (range a b) (fun i => write_block (base + i) (g i))) (Ok tt)
    (splice K0 (base + a) (map g (range a b))).
Proof.
  intros Ha Hab Hb Hok.
  assert (exists m, Z.of_nat m = b - a) as [m Hm] by (exists (Z.to_nat (b - a)); lia).
  revert K0 a Ha Hab Hb Hok Hm. induction m as [|m IH]; intros K0 a Ha Hab Hb Hok Hm.
  - rewrite range_nil by lia. cbn [map]. rewrite splice_nil. apply dtriple_ret.
  - rewrite range_cons by lia. cbn [map]. eapply dtriple_for_do_cons.
    + apply dtriple_write; [lia|]. apply Hok. lia.
    + assert (len (map g (range (a + 1) b)) = b - (a + 1)) as Hl
        by (unfold len; rewrite length_map, length_range; lia).
      change (g a :: map g (range (a + 1) b)) with ([g a] ++ map g (range (a + 1) b)).
      rewrite splice_split by (rewrite ?Hl; change (len [g a]) with 1; lia).
      change (len [g a]) with 1. rewrite <- upd_splice by lia.
      replace (base + a + 1) with (base + (a + 1)) by lia.
      apply IH; rewrite ?len_upd; try lia. intros. apply Hok. lia.
Qed.

Lemma read_fold sec k :
  Forall sector_ok K -> 0 <= sec -> 0 <= k <= spc f -> sec + k <= len K ->
  fold_left (fun cd i => splice cd (i * SECTOR_SIZE) (sector_at K (sec + i))) (range 0 k)
    (vec 0 (cluster_size f)) =
  concat (slice K sec k) ++ vec 0 (cluster_size f - k * SECTOR_SIZE).
Proof using Hg.
  intros HK Hs Hk. rewrite <- (Z2Nat.id k) by lia. assert (Z.of_nat (Z.to_nat k) <= spc f) as Hk' by lia.
  revert Hk'. clear Hk. induction (Z.to_nat k) as [|m IH]; intros Hk Hlen.
  { cbn. by rewrite Z.sub_0_r. }
  destruct Hg as [Hcs _ _ _ _ _].
  rewrite Nat2Z.inj_succ in *. unfold Z.succ in *. rewrite range_snoc, fold_left_app, IH by lia.
  cbn [fold_left]. rewrite slice_split by lia. rewrite concat_app.
  assert (slice K (sec + Z.of_nat m) 1 = [sector_at K (sec + Z.of_nat m)]) as ->.
  { apply idx_ext. intros i Hi. destruct (decide (i = 0)) as [->|].
    - rewrite idx_slice, Z.add_0_r by lia. by apply sector_at_idx; lia.
    - rewrite !idx_None; [done| |]; rewrite ?len_slice by lia; unfold len; cbn [length]; lia. }
  cbn [concat]. rewrite app_nil_r.
  assert (sector_ok (sector_at K (sec + Z.of_nat m))) as Hok by (apply sector_at_ok; [done|lia]).
  unfold sector_ok in Hok. unfold SECTOR_SIZE in *.
  assert (len (concat (slice K sec (Z.of_nat m))) = Z.of_nat m * 512) as Hpre.
  { rewrite (len_concat 512) by by apply Forall_take, Forall_drop. rewrite len_slice by lia. lia. }
  rewrite <- Hpre at 2. rewrite <- (Z.add_0_r (len (concat _))).
  rewrite <- (app_nil_r (vec 0 _)) at 1.
  rewrite splice_app_mid by (rewrite ?len_vec by nia; lia).
  rewrite splice_prefix by nia. rewrite app_nil_r, <- app_assoc. do 3 f_equal. lia.
Qed.

Lemma read_cluster_triple c :
  2 <= c < n ->
  dtriple K (read_cluster (first_sector f c) (cluster_size f)) (Ok (cluster_bytes f K c)) K.
Proof using Hg.
  intros Hc. pose proof (first_sector_range f n K Hg c Hc). apply dtriple_sectors. intros HK.
  unfold read_cluster. fold (spc f).
  replace (cluster_bytes f K c) with
    (fold_left (fun cd i => splice cd (i * SECTOR_SIZE) (sector_at K (first_sector f c + i)))
       (range 0 (spc f)) (vec 0 (cluster_size f))).
  - apply dtriple_for_fold. intros cd i Hi%elem_of_range.
    eapply dtriple_bind; [apply dtriple_read; [lia|done|apply sector_at_idx; lia]|]. apply dtriple_ret.
  - destruct Hg. rewrite read_fold by (done || lia). rewrite ge_size0, Z.sub_diag.
    change (vec 0 0) with (@nil Z). by rewrite app_nil_r.
Qed.

Lemma write_cluster_triple c data :
  2 <= c < n -> len data = cluster_size f ->
  dtriple K (write_cluster (first_sector f c) (cluster_size f) data) (Ok tt)
    (splice K (first_sector f c) (chunks f data)).
Proof using Hg.
  intros Hc Hd. pose proof (first_sector_range f n K Hg c Hc). destruct Hg.
  pose proof (dtriple_write_run (fun i => slice data (i * SECTOR_SIZE) SECTOR_SIZE)
    (first_sector f c) 0 (spc f) K) as Hrun. rewrite Z.add_0_r in Hrun.
  apply Hrun; try lia. intros i Hi. apply len_slice; [unfold SECTOR_SIZE; lia..|]. unfold SECTOR_SIZE in *. nia.
Qed.

(** The cluster holds the buffer afterwards, the others what they held. *)
Lemma cluster_bytes_written c data :
  2 <= c < n -> len data = cluster_size f ->
  cluster_bytes f (splice K (first_sector f c) (chunks f data)) c = data.
Proof using Hg.
  intros Hc Hd. pose proof (first_sector_range f n K Hg c Hc). destruct Hg.
  assert (len (chunks f data) = spc f) by (unfold chunks, len; rewrite length_map, length_range; lia).
  unfold cluster_bytes, cluster_sectors. rewrite slice_splice_same by lia.
  unfold chunks. rewrite concat_slices; unfold SECTOR_SIZE in *; try nia.
  apply slice_all. lia.
Qed.

Lemma cluster_bytes_other c c' data :
  2 <= c < n -> 2 <= c' < n -> c <> c' -> len data = cluster_size f ->
  cluster_bytes f (splice K (first_sector f c) (chunks f data)) c' = cluster_bytes f K c'.
Proof using Hg.
  intros Hc Hc' Hne Hd. pose proof (first_sector_range f n K Hg c Hc).
  pose proof (first_sector_range f n K Hg c' Hc'). destruct Hg.
  assert (len (chunks f data) = spc f) by (unfold chunks, len; rewrite length_map, length_range; lia).
  unfold cluster_bytes, cluster_sectors. rewrite slice_splice_other; try lia; [done|].
  unfold first_sector in *. nia.
Qed.
End cluster_io.

(** ** Reading *)

Section reading.
Context {D : Type} `{BlockDeviceLaws D}.
Context (n : Z) (K : list (list Z)).

Lemma file_read_fat_entry_triple f c :
  geometry f n K -> 2 <= c < n ->
  dtriple K (read_fat_entry f c) (Ok (mkFatEntry (fat_get (fat_start f) K c))) K.
Proof.
  intros Hg Hc. pose proof (first_sector_range f n K Hg c Hc). destruct Hg.
  apply dtriple_sectors. intros HK.
  assert (0 <= fat_sector c) by (unfold fat_sector, FAT_ENTRY_SIZE, SECTOR_SIZE; dlia).
  assert (sector_ok (sector_at K (fat_start f + fat_sector c))) as Hs by (apply sector_at_ok; [done|lia]).
  unfold sector_ok, SECTOR_SIZE in Hs. pose proof (fat_offset_range c).
  unfold read_fat_entry. fold (fat_sector c). fold (fat_offset c).
  eapply dtriple_bind; [apply dtriple_read; [lia|done|apply sector_at_idx; lia]|].
  destruct (idx_is_Some (sector_at K (fat_start f + fat_sector c)) (fat_offset c)) as [b0 Hb0]; [lia|].
  destruct (idx_is_Some (sector_at K (fat_start f + fat_sector c)) (fat_offset c + 1)) as [b1 Hb1]; [lia|].
  eapply dtriple_bind; [by apply dtriple_expect|]. eapply dtriple_bind; [by apply dtriple_expect|].
  replace (fat_get (fat_start f) K c) with (of_le2 b0 b1); [apply dtriple_ret|].
  unfold fat_get, le2_at, byte_at. by rewrite Hb0, Hb1.
Qed.

Lemma file_cluster_to_sector_triple f c :
  2 <= c < 65536 -> dtriple K (cluster_to_sector f c) (Ok (first_sector f c)) K.
Proof. intros. eapply dtriple_bind; [apply dtriple_chk; lia|]. apply dtriple_ret. Qed.

(** Where the cursor stands: the index of its cluster and the offset in it. *)
Lemma cursor f (cs : list Z) :
  geometry f n K -> 0 <= position f < cluster_size f * len cs ->
  0 < cluster_size f /\ 0 <= position f / cluster_size f < len cs /\
  0 <= position f mod cluster_size f < cluster_size f /\
  position f = position f / cluster_size f * cluster_size f + position f mod cluster_size f.
Proof.
  intros [] Hp. unfold SECTOR_SIZE in *. assert (0 < cluster_size f) by nia.
  split_and!; [lia|apply Z.div_pos; lia|apply Z.div_lt_upper_bound; lia|apply Z.mod_pos_bound; lia..|].
  rewrite (Z.div_mod (position f) (cluster_size f)) at 1 by lia. lia.
Qed.

Lemma contents_slice f cs k c o m :
  geometry f n K -> Forall sector_ok K -> Forall (fun c => 2 <= c < n) cs ->
  0 <= k -> idx cs k = Some c -> 0 <= o -> 0 <= m -> o + m <= cluster_size f ->
  slice (contents f K cs) (k * cluster_size f + o) m = slice (cluster_bytes f K c) o m.
Proof.
  intros. apply slice_concat; try done; [by eapply blocks_ok|]. rewrite idx_map.
  by match goal with E : idx cs k = _ |- _ => rewrite E end.
Qed.

(** One round of the loop: a chunk is copied and the cursor moves on, along the
    chain when the chunk ends its cluster.  At the end of the chain the loop
    stops, which is where it would stop anyway. *)
Lemma read_round cs c0 fuel f total done_ boff buf :
  geometry f n K -> chain (fat_start f) n K c0 cs ->
  0 <= position f -> tracks f cs -> 0 <= done_ < total ->
  position f + (total - done_) <= cluster_size f * len cs ->
  let m := Z.min (cluster_size f - position f mod cluster_size f) (total - done_) in
  exists f1,
    same_place f f1 /\ size f1 = size f /\ position f1 = position f + m /\ 1 <= m /\
    (position f1 < cluster_size f * len cs -> tracks f1 cs) /\
    forall r f' K',
      ftriple (D:=D) f1 K (read_loop fuel total (done_ + m) (boff + m)
        (splice buf boff (slice (contents f K cs) (position f) m))) r f' K' ->
      ftriple f K (read_loop (S fuel) total done_ boff buf) r f' K'.
Proof.
  intros Hg Hch Hp Htr Hdone Hcap m.
  destruct (cursor f cs Hg ltac:(lia)) as (Hcs & Hk & Ho & Hpos).
  set (k := position f / cluster_size f) in *. set (o := position f mod cluster_size f) in *.
  destruct (chain_step _ _ _ _ _ k _ Hch ltac:(lia) Htr) as [Hx Hnext].
  pose proof (ge_width _ _ _ Hg).
  assert (forall f1 r f' K',
    (forall buf1, ftriple f1 K (read_loop fuel total (done_ + m) (boff + m) buf1) r f' K' ->
     ftriple (D:=D) (set_position (position f + m) f) K
       (if o + m =? cluster_size f then
          let! next_cluster := on_device (read_fat_entry f (current_cluster f)) in
          if is_end_of_chain next_cluster then ret (done_ + m, buf1)
          else modify (set_current_cluster (FatLayout.cluster next_cluster)) ;!
            read_loop fuel total (done_ + m) (boff + m) buf1
        else read_loop fuel total (done_ + m) (boff + m) buf1) r f' K') ->
    ftriple f1 K (read_loop fuel total (done_ + m) (boff + m)
      (splice buf boff (slice (contents f K cs) (position f) m))) r f' K' ->
    ftriple f K (read_loop (S fuel) total done_ boff buf) r f' K') as Hround.
  { intros f1 r f' K' Htail Hrest. apply ftriple_sectors. intros HK.
    cbn [read_loop]. replace (done_ <? total) with true by lia. cbn [negb].
    apply ftriple_self. apply ftriple_rem; [lia|]. fold o.
    eapply ftriple_bind; [apply ftriple_device, file_cluster_to_sector_triple; lia|].
    eapply ftriple_bind; [apply ftriple_device, (read_cluster_triple f n K Hg); lia|].
    apply ftriple_modify. fold m. apply Htail.
    rewrite Hpos, (contents_slice f cs k (current_cluster f)) in Hrest; try done; try lia.
    by eapply chain_range. }
  destruct (o + m =? cluster_size f) eqn:Eend.
  - pose proof (file_read_fat_entry_triple f (current_cluster f) Hg Hx) as Hread.
    destruct Hnext as [[Hlast Heoc]|[Hlt Hnext]].
    + exists (set_position (position f + m) f). split_and!; try done; [lia|cbn; nia|].
      intros r f' K'. apply Hround. intros buf1 Hrest.
      eapply ftriple_bind; [by apply ftriple_device|]. unfold is_end_of_chain. cbn [cluster].
      replace (_ <=? _) with true by lia.
      assert (done_ + m = total) as Hall by nia. rewrite Hall in *.
      by destruct fuel; cbn in Hrest; replace (total <? total) with false in Hrest by lia.
    + exists (set_current_cluster (fat_get (fat_start f) K (current_cluster f))
                (set_position (position f + m) f)).
      split_and!; try done; [lia| |].
      * intros _. unfold tracks. cbn. replace (position f + m) with ((k + 1) * cluster_size f) by lia.
        by rewrite Z.div_mul by lia.
      * intros r f' K'. apply Hround. intros buf1 Hrest.
        eapply ftriple_bind; [by apply ftriple_device|]. unfold is_end_of_chain. cbn [cluster].
        replace (_ <=? _) with false by lia. by apply ftriple_modify.
  - exists (set_position (position f + m) f). split_and!; try done; [lia| |].
    + intros _. unfold tracks. cbn.
      replace (position f + m) with (k * cluster_size f + (o + m)) by lia.
      rewrite Z.div_add_l, Z.div_small, Z.add_0_r by lia. exact Htr.
    + intros r f' K'. by apply Hround.
Qed.

Lemma read_loop_triple cs c0 fuel : forall f total done_ boff buf,
  Forall sector_ok K -> geometry f n K -> chain (fat_start f) n K c0 cs ->
  0 <= position f -> (position f < cluster_size f * len cs -> tracks f cs) ->
  0 <= done_ <= total -> total - done_ <= Z.of_nat fuel ->
  position f + (total - done_) <= cluster_size f * len cs ->
  0 <= boff -> boff + (total - done_) <= len buf ->
  exists f',
    ftriple (D:=D) f K (read_loop fuel total done_ boff buf)
      (Ok (total, splice buf boff (slice (contents f K cs) (position f) (total - done_)))) f' K /\
    same_place f f' /\ size f' = size f /\ position f' = position f + (total - done_) /\
    (position f' < cluster_size f * len cs -> tracks f' cs).
Proof.
  induction fuel as [|fuel IH]; intros f total done_ boff buf HK Hg Hch Hp Htr Hdone Hfuel Hcap Hb Hbuf.
  { assert (done_ = total) as -> by lia. exists f. cbn. replace (total <? total) with false by lia.
    rewrite Z.sub_diag, slice_nil, splice_nil. split; [apply ftriple_ret|]. by rewrite Z.add_0_r. }
  destruct (decide (done_ = total)) as [->|Hne].
  { exists f. cbn. replace (total <? total) with false by lia.
    rewrite Z.sub_diag, slice_nil, splice_nil. split; [apply ftriple_ret|]. by rewrite Z.add_0_r. }
  destruct (read_round cs c0 fuel f total done_ boff buf) as (f1 & Hsp & Hsz & Hp1 & Hm & Htr1 & Hstep);
    [done..|by apply Htr; lia|lia|done|].
  set (m := Z.min _ _) in *. pose proof Hsp as (Ecs & Efat & _).
  assert (m <= total - done_) by lia. clearbody m.
  assert (len (slice (contents f K cs) (position f) m) = m) as Hlen.
  { apply len_slice; [lia..|]. rewrite (len_contents f n K Hg); [lia|done|by eapply chain_range]. }
  destruct (IH f1 total (done_ + m) (boff + m)
    (splice buf boff (slice (contents f K cs) (position f) m))) as (f' & Hrun & Hsp' & Hsz' & Hp' & Htr').
  all: rewrite ?Ecs, ?Efat; try done; try lia.
  - by eapply same_place_geometry.
  - rewrite len_splice; lia.
  - exists f'. split_and!.
    + apply Hstep. rewrite (same_place_contents f f1), Hp1 in Hrun by done.
      replace (total - done_) with (m + (total - (done_ + m))) by lia.
      assert (len (slice (contents f K cs) (position f + m) (total - (done_ + m))) = total - (done_ + m))
        as Hlen2.
      { apply len_slice; [lia..|]. rewrite (len_contents f n K Hg); [lia|done|by eapply chain_range]. }
      rewrite slice_split, splice_split by (rewrite ?Hlen, ?Hlen2; lia). by rewrite Hlen.
    + by eapply same_place_trans.
    + congruence.
    + lia.
    + by rewrite <- Ecs.
Qed.
End reading.

(** ** Writing in place *)

(** Sector [i] belongs to none of the clusters. *)
Definition outside (f : Fat16File) (cs : list Z) (i : Z) : Prop :=
  forall c, c ∈ cs -> i < first_sector f c \/ first_sector f c + spc f <= i.

(** [src] was written at the cursor: the contents of the chain are those of
    before with [src] copied in, the cursor is after it, nothing else on the
    disk changed. *)
Record wrote (cs : list Z) (src : list Z) (f : Fat16File) (K : list (list Z))
    (f' : Fat16File) (K' : list (list Z)) : Prop := {
  wr_place : same_place f f';
  wr_pos : position f' = position f + len src;
  wr_size : size f' = Z.max (size f) (position f');
  wr_tracks : tracks f' cs;
  wr_contents : contents f K' cs = splice (contents f K cs) (position f) src;
  wr_len : len K' = len K;
  wr_sectors : Forall sector_ok K';
  wr_frame : forall i, 0 <= i -> outside f cs i -> idx K' i = idx K i
}.

Lemma same_place_outside f f' cs i : same_place f f' -> outside f cs i -> outside f' cs i.
Proof. intros (E1 & E2 & E3 & _). unfold outside, first_sector, spc. by rewrite E1, E3. Qed.

Lemma wrote_nil cs f K :
  position f <= size f -> tracks f cs -> Forall sector_ok K -> wrote cs [] f K f K.
Proof.
  intros Hp Htr HK. split; try done; unfold len; cbn; [lia|lia|]. by rewrite splice_nil.
Qed.

Lemma wrote_app cs s1 s2 f K f1 K1 f2 K2 :
  0 <= position f -> position f + len s1 + len s2 <= len (contents f K cs) ->
  wrote cs s1 f K f1 K1 -> wrote cs s2 f1 K1 f2 K2 -> wrote cs (s1 ++ s2) f K f2 K2.
Proof.
  intros Hp Hl H1 H2. pose proof (len_nonneg s2). destruct H1, H2. split; try done.
  - by eapply same_place_trans.
  - rewrite len_app. lia.
  - lia.
  - rewrite splice_split by lia. rewrite <- wr_contents0.
    rewrite <- !(same_place_contents f f1) by done. by rewrite <- wr_pos0.
  - lia.
  - intros i Hi Ho. rewrite wr_frame1 by (try done; by eapply same_place_outside). by apply wr_frame0.
Qed.

Section writing.
Context {D : Type} `{BlockDeviceLaws D}.
Context (n : Z).

Lemma len_chunks f data : 0 < spc f -> len (chunks f data) = spc f.
Proof. intros. unfold chunks, len. rewrite length_map, length_range. lia. Qed.

(** The disk with bytes copied into cluster number [k] of the chain. *)
Lemma put_bytes f K cs k c o src :
  geometry f n K -> Forall sector_ok K -> Forall (fun c => 2 <= c < n) cs -> NoDup cs ->
  0 <= k -> idx cs k = Some c -> 0 <= o -> o + len src <= cluster_size f ->
  let K' := splice K (first_sector f c) (chunks f (splice (cluster_bytes f K c) o src)) in
  contents f K' cs = splice (contents f K cs) (k * cluster_size f + o) src /\
  len K' = len K /\ Forall sector_ok K' /\ (forall i, 0 <= i -> outside f cs i -> idx K' i = idx K i).
Proof.
  intros Hg HK Hcs Hnd Hk Hc Ho Hlen K'. pose proof (len_nonneg src).
  assert (c ∈ cs) as Hin by (apply list_elem_of_lookup; eauto).
  pose proof (proj1 (Forall_forall _ _) Hcs c Hin) as Hcr. cbn in Hcr.
  pose proof (first_sector_range f n K Hg c Hcr). pose proof (ge_spc _ _ _ Hg).
  pose proof (len_cluster_bytes f n K Hg c HK Hcr) as Hcb.
  set (data := splice (cluster_bytes f K c) o src) in *.
  assert (len data = cluster_size f) as Hdata by (unfold data; rewrite len_splice; lia).
  assert (len (chunks f data) = spc f) as Hch by by apply len_chunks.
  split_and!.
  - unfold contents. rewrite (splice_concat (cluster_size f) _ k (cluster_bytes f K c)); try done.
    + f_equal. apply idx_ext. intros i Hi. rewrite idx_map. destruct (decide (i = k)) as [->|Hne].
      * rewrite idx_upd_eq, Hc by (unfold len; rewrite length_map; eapply idx_Some_lt in Hc; unfold len in *; lia).
        cbn. f_equal. by apply (cluster_bytes_written f n K Hg).
      * rewrite idx_upd_ne, idx_map by done. destruct (idx cs i) as [c'|] eqn:Hc'; [|done]. cbn. f_equal.
        assert (c' ∈ cs) as Hin' by (apply list_elem_of_lookup; eauto).
        apply (cluster_bytes_other f n K Hg); try done; [exact (proj1 (Forall_forall _ _) Hcs c' Hin')|].
        intros ->. unfold idx in *. pose proof (NoDup_lookup _ _ _ _ Hnd Hc Hc'). lia.
    + by eapply blocks_ok.
    + by rewrite idx_map, Hc.
  - apply len_splice; lia.
  - unfold K', splice. apply Forall_app_2; [by apply Forall_take|].
    apply Forall_app_2; [|by apply Forall_drop]. apply Forall_forall. intros b.
    rewrite list_elem_of_In. unfold chunks. rewrite in_map_iff. intros (i & <- & Hi).
    apply list_elem_of_In, elem_of_range in Hi. destruct Hg. apply len_slice; unfold SECTOR_SIZE in *; nia.
  - intros i Hi Hout. specialize (Hout c Hin). apply idx_splice_out; lia.
Qed.
(** The table lies outside the data area. *)
Lemma table_outside f K cs c :
  geometry f n K -> Forall (fun c => 2 <= c < n) cs -> 2 <= c < n ->
  0 <= fat_start f + fat_sector c /\ outside f cs (fat_start f + fat_sector c).
Proof.
  intros Hg Hcs Hc. pose proof (ge_table _ _ _ Hg c Hc). pose proof (ge_fat _ _ _ Hg).
  assert (0 <= fat_sector c) by (unfold fat_sector, FAT_ENTRY_SIZE, SECTOR_SIZE; dlia).
  split; [lia|]. intros c' Hc'. pose proof (proj1 (Forall_forall _ _) Hcs c' Hc') as Hr. cbn in Hr.
  left. pose proof (ge_spc _ _ _ Hg). unfold first_sector. nia.
Qed.

Lemma chain_outside f K K' c0 cs :
  geometry f n K -> chain (fat_start f) n K c0 cs ->
  (forall i, 0 <= i -> outside f cs i -> idx K' i = idx K i) -> chain (fat_start f) n K' c0 cs.
Proof.
  intros Hg Hch Hframe. pose proof (chain_range _ _ _ _ _ Hch) as Hcs.
  eapply chain_frame; [done|]. intros x Hx. pose proof (proj1 (Forall_forall _ _) Hcs x Hx) as Hr.
  destruct (table_outside f K cs x Hg Hcs Hr) as [H1 H2].
  unfold fat_get, sector_at. by rewrite Hframe.
Qed.

Lemma geometry_len f K K' : len K' = len K -> geometry f n K -> geometry f n K'.
Proof. intros E []. split; try done. by rewrite E. Qed.

(** What a round does after its chunk is on the disk: [f] is the file before
    the round, [done_] counts the chunk. *)
Definition write_tail (fuel : nat) (f : Fat16File) (buf : list Z) (cluster_end done_ : Z)
    : M (Fat16File * D) FsError Z :=
  if cluster_end =? cluster_size f then
    let! fat_entry := on_device (read_fat_entry f (current_cluster f)) in
    (if is_end_of_chain fat_entry then
      let! new_cluster := on_device (allocate_cluster f) in
      on_device (write_fat_entry f (current_cluster f) (mkFatEntry new_cluster)) ;!
      modify (set_current_cluster new_cluster)
    else modify (set_current_cluster (FatLayout.cluster fat_entry))) ;!
    write_loop fuel buf done_ done_
  else write_loop fuel buf done_ done_.

(** The chunk of a round. *)
Definition chunk (f : Fat16File) (buf : list Z) (done_ : Z) : Z :=
  Z.min (cluster_size f - position f mod cluster_size f) (len buf - done_).
Definition after_chunk (f : Fat16File) (m : Z) : Fat16File :=
  set_size (Z.max (size f) (position f + m)) (set_position (position f + m) f).

Lemma write_chunk cs c0 fuel f K buf done_ :
  geometry f n K -> Forall sector_ok K -> chain (fat_start f) n K c0 cs ->
  0 <= position f < cluster_size f * len cs -> tracks f cs -> 0 <= done_ < len buf ->
  let m := chunk f buf done_ in
  exists K1,
    1 <= m <= len buf - done_ /\
    contents f K1 cs = splice (contents f K cs) (position f) (slice buf done_ m) /\
    len K1 = len K /\ Forall sector_ok K1 /\ (forall i, 0 <= i -> outside f cs i -> idx K1 i = idx K i) /\
    forall r f' K',
      ftriple (after_chunk f m) K1 (write_tail fuel f buf (position f mod cluster_size f + m) (done_ + m)) r f' K' ->
      ftriple f K (write_loop (S fuel) buf done_ done_) r f' K'.
Proof.
  intros Hg HK Hch Hp Htr Hdone m.
  destruct (cursor n K f cs Hg ltac:(lia)) as (Hcs & Hk & Ho & Hpos). unfold chunk in m.
  set (k := position f / cluster_size f) in *. set (o := position f mod cluster_size f) in *.
  destruct (chain_step _ _ _ _ _ k _ Hch ltac:(lia) Htr) as [Hx _]. pose proof (ge_width _ _ _ Hg).
  assert (len (slice buf done_ m) = m) as Hlen by (apply len_slice; lia).
  destruct (put_bytes f K cs k (current_cluster f) o (slice buf done_ m))
    as (Hcont & HlenK & HK1 & Hframe); try done; try lia;
    [by eapply chain_range|by eapply chain_NoDup|].
  rewrite <- Hpos in Hcont. eexists. split_and!; [lia|lia|exact Hcont|exact HlenK|exact HK1|exact Hframe|].
  intros r f' K' Htail. cbn [write_loop]. replace (done_ <? len buf) with true by lia. cbn [negb].
  apply ftriple_self. apply ftriple_rem; [lia|]. fold o.
  eapply ftriple_bind; [apply ftriple_device, file_cluster_to_sector_triple; lia|].
  eapply ftriple_bind; [apply ftriple_device, (read_cluster_triple f n K Hg); lia|].
  eapply ftriple_bind; [apply ftriple_device, (write_cluster_triple f n K Hg); [done|]|].
  { fold m. rewrite len_splice; rewrite ?(len_cluster_bytes f n K Hg), ?Hlen by done; lia. }
  fold m. apply ftriple_modify. apply ftriple_modify. exact Htail.
Qed.

(** The cursor after a chunk that stops inside the chain. *)
Lemma next_cursor cs c0 f K m :
  geometry f n K -> chain (fat_start f) n K c0 cs -> 0 <= position f -> tracks f cs ->
  0 <= m -> position f mod cluster_size f + m <= cluster_size f ->
  position f + m < cluster_size f * len cs ->
  if position f mod cluster_size f + m =? cluster_size f
  then fat_get (fat_start f) K (current_cluster f) < 0xFFF8 /\
       idx cs ((position f + m) / cluster_size f) = Some (fat_get (fat_start f) K (current_cluster f))
  else idx cs ((position f + m) / cluster_size f) = Some (current_cluster f).
Proof.
  intros Hg Hch Hp Htr Hm Hle Hcap.
  destruct (cursor n K f cs Hg ltac:(lia)) as (Hcs & Hk & Ho & Hpos).
  set (k := position f / cluster_size f) in *. set (o := position f mod cluster_size f) in *.
  destruct (chain_step _ _ _ _ _ k _ Hch ltac:(lia) Htr) as [Hx Hnext].
  destruct (o + m =? cluster_size f) eqn:Eend.
  - destruct Hnext as [[Hlast _]|[Hlt Hnext]]; [exfalso; nia|].
    replace (position f + m) with ((k + 1) * cluster_size f) by lia. by rewrite Z.div_mul by lia.
  - replace (position f + m) with (k * cluster_size f + (o + m)) by lia.
    rewrite Z.div_add_l, Z.div_small, Z.add_0_r by lia. exact Htr.
Qed.

(** One round of the write loop that stops inside the chain. *)
Lemma write_round cs c0 fuel f K buf done_ :
  geometry f n K -> Forall sector_ok K -> chain (fat_start f) n K c0 cs ->
  0 <= position f -> position f <= size f -> tracks f cs -> 0 <= done_ < len buf ->
  let m := chunk f buf done_ in
  position f + m < cluster_size f * len cs ->
  exists f1 K1,
    1 <= m <= len buf - done_ /\ wrote cs (slice buf done_ m) f K f1 K1 /\
    forall r f' K',
      ftriple (D:=D) f1 K1 (write_loop fuel buf (done_ + m) (done_ + m)) r f' K' ->
      ftriple f K (write_loop (S fuel) buf done_ done_) r f' K'.
Proof.
  intros Hg HK Hch Hp Hsz Htr Hdone m Hcap.
  assert (0 <= m /\ position f mod cluster_size f + m <= cluster_size f) as [Hm0 Hle].
  { unfold m, chunk. pose proof (cluster_size_pos f n K Hg).
    pose proof (Z.mod_pos_bound (position f) (cluster_size f)). lia. }
  destruct (write_chunk cs c0 fuel f K buf done_) as (K1 & Hm & Hcont & HlK & HK1 & Hframe & Hround);
    try done; try lia. fold m in Hm, Hcont, Hround.
  pose proof (next_cursor cs c0 f K m Hg Hch Hp Htr Hm0 Hle Hcap) as Hcur.
  assert (len (slice buf done_ m) = m) as Hlen by (apply len_slice; lia).
  assert (forall f2, same_place f f2 -> position f2 = position f + m ->
    size f2 = Z.max (size f) (position f + m) -> tracks f2 cs ->
    wrote cs (slice buf done_ m) f K f2 K1) as Hwrote.
  { intros f2 Hsp E1 E2 Htr2. split; try done; rewrite ?Hlen, ?E2; lia. }
  unfold write_tail in Hround. destruct (_ + m =? _) eqn:Eend.
  - destruct Hcur as [Hlt Hnext]. pose proof (cluster_size_pos f n K Hg).
    destruct (chain_step _ _ _ _ _ (position f / cluster_size f) _ Hch (Z.div_pos _ _ Hp ltac:(done)) Htr)
      as [Hx _].
    exists (set_current_cluster (fat_get (fat_start f) K (current_cluster f)) (after_chunk f m)), K1.
    split_and!; [lia|lia|by apply Hwrote|].
    intros r f' K' Hrest. apply Hround.
    eapply ftriple_bind; [apply ftriple_device, (file_read_fat_entry_triple n K1); [by eapply geometry_len|done]|].
    destruct (table_outside f K cs (current_cluster f) Hg (chain_range _ _ _ _ _ Hch) Hx) as [Hto1 Hto2].
    assert (fat_get (fat_start f) K1 (current_cluster f) = fat_get (fat_start f) K (current_cluster f))
      as -> by (unfold fat_get, sector_at; by rewrite Hframe).
    unfold is_end_of_chain. cbn [cluster]. replace (_ <=? _) with false by lia. by apply ftriple_modify.
  - exists (after_chunk f m), K1. split_and!; [lia|lia|by apply Hwrote|]. intros r f' K' Hrest. by apply Hround.
Qed.

Lemma write_loop_triple cs c0 fuel : forall f K buf done_,
  geometry f n K -> Forall sector_ok K -> chain (fat_start f) n K c0 cs ->
  0 <= position f -> position f <= size f -> tracks f cs -> 0 <= done_ <= len buf ->
  len buf - done_ <= Z.of_nat fuel ->
  position f + (len buf - done_) < cluster_size f * len cs ->
  exists f' K',
    ftriple (D:=D) f K (write_loop fuel buf done_ done_) (Ok (len buf)) f' K' /\
    wrote cs (slice buf done_ (len buf - done_)) f K f' K'.
Proof.
  induction fuel as [|fuel IH]; intros f K buf done_ Hg HK Hch Hp Hsz Htr Hdone Hfuel Hcap.
  { assert (done_ = len buf) as -> by lia. exists f, K. cbn. replace (_ <? _) with false by lia.
    rewrite Z.sub_diag, slice_nil. split; [apply ftriple_ret|by apply wrote_nil]. }
  destruct (decide (done_ = len buf)) as [->|Hne].
  { exists f, K. cbn. replace (_ <? _) with false by lia.
    rewrite Z.sub_diag, slice_nil. split; [apply ftriple_ret|by apply wrote_nil]. }
  destruct (write_round cs c0 fuel f K buf done_) as (f1 & K1 & Hm & Hw & Hstep);
    [done..|lia|unfold chunk; lia|].
  set (m := chunk _ _ _) in *. clearbody m.
  assert (len (slice buf done_ m) = m) as Hlen by (apply len_slice; lia).
  pose proof Hw as [(Ecs & Efat & Erest) Hp1 Hsz1 Htr1 _ HlK HK1 Hframe].
  destruct (IH f1 K1 buf (done_ + m)) as (f' & K' & Hrun & Hw'); rewrite ?Ecs, ?Efat; try done; try lia.
  - eapply geometry_len; [done|]. by eapply same_place_geometry.
  - by eapply chain_outside.
  - exists f', K'. split; [by apply Hstep|].
    replace (len buf - done_) with (m + (len buf - (done_ + m))) by lia. rewrite slice_split by lia.
    eapply wrote_app; [done| |done|done].
    rewrite Hlen, len_slice by lia. rewrite (len_contents f n K Hg); [lia|done|by eapply chain_range].
Qed.
(** ** The end of the chain *)

(** The file's own allocator takes [data_start / cluster_size] for the number
    of clusters; when that is at most 2 it looks at no cluster at all. *)
Lemma allocate_cluster_none f K :
  cluster_size f <> 0 -> wrap 16 (data_start f / cluster_size f) <= 2 ->
  dtriple (D:=D) K (allocate_cluster f) (Err NoSpace) K.
Proof.
  intros Hcs Hn. unfold allocate_cluster. eapply dtriple_bind; [by apply dtriple_div|].
  rewrite range_nil by done. eapply (dtriple_bind _ _ _ _ _ None); [apply dtriple_ret|apply dtriple_err].
Qed.

(** A round whose chunk ends the last cluster fails. *)
Lemma write_round_end cs c0 fuel f K buf done_ :
  geometry f n K -> Forall sector_ok K -> chain (fat_start f) n K c0 cs ->
  wrap 16 (data_start f / cluster_size f) <= 2 ->
  0 <= position f -> tracks f cs -> 0 <= done_ < len buf ->
  let m := chunk f buf done_ in
  position f + m = cluster_size f * len cs ->
  exists K1,
    ftriple (D:=D) f K (write_loop (S fuel) buf done_ done_) (Err NoSpace) (after_chunk f m) K1 /\
    contents f K1 cs = splice (contents f K cs) (position f) (slice buf done_ m) /\
    (forall i, 0 <= i -> outside f cs i -> idx K1 i = idx K i).
Proof.
  intros Hg HK Hch Hsmall Hp Htr Hdone m Hcap. pose proof (cluster_size_pos f n K Hg).
  pose proof (Z.mod_pos_bound (position f) (cluster_size f)).
  assert (1 <= m) by (unfold m, chunk; lia).
  destruct (write_chunk cs c0 fuel f K buf done_) as (K1 & Hm & Hcont & HlK & HK1 & Hframe & Hround);
    try done; try lia. fold m in Hm, Hcont, Hround.
  exists K1. split_and!; [|done|done]. apply Hround.
  destruct (cursor n K f cs Hg ltac:(lia)) as (_ & Hk & Ho & Hpos).
  set (k := position f / cluster_size f) in *. set (o := position f mod cluster_size f) in *.
  assert (o + m = cluster_size f /\ k + 1 = len cs) as [Hend Hlast].
  { assert (o + m <= cluster_size f) by (unfold m, chunk; fold o; lia). nia. }
  destruct (chain_step _ _ _ _ _ k _ Hch ltac:(lia) Htr) as [Hx [[_ Heoc]|[_ Hnext]]].
  2: { apply idx_Some_lt in Hnext; lia. }
  destruct (table_outside f K cs (current_cluster f) Hg (chain_range _ _ _ _ _ Hch) Hx) as [Hto1 Hto2].
  unfold write_tail. rewrite Hend, Z.eqb_refl.
  eapply ftriple_bind; [apply ftriple_device, (file_read_fat_entry_triple n K1); [by eapply geometry_len|done]|].
  unfold is_end_of_chain. cbn [cluster].
  assert (fat_get (fat_start f) K1 (current_cluster f) = fat_get (fat_start f) K (current_cluster f))
    as -> by (unfold fat_get, sector_at; by rewrite Hframe).
  replace (_ <=? _) with true by lia. apply ftriple_bind_err, ftriple_bind_err, ftriple_device.
  apply allocate_cluster_none; [lia|done].
Qed.

Lemma write_loop_full cs c0 fuel : forall f K buf done_,
  geometry f n K -> Forall sector_ok K -> chain (fat_start f) n K c0 cs ->
  wrap 16 (data_start f / cluster_size f) <= 2 ->
  0 <= position f -> position f <= size f -> tracks f cs -> 0 <= done_ < len buf ->
  len buf - done_ <= Z.of_nat fuel ->
  position f < cluster_size f * len cs <= position f + (len buf - done_) ->
  exists f' K',
    ftriple (D:=D) f K (write_loop fuel buf done_ done_) (Err NoSpace) f' K' /\
    contents f K' cs =
      splice (contents f K cs) (position f) (slice buf done_ (cluster_size f * len cs - position f)) /\
    (forall i, 0 <= i -> outside f cs i -> idx K' i = idx K i).
Proof.
  induction fuel as [|fuel IH]; intros f K buf done_ Hg HK Hch Hsmall Hp Hsz Htr Hdone Hfuel Hcap; [lia|].
  pose proof (cluster_size_pos f n K Hg). set (m := chunk f buf done_).
  destruct (cursor n K f cs Hg ltac:(lia)) as (_ & Hk & Ho & Hpos).
  assert (1 <= m <= len buf - done_ /\ position f + m <= cluster_size f * len cs) as [Hm Hmc].
  { unfold m, chunk. nia. }
  destruct (decide (position f + m = cluster_size f * len cs)) as [Hend|Hne].
  { destruct (write_round_end cs c0 fuel f K buf done_) as (K1 & Hrun & Hcont & Hframe); try done.
    exists (after_chunk f m), K1. split_and!; [done| |done].
    replace (cluster_size f * len cs - position f) with m by lia. done. }
  destruct (write_round cs c0 fuel f K buf done_) as (f1 & K1 & _ & Hw & Hstep); try done.
  { fold m. lia. }
  fold m in Hw, Hstep. clearbody m.
  assert (len (slice buf done_ m) = m) as Hlen by (apply len_slice; lia).
  pose proof Hw as [Hsp Hp1 Hsz1 Htr1 Hc1 HlK HK1 Hframe]. pose proof Hsp as (Ecs & Efat & Edata & _).
  destruct (IH f1 K1 buf (done_ + m)) as (f' & K' & Hrun & Hc' & Hf');
    rewrite ?Ecs, ?Efat, ?Edata; try done; try lia.
  - eapply geometry_len; [done|]. by eapply same_place_geometry.
  - by eapply chain_outside.
  - exists f', K'. split_and!; [by apply Hstep| |].
    + rewrite !(same_place_contents f f1) in Hc' by done. rewrite Hc', Hc1, Hp1, Hlen, Ecs.
      replace (cluster_size f * len cs - position f)
        with (m + (cluster_size f * len cs - (position f + m))) by lia.
      rewrite slice_split by lia. rewrite splice_split; rewrite ?Hlen; try done.
      rewrite len_slice by lia. rewrite (len_contents f n K Hg); [lia|done|by eapply chain_range].
    + intros i Hi Hout. rewrite Hf' by (try done; by eapply same_place_outside). by apply Hframe.
Qed.

(** ** The directory entry *)

(** Where the file's directory entry is: a 32-byte slot of a sector that is
    neither in the table nor in the file. *)
Record entry_ok (f : Fat16File) (cs : list Z) (K : list (list Z)) : Prop := {
  en_range : 0 <= entry_position f / SECTOR_SIZE < len K;
  en_slot : entry_position f mod SECTOR_SIZE + DIR_ENTRY_SIZE <= SECTOR_SIZE;
  en_outside : outside f cs (entry_position f / SECTOR_SIZE)
}.

(** The disk with the size in the directory entry replaced. *)
Definition put_size (f : Fat16File) (K : list (list Z)) (sz : Z) : list (list Z) :=
  upd K (entry_position f / SECTOR_SIZE)
    (splice (sector_at K (entry_position f / SECTOR_SIZE))
       (entry_position f mod SECTOR_SIZE + 28) (to_le4 (wrap 32 sz))).

Lemma update_directory_entry_triple f cs K sz :
  entry_ok f cs K -> dtriple (D:=D) K (update_directory_entry f sz) (Ok tt) (put_size f K sz).
Proof.
  intros [Hr Hslot _]. apply dtriple_sectors. intros HK. unfold update_directory_entry.
  eapply dtriple_bind; [apply dtriple_read; [lia|done|apply sector_at_idx; lia]|].
  apply dtriple_write; [done|]. pose proof (sector_at_ok K HK _ Hr) as Hs. unfold sector_ok in *.
  unfold SECTOR_SIZE, DIR_ENTRY_SIZE in *. change (len (to_le4 (wrap 32 sz))) with 4.
  rewrite len_splice; [done|dlia|]. change (len (to_le4 (wrap 32 sz))) with 4. lia.
Qed.

(** The entry then carries the size. *)
Lemma put_size_read f cs K sz :
  entry_ok f cs K -> Forall sector_ok K -> 0 <= sz < 2 ^ 32 ->
  le4_at (sector_at (put_size f K sz) (entry_position f / SECTOR_SIZE))
    (entry_position f mod SECTOR_SIZE + 28) = sz.
Proof.
  intros [Hr Hslot _] HK Hsz. unfold put_size. rewrite sector_at_upd_eq by done.
  pose proof (sector_at_ok K HK _ Hr) as Hs. unfold sector_ok in *.
  unfold SECTOR_SIZE, DIR_ENTRY_SIZE in *. rewrite (wrap_small 32) by done.
  set (o := entry_position f mod 512) in *. assert (0 <= o) by (unfold o; dlia).
  unfold le4_at, byte_at. change (to_le4 sz) with ([sz mod 256; (sz / 256) mod 256;
    (sz / 65536) mod 256; (sz / 16777216) mod 256]).
  rewrite !idx_splice_in; try (change (len [_; _; _; _]) with 4; lia).
  replace (o + 28 - (o + 28)) with 0 by lia. replace (o + 28 + 1 - (o + 28)) with 1 by lia.
  replace (o + 28 + 2 - (o + 28)) with 2 by lia. replace (o + 28 + 3 - (o + 28)) with 3 by lia.
  by apply of_to_le4.
Qed.

(** Nothing else changes, in particular not the file. *)
Lemma put_size_outside f K sz i :
  0 <= i -> i <> entry_position f / SECTOR_SIZE -> 0 <= entry_position f / SECTOR_SIZE ->
  idx (put_size f K sz) i = idx K i.
Proof. intros. apply idx_upd_ne; lia. Qed.
Lemma contents_put_size f cs K sz :
  geometry f n K -> Forall (fun c => 2 <= c < n) cs -> entry_ok f cs K ->
  contents f (put_size f K sz) cs = contents f K cs.
Proof.
  intros Hg Hcs [Hr _ Hout]. unfold contents. f_equal. apply map_ext_in. intros c Hc.
  apply list_elem_of_In in Hc. pose proof (proj1 (Forall_forall _ _) Hcs c Hc) as Hcr. cbn in Hcr.
  pose proof (first_sector_range f n K Hg c Hcr). specialize (Hout c Hc).
  unfold cluster_bytes, cluster_sectors. f_equal. apply slice_upd_other; try lia.
  pose proof (ge_spc _ _ _ Hg). lia.
Qed.
End writing.

(** ** Reading and writing an open file *)

Section file_io.
Context {D : Type} `{BlockDeviceLaws D}.

(** A file opened on a chain of clusters of a device. *)
Record opened (f : Fat16File) (n c0 : Z) (cs : list Z) (d : D) : Prop := {
  op_dev : dev_ok d;
  op_geometry : geometry f n (disk d);
  op_chain : chain (fat_start f) n (disk d) c0 cs;
  op_pos : 0 <= position f <= size f;
  op_cap : size f <= cluster_size f * len cs;
  op_tracks : position f < cluster_size f * len cs -> tracks f cs
}.

Lemma read_spec f n c0 cs d buf :
  opened f n c0 cs d ->
  let m := Z.min (len buf) (size f - position f) in
  exists f' d',
    read_with_device buf (f, d) =
      (Ok (m, splice buf 0 (slice (contents f (disk d) cs) (position f) m)), (f', d')) /\
    disk d' = disk d /\ position f' = position f + m /\ size f' = size f /\ opened f' n c0 cs d'.
Proof.
  intros [Hd Hg Hch Hp Hcap Htr] m. pose proof (dev_sectors d Hd) as HK. pose proof (len_nonneg buf).
  unfold read_with_device, bind, self_. destruct (size f <=? position f) eqn:E.
  { assert (m = 0) as -> by lia. exists f, d. rewrite slice_nil, splice_nil, Z.add_0_r.
    by split_and!. }
  destruct (read_loop_triple n (disk d) cs c0 (Z.to_nat m) f m 0 0 buf)
    as (f' & Hrun & Hsp & Hsz & Hpos & Htr'); try done; try lia.
  destruct (Hrun d Hd eq_refl) as (d' & E' & Hd' & HK'). fold m. rewrite E'.
  exists f', d'. rewrite Z.sub_0_r in *. pose proof Hsp as (Ecs & Efat & _).
  split_and!; try done. split; rewrite ?HK', ?Efat, ?Ecs; try done; try lia.
  by eapply same_place_geometry.
Qed.

(** The directory entry is not in the table. *)
Definition entry_off_table (f : Fat16File) (n : Z) : Prop :=
  forall c, 2 <= c < n -> fat_start f + fat_sector c <> entry_position f / SECTOR_SIZE.

(** What a write inside the chain did to the disk. *)
Record written (cs : list Z) (buf : list Z) (f : Fat16File) (d : D) (f' : Fat16File) (d' : D) : Prop := {
  wn_place : same_place f f';
  wn_pos : position f' = position f + len buf;
  wn_size : size f' = Z.max (size f) (position f + len buf);
  wn_contents : contents f (disk d') cs = splice (contents f (disk d) cs) (position f) buf;
  wn_entry : le4_at (sector_at (disk d') (entry_position f / SECTOR_SIZE))
      (entry_position f mod SECTOR_SIZE + 28) = size f';
  wn_frame : forall i, 0 <= i -> outside f cs i -> i <> entry_position f / SECTOR_SIZE ->
       idx (disk d') i = idx (disk d) i
}.

Lemma write_spec f n c0 cs d buf :
  opened f n c0 cs d -> entry_ok f cs (disk d) -> entry_off_table f n ->
  position f + len buf < cluster_size f * len cs -> cluster_size f * len cs < 2 ^ 32 ->
  exists f' d',
    write_with_device buf (f, d) = (Ok (len buf), (f', d')) /\
    written cs buf f d f' d' /\ opened f' n c0 cs d' /\ len (disk d') = len (disk d).
Proof.
  intros [Hd Hg Hch Hp Hcap Htr] Hen Hoff Hfit Hbig. pose proof (dev_sectors d Hd) as HK.
  pose proof (len_nonneg buf).
  destruct (write_loop_triple n cs c0 (length buf) f (disk d) buf 0) as (f' & K' & Hrun & Hw);
    try done; try (unfold len in *; lia); [by apply Htr; lia|].
  rewrite Z.sub_0_r, (slice_all buf) in Hw by done.
  destruct Hw as [Hsp Hpos Hsz Htr' Hcont HlK HK' Hframe].
  pose proof Hsp as (Ecs & Efat & Edata & Eent & _). pose proof (chain_range _ _ _ _ _ Hch) as Hcs.
  assert (geometry f' n K') as Hg' by (eapply geometry_len; [done|]; by eapply same_place_geometry).
  assert (entry_ok f' cs K') as Hen'.
  { destruct Hen. split; rewrite ?Eent, ?HlK; try done. by eapply same_place_outside. }
  assert (ftriple f (disk d) (write_with_device buf) (Ok (len buf)) f' (put_size f' K' (size f'))) as Hall.
  { eapply ftriple_bind; [exact Hrun|]. apply ftriple_self.
    eapply ftriple_bind; [by eapply ftriple_device, update_directory_entry_triple|]. apply ftriple_ret. }
  destruct (Hall d Hd eq_refl) as (d' & E & Hd' & HKd). exists f', d'.
  assert (0 <= entry_position f' / SECTOR_SIZE) by (by destruct Hen'; lia).
  split_and!; [done|split|split|]; rewrite ?HKd; try done; try lia.
  - rewrite <- Hcont, <- (same_place_contents f f'), (contents_put_size n), (same_place_contents f f'); done.
  - rewrite <- Eent. apply (put_size_read f' cs); try done. lia.
  - intros i Hi Ho Hne. rewrite put_size_outside; [by apply Hframe|done|by rewrite Eent|done].
  - eapply geometry_len; [|done]. apply len_upd.
  - rewrite Efat. eapply chain_frame; [by eapply chain_outside|]. intros x Hx.
    pose proof (proj1 (Forall_forall _ _) Hcs x Hx) as Hxr. cbn in Hxr.
    destruct (table_outside n f (disk d) cs x Hg Hcs Hxr) as [Hx1 _].
    apply fat_get_upd; [done|done|]. rewrite Eent. by intros Heq; apply (Hoff x Hxr).
  - rewrite <- HlK. apply len_upd.
Qed.

(** C17: Reading an open file returns [min(buf.len(), size - position)] bytes,
    which are the bytes of its cluster chain at the cursor; the rest of the
    buffer, the disk and the size are unchanged, and the cursor is after the
    bytes read and still on the chain, so that the next read continues there. *)
Theorem read_with_device_ok (f : Fat16File) (n c0 : Z) (cs : list Z) (d : D) (buf : list Z) :
  opened f n c0 cs d ->
  let m := Z.min (len buf) (size f - position f) in
  exists f' d',
    read_with_device buf (f, d) =
      (Ok (m, splice buf 0 (slice (contents f (disk d) cs) (position f) m)), (f', d')) /\
    disk d' = disk d /\ position f' = position f + m /\ size f' = size f /\ opened f' n c0 cs d'.
Proof. apply read_spec. Qed.

(** C18: A write that stays inside the file's cluster chain writes the whole
    buffer: the contents of the chain are those of before with the buffer copied
    in at the cursor, the size grows if the cursor passes it and is stored in
    the directory entry, no sector outside the file's clusters and its
    directory entry changes; and reading as many bytes from where the write
    started gives the buffer back. *)
Theorem write_with_device_ok (f : Fat16File) (n c0 : Z) (cs : list Z) (d : D) (buf rbuf : list Z) :
  opened f n c0 cs d -> entry_ok f cs (disk d) -> entry_off_table f n ->
  position f + len buf < cluster_size f * len cs -> cluster_size f * len cs < 2 ^ 32 ->
  len rbuf = len buf ->
  exists f' d',
    write_with_device buf (f, d) = (Ok (len buf), (f', d')) /\
    written cs buf f d f' d' /\ opened f' n c0 cs d' /\
    fst (read_with_device rbuf (set_size (size f') f, d')) = Ok (len buf, buf).
Proof.
  intros Hop Hen Hoff Hfit Hbig Hr.
  destruct (write_spec f n c0 cs d buf) as (f' & d' & E & Hw & Hop' & Hl); try done.
  exists f', d'. split_and!; try done. destruct Hop as [Hd Hg Hch Hp Hcap Htr], Hw, Hop' as [Hd' Hg' Hch' _ _ _].
  pose proof (len_nonneg buf). pose proof wn_place0 as (Ecs & Efat & Edata & _).
  destruct (read_spec (set_size (size f') f) n c0 cs d' rbuf) as (f2 & d2 & E2 & _).
  { split; cbn; try done; try lia.
    - eapply (same_place_geometry f'); [|done]. by unfold same_place in *; cbn; intuition congruence.
    - by rewrite <- Efat. }
  rewrite E2. cbn [fst position size set_size].
  assert (Z.min (len rbuf) (size f' - position f) = len buf) as -> by lia.
  rewrite (same_place_contents f (set_size (size f') f)) by done. rewrite wn_contents0.
  assert (position f + len buf <= len (contents f (disk d) cs)).
  { rewrite (len_contents f n (disk d) Hg); [lia|by apply dev_sectors|by eapply chain_range]. }
  rewrite slice_splice_same by lia. do 2 f_equal.
  unfold splice. rewrite drop_ge by (unfold len in *; lia). by rewrite app_nil_r.
Qed.

(** A write that reaches the end of the file's cluster chain fails with
    [NoSpace] whenever the file's allocator looks at no cluster, however many
    clusters are free: the clusters already hold the data, but the directory
    entry and the rest of the disk are as before. *)
Lemma write_full_spec (f : Fat16File) (n c0 : Z) (cs : list Z) (d : D) (buf : list Z) :
  opened f n c0 cs d -> wrap 16 (data_start f / cluster_size f) <= 2 ->
  position f < cluster_size f * len cs <= position f + len buf ->
  exists f' d',
    write_with_device buf (f, d) = (Err NoSpace, (f', d')) /\
    contents f (disk d') cs =
      splice (contents f (disk d) cs) (position f) (slice buf 0 (cluster_size f * len cs - position f)) /\
    (forall i, 0 <= i -> outside f cs i -> idx (disk d') i = idx (disk d) i).
Proof.
  intros [Hd Hg Hch Hp Hcap Htr] Hsmall Hend. pose proof (dev_sectors d Hd) as HK.
  pose proof (len_nonneg buf).
  destruct (write_loop_full n cs c0 (length buf) f (disk d) buf 0) as (f' & K' & Hrun & Hc & Hf);
    try done; try (unfold len in *; lia); [by apply Htr; lia|].
  assert (ftriple f (disk d) (write_with_device buf) (Err NoSpace) f' K') as Hall
    by by apply ftriple_bind_err.
  destruct (Hall d Hd eq_refl) as (d' & E & Hd' & HKd). exists f', d'. rewrite HKd. done.
Qed.
End file_io.

End Fat16File.
