(* ===== verification/FatVolume.v ===== *)
(** * The volume ([filesys/fat16/mod.rs]: formatting, mounting, the FAT)

    [struct Fat16] without its [device] field, which is the state of the monad:
    a method that only touches the device is a computation over the device,
    with [self] as an argument. *)

From S2P Require Import Prelude BlockDev FatLayout FatSpec FatFile.

(** [struct Fat16].  [reuse_fds] is a [BinaryHeap<usize>], a max-heap; it is
    kept as the list of its elements (see [heap_pop]). *)
Record Fat16 := mkFat16 {
  boot_sector : BootSector;
  fat_start : Z;
  root_dir_start : Z;
  data_start : Z;
  cluster_size : Z;
  fd_counter : Z;
  reuse_fds : list Z;
  fd_table : list Fat16File.Fat16File
}.

(** Bytes of an ASCII string literal ([*b"..."], [str]). *)
Fixpoint bytes_of_string (s : string) : list Z :=
  match s with
  | EmptyString => []
  | String c s' => Z.of_nat (Ascii.nat_of_ascii c) :: bytes_of_string s'
  end.

Section volume.
Context {D : Type} `{BlockDevice D}.

(** [Fat16::new]. *)
Definition new : M D FsError Fat16 :=
  let! boot_sector_data := read_block 0 (vec 0 SECTOR_SIZE) in
  let boot_sector := boot_sector_of boot_sector_data in
  let fat_start := reserved_sectors boot_sector in
  let sectors_per_fat := sectors_per_fat boot_sector in
  let root_dir_start := fat_start + sectors_per_fat * fat_count boot_sector in
  let root_dir_sectors := div_ceil (ROOT_DIR_ENTRIES * 32) SECTOR_SIZE in
  let data_start := root_dir_start + root_dir_sectors in
  let cluster_size := sectors_per_cluster boot_sector * SECTOR_SIZE in
  ret (mkFat16 boot_sector fat_start root_dir_start data_start cluster_size 0 [] []).

(** The boot sector [Fat16::format] builds. *)
Definition format_boot_sector (total_blocks block_size sectors_per_fat : Z) : BootSector :=
  {| jump_boot := [0xEB; 0x3C; 0x90];
     oem_name := bytes_of_string "UTTAOS.0";
     bytes_per_sector := wrap 16 block_size;
     sectors_per_cluster := 4;
     reserved_sectors := 1;
     fat_count := 2;
     root_dir_entries := wrap 16 ROOT_DIR_ENTRIES;
     total_sectors_16 := if total_blocks <? 65536 then wrap 16 total_blocks else 0;
     media_type := 0xF8;
     sectors_per_fat := wrap 16 sectors_per_fat;
     sectors_per_track := 63;
     head_count := 255;
     hidden_sectors := 0;
     total_sectors_32 := if 65536 <=? total_blocks then wrap 32 total_blocks else 0;
     drive_number := 0x80;
     reserved1 := 0;
     boot_signature := 0x29;
     volume_id := 0x12345678;
     volume_label := bytes_of_string "NO NAME    ";
     fs_type := bytes_of_string "FAT16   " |}.

(** [Fat16::format]. *)
Definition format : M D FsError Fat16 :=
  let! device := get_state in
  let total_blocks := total_blocks device in
  let block_size := block_size device in
  let sectors_per_cluster := 4 in
  let reserved_sectors := 1 in
  let fat_count := 2 in
  let root_dir_entries := wrap 16 ROOT_DIR_ENTRIES in
  rassert (negb (block_size =? 0)) ;!
  let root_dir_sectors := div_ceil (root_dir_entries * 32) block_size in
  let! avail := chk 64 (total_blocks - reserved_sectors) in
  let! avail := chk 64 (avail - root_dir_sectors) in
  let total_clusters := avail / sectors_per_cluster in
  let sectors_per_fat := div_ceil (total_clusters * 2) block_size in
  let boot_sector := format_boot_sector total_blocks block_size sectors_per_fat in
  let boot_bytes := boot_sector_bytes boot_sector in
  let block_buf := vec 0 block_size in
  rassert (len boot_bytes <=? block_size) ;!
  let block_buf := splice block_buf 0 boot_bytes in
  rassert (510 <? block_size) ;!
  let block_buf := upd block_buf 510 0x55 in
  rassert (511 <? block_size) ;!
  let block_buf := upd block_buf 511 0xAA in
  write_block 0 block_buf ;!
  let fat_block := vec 0 block_size in
  let fat_block := upd fat_block 0 (media_type boot_sector) in
  let fat_block := upd fat_block 1 0xFF in
  let fat_block := upd fat_block 2 0xFF in
  let fat_block := upd fat_block 3 0xFF in
  for_do (range 0 fat_count) (fun i =>
    let fat_start := reserved_sectors + i * sectors_per_fat in
    write_block fat_start fat_block) ;!
  let zero_block := vec 0 block_size in
  for_do (range 0 fat_count) (fun i =>
    let fat_start := reserved_sectors + i * sectors_per_fat in
    for_do (range 1 sectors_per_fat) (fun j =>
      write_block (fat_start + j) zero_block)) ;!
  let root_dir_start := reserved_sectors + fat_count * sectors_per_fat in
  for_do (range 0 root_dir_sectors) (fun i =>
    write_block (root_dir_start + i) zero_block) ;!
  new.

(** [Fat16::read_fat_entry]. *)
Definition read_fat_entry (self : Fat16) (cluster : Z) : M D FsError FatEntry :=
  let offset := cluster * FAT_ENTRY_SIZE in
  let sector := fat_start self + offset / SECTOR_SIZE in
  let sector_offset := offset mod SECTOR_SIZE in
  let! sector_data := read_block sector (vec 0 SECTOR_SIZE) in
  let! b0 := expect (idx sector_data sector_offset) in
  let! b1 := expect (idx sector_data (sector_offset + 1)) in
  ret (mkFatEntry (of_le2 b0 b1)).

(** [Fat16::write_fat_entry]: both copies of the table. *)
Definition write_fat_entry (self : Fat16) (cluster : Z) (entry : FatEntry) : M D FsError unit :=
  let offset := cluster * FAT_ENTRY_SIZE in
  let sector := fat_start self + offset / SECTOR_SIZE in
  let sector_offset := offset mod SECTOR_SIZE in
  let! sector_data := read_block sector (vec 0 SECTOR_SIZE) in
  let bytes := to_le2 (FatLayout.cluster entry) in
  let sector_data := upd sector_data sector_offset (byte_at bytes 0) in
  let sector_data := upd sector_data (sector_offset + 1) (byte_at bytes 1) in
  write_block sector sector_data ;!
  if 1 <? fat_count (boot_sector self) then
    let second_fat_sector := sector + sectors_per_fat (boot_sector self) in
    write_block second_fat_sector sector_data
  else ret tt.

(** [Fat16::allocate_cluster]: the subtraction of [usize] is checked. *)
Definition allocate_cluster (self : Fat16) : M D FsError Z :=
  let! avail := chk 64 (total_sectors_16 (boot_sector self) - data_start self) in
  let! total_clusters := div_chk avail (sectors_per_cluster (boot_sector self)) in
  let! r := for_each (range 2 (wrap 16 total_clusters)) (fun cluster =>
    let! entry := read_fat_entry self cluster in
    if is_free_cluster entry then
      write_fat_entry self cluster (mkFatEntry 0xFFFF) ;!
      ret (Some cluster)
    else ret None) in
  match r with
  | Some cluster => ret cluster
  | None => err NotSupported
  end.

(** [Fat16::cluster_to_sector]: [cluster as u64 - 2] is checked. *)
Definition cluster_to_sector (self : Fat16) (cluster : Z) : M D FsError Z :=
  let! k := chk 64 (cluster - 2) in
  ret (data_start self + k * sectors_per_cluster (boot_sector self)).
End volume.

(** ** Geometry of a mounted volume *)

(** The number of clusters [allocate_cluster] considers. *)
Definition n_clusters (fs : Fat16) : Z :=
  (total_sectors_16 (boot_sector fs) - data_start fs) / sectors_per_cluster (boot_sector fs).

Definition spf (fs : Fat16) : Z := sectors_per_fat (boot_sector fs).

(** The regions of the volume follow each other and lie on the disk, and the
    table has an entry for every cluster. *)
Record vol_ok (fs : Fat16) (K : list (list Z)) : Prop := {
  vo_fat_start : 0 < fat_start fs;
  vo_spf : 0 < spf fs;
  vo_count : 1 <= fat_count (boot_sector fs);
  vo_root : root_dir_start fs = fat_start fs + spf fs * fat_count (boot_sector fs);
  vo_data : data_start fs = root_dir_start fs + 32;
  vo_spc : 1 <= sectors_per_cluster (boot_sector fs) <= 255;
  vo_cs : cluster_size fs = sectors_per_cluster (boot_sector fs) * SECTOR_SIZE;
  vo_total : data_start fs <= total_sectors_16 (boot_sector fs) < 65536;
  vo_len : total_sectors_16 (boot_sector fs) <= len K;
  vo_cover : n_clusters fs <= 256 * spf fs
}.

(** The table, and what [write_fat_entry] makes of the disk. *)
Definition vol_get (fs : Fat16) (K : list (list Z)) (c : Z) : Z := fat_get (fat_start fs) K c.
Definition vol_put (fs : Fat16) (K : list (list Z)) (c v : Z) : list (list Z) :=
  let K1 := fat_put (fat_start fs) K c v in
  if 1 <? fat_count (boot_sector fs) then
    upd K1 (fat_start fs + fat_sector c + spf fs) (sector_at K1 (fat_start fs + fat_sector c))
  else K1.

(** The sectors of cluster [c]. *)
Definition cluster_sector (fs : Fat16) (c : Z) : Z :=
  data_start fs + (c - 2) * sectors_per_cluster (boot_sector fs).

Lemma n_clusters_range fs K : vol_ok fs K -> 0 <= n_clusters fs < 65536.
Proof.
  intros []. unfold n_clusters. split; [apply Z.div_pos; lia|].
  apply Z.div_lt_upper_bound; [lia|]. nia.
Qed.

(** Every cluster of the volume lies in the data area, on the disk. *)
Lemma cluster_sector_range fs K c :
  vol_ok fs K -> 2 <= c < n_clusters fs ->
  data_start fs <= cluster_sector fs c /\
  cluster_sector fs c + sectors_per_cluster (boot_sector fs) <= len K.
Proof.
  intros [] Hc. unfold cluster_sector.
  assert (n_clusters fs * sectors_per_cluster (boot_sector fs)
            <= total_sectors_16 (boot_sector fs) - data_start fs).
  { unfold n_clusters. rewrite Z.mul_comm. apply Z.mul_div_le. lia. }
  split; nia.
Qed.

Section fat_proofs.
Context {D : Type} `{BlockDeviceLaws D}.
Context (fs : Fat16) (K : list (list Z)) (Hvol : vol_ok fs K).

Lemma vol_fat_fits : fat_fits (fat_start fs) (spf fs) K.
Proof using Hvol. destruct Hvol. split; [lia|]. nia. Qed.

Lemma vol_fat_range c : 0 <= c < 256 * spf fs ->
  0 <= fat_sector c < spf fs /\ 0 < fat_start fs /\ fat_start fs + spf fs <= len K.
Proof using Hvol. intros Hc%fat_sector_range. destruct Hvol. nia. Qed.

Lemma vol_second_range c : 0 <= c < 256 * spf fs -> 1 < fat_count (boot_sector fs) ->
  fat_start fs + fat_sector c + spf fs < root_dir_start fs <= len K.
Proof using Hvol. intros Hc%fat_sector_range ?. destruct Hvol. nia. Qed.

Lemma vol_root_range : 0 < fat_start fs /\ fat_start fs + spf fs <= root_dir_start fs /\
  root_dir_start fs + 32 <= len K /\ 0 < spf fs.
Proof using Hvol. destruct Hvol. nia. Qed.

Lemma len_vol_put c v : len (vol_put fs K c v) = len K.
Proof. unfold vol_put. case_test; by rewrite ?len_upd, len_fat_put. Qed.

Lemma vol_ok_len K' : len K' = len K -> vol_ok fs K'.
Proof using Hvol. intros Hl. destruct Hvol. by split; rewrite ?Hl. Qed.

Lemma vol_put_sectors c v :
  Forall sector_ok K -> 0 <= c < 256 * spf fs -> Forall sector_ok (vol_put fs K c v).
Proof using Hvol.
  intros HK Hc. pose proof (vol_fat_range c Hc).
  assert (Forall sector_ok (fat_put (fat_start fs) K c v)) by
    (eapply fat_put_sectors; eauto using vol_fat_fits).
  unfold vol_put. case_test; [|done]. apply upd_sectors; [done|].
  apply sector_at_ok; [done|]. rewrite len_fat_put. lia.
Qed.

(** Only the table changes. *)
Lemma vol_put_outside c v n :
  0 <= c < 256 * spf fs -> 0 <= n < fat_start fs \/ root_dir_start fs <= n ->
  idx (vol_put fs K c v) n = idx K n.
Proof using Hvol.
  intros Hc Hn. pose proof (vol_fat_range c Hc). pose proof (vol_second_range c Hc).
  pose proof vol_root_range. unfold vol_put, fat_put.
  destruct (1 <? _) eqn:E; rewrite ?idx_upd_ne by lia; done.
Qed.

Lemma vol_get_put_same c v :
  Forall sector_ok K -> 0 <= c < 256 * spf fs -> 0 <= v < 65536 ->
  vol_get fs (vol_put fs K c v) c = v.
Proof using Hvol.
  intros HK Hc Hv. pose proof (vol_fat_range c Hc). pose proof Hvol as [].
  unfold vol_get, vol_put. case_test.
  - rewrite fat_get_upd by lia. eapply fat_get_put_same; eauto using vol_fat_fits.
  - eapply fat_get_put_same; eauto using vol_fat_fits.
Qed.

Lemma vol_get_put_other c c' v :
  Forall sector_ok K -> 0 <= c < 256 * spf fs -> 0 <= c' < 256 * spf fs -> c <> c' ->
  vol_get fs (vol_put fs K c v) c' = vol_get fs K c'.
Proof using Hvol.
  intros HK Hc Hc' Hne. pose proof (vol_fat_range c Hc). pose proof (vol_fat_range c' Hc').
  pose proof (fat_sector_range c (spf fs) Hc). pose proof (fat_sector_range c' (spf fs) Hc').
  pose proof Hvol as []. unfold vol_get, vol_put. case_test.
  - rewrite fat_get_upd by lia. eapply fat_get_put_other; eauto using vol_fat_fits.
  - eapply fat_get_put_other; eauto using vol_fat_fits.
Qed.

(** The second copy follows the first. *)
Lemma vol_put_mirrored c v :
  1 < fat_count (boot_sector fs) -> mirrored (fat_start fs) (spf fs) K -> 0 <= c < 256 * spf fs ->
  mirrored (fat_start fs) (spf fs) (vol_put fs K c v).
Proof using Hvol.
  intros Hcount Hm Hc i Hi. pose proof (vol_fat_range c Hc). pose proof (vol_second_range c Hc Hcount).
  pose proof (fat_sector_range c (spf fs) Hc). pose proof Hvol as [].
  unfold vol_put. replace (1 <? _) with true by lia.
  destruct (decide (i = fat_sector c)) as [->|Hne].
  - replace (fat_start fs + spf fs + fat_sector c) with (fat_start fs + fat_sector c + spf fs) by lia.
    rewrite idx_upd_ne by lia. rewrite idx_upd_eq by (rewrite len_fat_put; lia).
    apply sector_at_idx. rewrite len_fat_put. lia.
  - rewrite !idx_upd_ne by lia. unfold fat_put. rewrite !idx_upd_ne by lia. by apply Hm.
Qed.

(** ** The operations on the table *)

Lemma read_fat_entry_triple c :
  0 <= c < 256 * spf fs ->
  dtriple K (read_fat_entry fs c) (Ok (mkFatEntry (vol_get fs K c))) K.
Proof using Hvol.
  intros Hc. pose proof (vol_fat_range c Hc). apply dtriple_sectors. intros HK.
  assert (sector_ok (sector_at K (fat_start fs + fat_sector c))) as Hs by (apply sector_at_ok; [done|lia]).
  unfold sector_ok, SECTOR_SIZE in Hs. pose proof (fat_offset_range c).
  unfold read_fat_entry. fold (fat_sector c). fold (fat_offset c).
  eapply dtriple_bind; [apply dtriple_read; [lia|done|apply sector_at_idx; lia]|].
  destruct (idx_is_Some (sector_at K (fat_start fs + fat_sector c)) (fat_offset c)) as [b0 Hb0]; [lia|].
  destruct (idx_is_Some (sector_at K (fat_start fs + fat_sector c)) (fat_offset c + 1)) as [b1 Hb1]; [lia|].
  eapply dtriple_bind; [by apply dtriple_expect|]. eapply dtriple_bind; [by apply dtriple_expect|].
  replace (vol_get fs K c) with (of_le2 b0 b1); [apply dtriple_ret|].
  unfold vol_get, fat_get, le2_at, byte_at. by rewrite Hb0, Hb1.
Qed.

Lemma write_fat_entry_triple c v :
  0 <= c < 256 * spf fs ->
  dtriple K (write_fat_entry fs c (mkFatEntry v)) (Ok tt) (vol_put fs K c v).
Proof using Hvol.
  intros Hc. pose proof (vol_fat_range c Hc). apply dtriple_sectors. intros HK.
  assert (sector_ok (sector_at K (fat_start fs + fat_sector c))) as Hs by (apply sector_at_ok; [done|lia]).
  unfold write_fat_entry. fold (fat_sector c). fold (fat_offset c).
  eapply dtriple_bind; [apply dtriple_read; [lia|done|apply sector_at_idx; lia]|].
  change (upd (upd _ _ _) _ _) with (fat_patch (sector_at K (fat_start fs + fat_sector c)) c v).
  eapply dtriple_bind; [apply dtriple_write; [lia|by apply fat_patch_sector]|].
  unfold vol_put. case_test; [|apply dtriple_ret].
  unfold fat_put at 2. rewrite sector_at_upd_eq by lia. fold (spf fs).
  pose proof (vol_second_range c Hc). destruct Hvol.
  apply dtriple_write; [rewrite ?len_upd, ?len_fat_put; lia|by apply fat_patch_sector].
Qed.
End fat_proofs.

Section allocation.
Context {D : Type} `{BlockDeviceLaws D}.
Context (fs : Fat16) (K : list (list Z)) (Hvol : vol_ok fs K).

Lemma vol_cluster_covered c : 0 <= c < n_clusters fs -> 0 <= c < 256 * spf fs.
Proof using Hvol. destruct Hvol. lia. Qed.

(** The body of the allocation loop on one cluster. *)
Lemma allocate_body_triple c :
  0 <= c < n_clusters fs ->
  let body := (fun cluster =>
    let! entry := read_fat_entry fs cluster in
    if is_free_cluster entry then
      write_fat_entry fs cluster (mkFatEntry 0xFFFF) ;! ret (Some cluster)
    else ret None) : Z -> M D FsError (option Z) in
  if vol_get fs K c =? 0 then dtriple K (body c) (Ok (Some c)) (vol_put fs K c 0xFFFF)
  else dtriple K (body c) (Ok None) K.
Proof using Hvol.
  intros Hc%vol_cluster_covered. cbn.
  destruct (vol_get fs K c =? 0) eqn:E;
    (eapply dtriple_bind; [by apply read_fat_entry_triple|]);
    unfold is_free_cluster; cbn; rewrite E; [|apply dtriple_ret].
  eapply dtriple_bind; [by apply write_fat_entry_triple|apply dtriple_ret].
Qed.

Lemma allocate_cluster_triple_found c :
  2 <= c < n_clusters fs -> vol_get fs K c = 0 ->
  (forall c', 2 <= c' < c -> vol_get fs K c' <> 0) ->
  dtriple K (allocate_cluster fs) (Ok c) (vol_put fs K c 0xFFFF).
Proof using Hvol.
  intros Hc Hfree Hbefore. pose proof (n_clusters_range fs K Hvol). pose proof Hvol as [].
  unfold allocate_cluster. eapply dtriple_bind; [apply dtriple_chk; lia|].
  eapply dtriple_bind; [apply dtriple_div; lia|]. fold (n_clusters fs).
  rewrite wrap_small, (range_split 2 c) by lia.
  eapply (dtriple_bind _ _ _ _ _ (Some c)); [|apply dtriple_ret]. apply dtriple_for_each_at.
  - intros j Hj%elem_of_range. pose proof (allocate_body_triple j) as Hb. cbn in Hb.
    specialize (Hbefore j Hj). replace (vol_get fs K j =? 0) with false in Hb by lia. apply Hb. lia.
  - pose proof (allocate_body_triple c) as Hb. cbn in Hb. rewrite Hfree in Hb. apply Hb. lia.
Qed.

Lemma allocate_cluster_triple_full :
  (forall c, 2 <= c < n_clusters fs -> vol_get fs K c <> 0) ->
  dtriple K (allocate_cluster fs) (Err NotSupported) K.
Proof using Hvol.
  intros Hfull. pose proof (n_clusters_range fs K Hvol). pose proof Hvol as [].
  unfold allocate_cluster. eapply dtriple_bind; [apply dtriple_chk; lia|].
  eapply dtriple_bind; [apply dtriple_div; lia|]. fold (n_clusters fs).
  rewrite wrap_small by lia. eapply (dtriple_bind _ _ _ _ _ None); [|apply dtriple_err].
  apply dtriple_for_each_all. intros j Hj%elem_of_range.
  pose proof (allocate_body_triple j) as Hb. cbn in Hb.
  specialize (Hfull j Hj). replace (vol_get fs K j =? 0) with false in Hb by lia. apply Hb. lia.
Qed.
(** The cluster [allocate_cluster] takes. *)
Definition free_cluster : option Z :=
  List.find (fun c => vol_get fs K c =? 0) (range 2 (n_clusters fs)).

Lemma free_cluster_spec c : free_cluster = Some c -> 2 <= c < n_clusters fs /\ vol_get fs K c = 0.
Proof.
  intros [Hin Hz]%find_some. rewrite <- list_elem_of_In, elem_of_range in Hin. lia.
Qed.

Lemma allocate_cluster_triple :
  match free_cluster with
  | Some c => dtriple K (allocate_cluster fs) (Ok c) (vol_put fs K c 0xFFFF)
  | None => dtriple K (allocate_cluster fs) (Err NotSupported) K
  end.
Proof using Hvol.
  unfold free_cluster.
  destruct (first_in_range (fun c => vol_get fs K c =? 0) 2 (n_clusters fs))
    as [(c & Hc & Hfree & Hbefore)|Hfull].
  - rewrite (find_range_first _ _ _ c) by done.
    apply allocate_cluster_triple_found; [done|lia|]. intros j Hj. specialize (Hbefore j Hj). lia.
  - rewrite find_range_none by done.
    apply allocate_cluster_triple_full. intros j Hj. specialize (Hfull j Hj). lia.
Qed.
End allocation.

(** ** Formatting *)

Definition format_spf (n : Z) : Z := div_ceil ((n - 33) / 4 * 2) SECTOR_SIZE.

(** The structure [format] returns for a disk of [n] sectors. *)
Definition formatted (n : Z) : Fat16 :=
  mkFat16 (format_boot_sector n SECTOR_SIZE (format_spf n)) 1 (1 + format_spf n * 2)
    (1 + format_spf n * 2 + 32) 2048 0 [] [].

(** Its boot block and the first block of each table. *)
Definition boot_block (n : Z) : list Z :=
  upd (upd (splice (vec 0 SECTOR_SIZE) 0
    (boot_sector_bytes (format_boot_sector n SECTOR_SIZE (format_spf n)))) 510 0x55) 511 0xAA.
Definition fat_block : list Z :=
  upd (upd (upd (upd (vec 0 SECTOR_SIZE) 0 0xF8) 1 0xFF) 2 0xFF) 3 0xFF.
Definition zero_block : list Z := vec 0 SECTOR_SIZE.

Lemma format_spf_range n :
  37 <= n < 65536 ->
  1 <= format_spf n <= 64 /\ 33 + 2 * format_spf n <= n /\ (n - 33) / 4 <= 256 * format_spf n.
Proof. unfold format_spf, div_ceil, SECTOR_SIZE. intros. dlia. Qed.

Lemma formatted_boot_wf n :
  37 <= n < 65536 -> boot_sector_wf (format_boot_sector n SECTOR_SIZE (format_spf n)).
Proof.
  intros Hn. pose proof (format_spf_range n Hn). split; cbn; try (done || lia);
    rewrite ?wrap_small by (cbn; unfold SECTOR_SIZE, ROOT_DIR_ENTRIES; lia);
    try (unfold SECTOR_SIZE, ROOT_DIR_ENTRIES; lia);
    case_test; rewrite ?wrap_small by lia; lia.
Qed.

Lemma boot_block_read n :
  37 <= n < 65536 ->
  sector_ok (boot_block n) /\
  boot_sector_of (boot_block n) = format_boot_sector n SECTOR_SIZE (format_spf n).
Proof.
  intros Hn. pose proof (formatted_boot_wf n Hn) as Hwf. pose proof (len_boot_sector_bytes _ Hwf) as Hl.
  unfold boot_block. set (bs := format_boot_sector _ _ _) in *. unfold BOOT_SECTOR_SIZE in Hl.
  split.
  - unfold sector_ok, SECTOR_SIZE. rewrite !len_upd, len_splice; rewrite ?len_vec; lia.
  - unfold splice. change (take (Z.to_nat 0) _) with (@nil Z). rewrite app_nil_l.
    assert (length (boot_sector_bytes bs) = 62%nat) as Hl' by (unfold len in Hl; lia).
    unfold upd. rewrite !insert_app_r_alt by (rewrite ?Hl'; lia).
    by apply boot_sector_of_bytes.
Qed.

Section format_proofs.
Context {D : Type} `{BlockDeviceLaws D}.

Lemma new_triple K n :
  37 <= n < 65536 -> idx K 0 = Some (boot_block n) -> dtriple K new (Ok (formatted n)) K.
Proof.
  intros Hn Hb. pose proof (format_spf_range n Hn). unfold new.
  eapply dtriple_bind; [by apply dtriple_read|].
  rewrite (proj2 (boot_block_read n Hn)). unfold formatted. cbn.
  rewrite (wrap_small 16 (format_spf n)) by lia. apply dtriple_ret.
Qed.

(** The disk [format] leaves. *)
Definition format_disk (K : list (list Z)) (n : Z) : list (list Z) :=
  let s := format_spf n in
  let K := upd (upd (upd K 0 (boot_block n)) (1 + 0 * s) fat_block) (1 + 1 * s) fat_block in
  let K := fill K (1 + 0 * s + 1) (1 + 0 * s + s) zero_block in
  let K := fill K (1 + 1 * s + 1) (1 + 1 * s + s) zero_block in
  fill K (1 + 2 * s + 0) (1 + 2 * s + 32) zero_block.

Lemma len_format_disk K : 37 <= len K < 65536 -> len (format_disk K (len K)) = len K.
Proof.
  intros Hn. pose proof (format_spf_range _ Hn). unfold format_disk.
  rewrite !len_fill; rewrite ?len_fill; rewrite ?len_fill; rewrite ?len_upd; lia.
Qed.

(** What each sector of the formatted disk holds. *)
Lemma idx_format_disk K i :
  37 <= len K < 65536 -> 0 <= i ->
  idx (format_disk K (len K)) i =
    (let s := format_spf (len K) in
     if decide (i = 0) then Some (boot_block (len K))
     else if decide (i = 1 \/ i = 1 + s) then Some fat_block
     else if decide (i < 1 + 2 * s + 32) then Some zero_block
     else idx K i).
Proof.
  intros Hn Hi. pose proof (format_spf_range _ Hn). unfold format_disk. cbn zeta.
  rewrite !idx_fill; rewrite ?len_fill; rewrite ?len_fill; rewrite ?len_upd; try lia.
  repeat case_decide; try lia; try done.
  - subst i. rewrite !(idx_upd_ne _ _ 0) by lia. apply idx_upd_eq. lia.
  - destruct (decide (i = 1 + 1 * format_spf (len K))) as [->|].
    + apply idx_upd_eq. rewrite !len_upd. lia.
    + rewrite idx_upd_ne by lia. assert (i = 1 + 0 * format_spf (len K)) as -> by lia.
      apply idx_upd_eq. rewrite !len_upd. lia.
  - rewrite !idx_upd_ne by lia. done.
Qed.

Lemma format_triple K :
  37 <= len K < 65536 ->
  dtriple K format (Ok (formatted (len K))) (format_disk K (len K)).
Proof.
  intros Hn. pose proof (format_spf_range _ Hn). unfold format.
  apply dtriple_get_state. intros d Hd HK.
  rewrite (dev_block_size d Hd), (dev_total_blocks d Hd), HK.
  change (div_ceil (wrap 16 ROOT_DIR_ENTRIES * 32) SECTOR_SIZE) with 32.
  apply dtriple_assert; [done|].
  eapply dtriple_bind; [apply dtriple_chk; lia|].
  eapply dtriple_bind; [apply dtriple_chk; lia|].
  replace (len K - 1 - 32) with (len K - 33) by lia. fold (format_spf (len K)).
  pose proof (len_boot_sector_bytes _ (formatted_boot_wf _ Hn)) as Hl.
  apply dtriple_assert; [rewrite Hl; done|]. apply dtriple_assert; [done|]. apply dtriple_assert; [done|].
  fold (boot_block (len K)). pose proof (boot_block_read _ Hn) as [Hbs _].
  eapply dtriple_bind; [apply dtriple_write; [lia|done]|].
  change (media_type _) with 0xF8. fold fat_block. fold zero_block.
  eapply dtriple_bind.
  { eapply dtriple_for_do_cons; [apply dtriple_write; [rewrite ?len_upd; lia|done]|].
    eapply dtriple_for_do_cons; [apply dtriple_write; [rewrite ?len_upd; lia|done]|].
    apply dtriple_ret. }
  eapply dtriple_bind.
  { eapply dtriple_for_do_cons; [apply dtriple_fill; rewrite ?len_upd; (lia || done)|].
    eapply dtriple_for_do_cons; [apply dtriple_fill; rewrite ?len_fill; rewrite ?len_upd; (lia || done)|].
    apply dtriple_ret. }
  eapply dtriple_bind;
    [apply dtriple_fill; rewrite ?len_fill; rewrite ?len_fill; rewrite ?len_upd; (lia || done)|].
  apply new_triple; [done|]. pose proof (idx_format_disk K 0 Hn) as Hi. by apply Hi.
Qed.
End format_proofs.

Lemma formatted_vol_ok K n :
  37 <= n < 65536 -> len K = n -> vol_ok (formatted n) K.
Proof.
  intros Hn HK. pose proof (format_spf_range n Hn) as Hs. unfold formatted.
  split; unfold spf, n_clusters; cbn -[Z.div Z.mul];
    rewrite ?(wrap_small 16 (format_spf n)) by lia;
    replace (n <? 65536) with true by lia; rewrite ?(wrap_small 16 n) by lia; try lia; try done.
Qed.

Lemma byte_at_upd_ne l i j x : 0 <= i -> 0 <= j -> i <> j -> byte_at (upd l i x) j = byte_at l j.
Proof. intros. unfold byte_at. by rewrite idx_upd_ne. Qed.

Lemma byte_at_zero_block i : byte_at zero_block i = 0.
Proof.
  unfold byte_at, zero_block, idx, vec. destruct (_ !! _) as [x|] eqn:E; [|done].
  by apply lookup_replicate_1 in E as [-> _].
Qed.

Lemma le2_zero_block i : le2_at zero_block i = 0.
Proof. unfold le2_at. by rewrite !byte_at_zero_block. Qed.

Lemma le2_fat_block i : 4 <= i -> le2_at fat_block i = 0.
Proof.
  intros. unfold le2_at, fat_block. rewrite !byte_at_upd_ne by lia. apply le2_zero_block.
Qed.

Section format_facts.
Context (K : list (list Z)) (Hn : 37 <= len K < 65536).
Abbreviation K' := (format_disk K (len K)).
Abbreviation s := (format_spf (len K)).

Lemma formatted_sector i : 0 <= i < 1 + 2 * s + 32 -> i <> 0 ->
  sector_at K' i = (if decide (i = 1 \/ i = 1 + s) then fat_block else zero_block).
Proof using Hn.
  intros Hi Hne. unfold sector_at. rewrite idx_format_disk by lia. cbn zeta.
  rewrite decide_False by lia. case_decide; [done|]. by rewrite decide_True by lia.
Qed.

Lemma formatted_free c : 2 <= c < 256 * s -> vol_get (formatted (len K)) K' c = 0.
Proof using Hn.
  intros Hc. pose proof (format_spf_range _ Hn). pose proof (fat_sector_range c s).
  unfold vol_get, fat_get. cbn [fat_start formatted].
  rewrite formatted_sector by lia. case_decide; [|apply le2_zero_block].
  apply le2_fat_block. unfold fat_sector, fat_offset, FAT_ENTRY_SIZE, SECTOR_SIZE in *. dlia.
Qed.

Lemma formatted_mirrored : mirrored 1 s K'.
Proof using Hn.
  intros i Hi. pose proof (format_spf_range _ Hn). rewrite !idx_format_disk by lia. cbn zeta.
  repeat case_decide; (done || lia).
Qed.

Lemma formatted_reserved :
  vol_get (formatted (len K)) K' 0 = 0xFFF8 /\ vol_get (formatted (len K)) K' 1 = 0xFFFF.
Proof using Hn.
  pose proof (format_spf_range _ Hn). unfold vol_get, fat_get. cbn [fat_start formatted].
  change (fat_sector 0) with 0. change (fat_sector 1) with 0.
  rewrite !formatted_sector, !decide_True by lia. done.
Qed.
End format_facts.

(** C26: [format] of a 512-byte device of 37 to 65535 blocks succeeds and yields
    a mounted volume whose regions are laid out in order, whose two tables are
    equal and mark every allocatable cluster free (entries 0 and 1 hold the
    reserved values), whose root directory is all zero bytes, and whose data
    area is untouched. *)
Theorem format_ok {D : Type} `{BlockDeviceLaws D} (d : D) :
  dev_ok d -> 37 <= total_blocks d < 65536 ->
  exists fs d', format d = (Ok fs, d') /\ dev_ok d' /\ vol_ok fs (disk d') /\
    mirrored (fat_start fs) (spf fs) (disk d') /\
    vol_get fs (disk d') 0 = 0xFFF8 /\ vol_get fs (disk d') 1 = 0xFFFF /\
    (forall c, 2 <= c < n_clusters fs -> vol_get fs (disk d') c = 0) /\
    (forall i, root_dir_start fs <= i < data_start fs -> idx (disk d') i = Some (vec 0 SECTOR_SIZE)) /\
    (forall i, data_start fs <= i -> idx (disk d') i = idx (disk d) i).
Proof.
  intros Hd Hn. rewrite (dev_total_blocks d Hd) in Hn. pose proof (format_spf_range _ Hn).
  destruct (format_triple (disk d) Hn d Hd eq_refl) as (d' & E & Hd' & HK').
  exists (formatted (len (disk d))), d'. rewrite HK'.
  pose proof (formatted_vol_ok (format_disk (disk d) (len (disk d))) _ Hn (len_format_disk _ Hn)) as Hv.
  assert (spf (formatted (len (disk d))) = format_spf (len (disk d))) as Hspf by
    (unfold spf; cbn; apply wrap_small; lia).
  split_and!; [done|done|done| | | | | |].
  - rewrite Hspf. by apply formatted_mirrored.
  - by apply formatted_reserved.
  - by apply formatted_reserved.
  - intros c Hc. apply formatted_free; [done|]. destruct Hv. lia.
  - intros i Hi. cbn in Hi. rewrite idx_format_disk by lia. cbn zeta.
    rewrite !decide_False, decide_True by lia. done.
  - intros i Hi. cbn in Hi. rewrite idx_format_disk by lia. cbn zeta. by rewrite !decide_False by lia.
Qed.

Lemma format_ok_witness :
  exists fs d', format (MemoryBlockDevice.new 40 512) = (Ok fs, d') /\ n_clusters fs = 1.
Proof.
  destruct (format_ok (MemoryBlockDevice.new 40 512)) as (fs & d' & E & _).
  - split; [done|]. by apply MemoryBlockDevice.new_wf.
  - by vm_compute.
  - exists fs, d'. split; [exact E|]. vm_compute in E. by injection E as <- _.
Defined.

(** [allocate_cluster] takes the lowest free cluster of the volume, marks it
    end-of-chain in the table (keeping the copies equal if they were), changes
    no other entry and no sector outside the tables; with no free cluster it is
    [NotSupported] and the disk is unchanged. *)
Theorem allocate_cluster_first_fit {D : Type} `{BlockDeviceLaws D} (fs : Fat16) (d : D) :
  dev_ok d -> vol_ok fs (disk d) ->
  (exists c d', allocate_cluster fs d = (Ok c, d') /\ dev_ok d' /\
     2 <= c < n_clusters fs /\ vol_get fs (disk d) c = 0 /\
     (forall c', 2 <= c' < c -> vol_get fs (disk d) c' <> 0) /\
     vol_get fs (disk d') c = 0xFFFF /\
     (forall c', 0 <= c' < n_clusters fs -> c' <> c -> vol_get fs (disk d') c' = vol_get fs (disk d) c') /\
     (mirrored (fat_start fs) (spf fs) (disk d) -> 1 < fat_count (boot_sector fs) ->
        mirrored (fat_start fs) (spf fs) (disk d')) /\
     (forall i, 0 <= i < fat_start fs \/ root_dir_start fs <= i -> idx (disk d') i = idx (disk d) i)) \/
  ((forall c, 2 <= c < n_clusters fs -> vol_get fs (disk d) c <> 0) /\
   exists d', allocate_cluster fs d = (Err NotSupported, d') /\ disk d' = disk d).
Proof.
  intros Hd Hvol. pose proof (dev_sectors d Hd) as HK.
  destruct (first_in_range (fun c => vol_get fs (disk d) c =? 0) 2 (n_clusters fs))
    as [(c & Hc & Hfree & Hbefore)|Hfull].
  - left. destruct (allocate_cluster_triple_found fs (disk d) Hvol c Hc) with d
      as (d' & E & Hd' & HK'); [lia|intros c' Hc'; specialize (Hbefore c' Hc'); lia|done|done|].
    assert (0 <= c < 256 * spf fs) by (eapply vol_cluster_covered; [done|lia]).
    exists c, d'. rewrite HK'. split_and!; [done|done|lia|lia|lia| | | | |].
    + intros c' Hc'. specialize (Hbefore c' Hc'). lia.
    + by apply vol_get_put_same.
    + intros c' Hc' Hne. apply vol_get_put_other; try done. eapply vol_cluster_covered; [done|lia].
    + intros Hm Hcount. by apply vol_put_mirrored.
    + intros i Hi. by apply vol_put_outside.
  - right. split; [intros c Hc; specialize (Hfull c Hc); lia|].
    destruct (allocate_cluster_triple_full fs (disk d) Hvol) with d as (d' & E & _ & HK'); eauto.
    intros c Hc. specialize (Hfull c Hc). lia.
Qed.

(** The formatted 50-block disk of the witnesses. *)
Definition demo_disk : MemoryBlockDevice.MemoryBlockDevice := MemoryBlockDevice.new 50 512.
Definition demo_volume : outcome FsError Fat16 * MemoryBlockDevice.MemoryBlockDevice := format demo_disk.
Definition demo_fs : Fat16 := formatted 50.

Lemma demo_dev_ok : dev_ok demo_disk.
Proof. split; [done|]. by apply MemoryBlockDevice.new_wf. Qed.

Lemma demo_disk_len : len (disk demo_disk) = 50.
Proof. by vm_compute. Qed.

Lemma demo_formatted :
  demo_volume = (Ok demo_fs, snd demo_volume) /\ dev_ok (snd demo_volume) /\
  disk (snd demo_volume) = format_disk (disk demo_disk) 50.
Proof.
  pose proof (format_triple (disk demo_disk)) as Hf. rewrite demo_disk_len in Hf.
  destruct (Hf ltac:(lia) demo_disk demo_dev_ok eq_refl) as (d' & E & Hd' & HK').
  unfold demo_volume. rewrite E. cbn [snd]. split; [reflexivity|]. split; [exact Hd'|exact HK'].
Qed.

Lemma demo_mounted :
  demo_volume = (Ok demo_fs, snd demo_volume) /\ dev_ok (snd demo_volume) /\
  vol_ok demo_fs (disk (snd demo_volume)) /\ len (disk (snd demo_volume)) = 50.
Proof.
  destruct demo_formatted as (E & Hd & HK).
  assert (len (disk (snd demo_volume)) = 50) as Hl.
  { rewrite HK, <- demo_disk_len, len_format_disk; rewrite demo_disk_len; lia. }
  split; [exact E|]. split; [exact Hd|]. split; [|exact Hl].
  apply formatted_vol_ok; [lia|exact Hl].
Qed.

Lemma allocate_cluster_first_fit_witness :
  exists c d', allocate_cluster demo_fs (snd demo_volume) = (Ok c, d') /\ c = 2.
Proof.
  destruct demo_mounted as (_ & Hd & Hv & _).
  destruct (allocate_cluster_first_fit demo_fs (snd demo_volume) Hd Hv)
    as [(c & d' & E & _)|(_ & d' & E & _)].
  - exists c, d'. split; [exact E|]. vm_compute in E. by injection E as <- _.
  - exfalso. vm_compute in E. discriminate E.
Defined.
