(* ===== verification/FatDir.v ===== *)
(** * Directories ([filesys/fat16/mod.rs]: lookup, insertion, removal) *)

From S2P Require Import Prelude BlockDev FatLayout FatSpec FatFile FatVolume.

(** [path.split('/')]. *)
Fixpoint split_on (c : Z) (l : list Z) : list (list Z) :=
  match l with
  | [] => [[]]
  | x :: r =>
      if x =? c then [] :: split_on c r
      else match split_on c r with
           | [] => [[x]]
           | w :: ws => (x :: w) :: ws
           end
  end.

(** [path.split('/').filter(|s| !s.is_empty()).collect()]. *)
Definition components (path : list Z) : list (list Z) :=
  List.filter (fun s => negb (len s =? 0)) (split_on 0x2F path).

(** [s.rfind(c)]. *)
Fixpoint rfind (c : Z) (l : list Z) : option Z :=
  match l with
  | [] => None
  | x :: r =>
      match rfind c r with
      | Some i => Some (i + 1)
      | None => if x =? c then Some 0 else None
      end
  end.

(** [match s.rfind(c) { Some(pos) => (&s[..pos], &s[pos + 1..]), None => .. }]:
    the parent and name of a path, the base and extension of a name. *)
Definition split_parent (path : list Z) : list Z * list Z :=
  match rfind 0x2F path with
  | Some pos => (take (Z.to_nat pos) path, drop (Z.to_nat (pos + 1)) path)
  | None => ([], path)
  end.
Definition split_extension (nm : list Z) : list Z * list Z :=
  match rfind 0x2E nm with
  | Some pos => (take (Z.to_nat pos) nm, drop (Z.to_nat (pos + 1)) nm)
  | None => (nm, [])
  end.

Definition list_eqb (a b : list Z) : bool := bool_decide (a = b).

Section dirs.
Context {D : Type} `{BlockDevice D}.

(** The sectors of a directory: the root region for cluster 0, otherwise the
    one cluster of the directory. *)
Definition dir_region (self : Fat16) (dir_cluster : Z) : M D FsError (Z * Z) :=
  if dir_cluster =? 0 then
    ret (root_dir_start self, ROOT_DIR_ENTRIES / entries_per_sector)
  else
    let! start_sector := cluster_to_sector self (wrap 16 dir_cluster) in
    ret (start_sector, sectors_per_cluster (boot_sector self)).

(** [Fat16::write_dir_entry]. *)
Definition write_dir_entry (self : Fat16) (dir_cluster : Z) (entry : DirEntry83) : M D FsError unit :=
  let! (start_sector, num_sectors) := dir_region self dir_cluster in
  let! r := for_each (range 0 num_sectors) (fun sector_offset =>
    let! sector_buffer := read_block (start_sector + sector_offset) (vec 0 SECTOR_SIZE) in
    for_each (range 0 entries_per_sector) (fun i =>
      let entry_ptr := entry_at sector_buffer i in
      if is_free entry_ptr || is_deleted entry_ptr then
        write_block (start_sector + sector_offset) (put_entry sector_buffer i entry) ;!
        ret (Some tt)
      else ret None)) in
  match r with
  | Some tt => ret tt
  | None => err NotSupported
  end.

(** [Fat16::init_directory]. *)
Definition init_directory (self : Fat16) (cluster parent_cluster : Z) : M D FsError unit :=
  let dot_entry := new_directory [0x2E] cluster in
  let dotdot_entry := new_directory [0x2E; 0x2E] parent_cluster in
  let! sector := cluster_to_sector self cluster in
  let sector_data := vec 0 SECTOR_SIZE in
  let sector_data := put_entry sector_data 0 dot_entry in
  let sector_data := put_entry sector_data 1 dotdot_entry in
  write_block sector sector_data ;!
  let sector_data := vec 0 SECTOR_SIZE in
  for_do (range 1 (sectors_per_cluster (boot_sector self))) (fun i =>
    write_block (sector + i) sector_data).

(** The inner loop of [find_entry_in_dir] over one sector: the first live
    entry of that name before the first free entry. *)
Fixpoint find_in_sector (sector_buffer nm : list Z) (is_ : list Z) : option (DirEntry83 * Z) :=
  match is_ with
  | [] => None
  | i :: is' =>
      let entry := entry_at sector_buffer i in
      if is_free entry then None
      else if negb (is_deleted entry) && list_eqb (get_name entry) nm then Some (entry, i)
      else find_in_sector sector_buffer nm is'
  end.

(** [Fat16::find_entry_in_dir]: the entry and its absolute byte position. *)
Definition find_entry_in_dir (self : Fat16) (dir_cluster : Z) (nm : list Z)
    : M D FsError (DirEntry83 * Z) :=
  let! (start_sector, num_sectors) := dir_region self dir_cluster in
  let! r := for_each (range 0 num_sectors) (fun sector_offset =>
    let! sector_buffer := read_block (start_sector + sector_offset) (vec 0 SECTOR_SIZE) in
    match find_in_sector sector_buffer nm (range 0 entries_per_sector) with
    | Some (entry, i) =>
        let entry_offset := i * DIR_ENTRY_SIZE in
        let sector_offset_bytes := (start_sector + sector_offset) * SECTOR_SIZE in
        ret (Some (entry, sector_offset_bytes + entry_offset))
    | None => ret None
    end) in
  match r with
  | Some found => ret found
  | None => err NotFound
  end.

(** The walk of [find_entry] over the path components. *)
Fixpoint find_components (self : Fat16) (current_dir_cluster : Z) (cs : list (list Z))
    : M D FsError (DirEntry83 * Z) :=
  match cs with
  | [] => err InvalidName
  | [last] => find_entry_in_dir self current_dir_cluster last
  | c :: cs' =>
      let! (entry, _) := find_entry_in_dir self current_dir_cluster c in
      if negb (is_directory entry) then err NotFound
      else find_components self (start_cluster entry) cs'
  end.

(** [Fat16::find_entry]. *)
Definition find_entry (self : Fat16) (path : list Z) : M D FsError (DirEntry83 * Z) :=
  find_components self 0 (components path).

(** [self.find_entry(path).is_ok()]; a panic is not caught. *)
Definition find_entry_is_ok (self : Fat16) (path : list Z) : M D FsError bool :=
  fun d =>
    match find_entry self path d with
    | (Ok _, d') => (Ok true, d')
    | (Err _, d') => (Ok false, d')
    | (Panic, d') => (Panic, d')
    | (Diverge, d') => (Diverge, d')
    end.

(** The chain-freeing loop of [remove_entry]. *)
Fixpoint free_chain (fuel : nat) (self : Fat16) (cluster : Z) : M D FsError unit :=
  let! e := read_fat_entry self cluster in
  if is_end_of_chain e then write_fat_entry self cluster (mkFatEntry 0)
  else
    match fuel with
    | O => diverge
    | S fuel' =>
        let! e' := read_fat_entry self cluster in
        let next_cluster := FatLayout.cluster e' in
        write_fat_entry self cluster (mkFatEntry 0) ;!
        free_chain fuel' self next_cluster
    end.

(** [Fat16::remove_entry]. *)
Definition remove_entry (fuel : nat) (self : Fat16) (path : list Z) (is_dir : bool) : M D FsError unit :=
  let! (entry, entry_pos) := find_entry self path in
  if negb (Bool.eqb (is_directory entry) is_dir) then err NotSupported else
  let sector := entry_pos / SECTOR_SIZE in
  let offset := entry_pos mod SECTOR_SIZE in
  let! sector_buffer := read_block sector (vec 0 SECTOR_SIZE) in
  let sector_buffer := upd sector_buffer offset DELETED_ENTRY_MARKER in
  write_block sector sector_buffer ;!
  free_chain fuel self (start_cluster entry).

(** The loop of [is_directory_empty] over its one sector. *)
Fixpoint no_regular_entry (sector_buffer : list Z) (is_ : list Z) : bool :=
  match is_ with
  | [] => true
  | i :: is' =>
      let entry := entry_at sector_buffer i in
      if is_free entry then true
      else if negb (is_deleted entry)
              && negb (list_eqb (get_name entry) [0x2E])
              && negb (list_eqb (get_name entry) [0x2E; 0x2E])
      then false
      else no_regular_entry sector_buffer is'
  end.

(** [Fat16::is_directory_empty]. *)
Definition is_directory_empty (self : Fat16) (dir_cluster : Z) : M D FsError bool :=
  let! sector := cluster_to_sector self dir_cluster in
  let! sector_buffer := read_block sector (vec 0 SECTOR_SIZE) in
  ret (no_regular_entry sector_buffer (range 0 entries_per_sector)).
End dirs.

(** ** Directories as sequences of slots

    A directory is a run of sectors of sixteen 32-byte slots.  [dir_lookup] is
    the abstract lookup: the first slot that holds a live entry of that name
    with no free slot before it in its sector. *)

Definition dir_start (fs : Fat16) (dir : Z) : Z :=
  if dir =? 0 then root_dir_start fs else cluster_sector fs dir.
Definition dir_sectors (fs : Fat16) (dir : Z) : Z :=
  if dir =? 0 then 32 else sectors_per_cluster (boot_sector fs).

(** The directories of a volume: the root, or a cluster of the data area. *)
Definition dir_ok (fs : Fat16) (dir : Z) : bool :=
  (dir =? 0) || ((2 <=? dir) && (dir <? n_clusters fs)).

Definition slot_sector (fs : Fat16) (dir s : Z) : Z := dir_start fs dir + s / 16.
Definition slot (fs : Fat16) (K : list (list Z)) (dir s : Z) : DirEntry83 :=
  entry_at (sector_at K (slot_sector fs dir s)) (s mod 16).
Definition slot_pos (fs : Fat16) (dir s : Z) : Z :=
  slot_sector fs dir s * SECTOR_SIZE + s mod 16 * DIR_ENTRY_SIZE.

(** A slot the scan of its sector reaches, and one it accepts for a name. *)
Definition reached (fs : Fat16) (K : list (list Z)) (dir s : Z) : bool :=
  forallb (fun j => negb (is_free (slot fs K dir j))) (range (s / 16 * 16) (s + 1)).
Definition matches (fs : Fat16) (K : list (list Z)) (dir : Z) (nm : list Z) (s : Z) : bool :=
  reached fs K dir s && negb (is_deleted (slot fs K dir s))
    && list_eqb (get_name (slot fs K dir s)) nm.

Definition dir_lookup (fs : Fat16) (K : list (list Z)) (dir : Z) (nm : list Z)
    : option (DirEntry83 * Z) :=
  option_map (fun s => (slot fs K dir s, slot_pos fs dir s))
    (List.find (matches fs K dir nm) (range 0 (16 * dir_sectors fs dir))).

(** A slot [write_dir_entry] may take, and the disk with slot [s] replaced. *)
Definition reusable (fs : Fat16) (K : list (list Z)) (dir s : Z) : bool :=
  is_free (slot fs K dir s) || is_deleted (slot fs K dir s).
Definition free_slot (fs : Fat16) (K : list (list Z)) (dir : Z) : option Z :=
  List.find (reusable fs K dir) (range 0 (16 * dir_sectors fs dir)).
Definition put_slot (fs : Fat16) (K : list (list Z)) (dir s : Z) (e : DirEntry83) : list (list Z) :=
  upd K (slot_sector fs dir s) (put_entry (sector_at K (slot_sector fs dir s)) (s mod 16) e).

(** In every sector the free slots come last. *)
Definition dir_tidy (fs : Fat16) (K : list (list Z)) (dir : Z) : Prop :=
  forall s s', 0 <= s < 16 * dir_sectors fs dir -> s <= s' < s / 16 * 16 + 16 ->
    is_free (slot fs K dir s) = true -> is_free (slot fs K dir s') = true.

(** Within a directory a name is found in at most one slot. *)
Definition dir_unique (fs : Fat16) (K : list (list Z)) (dir : Z) : Prop :=
  forall n s s', 0 <= s < 16 * dir_sectors fs dir -> 0 <= s' < 16 * dir_sectors fs dir ->
    matches fs K dir n s = true -> matches fs K dir n s' = true -> s = s'.

Lemma reached_spec fs K dir s :
  reached fs K dir s = true <->
  forall j, s / 16 * 16 <= j <= s -> is_free (slot fs K dir j) = false.
Proof.
  unfold reached. rewrite forallb_range.
  split; intros Hr j Hj; apply negb_true_iff, Hr; lia.
Qed.

Lemma list_eqb_spec a b : list_eqb a b = true <-> a = b.
Proof. apply bool_decide_eq_true. Qed.

(** ** The scan of one sector *)

(** Slot [i] of a sector buffer is what [find_in_sector] stops at. *)
Definition sector_match (buf nm : list Z) (i : Z) : bool :=
  forallb (fun j => negb (is_free (entry_at buf j))) (range 0 (i + 1))
    && negb (is_deleted (entry_at buf i)) && list_eqb (get_name (entry_at buf i)) nm.

Lemma sector_reached buf i :
  forallb (fun j => negb (is_free (entry_at buf j))) (range 0 (i + 1)) = true <->
  forall j, 0 <= j <= i -> is_free (entry_at buf j) = false.
Proof.
  rewrite forallb_range. split; intros Hr j Hj; apply negb_true_iff, Hr; lia.
Qed.

Lemma find_in_sector_first buf nm i :
  0 <= i < 16 -> sector_match buf nm i = true ->
  (forall j, 0 <= j < i -> sector_match buf nm j = false) ->
  find_in_sector buf nm (range 0 16) = Some (entry_at buf i, i).
Proof.
  intros Hi Hm Hbefore. unfold sector_match in Hm.
  apply andb_prop in Hm as [[Hr Hd]%andb_prop Hname]. rewrite sector_reached in Hr.
  assert (forall n a, 0 <= a -> Z.of_nat n = i - a ->
    find_in_sector buf nm (range a 16) = Some (entry_at buf i, i)) as Hgen.
  { induction n as [|n IH]; intros a Ha Hn; rewrite range_cons by lia; cbn.
    - assert (a = i) as -> by lia. by rewrite Hr, Hd, Hname by lia.
    - rewrite Hr by lia. specialize (Hbefore a ltac:(lia)). unfold sector_match in Hbefore.
      rewrite (proj2 (sector_reached buf a)) in Hbefore by (intros; apply Hr; lia).
      cbn [andb] in Hbefore. rewrite Hbefore. apply IH; lia. }
  apply (Hgen (Z.to_nat i)); lia.
Qed.

Lemma find_in_sector_none buf nm :
  (forall j, 0 <= j < 16 -> sector_match buf nm j = false) ->
  find_in_sector buf nm (range 0 16) = None.
Proof.
  intros Hnone.
  assert (forall n a, 0 <= a -> Z.of_nat n = 16 - a ->
    (forall j, 0 <= j < a -> is_free (entry_at buf j) = false) ->
    find_in_sector buf nm (range a 16) = None) as Hgen.
  { induction n as [|n IH]; intros a Ha Hn Hr; [by rewrite range_nil by lia|].
    rewrite range_cons by lia. cbn. destruct (is_free _) eqn:Hf; [done|].
    assert (forall j, 0 <= j <= a -> is_free (entry_at buf j) = false) as Hr'.
    { intros j Hj. destruct (decide (j = a)) as [->|]; [done|]. apply Hr. lia. }
    specialize (Hnone a ltac:(lia)). unfold sector_match in Hnone.
    rewrite (proj2 (sector_reached buf a)) in Hnone by done.
    cbn [andb] in Hnone. rewrite Hnone. apply IH; [lia|lia|]. intros. apply Hr'. lia. }
  apply (Hgen 16%nat); lia.
Qed.

(** Slots by sector and index. *)
Lemma slot_split fs K dir so i :
  0 <= i < 16 -> slot fs K dir (so * 16 + i) = entry_at (sector_at K (dir_start fs dir + so)) i.
Proof. intros. unfold slot, slot_sector. do 2 f_equal; [do 2 f_equal|]; dlia. Qed.

Lemma matches_split fs K dir nm so i :
  0 <= i < 16 ->
  matches fs K dir nm (so * 16 + i) = sector_match (sector_at K (dir_start fs dir + so)) nm i.
Proof.
  intros Hi. unfold matches, sector_match. rewrite slot_split by done. do 2 f_equal.
  apply eq_true_iff_eq. rewrite reached_spec, sector_reached.
  replace ((so * 16 + i) / 16 * 16) with (so * 16) by dlia. split; intros Hr j Hj.
  - rewrite <- slot_split with (i := j) by lia. apply Hr. lia.
  - replace j with (so * 16 + (j - so * 16)) by lia. rewrite slot_split by lia. apply Hr. lia.
Qed.

(** ** Geometry *)

Section geometry.
Context (fs : Fat16) (K : list (list Z)) (Hvol : vol_ok fs K).

Lemma dir_region_range dir :
  dir_ok fs dir = true ->
  root_dir_start fs <= dir_start fs dir /\ 0 < dir_sectors fs dir /\
  dir_start fs dir + dir_sectors fs dir <= len K.
Proof using Hvol.
  intros Hd. pose proof (vol_root_range fs K Hvol). unfold dir_ok, dir_start, dir_sectors in *.
  pose proof (vo_data _ _ Hvol). pose proof (vo_spc _ _ Hvol).
  destruct (dir =? 0) eqn:E; [lia|].
  pose proof (cluster_sector_range fs K dir Hvol). lia.
Qed.

(** Distinct directories have disjoint sectors. *)
Lemma dir_regions_disjoint dir dir' so so' :
  dir_ok fs dir = true -> dir_ok fs dir' = true -> dir <> dir' ->
  0 <= so < dir_sectors fs dir -> 0 <= so' < dir_sectors fs dir' ->
  dir_start fs dir + so <> dir_start fs dir' + so'.
Proof using Hvol.
  unfold dir_ok, dir_start, dir_sectors, cluster_sector.
  pose proof (vo_data _ _ Hvol). pose proof (vo_spc _ _ Hvol).
  destruct (dir =? 0) eqn:E, (dir' =? 0) eqn:E'; intros; nia.
Qed.

Lemma slot_sector_range dir s :
  dir_ok fs dir = true -> 0 <= s < 16 * dir_sectors fs dir ->
  root_dir_start fs <= slot_sector fs dir s < len K.
Proof using Hvol.
  intros Hd Hs. pose proof (dir_region_range dir Hd). unfold slot_sector. dlia.
Qed.
End geometry.

(** ** The operations on a directory *)

Section dir_proofs.
Context {D : Type} `{BlockDeviceLaws D}.
Context (fs : Fat16) (K : list (list Z)) (Hvol : vol_ok fs K).

Lemma cluster_to_sector_triple c :
  2 <= c < 65536 -> dtriple K (cluster_to_sector fs c) (Ok (cluster_sector fs c)) K.
Proof. intros. eapply dtriple_bind; [apply dtriple_chk; lia|]. apply dtriple_ret. Qed.

Lemma dir_region_triple dir :
  dir_ok fs dir = true ->
  dtriple K (dir_region fs dir) (Ok (dir_start fs dir, dir_sectors fs dir)) K.
Proof using Hvol.
  intros Hd. pose proof (n_clusters_range fs K Hvol).
  unfold dir_ok, dir_region, dir_start, dir_sectors in *.
  destruct (dir =? 0) eqn:E; [apply dtriple_ret|].
  rewrite wrap_small by lia.
  eapply dtriple_bind; [apply cluster_to_sector_triple; lia|]. apply dtriple_ret.
Qed.

(** Reading one sector of a directory. *)
Lemma dir_read_triple {A} dir so (k : list Z -> M D FsError A) r K' :
  dir_ok fs dir = true -> 0 <= so < dir_sectors fs dir ->
  dtriple K (k (sector_at K (dir_start fs dir + so))) r K' ->
  dtriple K (bind (read_block (dir_start fs dir + so) (vec 0 SECTOR_SIZE)) k) r K'.
Proof using Hvol.
  intros Hd Hso Hk. pose proof (dir_region_range fs K Hvol dir Hd). pose proof (vol_root_range fs K Hvol).
  eapply dtriple_bind; [|exact Hk]. apply dtriple_read; [lia|done|]. apply sector_at_idx. lia.
Qed.

(** [find_entry_in_dir] computes [dir_lookup]. *)
Lemma find_entry_in_dir_triple dir nm :
  dir_ok fs dir = true ->
  dtriple K (find_entry_in_dir fs dir nm)
    (match dir_lookup fs K dir nm with Some r => Ok r | None => Err NotFound end) K.
Proof using Hvol.
  intros Hd. unfold find_entry_in_dir, dir_lookup.
  eapply dtriple_bind; [by apply dir_region_triple|]. cbv beta iota zeta.
  change entries_per_sector with 16.
  destruct (first_in_range (matches fs K dir nm) 0 (16 * dir_sectors fs dir))
    as [(s & Hs & Hm & Hbefore)|Hnone].
  - rewrite (find_range_first _ _ _ s) by done. cbn [option_map].
    eapply (dtriple_bind _ _ _ _ _ (Some (slot fs K dir s, slot_pos fs dir s))); [|apply dtriple_ret].
    rewrite (range_split 0 (s / 16)) by dlia. apply dtriple_for_each_at.
    + intros so Hso%elem_of_range. apply dir_read_triple; [done|dlia|].
      rewrite find_in_sector_none; [apply dtriple_ret|]. intros j Hj.
      rewrite <- matches_split by done. apply Hbefore. dlia.
    + apply dir_read_triple; [done|dlia|]. rewrite (find_in_sector_first _ _ (s mod 16)).
      * rewrite <- slot_split, <- (Z.mul_comm 16), <- Z.div_mod by dlia. apply dtriple_ret.
      * dlia.
      * rewrite <- matches_split, <- (Z.mul_comm 16), <- Z.div_mod by dlia. done.
      * intros j Hj. rewrite <- matches_split by dlia. apply Hbefore. dlia.
  - rewrite find_range_none by done. cbn [option_map].
    eapply (dtriple_bind _ _ _ _ _ None); [|apply dtriple_err].
    apply dtriple_for_each_all. intros so Hso%elem_of_range.
    apply dir_read_triple; [done|lia|]. rewrite find_in_sector_none; [apply dtriple_ret|].
    intros j Hj. rewrite <- matches_split by done. apply Hnone. lia.
Qed.

(** [write_dir_entry] fills the first reusable slot. *)
Lemma write_dir_entry_triple dir e :
  dir_ok fs dir = true -> dir_entry_wf e ->
  match free_slot fs K dir with
  | Some s => dtriple K (write_dir_entry fs dir e) (Ok tt) (put_slot fs K dir s e)
  | None => dtriple K (write_dir_entry fs dir e) (Err NotSupported) K
  end.
Proof using Hvol.
  intros Hd He. unfold write_dir_entry, free_slot.
  assert (forall so i, 0 <= i < 16 -> reusable fs K dir (so * 16 + i) = false ->
    is_free (entry_at (sector_at K (dir_start fs dir + so)) i)
      || is_deleted (entry_at (sector_at K (dir_start fs dir + so)) i) = false) as Hsplit.
  { intros so i Hi Hu. unfold reusable in Hu. by rewrite slot_split in Hu by done. }
  destruct (first_in_range (reusable fs K dir) 0 (16 * dir_sectors fs dir))
    as [(s & Hs & Hm & Hbefore)|Hnone].
  - rewrite (find_range_first _ _ _ s) by done.
    eapply dtriple_bind; [by apply dir_region_triple|]. cbv beta iota zeta.
    change entries_per_sector with 16.
    eapply (dtriple_bind _ _ _ _ _ (Some tt)); [|apply dtriple_ret].
    rewrite (range_split 0 (s / 16)) by dlia. apply dtriple_for_each_at.
    + intros so Hso%elem_of_range. apply dir_read_triple; [done|dlia|].
      apply dtriple_for_each_all. intros i Hi%elem_of_range. cbv zeta.
      rewrite Hsplit; [apply dtriple_ret|done|]. apply Hbefore. dlia.
    + pose proof (slot_sector_range fs K Hvol dir s Hd Hs) as Hr. unfold slot_sector in Hr.
      pose proof (vol_root_range fs K Hvol).
      apply dir_read_triple; [done|dlia|]. rewrite (range_split 0 (s mod 16)) by dlia.
      apply dtriple_for_each_at.
      * intros i Hi%elem_of_range. cbv zeta. rewrite Hsplit; [apply dtriple_ret|dlia|].
        apply Hbefore. dlia.
      * cbv zeta. change (entry_at _ _) with (slot fs K dir s). unfold reusable in Hm. rewrite Hm.
        apply dtriple_sectors. intros HK.
        eapply dtriple_bind; [|apply dtriple_ret]. apply dtriple_write; [lia|].
        apply put_entry_sector; [apply sector_at_ok; [done|lia]|by change entries_per_sector with 16; dlia|done].
  - rewrite find_range_none by done.
    eapply dtriple_bind; [by apply dir_region_triple|]. cbv beta iota zeta.
    change entries_per_sector with 16.
    eapply (dtriple_bind _ _ _ _ _ None); [|apply dtriple_err].
    apply dtriple_for_each_all. intros so Hso%elem_of_range.
    apply dir_read_triple; [done|lia|].
    apply dtriple_for_each_all. intros i Hi%elem_of_range. cbv zeta.
    rewrite Hsplit; [apply dtriple_ret|done|]. apply Hnone. lia.
Qed.
End dir_proofs.

(** ** Replacing a slot *)

Section put_slot.
Context (fs : Fat16) (K : list (list Z)) (Hvol : vol_ok fs K) (HK : Forall sector_ok K).
Context (dir s : Z) (e : DirEntry83).
Context (Hd : dir_ok fs dir = true) (Hs : 0 <= s < 16 * dir_sectors fs dir) (He : dir_entry_wf e).

Lemma len_put_slot : len (put_slot fs K dir s e) = len K.
Proof. apply len_upd. Qed.

Lemma put_slot_sectors : Forall sector_ok (put_slot fs K dir s e).
Proof using Hvol HK Hd Hs He.
  pose proof (slot_sector_range fs K Hvol dir s Hd Hs). pose proof (vol_root_range fs K Hvol).
  apply upd_sectors; [done|]. apply put_entry_sector; [apply sector_at_ok; [done|lia]| |done].
  change entries_per_sector with 16. dlia.
Qed.

Lemma put_slot_outside n : 0 <= n -> n <> slot_sector fs dir s ->
  idx (put_slot fs K dir s e) n = idx K n.
Proof using Hvol Hd Hs.
  intros. pose proof (slot_sector_range fs K Hvol dir s Hd Hs). pose proof (vol_root_range fs K Hvol).
  apply idx_upd_ne; lia.
Qed.

Lemma slot_put_same : slot fs (put_slot fs K dir s e) dir s = e.
Proof using Hvol HK Hd Hs He.
  pose proof (slot_sector_range fs K Hvol dir s Hd Hs). pose proof (vol_root_range fs K Hvol).
  unfold slot, put_slot. rewrite sector_at_upd_eq by lia.
  apply entry_at_put_same; [apply sector_at_ok; [done|lia]| |done].
  change entries_per_sector with 16. dlia.
Qed.

Lemma slot_put_other s' : 0 <= s' < 16 * dir_sectors fs dir -> s' <> s ->
  slot fs (put_slot fs K dir s e) dir s' = slot fs K dir s'.
Proof using Hvol HK Hd Hs He.
  intros Hs' Hne. pose proof (slot_sector_range fs K Hvol dir s Hd Hs).
  pose proof (slot_sector_range fs K Hvol dir s' Hd Hs'). pose proof (vol_root_range fs K Hvol).
  unfold slot, put_slot. destruct (decide (s' / 16 = s / 16)) as [Heq|Hneq].
  - assert (slot_sector fs dir s' = slot_sector fs dir s) as -> by (unfold slot_sector; lia).
    rewrite sector_at_upd_eq by lia.
    apply entry_at_put_other; [apply sector_at_ok; [done|lia]| | | |done];
      change entries_per_sector with 16; dlia.
  - rewrite sector_at_upd_ne; [done|lia|lia|]. unfold slot_sector. lia.
Qed.
End put_slot.

(** A directory whose sectors are unchanged is unchanged. *)
Section lookup_frame.
Context (fs : Fat16) (K K' : list (list Z)) (dir : Z).
Context (Hsame : forall so, 0 <= so < dir_sectors fs dir ->
           idx K' (dir_start fs dir + so) = idx K (dir_start fs dir + so)).

Lemma slot_frame s : 0 <= s < 16 * dir_sectors fs dir -> slot fs K' dir s = slot fs K dir s.
Proof using Hsame. intros. unfold slot, slot_sector, sector_at. by rewrite Hsame by dlia. Qed.

Lemma matches_frame nm s : 0 <= s < 16 * dir_sectors fs dir ->
  matches fs K' dir nm s = matches fs K dir nm s.
Proof using Hsame.
  intros Hs. unfold matches. rewrite slot_frame by done. do 2 f_equal.
  apply eq_true_iff_eq. rewrite !reached_spec.
  split; intros Hr j Hj; specialize (Hr j Hj); rewrite slot_frame in *; (done || dlia).
Qed.

Lemma dir_unique_frame : dir_unique fs K dir -> dir_unique fs K' dir.
Proof using Hsame. intros Hu n a b Ha Hb. rewrite !matches_frame by done. by apply (Hu n). Qed.

Lemma dir_lookup_frame nm : dir_lookup fs K' dir nm = dir_lookup fs K dir nm.
Proof using Hsame.
  unfold dir_lookup. rewrite (find_ext _ (matches fs K dir nm)).
  - destruct (List.find _ _) as [s|] eqn:E; [|done]. cbn.
    apply find_some in E as [Hin _]. rewrite <- list_elem_of_In, elem_of_range in Hin.
    by rewrite slot_frame.
  - intros s Hs%elem_of_range. by apply matches_frame.
Qed.

Lemma dir_tidy_frame : dir_tidy fs K dir -> dir_tidy fs K' dir.
Proof using Hsame.
  intros Ht a b Ha Hab. rewrite !slot_frame by dlia. by apply Ht.
Qed.
End lookup_frame.

(** ** Adding an entry *)

Section add_entry.
Context (fs : Fat16) (K : list (list Z)) (Hvol : vol_ok fs K) (HK : Forall sector_ok K).
Context (dir s : Z) (e : DirEntry83) (nm : list Z).
Context (Hd : dir_ok fs dir = true) (He : dir_entry_wf e) (Htidy : dir_tidy fs K dir).
Context (Hslot : free_slot fs K dir = Some s).
Context (Hlive : is_free e = false /\ is_deleted e = false) (Hname : get_name e = nm).
Abbreviation K' := (put_slot fs K dir s e).

Lemma free_slot_spec :
  0 <= s < 16 * dir_sectors fs dir /\ reusable fs K dir s = true /\
  forall j, 0 <= j < s -> reusable fs K dir j = false.
Proof using Hslot.
  unfold free_slot in Hslot.
  destruct (first_in_range (reusable fs K dir) 0 (16 * dir_sectors fs dir))
    as [(i & Hi & Hm & Hbefore)|Hnone].
  - rewrite (find_range_first _ _ _ i) in Hslot by done. by injection Hslot as ->.
  - by rewrite find_range_none in Hslot by done.
Qed.

(** The new entry makes no other slot visible and hides none. *)
Lemma matches_add_other n s' :
  0 <= s' < 16 * dir_sectors fs dir -> s' <> s -> matches fs K' dir n s' = matches fs K dir n s'.
Proof using All.
  intros Hs' Hne. destruct free_slot_spec as (Hs & Hu & _). unfold matches.
  rewrite slot_put_other by done.
  destruct (is_free (slot fs K dir s')) eqn:Hf.
  - assert (forall K0, slot fs K0 dir s' = slot fs K dir s' -> reached fs K0 dir s' = false) as Hr.
    { intros K0 E0. apply not_true_iff_false. rewrite reached_spec. intros Hr.
      specialize (Hr s' ltac:(dlia)). congruence. }
    rewrite !Hr by (done || by apply slot_put_other). done.
  - do 2 f_equal. apply eq_true_iff_eq. rewrite !reached_spec.
    split; intros Hr j Hj; destruct (decide (j = s)) as [->|].
    + destruct (is_free (slot fs K dir s)) eqn:Hfs; [|done].
      by rewrite (Htidy s s') in Hf by (done || dlia).
    + rewrite <- (Hr j Hj). by rewrite slot_put_other by (done || dlia).
    + rewrite slot_put_same by done. by destruct Hlive.
    + rewrite slot_put_other by (done || dlia). by apply Hr.
Qed.

Lemma matches_add_same n : matches fs K' dir n s = list_eqb nm n.
Proof using All.
  destruct free_slot_spec as (Hs & Hu & Hb). destruct Hlive as [Hnf Hnd]. unfold matches.
  rewrite slot_put_same, Hnd, Hname by done.
  replace (reached fs K' dir s) with true; [done|]. symmetry. apply reached_spec. intros j Hj.
  destruct (decide (j = s)) as [->|]; [by rewrite slot_put_same|].
  rewrite slot_put_other by (done || dlia). specialize (Hb j ltac:(dlia)).
  unfold reusable in Hb. by apply orb_false_elim in Hb as [? _].
Qed.

Lemma matches_reusable n : matches fs K dir n s = false.
Proof using All.
  destruct free_slot_spec as (Hs & Hu & _). apply not_true_iff_false. unfold matches.
  intros [[Hr Hx]%andb_prop _]%andb_prop. rewrite reached_spec in Hr.
  specialize (Hr s ltac:(dlia)). unfold reusable in Hu. rewrite Hr in Hu. cbn in Hu.
  by rewrite Hu in Hx.
Qed.

Lemma lookup_add_other n : n <> nm -> dir_lookup fs K' dir n = dir_lookup fs K dir n.
Proof using All.
  intros Hn. destruct free_slot_spec as (Hs & Hu & _). unfold dir_lookup.
  rewrite (find_ext _ (matches fs K dir n)).
  - destruct (List.find _ _) as [i|] eqn:E; [|done]. cbn.
    apply find_some in E as [Hin Hm]. rewrite <- list_elem_of_In, elem_of_range in Hin.
    destruct (decide (i = s)) as [->|]; [by rewrite matches_reusable in Hm|].
    by rewrite slot_put_other.
  - intros i Hi%elem_of_range. destruct (decide (i = s)) as [->|]; [|by apply matches_add_other].
    rewrite matches_add_same, matches_reusable. apply bool_decide_eq_false. congruence.
Qed.

Lemma lookup_add_same :
  dir_lookup fs K dir nm = None -> dir_lookup fs K' dir nm = Some (e, slot_pos fs dir s).
Proof using All.
  intros Hnone. destruct free_slot_spec as (Hs & Hu & _). unfold dir_lookup in *.
  rewrite (find_range_first _ _ _ s).
  - cbn. by rewrite slot_put_same.
  - done.
  - rewrite matches_add_same. by apply list_eqb_spec.
  - intros j Hj. rewrite matches_add_other by lia.
    destruct (matches fs K dir nm j) eqn:Hm; [|done].
    destruct (List.find _ _) eqn:E; [done|].
    eapply find_none in E; [by rewrite Hm in E|]. apply list_elem_of_In, elem_of_range. lia.
Qed.
Lemma tidy_add : dir_tidy fs K' dir.
Proof using All.
  intros a b Ha Hab. destruct free_slot_spec as (Hs & Hu & Hb). destruct Hlive as [Hnf Hnd].
  destruct (decide (a = s)) as [->|]; [by rewrite slot_put_same, Hnf by done|].
  rewrite slot_put_other by done. intros Hf.
  destruct (decide (b = s)) as [->|].
  - specialize (Hb a ltac:(lia)). unfold reusable in Hb. by rewrite Hf in Hb.
  - rewrite slot_put_other by (done || dlia). by apply (Htidy a b).
Qed.

Lemma unique_add : dir_lookup fs K dir nm = None -> dir_unique fs K dir -> dir_unique fs K' dir.
Proof using All.
  intros Hnone Huniq.
  assert (forall j, 0 <= j < 16 * dir_sectors fs dir -> matches fs K dir nm j = false) as Hno.
  { intros j Hj. unfold dir_lookup in Hnone. destruct (List.find _ _) eqn:E; [done|].
    eapply find_none in E; [exact E|]. by apply list_elem_of_In, elem_of_range. }
  assert (forall n a b, 0 <= a < 16 * dir_sectors fs dir -> matches fs K' dir n a = true ->
    matches fs K' dir n b = true -> b = s -> a = s) as Hs'.
  { intros n a b Ha Hma Hmb ->. destruct (decide (a = s)) as [->|Hne]; [done|].
    rewrite matches_add_same in Hmb. apply list_eqb_spec in Hmb as <-.
    rewrite matches_add_other, Hno in Hma by done. done. }
  intros n a b Ha Hb Hma Hmb. destruct (decide (b = s)) as [->|Hne]; [by apply (Hs' n a s)|].
  destruct (decide (a = s)) as [->|Hne']; [symmetry; by apply (Hs' n b s)|].
  rewrite matches_add_other in Hma, Hmb by done. by apply (Huniq n).
Qed.
End add_entry.

(** ** Paths *)

(** The abstract walk along a path; [Panic] when it leaves the volume (a
    directory entry whose cluster is not one of the volume's). *)
Fixpoint walk (fs : Fat16) (K : list (list Z)) (dir : Z) (cs : list (list Z))
    : outcome FsError (DirEntry83 * Z) :=
  match cs with
  | [] => Err InvalidName
  | c :: cs' =>
      if dir_ok fs dir then
        match dir_lookup fs K dir c with
        | None => Err NotFound
        | Some (e, pos) =>
            match cs' with
            | [] => Ok (e, pos)
            | _ => if is_directory e then walk fs K (start_cluster e) cs' else Err NotFound
            end
        end
      else Panic
  end.

Lemma find_components_triple {D} `{BlockDeviceLaws D} fs K dir cs :
  vol_ok fs K -> walk fs K dir cs <> Panic ->
  dtriple K (find_components fs dir cs) (walk fs K dir cs) K.
Proof.
  intros Hvol. revert dir. induction cs as [|c cs IH]; intros dir Hw; [apply dtriple_err|].
  cbn [walk] in *. destruct (dir_ok fs dir) eqn:Hd; [|done].
  pose proof (find_entry_in_dir_triple fs K Hvol dir c Hd) as Hfind.
  destruct (dir_lookup fs K dir c) as [[e pos]|], cs as [|c' cs]; try exact Hfind.
  - change (find_components fs dir (c :: c' :: cs)) with
      (let! (entry, _) := find_entry_in_dir fs dir c in
       if negb (is_directory entry) then err NotFound
       else find_components fs (start_cluster entry) (c' :: cs)).
    eapply dtriple_bind; [exact Hfind|]. cbv beta iota.
    destruct (is_directory e); cbn [negb]; [by apply IH|apply dtriple_err].
  - by apply dtriple_bind_err.
Qed.

Lemma find_entry_triple {D} `{BlockDeviceLaws D} fs K path :
  vol_ok fs K -> walk fs K 0 (components path) <> Panic ->
  dtriple K (find_entry fs path) (walk fs K 0 (components path)) K.
Proof. intros. by apply find_components_triple. Qed.

Lemma find_entry_is_ok_triple {D} `{BlockDeviceLaws D} fs K path :
  vol_ok fs K -> walk fs K 0 (components path) <> Panic ->
  dtriple K (find_entry_is_ok fs path)
    (Ok (match walk fs K 0 (components path) with Ok _ => true | _ => false end)) K.
Proof.
  intros Hvol Hw d Hd HK. destruct (find_entry_triple fs K path Hvol Hw d Hd HK) as (d' & E & ? & ?).
  exists d'. unfold find_entry_is_ok. rewrite E. split; [|done].
  destruct (walk _ _ _ _) as [| | |] eqn:Ew; try done.
  exfalso. clear -Ew. revert Ew. generalize (components path) as cs. generalize 0 as dir.
  intros dir cs. revert dir. induction cs as [|c cs IH]; intros dir; [done|]. cbn.
  destruct (dir_ok _ _); [|done]. destruct (dir_lookup _ _ _ _) as [[e p]|]; [|done].
  destruct cs; [done|]. destruct (is_directory e); [apply IH|done].
Qed.

(** A successful walk survives any change that keeps the lookups it makes: of
    directories on the way, and of its result. *)
Lemma walk_keep fs K K' (keep : DirEntry83 * Z -> Prop) :
  (forall dir n r, dir_ok fs dir = true -> dir_lookup fs K dir n = Some r -> keep r ->
     dir_lookup fs K' dir n = Some r) ->
  (forall dir n r, dir_ok fs dir = true -> dir_lookup fs K dir n = Some r ->
     is_directory (fst r) = true -> keep r) ->
  forall cs dir r, walk fs K dir cs = Ok r -> keep r -> walk fs K' dir cs = Ok r.
Proof.
  intros Hlook Hdirs. induction cs as [|c cs IH]; intros dir r; [done|]. cbn [walk].
  destruct (dir_ok fs dir) eqn:Hd; [|done].
  destruct (dir_lookup fs K dir c) as [[e pos]|] eqn:E; [|done].
  destruct cs as [|c' cs].
  - intros [= <-] Hk. by rewrite (Hlook dir c _ Hd E).
  - destruct (is_directory e) eqn:Ed; [|done]. intros Hw Hk.
    rewrite (Hlook dir c _ Hd E), Ed by by eapply Hdirs. by apply IH.
Qed.

Lemma walk_mono fs K K' :
  (forall dir n r, dir_ok fs dir = true -> dir_lookup fs K dir n = Some r ->
     dir_lookup fs K' dir n = Some r) ->
  forall cs dir r, walk fs K dir cs = Ok r -> walk fs K' dir cs = Ok r.
Proof. intros Hlook cs dir r Hw. by eapply (walk_keep fs K K' (fun _ => True)); eauto. Qed.

(** A successful walk ends with a lookup. *)
Lemma walk_result fs K cs dir r :
  walk fs K dir cs = Ok r -> exists dir' n, dir_ok fs dir' = true /\ dir_lookup fs K dir' n = Some r.
Proof.
  revert dir. induction cs as [|c cs IH]; intros dir; [done|]. cbn [walk].
  destruct (dir_ok fs dir) eqn:Hd; [|done].
  destruct (dir_lookup fs K dir c) as [[e pos]|] eqn:E; [|done].
  destruct cs; [intros [= <-]; eauto|]. destruct (is_directory e); [apply IH|done].
Qed.

(** The walk to an entry of a directory: first the directory, then the entry. *)
Lemma walk_snoc fs K cs dir nm e pos :
  cs <> [] -> walk fs K dir cs = Ok (e, pos) -> is_directory e = true ->
  walk fs K dir (cs ++ [nm]) = walk fs K (start_cluster e) [nm].
Proof.
  revert dir. induction cs as [|c cs IH]; intros dir Hne Hw He; [done|].
  cbn [walk app] in *. destruct (dir_ok fs dir) eqn:Hd; [|done].
  destruct (dir_lookup fs K dir c) as [[e0 p0]|]; [|done].
  destruct cs as [|c' cs].
  - injection Hw as -> ->. cbn [app]. by rewrite He.
  - cbn [app] in *. destruct (is_directory e0); [|done]. by apply IH.
Qed.

(** ** Path strings *)

Lemma split_on_not_nil c l : split_on c l <> [].
Proof. destruct l as [|x l]; [done|]. cbn. case_test; [done|]. by destruct (split_on c l). Qed.

Lemma split_on_none c l : c ∉ l -> split_on c l = [l].
Proof.
  induction l as [|x l IH]; [done|]. intros [Hx Hl]%not_elem_of_cons. cbn.
  replace (x =? c) with false by lia. by rewrite IH.
Qed.

Lemma split_on_app c l r : split_on c (l ++ c :: r) = split_on c l ++ split_on c r.
Proof.
  induction l as [|x l IH]; cbn; [by rewrite Z.eqb_refl|]. rewrite IH.
  case_test; [done|]. pose proof (split_on_not_nil c l). by destruct (split_on c l).
Qed.

Lemma rfind_None c l : c ∉ l -> rfind c l = None.
Proof.
  induction l as [|x l IH]; [done|]. intros [Hx Hl]%not_elem_of_cons. cbn.
  rewrite IH by done. by replace (x =? c) with false by lia.
Qed.

Lemma rfind_app c l r : c ∉ r -> rfind c (l ++ c :: r) = Some (len l).
Proof.
  intros Hr. unfold len. induction l as [|x l IH]; cbn.
  - by rewrite rfind_None, Z.eqb_refl.
  - rewrite IH. f_equal. lia.
Qed.

Lemma take_drop_at {A} (l : list A) c r :
  take (Z.to_nat (len l)) (l ++ c :: r) = l /\ drop (Z.to_nat (len l + 1)) (l ++ c :: r) = r.
Proof.
  unfold len. rewrite Nat2Z.id. split; [apply take_app_length|].
  replace (Z.to_nat (Z.of_nat (length l) + 1)) with (S (length l)) by lia.
  replace (l ++ c :: r) with ((l ++ [c]) ++ r) by (by rewrite <- app_assoc).
  apply drop_app_length'. rewrite length_app. cbn. lia.
Qed.

(** Joining a parent path and a name is undone by [split_parent]; joining a
    base name and an extension by [split_extension]. *)
Lemma split_parent_join pp nm : 0x2F ∉ nm -> split_parent (pp ++ 0x2F :: nm) = (pp, nm).
Proof.
  intros Hn. unfold split_parent. rewrite rfind_app by done.
  by destruct (take_drop_at pp 0x2F nm) as [-> ->].
Qed.

Lemma split_parent_root nm : 0x2F ∉ nm -> split_parent nm = ([], nm).
Proof. intros Hn. unfold split_parent. by rewrite rfind_None. Qed.

Lemma split_extension_join b ex : 0x2E ∉ ex -> split_extension (b ++ 0x2E :: ex) = (b, ex).
Proof.
  intros Hn. unfold split_extension. rewrite rfind_app by done.
  by destruct (take_drop_at b 0x2E ex) as [-> ->].
Qed.

Lemma split_extension_none nm : 0x2E ∉ nm -> split_extension nm = (nm, []).
Proof. intros Hn. unfold split_extension. by rewrite rfind_None. Qed.

Lemma components_name nm : nm <> [] -> 0x2F ∉ nm -> components nm = [nm].
Proof.
  intros Hne Hn. unfold components. rewrite split_on_none by done. cbn.
  destruct nm as [|x nm]; [done|]. by replace (len (x :: nm) =? 0) with false by (unfold len; cbn [length]; lia).
Qed.

Lemma components_join pp nm : nm <> [] -> 0x2F ∉ nm ->
  components (pp ++ 0x2F :: nm) = components pp ++ [nm].
Proof.
  intros Hne Hn. rewrite <- (components_name nm) by done. unfold components.
  by rewrite split_on_app, List.filter_app.
Qed.

Lemma rfind_split c l :
  match rfind c l with
  | None => c ∉ l
  | Some i => exists a b, l = a ++ (c :: b) /\ (c ∉ b) /\ i = len a
  end.
Proof.
  induction l as [|x l IH]; cbn; [set_solver|]. destruct (rfind c l) as [i|].
  - destruct IH as (a & b & -> & Hb & ->). exists (x :: a), b.
    split_and!; [done|done|]. unfold len. cbn [length]. lia.
  - destruct (x =? c) eqn:E; [|apply not_elem_of_cons; split; [lia|done]].
    exists [], l. assert (x = c) as -> by lia. done.
Qed.

(** The components of a path are those of its parent and its name. *)
Lemma components_split path pp nm :
  split_parent path = (pp, nm) -> nm <> [] -> components path = components pp ++ [nm].
Proof.
  unfold split_parent. pose proof (rfind_split 0x2F path) as Hr.
  destruct (rfind 0x2F path) as [i|].
  - destruct Hr as (a & b & -> & Hb & ->). destruct (take_drop_at a 0x2F b) as [-> ->].
    intros [= <- <-] Hne. by apply components_join.
  - intros [= <- <-] Hne. by rewrite components_name.
Qed.

(** ** The table does not hold directories *)

Section vol_put_frame.
Context (fs : Fat16) (K : list (list Z)) (Hvol : vol_ok fs K) (c v : Z) (Hc : 0 <= c < n_clusters fs).

Lemma vol_put_dir_same dir so :
  dir_ok fs dir = true -> 0 <= so ->
  idx (vol_put fs K c v) (dir_start fs dir + so) = idx K (dir_start fs dir + so).
Proof using Hvol Hc.
  intros Hd Hso. apply vol_put_outside; [done|by eapply vol_cluster_covered|].
  pose proof (dir_region_range fs K Hvol dir Hd). lia.
Qed.

Lemma dir_lookup_vol_put dir nm : dir_ok fs dir = true ->
  dir_lookup fs (vol_put fs K c v) dir nm = dir_lookup fs K dir nm.
Proof using Hvol Hc. intros Hd. apply dir_lookup_frame. intros. by apply vol_put_dir_same; [|lia]. Qed.

Lemma dir_tidy_vol_put dir : dir_ok fs dir = true ->
  dir_tidy fs K dir -> dir_tidy fs (vol_put fs K c v) dir.
Proof using Hvol Hc. intros Hd. apply dir_tidy_frame. intros. by apply vol_put_dir_same; [|lia]. Qed.

Lemma dir_unique_vol_put dir : dir_ok fs dir = true ->
  dir_unique fs K dir -> dir_unique fs (vol_put fs K c v) dir.
Proof using Hvol Hc. intros Hd. apply dir_unique_frame. intros. by apply vol_put_dir_same; [|lia]. Qed.

Lemma free_slot_vol_put dir : dir_ok fs dir = true ->
  free_slot fs (vol_put fs K c v) dir = free_slot fs K dir.
Proof using Hvol Hc.
  intros Hd. apply find_ext. intros s Hs%elem_of_range. unfold reusable.
  rewrite (slot_frame fs K); [done| |done]. intros. by apply vol_put_dir_same; [|lia].
Qed.

Lemma walk_vol_put cs dir : walk fs (vol_put fs K c v) dir cs = walk fs K dir cs.
Proof using Hvol Hc.
  revert dir. induction cs as [|n cs IH]; intros dir; [done|]. cbn [walk].
  destruct (dir_ok fs dir) eqn:Hd; [|done]. rewrite dir_lookup_vol_put by done.
  destruct (dir_lookup fs K dir n) as [[e p]|]; [|done]. destruct cs; [done|].
  destruct (is_directory e); [apply IH|done].
Qed.
End vol_put_frame.

(** A slot of one directory is no slot of another. *)
Lemma dir_lookup_put_slot_other fs K dir dir' s e nm :
  vol_ok fs K -> dir_ok fs dir = true -> dir_ok fs dir' = true -> dir <> dir' ->
  0 <= s < 16 * dir_sectors fs dir ->
  dir_lookup fs (put_slot fs K dir s e) dir' nm = dir_lookup fs K dir' nm.
Proof.
  intros Hvol Hd Hd' Hne Hs. apply dir_lookup_frame. intros so Hso.
  pose proof (dir_region_range fs K Hvol dir' Hd'). pose proof (vol_root_range fs K Hvol).
  apply put_slot_outside; [done..|lia|]. unfold slot_sector.
  pose proof (dir_regions_disjoint fs K Hvol dir dir' (s / 16) so Hd Hd' Hne). 
  assert (0 <= s / 16 < dir_sectors fs dir) by dlia. intuition lia.
Qed.

(** A directory of zero bytes has only free slots, so it is tidy and empty. *)
Section blank.
Context (fs : Fat16) (K : list (list Z)) (dir : Z).
Context (Hzero : forall so, 0 <= so < dir_sectors fs dir ->
           idx K (dir_start fs dir + so) = Some (vec 0 SECTOR_SIZE)).

Lemma blank_slot_free s : 0 <= s < 16 * dir_sectors fs dir -> is_free (slot fs K dir s) = true.
Proof using Hzero.
  intros Hs. unfold slot, sector_at, slot_sector. rewrite Hzero by dlia. cbn [default from_option].
  assert (forall i, i ∈ range 0 16 -> is_free (entry_at (vec 0 SECTOR_SIZE) i) = true) as Hall.
  { apply Forall_forall. by vm_compute; repeat constructor. }
  apply Hall, elem_of_range. dlia.
Qed.

Lemma blank_tidy : dir_tidy fs K dir.
Proof using Hzero. intros s s' Hs Hs' _. apply blank_slot_free. dlia. Qed.

Lemma blank_matches nm s : 0 <= s < 16 * dir_sectors fs dir -> matches fs K dir nm s = false.
Proof using Hzero.
  intros Hs. apply not_true_iff_false. unfold matches. intros [[Hr _]%andb_prop _]%andb_prop.
  rewrite reached_spec in Hr. specialize (Hr s ltac:(dlia)). by rewrite blank_slot_free in Hr.
Qed.

Lemma blank_unique : dir_unique fs K dir.
Proof using Hzero. intros n s s' Hs _ Hm. by rewrite blank_matches in Hm. Qed.

Lemma blank_lookup nm : dir_lookup fs K dir nm = None.
Proof using Hzero.
  unfold dir_lookup. rewrite find_range_none; [done|]. intros s Hs. by apply blank_matches.
Qed.
End blank.

(** ** Removing an entry *)

(** The first byte of a slot overwritten with the deletion mark. *)
Definition mark_deleted (fs : Fat16) (K : list (list Z)) (dir s : Z) : list (list Z) :=
  upd K (slot_sector fs dir s)
    (upd (sector_at K (slot_sector fs dir s)) (s mod 16 * DIR_ENTRY_SIZE) DELETED_ENTRY_MARKER).

Lemma name0_entry_at buf i :
  sector_ok buf -> 0 <= i < 16 -> name0 (entry_at buf i) = byte_at buf (i * 32).
Proof.
  unfold sector_ok, SECTOR_SIZE. intros Hb Hi. unfold name0, entry_at, dir_entry_of. cbn [name].
  unfold byte_at. rewrite !idx_slice by (unfold DIR_ENTRY_SIZE; lia).
  unfold DIR_ENTRY_SIZE. do 2 f_equal. lia.
Qed.

Section remove_entry_slot.
Context (fs : Fat16) (K : list (list Z)) (Hvol : vol_ok fs K) (HK : Forall sector_ok K).
Context (dir s : Z) (Hd : dir_ok fs dir = true) (Hs : 0 <= s < 16 * dir_sectors fs dir).
Abbreviation K' := (mark_deleted fs K dir s).

Lemma mark_deleted_sector : 0 < slot_sector fs dir s < len K /\ sector_ok (sector_at K (slot_sector fs dir s)).
Proof using Hvol HK Hd Hs.
  pose proof (slot_sector_range fs K Hvol dir s Hd Hs). pose proof (vol_root_range fs K Hvol).
  split; [lia|]. apply sector_at_ok; [done|lia].
Qed.

Lemma mark_deleted_sectors : Forall sector_ok K'.
Proof using Hvol HK Hd Hs.
  apply upd_sectors; [done|]. unfold sector_ok. rewrite len_upd. apply mark_deleted_sector.
Qed.

Lemma slot_deleted : is_deleted (slot fs K' dir s) = true.
Proof using Hvol HK Hd Hs.
  destruct mark_deleted_sector as [Hr Hok]. unfold is_deleted, slot, mark_deleted.
  rewrite sector_at_upd_eq by lia. unfold sector_ok, SECTOR_SIZE in Hok.
  rewrite name0_entry_at by (unfold sector_ok, SECTOR_SIZE; rewrite ?len_upd; dlia).
  unfold byte_at, DIR_ENTRY_SIZE. rewrite idx_upd_eq by dlia. done.
Qed.

Lemma slot_deleted_other s' : 0 <= s' < 16 * dir_sectors fs dir -> s' <> s ->
  slot fs K' dir s' = slot fs K dir s'.
Proof using Hvol HK Hd Hs.
  intros Hs' Hne. destruct mark_deleted_sector as [Hr Hok].
  pose proof (slot_sector_range fs K Hvol dir s' Hd Hs'). pose proof (vol_root_range fs K Hvol).
  unfold slot, mark_deleted. destruct (decide (s' / 16 = s / 16)) as [Heq|Hneq].
  - assert (slot_sector fs dir s' = slot_sector fs dir s) as -> by (unfold slot_sector; lia).
    rewrite sector_at_upd_eq by lia. unfold entry_at. f_equal. unfold DIR_ENTRY_SIZE.
    apply slice_upd_other; dlia.
  - rewrite sector_at_upd_ne; [done|lia|lia|]. unfold slot_sector. lia.
Qed.

Lemma matches_deleted n : matches fs K' dir n s = false.
Proof using Hvol HK Hd Hs.
  unfold matches. rewrite slot_deleted. by rewrite andb_false_r.
Qed.

(** Deleting a live slot hides and reveals no other slot. *)
Lemma matches_deleted_other n s' :
  is_free (slot fs K dir s) = false ->
  0 <= s' < 16 * dir_sectors fs dir -> s' <> s -> matches fs K' dir n s' = matches fs K dir n s'.
Proof using Hvol HK Hd Hs.
  intros Hf Hs' Hne. unfold matches. rewrite slot_deleted_other by done. do 2 f_equal.
  apply eq_true_iff_eq. rewrite !reached_spec.
  assert (is_free (slot fs K' dir s) = false) as Hf'.
  { pose proof slot_deleted as Hdel. unfold is_deleted, is_free, DELETED_ENTRY_MARKER in *. lia. }
  split; intros Hr j Hj; (destruct (decide (j = s)) as [->|]; [done|]);
    specialize (Hr j Hj); rewrite slot_deleted_other in * by dlia; done.
Qed.

Lemma lookup_deleted_other n :
  is_free (slot fs K dir s) = false -> matches fs K dir n s = false ->
  dir_lookup fs K' dir n = dir_lookup fs K dir n.
Proof using Hvol HK Hd Hs.
  intros Hf Hn. unfold dir_lookup. rewrite (find_ext _ (matches fs K dir n)).
  - destruct (List.find _ _) as [i|] eqn:E; [|done]. cbn.
    apply find_some in E as [Hin Hm]. rewrite <- list_elem_of_In, elem_of_range in Hin.
    destruct (decide (i = s)) as [->|]; [congruence|]. by rewrite slot_deleted_other.
  - intros i Hi%elem_of_range. destruct (decide (i = s)) as [->|].
    + by rewrite matches_deleted.
    + by apply matches_deleted_other.
Qed.

Lemma lookup_deleted_same n :
  is_free (slot fs K dir s) = false ->
  (forall s', 0 <= s' < 16 * dir_sectors fs dir -> matches fs K dir n s' = true -> s' = s) ->
  dir_lookup fs K' dir n = None.
Proof using Hvol HK Hd Hs.
  intros Hf Huniq. unfold dir_lookup. rewrite find_range_none; [done|]. intros i Hi.
  destruct (decide (i = s)) as [->|Hne]; [apply matches_deleted|].
  rewrite matches_deleted_other by done. destruct (matches fs K dir n i) eqn:Hm; [|done].
  by apply Huniq in Hm.
Qed.
End remove_entry_slot.

(** What a successful lookup found. *)
Lemma dir_lookup_Some fs K dir nm e pos :
  dir_lookup fs K dir nm = Some (e, pos) ->
  exists s, 0 <= s < 16 * dir_sectors fs dir /\ matches fs K dir nm s = true /\
    e = slot fs K dir s /\ pos = slot_pos fs dir s /\ is_free e = false /\ get_name e = nm.
Proof.
  unfold dir_lookup. destruct (List.find _ _) as [s|] eqn:E; [|done]. intros [= <- <-].
  apply find_some in E as [Hin Hm]. rewrite <- list_elem_of_In, elem_of_range in Hin.
  pose proof Hm as [[Hr _]%andb_prop Hn]%andb_prop. rewrite reached_spec in Hr.
  exists s. split_and!; try done; [lia|lia|apply Hr; dlia|by apply list_eqb_spec].
Qed.

Lemma slot_pos_split fs dir s :
  slot_pos fs dir s / SECTOR_SIZE = slot_sector fs dir s /\
  slot_pos fs dir s mod SECTOR_SIZE = s mod 16 * DIR_ENTRY_SIZE.
Proof. unfold slot_pos, SECTOR_SIZE, DIR_ENTRY_SIZE. dlia. Qed.

(** ** Freeing a chain *)

(** The disk after the clusters of a list are freed in order. *)
Definition freed (fs : Fat16) (K : list (list Z)) (cs : list Z) : list (list Z) :=
  fold_left (fun K c => vol_put fs K c 0) cs K.

Section freeing.
Context (fs : Fat16).

Lemma len_freed cs K : len (freed fs K cs) = len K.
Proof.
  revert K. induction cs as [|c cs IH]; intros K; [done|]. cbn.
  change (len (freed fs (vol_put fs K c 0) cs) = len K). by rewrite IH, len_vol_put.
Qed.

Lemma freed_spec cs K :
  vol_ok fs K -> Forall sector_ok K -> Forall (fun x => 2 <= x < n_clusters fs) cs ->
  Forall sector_ok (freed fs K cs) /\
  (forall c, 0 <= c < n_clusters fs ->
     vol_get fs (freed fs K cs) c = if bool_decide (c ∈ cs) then 0 else vol_get fs K c) /\
  (forall i, 0 <= i < fat_start fs \/ root_dir_start fs <= i -> idx (freed fs K cs) i = idx K i).
Proof.
  revert K. induction cs as [|x cs IH]; intros K Hvol HK Hr; [done|].
  apply Forall_cons in Hr as [Hx Hr]. pose proof (vol_cluster_covered fs K Hvol x ltac:(lia)) as Hcx.
  change (freed fs K (x :: cs)) with (freed fs (vol_put fs K x 0) cs).
  destruct (IH (vol_put fs K x 0)) as (Hs & Hg & Ho).
  - eapply vol_ok_len; [exact Hvol|]. apply len_vol_put.
  - by apply vol_put_sectors.
  - done.
  - split_and!; [done| |].
    + intros c Hc. rewrite Hg by done. case_bool_decide as Hin.
      * by rewrite bool_decide_true by set_solver.
      * destruct (decide (c = x)) as [->|Hne].
        -- rewrite bool_decide_true by set_solver. by apply vol_get_put_same.
        -- rewrite bool_decide_false by set_solver. apply vol_get_put_other; try done.
           by eapply vol_cluster_covered.
    + intros i Hi. rewrite Ho by done. by apply vol_put_outside.
Qed.
End freeing.

(** The loop frees exactly the clusters of the chain, within as many rounds as
    the chain is long. *)
Lemma free_chain_triple {D} `{BlockDeviceLaws D} fs c cs K fuel :
  vol_ok fs K -> chain (fat_start fs) (n_clusters fs) K c cs -> (length cs <= S fuel)%nat ->
  dtriple K (free_chain fuel fs c) (Ok tt) (freed fs K cs).
Proof.
  revert c K fuel. induction cs as [|c' cs IH]; intros c K fuel Hvol Hc Hfuel; [inversion Hc|].
  pose proof (chain_range _ _ _ _ _ Hc) as [Hr _]%Forall_cons.
  pose proof (chain_NoDup _ _ _ _ _ Hc) as [Hni _]%NoDup_cons.
  assert (c' = c) as -> by (by inversion Hc).
  pose proof (vol_cluster_covered fs K Hvol c ltac:(lia)) as Hcov.
  apply dtriple_sectors. intros HK.
  destruct fuel as [|fuel]; cbn [free_chain];
    (eapply dtriple_bind; [by apply read_fat_entry_triple|]); unfold is_end_of_chain; cbn [cluster];
    inversion Hc as [? _ He|? ? _ He Hnext]; subst.
  - replace (_ <=? _) with true by (unfold vol_get; lia). by apply write_fat_entry_triple.
  - destruct cs; [inversion Hnext|cbn in Hfuel; lia].
  - replace (_ <=? _) with true by (unfold vol_get; lia). by apply write_fat_entry_triple.
  - replace (_ <=? _) with false by (unfold vol_get; lia).
    eapply dtriple_bind; [by apply read_fat_entry_triple|]. cbn zeta.
    eapply dtriple_bind; [by apply write_fat_entry_triple|]. cbn [cluster].
    change (freed fs K (c :: cs)) with (freed fs (vol_put fs K c 0) cs).
    apply IH; [|eapply chain_frame; [exact Hnext|]|cbn in Hfuel; lia].
    + eapply vol_ok_len; [exact Hvol|]. apply len_vol_put.
    + intros x Hx. apply chain_range in Hnext. pose proof (proj1 (Forall_forall _ _) Hnext x Hx) as Hxr.
      cbn in Hxr. apply vol_get_put_other; try done; [|set_solver].
      eapply vol_cluster_covered; [done|lia].
Qed.

(** Distinct slots have distinct positions. *)
Lemma slot_pos_inj fs K dir dir' s s' :
  vol_ok fs K -> dir_ok fs dir = true -> dir_ok fs dir' = true ->
  0 <= s < 16 * dir_sectors fs dir -> 0 <= s' < 16 * dir_sectors fs dir' ->
  slot_pos fs dir s = slot_pos fs dir' s' -> dir = dir' /\ s = s'.
Proof.
  intros Hvol Hd Hd' Hs Hs' Heq.
  destruct (slot_pos_split fs dir s) as [Hq Hr], (slot_pos_split fs dir' s') as [Hq' Hr'].
  rewrite Heq, Hq' in Hq. rewrite Heq, Hr' in Hr. unfold slot_sector, DIR_ENTRY_SIZE in *.
  destruct (decide (dir = dir')) as [->|Hne]; [split; [done|dlia]|].
  exfalso. apply (dir_regions_disjoint fs K Hvol dir dir' (s / 16) (s' / 16)); try done; dlia.
Qed.

(** ** [remove_entry] *)

Section remove.
Context {D : Type} `{BlockDeviceLaws D}.
Context (fs : Fat16) (K : list (list Z)) (Hvol : vol_ok fs K) (path : list Z).
Context (dir s : Z) (e : DirEntry83) (cs : list Z).
Context (Hd : dir_ok fs dir = true) (Hs : 0 <= s < 16 * dir_sectors fs dir).
Context (Hwalk : walk fs K 0 (components path) = Ok (e, slot_pos fs dir s)).
Context (Hchain : chain (fat_start fs) (n_clusters fs) K (start_cluster e) cs).

Lemma mark_deleted_vol : vol_ok fs (mark_deleted fs K dir s).
Proof using Hvol. eapply vol_ok_len; [exact Hvol|]. apply len_upd. Qed.

Lemma mark_deleted_fat c : 0 <= c < n_clusters fs ->
  vol_get fs (mark_deleted fs K dir s) c = vol_get fs K c.
Proof using Hvol Hd Hs.
  intros Hc%(vol_cluster_covered fs K Hvol). pose proof (vol_fat_range fs K Hvol c Hc).
  pose proof (slot_sector_range fs K Hvol dir s Hd Hs). pose proof (vol_root_range fs K Hvol).
  apply fat_get_upd; lia.
Qed.

Lemma remove_entry_triple fuel is_dir :
  is_directory e = is_dir -> (Z.to_nat (n_clusters fs) <= fuel)%nat ->
  dtriple K (remove_entry fuel fs path is_dir) (Ok tt) (freed fs (mark_deleted fs K dir s) cs).
Proof using All.
  intros Hdir Hfuel. pose proof (slot_sector_range fs K Hvol dir s Hd Hs) as Hr.
  pose proof (vol_root_range fs K Hvol). apply dtriple_sectors. intros HK.
  destruct (slot_pos_split fs dir s) as [Hq Hm].
  unfold remove_entry. eapply (dtriple_bind _ _ _ _ _ (e, slot_pos fs dir s)).
  { rewrite <- Hwalk. apply find_entry_triple; [done|]. by rewrite Hwalk. }
  cbv beta iota zeta. rewrite Hdir, eqb_reflx, Hq, Hm. cbn [negb].
  eapply dtriple_bind; [apply dtriple_read; [lia|done|apply sector_at_idx; lia]|].
  eapply dtriple_bind; [apply dtriple_write; [lia|]|].
  { unfold sector_ok. rewrite len_upd. apply sector_at_ok; [done|lia]. }
  apply free_chain_triple; [apply mark_deleted_vol|eapply chain_frame; [exact Hchain|]|].
  - intros x Hx. apply chain_range in Hchain.
    pose proof (proj1 (Forall_forall _ _) Hchain x Hx) as Hxr. cbn in Hxr.
    apply mark_deleted_fat. lia.
  - apply chain_length in Hchain. unfold len in Hchain. lia.
Qed.
End remove.
