(* ===== verification/FatFs.v ===== *)
(** * The file system interface ([filesys/fat16/mod.rs]: [impl FileSystem for Fat16])

    Files and directories by path, the table of open files, and the operations
    on open descriptors. *)

From S2P Require Import Prelude BlockDev FatLayout FatSpec FatFile FatVolume FatDir.

(** [filesys/mod.rs]: [FilePermissions], [FileMetadata], [DirEntry]. *)
Record FilePermissions := mkFilePermissions { readable : bool; writable : bool; executable : bool }.
Record FileMetadata := mkFileMetadata {
  meta_size : Z;
  is_dir : bool;
  created : Z;
  modified : Z;
  permissions : FilePermissions
}.
Record DirEntry := mkDirEntry { entry_name : list Z; metadata_of : FileMetadata }.

(** [BinaryHeap::pop]: the greatest element. *)
Definition heap_max (l : list Z) : option Z :=
  match l with
  | [] => None
  | x :: r => Some (fold_left Z.max r x)
  end.
Fixpoint remove_one (x : Z) (l : list Z) : list Z :=
  match l with
  | [] => []
  | y :: r => if x =? y then r else y :: remove_one x r
  end.
Definition heap_pop (l : list Z) : option (Z * list Z) :=
  match heap_max l with
  | None => None
  | Some m => Some (m, remove_one m l)
  end.

Definition set_fds (self : Fat16) (counter : Z) (reuse : list Z)
    (table : list Fat16File.Fat16File) : Fat16 :=
  mkFat16 (boot_sector self) (fat_start self) (root_dir_start self) (data_start self)
    (cluster_size self) counter reuse table.

Section fs.
Context {D : Type} `{BlockDevice D}.

(** The parent directory of a new entry. *)
Definition parent_cluster_of (self : Fat16) (parent_path : list Z) : M D FsError Z :=
  if (len parent_path =? 0) || list_eqb parent_path [0x2F] then ret 0
  else let! (e, _) := find_entry self parent_path in ret (start_cluster e).

(** [FileSystem::create_file]. *)
Definition create_file (self : Fat16) (path : list Z) : M D FsError unit :=
  let (parent_path, nm) := split_parent path in
  if MAX_FILENAME_LENGTH + MAX_EXTENSION_LENGTH + 1 <? len nm then err InvalidName else
  let (base_name, extension) := split_extension nm in
  let! exists_ := find_entry_is_ok self path in
  if (exists_ : bool) then err AlreadyExists else
  let! cluster := allocate_cluster self in
  let entry := new_file base_name extension cluster in
  let! parent_cluster := parent_cluster_of self parent_path in
  write_dir_entry self parent_cluster entry.

(** [FileSystem::create_dir]. *)
Definition create_dir (self : Fat16) (path : list Z) : M D FsError unit :=
  let (parent_path, nm) := split_parent path in
  if MAX_FILENAME_LENGTH <? len nm then err InvalidName else
  let! exists_ := find_entry_is_ok self path in
  if (exists_ : bool) then err AlreadyExists else
  let! cluster := allocate_cluster self in
  let entry := new_directory nm cluster in
  let! parent_cluster := parent_cluster_of self parent_path in
  init_directory self cluster parent_cluster ;!
  write_dir_entry self parent_cluster entry.

(** [FileSystem::remove_file]. *)
Definition remove_file (fuel : nat) (self : Fat16) (path : list Z) : M D FsError unit :=
  remove_entry fuel self path false.

(** [FileSystem::remove_dir]. *)
Definition remove_dir (fuel : nat) (self : Fat16) (path : list Z) : M D FsError unit :=
  let! (entry, _) := find_entry self path in
  if negb (is_directory entry) then err NotSupported else
  let! empty := is_directory_empty self (start_cluster entry) in
  if negb empty then err DirectoryNotEmpty else
  remove_entry fuel self path true.

(** The metadata [read_dir] and [metadata] report: size, kind and permissions
    of one entry, time stamps of another. *)
Definition metadata_from (e stamps : DirEntry83) : FileMetadata :=
  {| meta_size := file_size e;
     is_dir := is_directory e;
     created := 0;
     modified := Z.lor (Z.shiftl (date stamps) 16) (time stamps);
     permissions := {| readable := true;
                       writable := Z.land (attributes e) ATTR_READ_ONLY =? 0;
                       executable := false |} |}.

(** The entries [read_dir] lists from one sector. *)
Fixpoint list_sector (sector_buffer : list Z) (dir : DirEntry83) (is_ : list Z) : list DirEntry :=
  match is_ with
  | [] => []
  | i :: is' =>
      let fat_entry := entry_at sector_buffer i in
      if is_free fat_entry then []
      else if negb (is_deleted fat_entry) && negb (name0 fat_entry =? 0x2E) then
        {| entry_name := get_name fat_entry; metadata_of := metadata_from fat_entry dir |}
          :: list_sector sector_buffer dir is'
      else list_sector sector_buffer dir is'
  end.

(** [FileSystem::read_dir]. *)
Definition read_dir (self : Fat16) (path : list Z) : M D FsError (list DirEntry) :=
  let! (entry, _) :=
    if (len path =? 0) || list_eqb path [0x2F] then
      ret ({| name := vec 0x20 8; ext := vec 0x20 3; attributes := ATTR_DIRECTORY;
              reserved := vec 0 10; time := 0; date := 0; start_cluster := 0;
              file_size := 0 |}, 0)
    else find_entry self path in
  if negb (is_directory entry) then err NotSupported else
  let! (start_sector, num_sectors) := dir_region self (start_cluster entry) in
  for_fold (range 0 num_sectors) [] (fun result sector_offset =>
    let! sector_buffer := read_block (start_sector + sector_offset) (vec 0 SECTOR_SIZE) in
    ret (result ++ list_sector sector_buffer entry (range 0 entries_per_sector))).

(** [FileSystem::metadata]. *)
Definition metadata (self : Fat16) (path : list Z) : M D FsError FileMetadata :=
  let! (entry, _) := find_entry self path in
  ret (metadata_from entry entry).

(** The search of [rename] for a free slot of one sector. *)
Definition find_slot (sector_buffer : list Z) : option Z :=
  List.find (fun i =>
    let e := entry_at sector_buffer i in is_free e || is_deleted e) (range 0 entries_per_sector).

(** [FileSystem::rename]. *)
Definition rename (self : Fat16) (from to : list Z) : M D FsError unit :=
  let! (src_entry, src_pos) := find_entry self from in
  let! exists_ := find_entry_is_ok self to in
  if (exists_ : bool) then err AlreadyExists else
  let (parent_path, new_name) := split_parent to in
  let (base_name, extension) := split_extension new_name in
  let new_entry :=
    {| name := pad 8 base_name;
       ext := if len extension =? 0 then vec 0x20 3 else pad 3 extension;
       attributes := attributes src_entry; reserved := reserved src_entry;
       time := time src_entry; date := date src_entry;
       start_cluster := start_cluster src_entry; file_size := file_size src_entry |} in
  let! dest_dir_cluster := parent_cluster_of self parent_path in
  let! (start_sector, num_sectors) := dir_region self dest_dir_cluster in
  let! found_pos := for_each (range 0 num_sectors) (fun sector_offset =>
    let! sector_buffer := read_block (start_sector + sector_offset) (vec 0 SECTOR_SIZE) in
    match find_slot sector_buffer with
    | Some i => ret (Some (start_sector + sector_offset, i))
    | None => ret None
    end) in
  let! (dest_sector, dest_slot) := ok_or found_pos NotSupported in
  let! sector_buffer := read_block dest_sector (vec 0 SECTOR_SIZE) in
  write_block dest_sector (put_entry sector_buffer dest_slot new_entry) ;!
  let! sector_buffer := read_block (src_pos / SECTOR_SIZE) (vec 0 SECTOR_SIZE) in
  write_block (src_pos / SECTOR_SIZE)
    (upd sector_buffer (src_pos mod SECTOR_SIZE) DELETED_ENTRY_MARKER).

(** ** Open files: the state is the structure and the device *)

Definition dev {A} (m : M D FsError A) : M (Fat16 * D) FsError A :=
  fun '(self, d) => let '(r, d') := m d in (r, (self, d')).
Definition get_self : M (Fat16 * D) FsError Fat16 := fun '(self, d) => (Ok self, (self, d)).
Definition put_self (self : Fat16) : M (Fat16 * D) FsError unit :=
  fun '(_, d) => (Ok tt, (self, d)).

(** [FileSystem::open_file]. *)
Definition open_file (path : list Z) : M (Fat16 * D) FsError Z :=
  let! self := get_self in
  let! (entry, entry_pos) := dev (find_entry self path) in
  if is_directory entry then err NotSupported else
  let file := Fat16File.mk true (start_cluster entry) 0 (file_size entry) (cluster_size self)
                (fat_start self) (data_start self) entry_pos in
  let! fd :=
    match heap_pop (reuse_fds self) with
    | Some (reused_fd, rest) =>
        let! old := expect (idx (fd_table self) reused_fd) in
        rassert (negb (Fat16File.valid old)) ;!
        put_self (set_fds self (fd_counter self) rest (upd (fd_table self) reused_fd file)) ;!
        ret reused_fd
    | None =>
        let new_fd := fd_counter self in
        put_self (set_fds self (fd_counter self + 1) (reuse_fds self) (fd_table self ++ [file])) ;!
        ret new_fd
    end in
  rassert (negb (fd =? 2 ^ 64 - 1)) ;!
  ret fd.

(** The state [close_file] leaves a descriptor in. *)
Definition closed_file : Fat16File.Fat16File := Fat16File.mk false 0 0 0 0 0 0 0.

(** [FileSystem::close_file]. *)
Definition close_file (fd : Z) : M (Fat16 * D) FsError unit :=
  let! self := get_self in
  let! file := expect (idx (fd_table self) fd) in
  rassert (Fat16File.valid file) ;!
  put_self (set_fds self (fd_counter self) (fd :: reuse_fds self)
              (upd (fd_table self) fd closed_file)).

(** [let file = self.fd_table.get_mut(fd).expect(..)]: run a computation on
    the file and the device, in place. *)
Definition with_file {A} (fd : Z) (m : M (Fat16File.Fat16File * D) FsError A)
    : M (Fat16 * D) FsError A :=
  fun '(self, d) =>
    match idx (fd_table self) fd with
    | None => (Panic, (self, d))
    | Some file =>
        let '(r, (file', d')) := m (file, d) in
        (r, (set_fds self (fd_counter self) (reuse_fds self) (upd (fd_table self) fd file'), d'))
    end.

(** The body of [FileSystem::seek_file]. *)
Definition seek_body (pos : SeekFrom) : M (Fat16File.Fat16File * D) FsError Z :=
  let! file := Fat16File.self_ in
  let! new_pos :=
    match pos with
    | Start offset => ret offset
    | End offset =>
        if offset <? 0 then
          ok_or (checked (Z.abs offset <=? Fat16File.size file) (Fat16File.size file - Z.abs offset))
            InvalidOffset
        else
          ok_or (checked (Fat16File.size file + offset <? 2 ^ 64) (Fat16File.size file + offset))
            InvalidOffset
    | Current offset =>
        if offset <? 0 then
          ok_or (checked (Z.abs offset <=? Fat16File.position file)
                   (Fat16File.position file - Z.abs offset)) InvalidOffset
        else
          ok_or (checked (Fat16File.position file + offset <? 2 ^ 64)
                   (Fat16File.position file + offset)) InvalidOffset
    end in
  if Fat16File.size file <? new_pos then err InvalidOffset
  else Fat16File.modify (Fat16File.set_position new_pos) ;! ret new_pos.

(** [FileSystem::seek_file]. *)
Definition seek_file (fd : Z) (pos : SeekFrom) : M (Fat16 * D) FsError Z :=
  with_file fd (seek_body pos).

(** The loop of [FileSystem::read_file]. *)
Fixpoint read_file_loop (fuel : nat) (bytes_to_read bytes_read buf_offset : Z) (buf : list Z)
    : M (Fat16File.Fat16File * D) FsError (Z * list Z) :=
  if negb (bytes_read <? bytes_to_read) then ret (bytes_read, buf) else
  match fuel with
  | O => diverge
  | S fuel' =>
      let! file := Fat16File.self_ in
      let! cluster_offset := rem_chk (Fat16File.position file) (Fat16File.cluster_size file) in
      let bytes_left_in_cluster := Fat16File.cluster_size file - cluster_offset in
      let chunk_size := Z.min bytes_left_in_cluster (bytes_to_read - bytes_read) in
      let! sector :=
        Fat16File.on_device (Fat16File.cluster_to_sector file (Fat16File.current_cluster file)) in
      let! cluster_data :=
        Fat16File.on_device (Fat16File.read_cluster sector (Fat16File.cluster_size file)) in
      let buf := splice buf buf_offset (slice cluster_data cluster_offset chunk_size) in
      let bytes_read := bytes_read + chunk_size in
      let buf_offset := buf_offset + chunk_size in
      Fat16File.modify (Fat16File.set_position (Fat16File.position file + chunk_size)) ;!
      if cluster_offset + chunk_size =? Fat16File.cluster_size file then
        let! next_cluster :=
          Fat16File.on_device (Fat16File.read_fat_entry file (Fat16File.current_cluster file)) in
        if is_end_of_chain next_cluster then ret (bytes_read, buf)
        else
          Fat16File.modify (Fat16File.set_current_cluster (FatLayout.cluster next_cluster)) ;!
          read_file_loop fuel' bytes_to_read bytes_read buf_offset buf
      else read_file_loop fuel' bytes_to_read bytes_read buf_offset buf
  end.

(** [FileSystem::read_file]. *)
Definition read_file (fd : Z) (buf : list Z) : M (Fat16 * D) FsError (Z * list Z) :=
  with_file fd (
    let! file := Fat16File.self_ in
    if Fat16File.size file <=? Fat16File.position file then ret (0, buf) else
    let bytes_to_read :=
      Z.min (len buf) (Fat16File.size file - Fat16File.position file) in
    read_file_loop (Z.to_nat bytes_to_read) bytes_to_read 0 0 buf).

(** The loop of [FileSystem::write_file]. *)
Fixpoint write_file_loop (fuel : nat) (buf : list Z) (bytes_written buf_offset : Z)
    : M (Fat16File.Fat16File * D) FsError Z :=
  if negb (bytes_written <? len buf) then ret bytes_written else
  match fuel with
  | O => diverge
  | S fuel' =>
      let! file := Fat16File.self_ in
      let! cluster_offset := rem_chk (Fat16File.position file) (Fat16File.cluster_size file) in
      let bytes_left_in_cluster := Fat16File.cluster_size file - cluster_offset in
      let chunk_size := Z.min bytes_left_in_cluster (len buf - bytes_written) in
      let! sector :=
        Fat16File.on_device (Fat16File.cluster_to_sector file (Fat16File.current_cluster file)) in
      let! cluster_data :=
        Fat16File.on_device (Fat16File.read_cluster sector (Fat16File.cluster_size file)) in
      let cluster_data := splice cluster_data cluster_offset (slice buf buf_offset chunk_size) in
      Fat16File.on_device
        (Fat16File.write_cluster sector (Fat16File.cluster_size file) cluster_data) ;!
      let bytes_written := bytes_written + chunk_size in
      let buf_offset := buf_offset + chunk_size in
      Fat16File.modify (Fat16File.set_position (Fat16File.position file + chunk_size)) ;!
      Fat16File.modify (Fat16File.set_size
        (Z.max (Fat16File.size file) (Fat16File.position file + chunk_size))) ;!
      if cluster_offset + chunk_size =? Fat16File.cluster_size file then
        let! fat_entry :=
          Fat16File.on_device (Fat16File.read_fat_entry file (Fat16File.current_cluster file)) in
        (if is_end_of_chain fat_entry then
          let! new_cluster := Fat16File.on_device (Fat16File.allocate_cluster file) in
          Fat16File.on_device (Fat16File.write_fat_entry file (Fat16File.current_cluster file)
            (mkFatEntry new_cluster)) ;!
          Fat16File.modify (Fat16File.set_current_cluster new_cluster)
        else
          Fat16File.modify (Fat16File.set_current_cluster (FatLayout.cluster fat_entry))) ;!
        write_file_loop fuel' buf bytes_written buf_offset
      else write_file_loop fuel' buf bytes_written buf_offset
  end.

(** [FileSystem::write_file]. *)
Definition write_file (fd : Z) (buf : list Z) : M (Fat16 * D) FsError Z :=
  with_file fd (
    let! bytes_written := write_file_loop (length buf) buf 0 0 in
    let! file := Fat16File.self_ in
    Fat16File.on_device (Fat16File.update_directory_entry file (Fat16File.size file)) ;!
    ret bytes_written).
End fs.

(** ** Creating files *)

(** A base name and an extension that fit a directory entry, and the name they
    make up. *)
Record valid_parts (b ex : list Z) : Prop := {
  vp_base : part_ok 8 b;
  vp_ext : part_ok 3 ex;
  vp_nonempty : b <> [];
  vp_no_dot : 0x2E ∉ ex;
  vp_plain : ex = [] -> 0x2E ∉ b;
  vp_first : idx b 0 <> Some 0 /\ idx b 0 <> Some DELETED_ENTRY_MARKER
}.
Definition name83 (b ex : list Z) : list Z :=
  match ex with [] => b | _ => b ++ 0x2E :: ex end.

Lemma split_name83 b ex : valid_parts b ex -> split_extension (name83 b ex) = (b, ex).
Proof.
  intros []. destruct ex as [|x ex]; [by apply split_extension_none, vp_plain0|].
  by apply split_extension_join.
Qed.

Lemma len_name83 b ex : valid_parts b ex -> len (name83 b ex) <= 12 /\ name83 b ex <> [].
Proof.
  intros [(Hb & _) (He & _) Hne _ _ _]. unfold len in *. destruct ex as [|x ex]; unfold name83; [split; [lia|done]|].
  rewrite length_app. cbn [length] in *. split; [lia|]. by destruct b.
Qed.

(** An entry made from valid parts is live and carries the name. *)
Lemma new_file_live b ex c :
  valid_parts b ex ->
  (is_free (new_file b ex c) = false /\ is_deleted (new_file b ex c) = false) /\
  get_name (new_file b ex c) = name83 b ex.
Proof.
  intros [Hb He Hne _ _ [H0 H5]]. split; [|by apply get_name_new_file].
  destruct Hb as (Hl & _). unfold is_free, is_deleted, name0, new_file. cbn [name].
  rewrite pad_small by done. destruct b as [|x b]; [done|].
  unfold idx in *. change (Z.to_nat 0) with 0%nat in *. cbn in *.
  unfold DELETED_ENTRY_MARKER in *. split; apply Z.eqb_neq; intros ->; done.
Qed.

(** The directory a parent path names. *)
Definition parent_dir (fs : Fat16) (K : list (list Z)) (pp : list Z) : option Z :=
  if (len pp =? 0) || list_eqb pp [0x2F] then Some 0
  else match walk fs K 0 (components pp) with
       | Ok (e, _) => if is_directory e then Some (start_cluster e) else None
       | _ => None
       end.

Section create.
Context {D : Type} `{BlockDeviceLaws D}.
Context (fs : Fat16) (K : list (list Z)) (Hvol : vol_ok fs K).

Lemma parent_cluster_of_triple pp p :
  parent_dir fs K pp = Some p -> dtriple K (parent_cluster_of fs pp) (Ok p) K.
Proof using Hvol.
  unfold parent_dir, parent_cluster_of. case_test; [intros [= <-]; apply dtriple_ret|].
  destruct (walk fs K 0 (components pp)) as [[e pos]| | |] eqn:E; try done.
  destruct (is_directory e); [|done]. intros [= <-].
  eapply (dtriple_bind _ _ _ _ _ (e, pos)); [|apply dtriple_ret].
  rewrite <- E. apply find_entry_triple; [done|]. by rewrite E.
Qed.

(** Looking a new name up in its parent. *)
Lemma walk_parent path pp nm p :
  split_parent path = (pp, nm) -> nm <> [] -> parent_dir fs K pp = Some p ->
  walk fs K 0 (components path) = walk fs K p [nm].
Proof.
  intros Hsp Hne Hp. rewrite (components_split _ _ _ Hsp Hne). unfold parent_dir in Hp.
  destruct ((len pp =? 0) || list_eqb pp [0x2F]) eqn:E.
  - injection Hp as <-. apply orb_prop in E as [E|E%list_eqb_spec]; [|by subst].
    destruct pp; [done|]. unfold len in E. cbn in E. lia.
  - destruct (walk fs K 0 (components pp)) as [[e pos]| | |] eqn:Ew; try done.
    destruct (is_directory e) eqn:Ed; [|done]. injection Hp as <-.
    eapply walk_snoc; [|exact Ew|done]. intros Hnil. by rewrite Hnil in Ew.
Qed.

Lemma parent_dir_vol_put c v pp : 0 <= c < n_clusters fs ->
  parent_dir fs (vol_put fs K c v) pp = parent_dir fs K pp.
Proof using Hvol. intros. unfold parent_dir. by rewrite walk_vol_put. Qed.
End create.

Section create_file.
Context {D : Type} `{BlockDeviceLaws D}.
Context (fs : Fat16) (K : list (list Z)) (Hvol : vol_ok fs K).
Context (path pp b ex : list Z) (p : Z).
Context (Hsplit : split_parent path = (pp, name83 b ex)) (Hname : valid_parts b ex).
Context (Hparent : parent_dir fs K pp = Some p) (Hp : dir_ok fs p = true).
Context (Hnew : dir_lookup fs K p (name83 b ex) = None).

Lemma create_file_triple :
  match free_cluster fs K with
  | None => dtriple K (create_file fs path) (Err NotSupported) K
  | Some c =>
      match free_slot fs K p with
      | None => dtriple K (create_file fs path) (Err NotSupported) (vol_put fs K c 0xFFFF)
      | Some s =>
          dtriple K (create_file fs path) (Ok tt)
            (put_slot fs (vol_put fs K c 0xFFFF) p s (new_file b ex c))
      end
  end.
Proof using All.
  pose proof (len_name83 b ex Hname) as [Hlen Hne]. unfold create_file. rewrite Hsplit.
  replace (_ <? len (name83 b ex)) with false by (unfold MAX_FILENAME_LENGTH, MAX_EXTENSION_LENGTH; lia).
  rewrite split_name83 by done.
  assert (walk fs K 0 (components path) = Err NotFound) as Hw.
  { rewrite (walk_parent fs K path pp _ p) by done. cbn. by rewrite Hp, Hnew. }
  assert (dtriple K (find_entry_is_ok fs path) (Ok false) K) as Hex.
  { pose proof (find_entry_is_ok_triple fs K path Hvol) as Hf. rewrite Hw in Hf. by apply Hf. }
  pose proof (allocate_cluster_triple fs K Hvol) as Hal.
  destruct (free_cluster fs K) as [c|] eqn:Ec.
  2: { eapply dtriple_bind; [exact Hex|]. by apply dtriple_bind_err. }
  apply free_cluster_spec in Ec as [Hc _]. pose proof (n_clusters_range fs K Hvol).
  assert (vol_ok fs (vol_put fs K c 0xFFFF)) as Hvol' by
    (eapply vol_ok_len; [exact Hvol|apply len_vol_put]).
  assert (dtriple (vol_put fs K c 0xFFFF) (parent_cluster_of fs pp) (Ok p) (vol_put fs K c 0xFFFF)).
  { apply parent_cluster_of_triple; [done|]. by rewrite parent_dir_vol_put by (done || lia). }
  pose proof (write_dir_entry_triple fs _ Hvol' p (new_file b ex c) Hp) as Hwr.
  rewrite free_slot_vol_put in Hwr by (done || lia).
  assert (dir_entry_wf (new_file b ex c)) as Hwf by (apply new_file_wf; lia). specialize (Hwr Hwf).
  destruct (free_slot fs K p) as [s|];
    (eapply dtriple_bind; [exact Hex|]; eapply dtriple_bind; [exact Hal|];
     eapply dtriple_bind; [eassumption|]; with_strategy opaque [write_dir_entry dtriple] exact Hwr).
Qed.

(** The directory tree after the new entry is in place. *)
Lemma create_file_lookups c s :
  Forall sector_ok K -> dir_tidy fs K p -> 2 <= c < n_clusters fs -> free_slot fs K p = Some s ->
  let K' := put_slot fs (vol_put fs K c 0xFFFF) p s (new_file b ex c) in
  dir_lookup fs K' p (name83 b ex) = Some (new_file b ex c, slot_pos fs p s) /\
  (forall dir n, dir_ok fs dir = true -> (dir, n) <> (p, name83 b ex) ->
     dir_lookup fs K' dir n = dir_lookup fs K dir n) /\
  dir_tidy fs K' p /\ (dir_unique fs K p -> dir_unique fs K' p).
Proof using All.
  intros HK Htidy Hc Hs K'. pose proof (n_clusters_range fs K Hvol).
  assert (vol_ok fs (vol_put fs K c 0xFFFF)) as Hvol' by
    (eapply vol_ok_len; [exact Hvol|apply len_vol_put]).
  assert (Forall sector_ok (vol_put fs K c 0xFFFF)) as HK1 by
    (apply vol_put_sectors; [done|done|]; eapply vol_cluster_covered; [done|lia]).
  destruct (new_file_live b ex c Hname) as [Hlive Hnm].
  assert (free_slot fs (vol_put fs K c 0xFFFF) p = Some s) as Hs' by
    (rewrite free_slot_vol_put by (done || lia); done).
  assert (dir_tidy fs (vol_put fs K c 0xFFFF) p) as Ht by (apply dir_tidy_vol_put; (done || lia)).
  assert (dir_entry_wf (new_file b ex c)) as Hwf by (apply new_file_wf; lia).
  split_and!.
  - apply lookup_add_same; try done. by rewrite dir_lookup_vol_put by (done || lia).
  - intros dir n Hd Hdn. destruct (decide (dir = p)) as [->|Hne].
    + rewrite <- (dir_lookup_vol_put fs K Hvol c 0xFFFF) by (done || lia).
      eapply lookup_add_other; try done. congruence.
    + rewrite <- (dir_lookup_vol_put fs K Hvol c 0xFFFF) by (done || lia).
      destruct (free_slot_spec fs (vol_put fs K c 0xFFFF) p s Hs') as (? & _).
      by apply dir_lookup_put_slot_other.
  - by eapply tidy_add.
  - intros Hu. eapply unique_add; try done.
    + by rewrite dir_lookup_vol_put by (done || lia).
    + apply dir_unique_vol_put; (done || lia).
Qed.
End create_file.

Section create_ok.
Context {D : Type} `{BlockDeviceLaws D}.

Lemma create_file_spec (fs : Fat16) (d : D) (path pp b ex : list Z) (p c s : Z) :
  dev_ok d -> vol_ok fs (disk d) ->
  split_parent path = (pp, name83 b ex) -> valid_parts b ex ->
  parent_dir fs (disk d) pp = Some p -> dir_ok fs p = true -> dir_tidy fs (disk d) p ->
  dir_lookup fs (disk d) p (name83 b ex) = None ->
  free_cluster fs (disk d) = Some c -> free_slot fs (disk d) p = Some s ->
  exists d', create_file fs path d = (Ok tt, d') /\ dev_ok d' /\ vol_ok fs (disk d') /\
    dir_tidy fs (disk d') p /\ (dir_unique fs (disk d) p -> dir_unique fs (disk d') p) /\
    walk fs (disk d') 0 (components path) = Ok (new_file b ex c, slot_pos fs p s) /\
    fst (find_entry fs path d') = Ok (new_file b ex c, slot_pos fs p s) /\
    vol_get fs (disk d') c = 0xFFFF /\
    (forall c', 0 <= c' < n_clusters fs -> c' <> c -> vol_get fs (disk d') c' = vol_get fs (disk d) c') /\
    (forall path' r, walk fs (disk d) 0 (components path') = Ok r ->
       fst (find_entry fs path' d') = Ok r).
Proof.
  intros Hd Hvol Hsplit Hname Hpar Hp Htidy Hnew Hc Hs. pose proof (dev_sectors d Hd) as HK.
  pose proof (create_file_triple fs (disk d) Hvol path pp b ex p Hsplit Hname Hpar Hp Hnew) as Ht.
  rewrite Hc, Hs in Ht. destruct (Ht d Hd eq_refl) as (d' & E & Hd' & HK'). clear Ht.
  apply free_cluster_spec in Hc as [Hc _]. pose proof (n_clusters_range fs _ Hvol).
  pose proof (vol_cluster_covered fs _ Hvol c ltac:(lia)) as Hcov.
  destruct (create_file_lookups fs (disk d) Hvol path pp b ex p Hsplit Hname Hpar Hp Hnew c s)
    as (Hlook & Hother & Ht' & Hu'); [done..|]. rewrite <- HK' in *.
  assert (vol_ok fs (disk d')) as Hvol' by
    (eapply vol_ok_len; [exact Hvol|]; by rewrite HK', len_put_slot, len_vol_put).
  assert (forall cs dir r, walk fs (disk d) dir cs = Ok r -> walk fs (disk d') dir cs = Ok r) as Hmono.
  { apply walk_mono. intros dir n r Hdir Hl. rewrite Hother; [done..|]. congruence. }
  assert (forall path' r, walk fs (disk d') 0 (components path') = Ok r ->
    fst (find_entry fs path' d') = Ok r) as Hfind.
  { intros path' r Hw. destruct (find_entry_triple fs (disk d') path' Hvol' ltac:(congruence) d')
      as (d2 & E2 & _); [done..|]. by rewrite E2, Hw. }
  assert (forall c', 0 <= c' < n_clusters fs ->
    vol_get fs (disk d') c' = vol_get fs (vol_put fs (disk d) c 0xFFFF) c') as Hfat.
  { intros c' Hc'. pose proof (vol_cluster_covered fs _ Hvol c' Hc') as Hcov'. rewrite HK'.
    pose proof (vol_fat_range fs _ Hvol c' Hcov'). pose proof (vol_root_range fs _ Hvol).
    pose proof (slot_sector_range fs _ Hvol p s Hp (proj1 (free_slot_spec fs _ p s Hs))).
    unfold vol_get, put_slot. apply fat_get_upd; lia. }
  assert (walk fs (disk d') 0 (components path) = Ok (new_file b ex c, slot_pos fs p s)) as Hwalk.
  { rewrite (walk_parent fs (disk d') path pp (name83 b ex) p); [|done| |].
    + cbn. by rewrite Hp, Hlook.
    + by apply len_name83.
    + unfold parent_dir in *. case_test; [done|].
      destruct (walk fs (disk d) 0 (components pp)) as [[e pos]| | |] eqn:Ew; try done.
      by rewrite (Hmono _ _ _ Ew). }
  exists d'. split_and!; [done..|by apply Hfind| | |].
  - rewrite Hfat by lia. by apply vol_get_put_same.
  - intros c' Hc' Hne. rewrite Hfat by done. apply vol_get_put_other; try done.
    by eapply vol_cluster_covered.
  - intros path' r Hw. by apply Hfind, Hmono.
Qed.

(** C9: [create_file] of a valid new 8.3 name in an existing directory with a
    free cluster and a free slot succeeds: the path then resolves to an empty
    archive file that starts at the cluster, the cluster is marked end-of-chain,
    every other FAT entry is unchanged, and every path that resolved before
    still resolves to the same entry. *)
Theorem create_file_ok (fs : Fat16) (d : D) (path pp b ex : list Z) (p c s : Z) :
  dev_ok d -> vol_ok fs (disk d) ->
  split_parent path = (pp, name83 b ex) -> valid_parts b ex ->
  parent_dir fs (disk d) pp = Some p -> dir_ok fs p = true -> dir_tidy fs (disk d) p ->
  dir_lookup fs (disk d) p (name83 b ex) = None ->
  free_cluster fs (disk d) = Some c -> free_slot fs (disk d) p = Some s ->
  exists d', create_file fs path d = (Ok tt, d') /\ dev_ok d' /\ vol_ok fs (disk d') /\
    dir_tidy fs (disk d') p /\ (dir_unique fs (disk d) p -> dir_unique fs (disk d') p) /\
    fst (find_entry fs path d') = Ok (new_file b ex c, slot_pos fs p s) /\
    vol_get fs (disk d') c = 0xFFFF /\
    (forall c', 0 <= c' < n_clusters fs -> c' <> c -> vol_get fs (disk d') c' = vol_get fs (disk d) c') /\
    (forall path' r, walk fs (disk d) 0 (components path') = Ok r ->
       fst (find_entry fs path' d') = Ok r).
Proof.
  intros Hd Hvol Hsplit Hname Hpar Hp Htidy Hnew Hc Hs.
  destruct (create_file_spec fs d path pp b ex p c s) as (d' & ? & ? & ? & ? & ? & _ & ? & ? & ? & ?); try done.
  by exists d'.
Qed.
End create_ok.

(** ** Removing files *)

Section remove_ok.
Context {D : Type} `{BlockDeviceLaws D}.
Context (fs : Fat16) (K : list (list Z)) (Hvol : vol_ok fs K) (HK : Forall sector_ok K).
Context (p s : Z) (nm : list Z) (cs : list Z).
Context (Hp : dir_ok fs p = true) (Hs : 0 <= s < 16 * dir_sectors fs p).
Context (Hm : matches fs K p nm s = true) (Huniq : dir_unique fs K p).
Context (Hfile : is_directory (slot fs K p s) = false).
Context (Hcs : Forall (fun x => 2 <= x < n_clusters fs) cs).
Abbreviation K' := (freed fs (mark_deleted fs K p s) cs).

Lemma removed_lookup dir n : dir_ok fs dir = true ->
  dir_lookup fs K' dir n = dir_lookup fs (mark_deleted fs K p s) dir n.
Proof using Hvol HK Hp Hs Hcs.
  intros Hd. apply dir_lookup_frame. intros so Hso. clear Hm Hfile.
  pose proof (dir_region_range fs K Hvol dir Hd).
  destruct (freed_spec fs cs (mark_deleted fs K p s)) as (_ & _ & Ho);
    [by apply mark_deleted_vol|by apply mark_deleted_sectors|done|].
  apply Ho. lia.
Qed.

Lemma removed_live : is_free (slot fs K p s) = false.
Proof using All.
  unfold matches in Hm. apply andb_prop in Hm as [[Hr _]%andb_prop _].
  rewrite reached_spec in Hr. apply Hr. dlia.
Qed.

(** The name is gone; every entry at another position is still found. *)
Lemma removed_gone : dir_lookup fs K' p nm = None.
Proof using All.
  rewrite removed_lookup by done. apply lookup_deleted_same; try done; [by eapply removed_live|].
  intros s' Hs' Hm'. by apply (Huniq nm).
Qed.

Lemma removed_kept dir n r :
  dir_ok fs dir = true -> dir_lookup fs K dir n = Some r -> snd r <> slot_pos fs p s ->
  dir_lookup fs K' dir n = Some r.
Proof using All.
  intros Hd Hl Hpos. rewrite removed_lookup by done. destruct (decide (dir = p)) as [->|Hne].
  - rewrite lookup_deleted_other; try done; [by eapply removed_live|].
    destruct (matches fs K p n s) eqn:Hms; [|done]. destruct r as [e0 p0].
    apply dir_lookup_Some in Hl as (s0 & Hs0 & Hm0 & _ & -> & _). cbn in Hpos.
    by rewrite (Huniq n s0 s) in Hpos.
  - rewrite <- Hl. apply dir_lookup_frame. intros so Hso.
    pose proof (dir_region_range fs K Hvol dir Hd). pose proof (vol_root_range fs K Hvol).
    pose proof (slot_sector_range fs K Hvol p s Hp Hs).
    apply idx_upd_ne; [lia|lia|]. unfold slot_sector.
    pose proof (dir_regions_disjoint fs K Hvol p dir (s / 16) so Hp Hd) as Hdis.
    assert (0 <= s / 16 < dir_sectors fs p) by dlia. apply Hdis; (done || congruence).
Qed.

Lemma removed_walk wcs dir r :
  walk fs K dir wcs = Ok r -> snd r <> slot_pos fs p s -> walk fs K' dir wcs = Ok r.
Proof using All.
  apply (walk_keep fs K K' (fun r => snd r <> slot_pos fs p s)).
  - intros. by apply removed_kept.
  - intros dir' n [e0 p0] Hd' (s0 & Hs0 & _ & -> & -> & _)%dir_lookup_Some Hisd Heq. cbn in *.
    destruct (slot_pos_inj fs K dir' p s0 s) as [-> ->]; try done. congruence.
Qed.
End remove_ok.

(** C10: [remove_file] of a file with a chain of clusters returns (the chain is
    never longer than the table, so [n_clusters] rounds are enough), frees
    exactly the clusters of its chain, and afterwards the path is [NotFound]
    while every entry elsewhere is still found by its path. *)
Theorem remove_file_ok {D} `{BlockDeviceLaws D} (fs : Fat16) (d : D)
    (path pp nm : list Z) (p pos : Z) (e : DirEntry83) (cs : list Z) (fuel : nat) :
  dev_ok d -> vol_ok fs (disk d) ->
  split_parent path = (pp, nm) -> nm <> [] -> parent_dir fs (disk d) pp = Some p ->
  dir_ok fs p = true -> dir_unique fs (disk d) p ->
  dir_lookup fs (disk d) p nm = Some (e, pos) -> is_directory e = false ->
  chain (fat_start fs) (n_clusters fs) (disk d) (start_cluster e) cs ->
  (Z.to_nat (n_clusters fs) <= fuel)%nat ->
  exists d', remove_file fuel fs path d = (Ok tt, d') /\ dev_ok d' /\ vol_ok fs (disk d') /\
    fst (find_entry fs path d') = Err NotFound /\
    (forall c, 0 <= c < n_clusters fs ->
       vol_get fs (disk d') c = if bool_decide (c ∈ cs) then 0 else vol_get fs (disk d) c) /\
    (forall path' r, walk fs (disk d) 0 (components path') = Ok r -> snd r <> pos ->
       fst (find_entry fs path' d') = Ok r).
Proof.
  intros Hd Hvol Hsplit Hne Hpar Hp Huniq Hlook Hfile Hchain Hfuel.
  pose proof (dev_sectors d Hd) as HK. pose proof Hlook as Hl.
  apply dir_lookup_Some in Hl as (s & Hs & Hm & He & -> & _). subst e.
  assert (walk fs (disk d) 0 (components path) = Ok (slot fs (disk d) p s, slot_pos fs p s)) as Hw.
  { rewrite (walk_parent fs (disk d) path pp nm p) by done. cbn. by rewrite Hp, Hlook. }
  destruct (remove_entry_triple fs (disk d) Hvol path p s _ cs Hp Hs Hw Hchain fuel false Hfile Hfuel d)
    as (d' & E & Hd' & HK'); [done..|].
  pose proof (chain_range _ _ _ _ _ Hchain) as Hcs.
  assert (vol_ok fs (disk d')) as Hvol'.
  { eapply vol_ok_len; [exact Hvol|]. rewrite HK', len_freed. apply len_upd. }
  assert (forall path' r, walk fs (disk d') 0 (components path') = r -> r <> Panic ->
    fst (find_entry fs path' d') = r) as Hfind.
  { intros path' r Hw' Hr. destruct (find_entry_triple fs (disk d') path' Hvol' ltac:(congruence) d')
      as (d2 & E2 & _); [done..|]. by rewrite E2, Hw'. }
  exists d'. split_and!; [done..| | |].
  - apply Hfind; [|done]. rewrite (walk_parent fs (disk d') path pp nm p); [|done..|].
    + cbn. by rewrite Hp, HK', removed_gone.
    + unfold parent_dir in *. case_test; [done|].
      destruct (walk fs (disk d) 0 (components pp)) as [[e0 p0]| | |] eqn:Ew; try done.
      destruct (is_directory e0) eqn:Ed; [|done]. rewrite HK'.
      rewrite (removed_walk fs (disk d) Hvol HK p s nm cs Hp Hs Hm Huniq Hfile Hcs _ _ _ Ew);
        [by rewrite Ed|]. cbn. intros ->.
      apply walk_result in Ew as (dir' & n & Hd0 & (s0 & Hs0 & _ & -> & Hpos & _)%dir_lookup_Some).
      destruct (slot_pos_inj fs _ p dir' s s0 Hvol) as [-> ->]; try done. congruence.
  - intros c Hc. rewrite HK'.
    destruct (freed_spec fs cs (mark_deleted fs (disk d) p s)) as (_ & Hg & _);
      [by apply mark_deleted_vol|by apply mark_deleted_sectors|done|].
    rewrite Hg by done. by rewrite mark_deleted_fat.
  - intros path' r Hw' Hr. apply Hfind; [|done]. rewrite HK'. by apply (removed_walk fs (disk d) Hvol HK p s nm).
Qed.

(** ** The formatted 50-block disk with one file on it *)

Definition demo_base : list Z := bytes_of_string "A".
Definition demo_ext : list Z := bytes_of_string "TXT".
Definition demo_path : list Z := bytes_of_string "A.TXT".
Definition demo_created : MemoryBlockDevice.MemoryBlockDevice :=
  snd (create_file demo_fs demo_path (snd demo_volume)).

Lemma demo_parts : valid_parts demo_base demo_ext.
Proof.
  split; [| |done| | |done].
  all: try (split_and!; [by vm_compute|done|]). all: cbn; try (intros Hin; set_solver); set_solver by lia.
Qed.

Lemma demo_root_blank so : 0 <= so < dir_sectors demo_fs 0 ->
  idx (disk (snd demo_volume)) (dir_start demo_fs 0 + so) = Some (vec 0 SECTOR_SIZE).
Proof.
  intros Hso. change (0 <= so < 32) in Hso. change (dir_start demo_fs 0) with 3.
  destruct demo_formatted as (_ & _ & ->). rewrite <- demo_disk_len.
  rewrite idx_format_disk by (rewrite ?demo_disk_len; lia). rewrite demo_disk_len.
  change (format_spf 50) with 1. cbn zeta. rewrite !decide_False by lia. by rewrite decide_True by lia.
Qed.

(** The first slot and the first cluster are free. *)
Lemma demo_free_slot : free_slot demo_fs (disk (snd demo_volume)) 0 = Some 0.
Proof.
  apply find_range_first; [done| |lia]. unfold reusable.
  by rewrite (blank_slot_free demo_fs _ 0 demo_root_blank).
Qed.

Lemma demo_free_cluster : free_cluster demo_fs (disk (snd demo_volume)) = Some 2.
Proof.
  apply find_range_first; [done| |lia]. destruct demo_formatted as (_ & _ & ->).
  pose proof (formatted_free (disk demo_disk)) as Hf. rewrite demo_disk_len in Hf.
  by rewrite Hf by (change (format_spf 50) with 1; lia).
Qed.

Lemma create_file_ok_witness :
  exists d', create_file demo_fs demo_path (snd demo_volume) = (Ok tt, d') /\
    fst (find_entry demo_fs demo_path d') = Ok (new_file demo_base demo_ext 2, slot_pos demo_fs 0 0).
Proof.
  destruct demo_mounted as (_ & Hd & Hv & _).
  destruct (create_file_ok demo_fs (snd demo_volume) demo_path [] demo_base demo_ext 0 2 0)
    as (d' & E & _ & _ & _ & _ & Hf & _).
  - exact Hd.
  - exact Hv.
  - reflexivity.
  - apply demo_parts.
  - reflexivity.
  - reflexivity.
  - apply blank_tidy, demo_root_blank.
  - apply blank_lookup, demo_root_blank.
  - exact demo_free_cluster.
  - exact demo_free_slot.
  - exists d'. split; [exact E|exact Hf].
Defined.

(** The state after creating the file. *)
Lemma demo_created_ok :
  create_file demo_fs demo_path (snd demo_volume) = (Ok tt, demo_created) /\
  dev_ok demo_created /\ vol_ok demo_fs (disk demo_created) /\
  dir_unique demo_fs (disk demo_created) 0 /\
  walk demo_fs (disk demo_created) 0 (components demo_path) =
    Ok (new_file demo_base demo_ext 2, slot_pos demo_fs 0 0) /\
  vol_get demo_fs (disk demo_created) 2 = 0xFFFF.
Proof.
  destruct demo_mounted as (_ & Hd & Hv & _).
  destruct (create_file_spec demo_fs (snd demo_volume) demo_path [] demo_base demo_ext 0 2 0
    Hd Hv eq_refl demo_parts eq_refl eq_refl (blank_tidy _ _ _ demo_root_blank)
    (blank_lookup _ _ _ demo_root_blank _) demo_free_cluster demo_free_slot)
    as (d' & E & Hd' & Hv' & _ & Hu & Hw & _ & Hg & _).
  assert (demo_created = d') as -> by (unfold demo_created; by rewrite E).
  split_and!; [exact E|exact Hd'|exact Hv'|apply Hu, blank_unique, demo_root_blank|exact Hw|exact Hg].
Qed.

Lemma demo_chain : chain (fat_start demo_fs) (n_clusters demo_fs) (disk demo_created) 2 [2].
Proof.
  destruct demo_created_ok as (_ & _ & _ & _ & _ & Hg).
  apply chain_last; [split; reflexivity || discriminate|].
  change (fat_get (fat_start demo_fs) (disk demo_created) 2) with (vol_get demo_fs (disk demo_created) 2).
  rewrite Hg. discriminate.
Qed.

Lemma remove_file_ok_witness :
  exists d', remove_file 3 demo_fs demo_path demo_created = (Ok tt, d') /\
    fst (find_entry demo_fs demo_path d') = Err NotFound.
Proof.
  destruct demo_created_ok as (_ & Hd & Hv & Hu & Hw & Hg).
  destruct (remove_file_ok demo_fs demo_created demo_path [] demo_path 0 (slot_pos demo_fs 0 0)
    (new_file demo_base demo_ext 2) [2] 3) as (d' & E & _ & _ & Hf & _).
  - exact Hd.
  - exact Hv.
  - reflexivity.
  - discriminate.
  - reflexivity.
  - reflexivity.
  - exact Hu.
  - change (components demo_path) with [demo_path] in Hw. cbn [walk] in Hw.
    destruct (dir_lookup demo_fs (disk demo_created) 0 demo_path) as [[e pos]|]; [|discriminate Hw].
    injection Hw as -> ->. reflexivity.
  - reflexivity.
  - exact demo_chain.
  - vm_compute. lia.
  - exists d'. split; [exact E|exact Hf].
Defined.
