(* ===== verification/FatTree.v ===== *)
(** * The directory tree ([filesys/fat16/mod.rs]: listing, directories, renaming)

    What [read_dir], [create_dir], [remove_dir] and [rename] of [FatFs.v] do to
    the tree of directories, against the abstract lookup of [FatDir.v]. *)

From S2P Require Import Prelude BlockDev FatLayout FatSpec FatFile FatVolume FatDir FatFs.

(** ** Listing a directory *)

(** The slots [read_dir] lists: reached by the scan of their sector, not
    deleted, and not one of the two dot entries. *)
Definition listed (fs : Fat16) (K : list (list Z)) (dir s : Z) : bool :=
  reached fs K dir s && negb (is_deleted (slot fs K dir s)) && negb (name0 (slot fs K dir s) =? 0x2E).
Definition describe (e stamps : DirEntry83) : DirEntry :=
  {| entry_name := get_name e; metadata_of := metadata_from e stamps |}.
Definition listing (fs : Fat16) (K : list (list Z)) (dir : Z) (stamps : DirEntry83) : list DirEntry :=
  map (fun s => describe (slot fs K dir s) stamps)
    (List.filter (listed fs K dir) (range 0 (16 * dir_sectors fs dir))).

Definition sector_listed (buf : list Z) (i : Z) : bool :=
  forallb (fun j => negb (is_free (entry_at buf j))) (range 0 (i + 1))
    && negb (is_deleted (entry_at buf i)) && negb (name0 (entry_at buf i) =? 0x2E).

Lemma filter_false {A} (f : A -> bool) (l : list A) : (forall x, x ∈ l -> f x = false) -> List.filter f l = [].
Proof.
  induction l as [|x l IH]; intros Hf; [done|]. cbn. rewrite Hf by by left. apply IH. intros y Hy. apply Hf. by right.
Qed.

Lemma list_sector_spec buf dir :
  list_sector buf dir (range 0 16) =
  map (fun i => describe (entry_at buf i) dir) (List.filter (sector_listed buf) (range 0 16)).
Proof.
  assert (forall n a, 0 <= a -> Z.of_nat n = 16 - a ->
    (forall j, 0 <= j < a -> is_free (entry_at buf j) = false) ->
    list_sector buf dir (range a 16) =
    map (fun i => describe (entry_at buf i) dir) (List.filter (sector_listed buf) (range a 16))) as Hgen.
  { induction n as [|n IH]; intros a Ha Hn Hr; [by rewrite range_nil by lia|].
    destruct (is_free (entry_at buf a)) eqn:Hf.
    - rewrite filter_false; [rewrite range_cons by lia; cbn; by rewrite Hf|].
      intros i Hi%elem_of_range. unfold sector_listed. apply not_true_iff_false.
      intros [[Hx _]%andb_prop _]%andb_prop. rewrite sector_reached in Hx. rewrite Hx in Hf by lia. done.
    - rewrite range_cons by lia. cbn [list_sector List.filter]. rewrite Hf. unfold sector_listed at 1.
      assert (forall j, 0 <= j <= a -> is_free (entry_at buf j) = false) as Hr'.
      { intros j Hj. destruct (decide (j = a)) as [->|]; [done|]. apply Hr. lia. }
      rewrite (proj2 (sector_reached buf a)) by done. cbn [andb]. rewrite IH by (lia || (intros; apply Hr'; lia)).
      by destruct (negb (is_deleted _) && negb _). }
  apply (Hgen 16%nat); [lia..|]. intros. lia.
Qed.

Lemma listed_split fs K dir so i :
  0 <= i < 16 -> listed fs K dir (so * 16 + i) = sector_listed (sector_at K (dir_start fs dir + so)) i.
Proof.
  intros Hi. unfold listed, sector_listed. rewrite slot_split by done. do 2 f_equal.
  apply eq_true_iff_eq. rewrite reached_spec, sector_reached.
  replace ((so * 16 + i) / 16 * 16) with (so * 16) by dlia. split; intros Hr j Hj.
  - rewrite <- slot_split with (i := j) by lia. apply Hr. lia.
  - replace j with (so * 16 + (j - so * 16)) by lia. rewrite slot_split by lia. apply Hr. lia.
Qed.

Lemma range_shift c a b : map (fun i => c + i) (range a b) = range (c + a) (c + b).
Proof.
  destruct (decide (a <= b)) as [Hab|]; [|by rewrite !range_nil by lia].
  assert (forall n a, Z.of_nat n = b - a -> map (fun i => c + i) (range a b) = range (c + a) (c + b)) as Hgen.
  { induction n as [|n IH]; intros a' Hn; [by rewrite !range_nil by lia|].
    rewrite (range_cons a'), (range_cons (c + a')) by lia. cbn [map]. rewrite IH by lia. do 2 f_equal. lia. }
  apply (Hgen (Z.to_nat (b - a))). lia.
Qed.

(** The entries of one sector, by their slots. *)
Lemma sector_listing fs K dir stamps so :
  map (fun s => describe (slot fs K dir s) stamps)
    (List.filter (listed fs K dir) (range (so * 16) (so * 16 + 16))) =
  list_sector (sector_at K (dir_start fs dir + so)) stamps (range 0 16).
Proof.
  rewrite list_sector_spec.
  assert (range (so * 16) (so * 16 + 16) = map (fun i => so * 16 + i) (range 0 16)) as ->.
  { rewrite range_shift. f_equal. lia. }
  assert (forall l, (forall i, i ∈ l -> 0 <= i < 16) ->
    map (fun s => describe (slot fs K dir s) stamps) (List.filter (listed fs K dir) (map (fun i => so * 16 + i) l)) =
    map (fun i => describe (entry_at (sector_at K (dir_start fs dir + so)) i) stamps)
      (List.filter (sector_listed (sector_at K (dir_start fs dir + so))) l)) as Hgen.
  { induction l as [|i l IH]; intros Hl; [done|]. cbn. rewrite listed_split by (apply Hl; by left).
    assert (forall j, j ∈ l -> 0 <= j < 16) by (intros; apply Hl; by right).
    destruct (sector_listed _ i); cbn; [|by apply IH]. rewrite slot_split by (apply Hl; by left). f_equal. by apply IH. }
  apply Hgen. by intros i Hi%elem_of_range.
Qed.

(** The directory a path names, and the entry whose time stamps [read_dir]
    reports. *)
Definition root_entry : DirEntry83 :=
  {| name := vec 0x20 8; ext := vec 0x20 3; attributes := ATTR_DIRECTORY; reserved := vec 0 10;
     time := 0; date := 0; start_cluster := 0; file_size := 0 |}.
Definition dir_entry_of_path (fs : Fat16) (K : list (list Z)) (path : list Z) : option DirEntry83 :=
  if (len path =? 0) || list_eqb path [0x2F] then Some root_entry
  else match walk fs K 0 (components path) with
       | Ok (e, _) => if is_directory e then Some e else None
       | _ => None
       end.

Section listing.
Context {D : Type} `{BlockDeviceLaws D}.
Context (fs : Fat16) (K : list (list Z)) (Hvol : vol_ok fs K).

Lemma read_sectors_triple dir stamps :
  dir_ok fs dir = true ->
  dtriple K (for_fold (range 0 (dir_sectors fs dir)) [] (fun result sector_offset =>
      let! sector_buffer := read_block (dir_start fs dir + sector_offset) (vec 0 SECTOR_SIZE) in
      ret (result ++ list_sector sector_buffer stamps (range 0 entries_per_sector))))
    (Ok (listing fs K dir stamps)) K.
Proof using Hvol.
  intros Hd. pose proof (dir_region_range fs K Hvol dir Hd) as (_ & Hn & _).
  assert (forall n a acc, 0 <= a -> Z.of_nat n = dir_sectors fs dir - a ->
    acc = map (fun s => describe (slot fs K dir s) stamps) (List.filter (listed fs K dir) (range 0 (a * 16))) ->
    dtriple K (for_fold (range a (dir_sectors fs dir)) acc (fun result sector_offset =>
      let! sector_buffer := read_block (dir_start fs dir + sector_offset) (vec 0 SECTOR_SIZE) in
      ret (result ++ list_sector sector_buffer stamps (range 0 entries_per_sector))))
    (Ok (listing fs K dir stamps)) K) as Hgen.
  { induction n as [|n IH]; intros a acc Ha Hn' ->.
    - rewrite range_nil by lia. replace (a * 16) with (16 * dir_sectors fs dir) by lia. apply dtriple_ret.
    - rewrite (range_cons a) by lia. cbn [for_fold]. eapply dtriple_bind.
      { apply dir_read_triple; [done|done|lia|]. apply dtriple_ret. }
      apply IH; [lia|lia|]. replace ((a + 1) * 16) with (a * 16 + 16) by lia.
      rewrite (range_app 0 (a * 16) (a * 16 + 16)) by lia. rewrite List.filter_app, map_app. f_equal.
      exact (eq_sym (sector_listing fs K dir stamps a)). }
  apply (Hgen (Z.to_nat (dir_sectors fs dir))); [lia|lia|]. by rewrite range_nil by lia.
Qed.

Lemma read_dir_triple path e :
  dir_entry_of_path fs K path = Some e -> dir_ok fs (start_cluster e) = true ->
  dtriple K (read_dir fs path) (Ok (listing fs K (start_cluster e) e)) K.
Proof using Hvol.
  unfold dir_entry_of_path, read_dir. intros He Hd.
  assert (is_directory e = true /\ exists pos,
    dtriple K (if (len path =? 0) || list_eqb path [0x2F] then ret (root_entry, 0) else find_entry fs path)
      (Ok (e, pos)) K) as (Hdir & pos & Hfind).
  { destruct ((len path =? 0) || list_eqb path [0x2F]).
    - injection He as <-. split; [done|]. exists 0. apply dtriple_ret.
    - destruct (walk fs K 0 (components path)) as [[e' pos]| | |] eqn:Ew; try done.
      destruct (is_directory e') eqn:Ed; [|done]. injection He as ->. split; [done|]. exists pos.
      rewrite <- Ew. apply find_entry_triple; [done|]. by rewrite Ew. }
  eapply dtriple_bind; [exact Hfind|]. cbv beta iota. rewrite Hdir. cbn [negb].
  eapply dtriple_bind; [by apply dir_region_triple|]. cbv beta iota. by apply read_sectors_triple.
Qed.

(** What is listed, by name. *)
Lemma in_listing dir stamps x :
  x ∈ listing fs K dir stamps <->
  exists s, 0 <= s < 16 * dir_sectors fs dir /\ listed fs K dir s = true /\ x = describe (slot fs K dir s) stamps.
Proof.
  unfold listing. rewrite list_elem_of_fmap. setoid_rewrite list_elem_of_In. setoid_rewrite filter_In.
  setoid_rewrite <- list_elem_of_In. setoid_rewrite elem_of_range. naive_solver.
Qed.

Lemma listed_matches dir s : listed fs K dir s = true -> matches fs K dir (get_name (slot fs K dir s)) s = true.
Proof.
  unfold listed, matches. intros [Hx _]%andb_prop. rewrite Hx. by apply list_eqb_spec.
Qed.

Lemma listing_names dir stamps : dir_unique fs K dir -> NoDup (map entry_name (listing fs K dir stamps)).
Proof.
  intros Hu. unfold listing. rewrite map_map. cbn [entry_name describe].
  apply NoDup_fmap_2_strong.
  - intros s s' Hs Hs' Heq. apply list_elem_of_In, filter_In in Hs as [Hs%list_elem_of_In%elem_of_range Hl].
    apply list_elem_of_In, filter_In in Hs' as [Hs'%list_elem_of_In%elem_of_range Hl'].
    apply (Hu (get_name (slot fs K dir s)) s s' Hs Hs'); [by apply listed_matches|].
    rewrite Heq. by apply listed_matches.
  - apply NoDup_ListNoDup, List.NoDup_filter, NoDup_ListNoDup, NoDup_seqZ.
Qed.

Lemma listed_lookup dir s :
  dir_unique fs K dir -> 0 <= s < 16 * dir_sectors fs dir -> listed fs K dir s = true ->
  dir_lookup fs K dir (get_name (slot fs K dir s)) = Some (slot fs K dir s, slot_pos fs dir s).
Proof.
  intros Hu Hs Hl. unfold dir_lookup. rewrite (find_range_first _ _ _ s); [done|done|by apply listed_matches|].
  intros j Hj. apply not_true_iff_false. intros Hm.
  pose proof (Hu _ j s ltac:(lia) Hs Hm (listed_matches dir s Hl)). lia.
Qed.

Lemma lookup_listed dir nm e pos stamps :
  dir_lookup fs K dir nm = Some (e, pos) -> name0 e <> 0x2E ->
  describe e stamps ∈ listing fs K dir stamps /\ get_name e = nm.
Proof.
  intros (s & Hs & Hm & -> & -> & _)%dir_lookup_Some Hdot. unfold matches in Hm.
  apply andb_prop in Hm as [Hm Hn]. apply list_eqb_spec in Hn. split; [|done].
  apply in_listing. exists s. split_and!; [lia|lia| |done]. unfold listed. rewrite Hm. cbn.
  apply negb_true_iff, Z.eqb_neq, Hdot.
Qed.
End listing.


(** ** Renaming *)

(** The entry [rename] writes. *)
Definition renamed (e : DirEntry83) (b ex : list Z) : DirEntry83 :=
  {| name := pad 8 b; ext := if len ex =? 0 then vec 0x20 3 else pad 3 ex;
     attributes := attributes e; reserved := reserved e; time := time e; date := date e;
     start_cluster := start_cluster e; file_size := file_size e |}.

Lemma renamed_live e b ex :
  valid_parts b ex ->
  (is_free (renamed e b ex) = false /\ is_deleted (renamed e b ex) = false) /\
  get_name (renamed e b ex) = name83 b ex.
Proof.
  intros Hv. destruct (new_file_live b ex 0 Hv) as [Hl Hn]. split; [exact Hl|]. rewrite <- Hn.
  unfold get_name, renamed, new_file. cbn [name ext]. by destruct ex.
Qed.

Lemma renamed_wf e b ex : dir_entry_wf e -> dir_entry_wf (renamed e b ex).
Proof.
  intros []. split; cbn [name ext reserved time date start_cluster file_size renamed]; try done; [by rewrite pad_length|].
  destruct (len ex =? 0); [done|by rewrite pad_length].
Qed.

Section rename.
Context {D : Type} `{BlockDeviceLaws D}.
Context (fs : Fat16) (K : list (list Z)) (Hvol : vol_ok fs K).

(** The search of [rename] finds the slot [write_dir_entry] would take. *)
Lemma find_slot_spec dir so :
  find_slot (sector_at K (dir_start fs dir + so)) =
  List.find (fun i => reusable fs K dir (so * 16 + i)) (range 0 16).
Proof. apply find_ext. intros i Hi%elem_of_range. unfold reusable. by rewrite slot_split. Qed.

Lemma search_slot_triple dir :
  dir_ok fs dir = true ->
  dtriple K (for_each (range 0 (dir_sectors fs dir)) (fun sector_offset =>
      let! sector_buffer := read_block (dir_start fs dir + sector_offset) (vec 0 SECTOR_SIZE) in
      match find_slot sector_buffer with
      | Some i => ret (Some (dir_start fs dir + sector_offset, i))
      | None => ret None
      end))
    (Ok (option_map (fun s => (slot_sector fs dir s, s mod 16)) (free_slot fs K dir))) K.
Proof using Hvol.
  intros Hd. unfold free_slot.
  destruct (first_in_range (reusable fs K dir) 0 (16 * dir_sectors fs dir)) as [(s & Hs & Hm & Hb)|Hnone].
  - rewrite (find_range_first _ _ _ s) by done. cbn [option_map].
    rewrite (range_split 0 (s / 16)) by dlia. apply dtriple_for_each_at.
    + intros so Hso%elem_of_range. apply dir_read_triple; [done..|dlia|].
      rewrite find_slot_spec, find_range_none; [apply dtriple_ret|]. intros i Hi. apply Hb. dlia.
    + apply dir_read_triple; [done..|dlia|]. rewrite find_slot_spec, (find_range_first _ _ _ (s mod 16)).
      * apply dtriple_ret.
      * dlia.
      * rewrite <- (Z.mul_comm 16), <- Z.div_mod by lia. exact Hm.
      * intros i Hi. apply Hb. dlia.
  - rewrite find_range_none by done. apply dtriple_for_each_all. intros so Hso%elem_of_range.
    apply dir_read_triple; [done..|]. rewrite find_slot_spec, find_range_none; [apply dtriple_ret|].
    intros i Hi. apply Hnone. lia.
Qed.

Context (from to pp b ex : list Z) (p s q : Z) (e : DirEntry83).
Context (Hp : dir_ok fs p = true) (Hs : 0 <= s < 16 * dir_sectors fs p).
Context (Hfrom : walk fs K 0 (components from) = Ok (e, slot_pos fs p s)) (He : dir_entry_wf e).
Context (Hsplit : split_parent to = (pp, name83 b ex)) (Hname : valid_parts b ex).
Context (Hparent : parent_dir fs K pp = Some q) (Hq : dir_ok fs q = true).
Context (Hnew : dir_lookup fs K q (name83 b ex) = None).

Lemma rename_triple :
  match free_slot fs K q with
  | None => dtriple K (rename fs from to) (Err NotSupported) K
  | Some t => dtriple K (rename fs from to) (Ok tt) (mark_deleted fs (put_slot fs K q t (renamed e b ex)) p s)
  end.
Proof using All.
  pose proof (len_name83 b ex Hname) as [_ Hne].
  assert (walk fs K 0 (components to) = Err NotFound) as Hw.
  { rewrite (walk_parent fs K to pp _ q) by done. cbn. by rewrite Hq, Hnew. }
  assert (dtriple K (find_entry_is_ok fs to) (Ok false) K) as Hex.
  { pose proof (find_entry_is_ok_triple fs K to Hvol) as Hf. rewrite Hw in Hf. by apply Hf. }
  assert (dtriple K (find_entry fs from) (Ok (e, slot_pos fs p s)) K) as Hsrc.
  { rewrite <- Hfrom. apply find_entry_triple; [done|]. by rewrite Hfrom. }
  pose proof (search_slot_triple q Hq) as Hse. unfold rename. rewrite Hsplit, split_name83 by done.
  assert (forall r K' (k : option (Z * Z) -> M D FsError unit),
    dtriple K (k (option_map (fun t => (slot_sector fs q t, t mod 16)) (free_slot fs K q))) r K' ->
    dtriple K (let! (start_sector, num_sectors) := dir_region fs q in
      let! found_pos := for_each (range 0 num_sectors) (fun sector_offset =>
        let! sector_buffer := read_block (start_sector + sector_offset) (vec 0 SECTOR_SIZE) in
        match find_slot sector_buffer with
        | Some i => ret (Some (start_sector + sector_offset, i))
        | None => ret None
        end) in k found_pos) r K') as Hsearch.
  { intros r K' k Hk. eapply dtriple_bind; [by apply dir_region_triple|]. cbv beta iota.
    eapply dtriple_bind; [exact Hse|exact Hk]. }
  destruct (free_slot fs K q) as [t|] eqn:Ht;
    (eapply dtriple_bind; [exact Hsrc|]; cbv beta iota; eapply dtriple_bind; [exact Hex|]; cbv beta iota;
     eapply dtriple_bind; [by apply parent_cluster_of_triple|]; cbv beta; apply Hsearch; cbn [option_map]).
  2: by apply dtriple_bind_err, dtriple_err.
  destruct (free_slot_spec fs K q t Ht) as (Htr & _).
  pose proof (slot_sector_range fs K Hvol q t Hq Htr). pose proof (slot_sector_range fs K Hvol p s Hp Hs).
  pose proof (vol_root_range fs K Hvol). destruct (slot_pos_split fs p s) as [-> ->].
  eapply dtriple_bind; [apply dtriple_ret|]. cbv beta iota. apply dtriple_sectors. intros HK.
  eapply dtriple_bind; [apply dtriple_read; [lia|done|apply sector_at_idx; lia]|].
  eapply (dtriple_bind _ (put_slot fs K q t (renamed e b ex))).
  { apply dtriple_write; [lia|]. apply put_entry_sector; [apply sector_at_ok; [done|lia]| |by apply renamed_wf].
    change entries_per_sector with 16. dlia. }
  cbv beta. eapply dtriple_bind; [apply dtriple_read; [lia|done|apply sector_at_idx; rewrite len_put_slot; lia]|].
  apply dtriple_write; [rewrite len_put_slot; lia|]. unfold sector_ok. rewrite len_upd.
  apply sector_at_ok; [|rewrite len_put_slot; lia]. apply put_slot_sectors; try done. by apply renamed_wf.
Qed.
End rename.

(** Deleting a slot of one directory leaves the others alone. *)
Lemma dir_lookup_mark_deleted_other fs K dir dir' s nm :
  vol_ok fs K -> dir_ok fs dir = true -> dir_ok fs dir' = true -> dir <> dir' ->
  0 <= s < 16 * dir_sectors fs dir ->
  dir_lookup fs (mark_deleted fs K dir s) dir' nm = dir_lookup fs K dir' nm.
Proof.
  intros Hvol Hd Hd' Hne Hs. apply dir_lookup_frame. intros so Hso.
  pose proof (dir_region_range fs K Hvol dir' Hd'). pose proof (vol_root_range fs K Hvol).
  pose proof (slot_sector_range fs K Hvol dir s Hd Hs).
  apply idx_upd_ne; [lia|lia|]. unfold slot_sector.
  pose proof (dir_regions_disjoint fs K Hvol dir dir' (s / 16) so Hd Hd' Hne).
  assert (0 <= s / 16 < dir_sectors fs dir) by dlia. intuition lia.
Qed.

(** The directories after a live slot is marked deleted: its name is gone, and
    nothing else changes. *)
Section unlinked.
Context (fs : Fat16) (K : list (list Z)) (Hvol : vol_ok fs K) (HK : Forall sector_ok K).
Context (p s : Z) (nm : list Z) (Hp : dir_ok fs p = true) (Hs : 0 <= s < 16 * dir_sectors fs p).
Context (Hm : matches fs K p nm s = true) (Hup : dir_unique fs K p).

Lemma matches_name n : matches fs K p n s = true -> n = nm.
Proof using Hm.
  unfold matches in *. apply andb_prop in Hm as [_ H1%list_eqb_spec].
  intros [_ H2%list_eqb_spec]%andb_prop. congruence.
Qed.

Lemma matches_live : is_free (slot fs K p s) = false.
Proof using Hm Hp Hs.
  unfold matches in Hm. apply andb_prop in Hm as [[Hr _]%andb_prop _].
  rewrite reached_spec in Hr. apply Hr. dlia.
Qed.

Lemma unlinked_lookup dir n : dir_ok fs dir = true ->
  dir_lookup fs (mark_deleted fs K p s) dir n =
    if bool_decide ((dir, n) = (p, nm)) then None else dir_lookup fs K dir n.
Proof using All.
  intros Hd. pose proof matches_live as Hf. destruct (decide (dir = p)) as [->|Hne].
  - case_bool_decide as Heq.
    + injection Heq as ->. apply lookup_deleted_same; try done. intros s' Hs' Hm'. by apply (Hup nm).
    + apply lookup_deleted_other; try done. apply not_true_iff_false. intros Hx%matches_name. congruence.
  - rewrite bool_decide_false by congruence. by apply dir_lookup_mark_deleted_other.
Qed.
End unlinked.

(** The two directories of a renaming: [s] of [p] is the old slot, [t] of [q]
    the new one. *)
Section moved.
Context (fs : Fat16) (K : list (list Z)) (Hvol : vol_ok fs K) (HK : Forall sector_ok K).
Context (p s q t : Z) (nm nm' : list Z) (e' : DirEntry83).
Context (Hp : dir_ok fs p = true) (Hs : 0 <= s < 16 * dir_sectors fs p).
Context (Hm : matches fs K p nm s = true) (Hup : dir_unique fs K p).
Context (Hq : dir_ok fs q = true) (Htidy : dir_tidy fs K q) (Ht : free_slot fs K q = Some t).
Context (He : dir_entry_wf e') (Hlive : is_free e' = false /\ is_deleted e' = false) (Hn' : get_name e' = nm').
Context (Hnew : dir_lookup fs K q nm' = None).
Abbreviation K1 := (put_slot fs K q t e').
Abbreviation K2 := (mark_deleted fs K1 p s).

Lemma moved_vol : vol_ok fs K1 /\ vol_ok fs K2 /\ Forall sector_ok K1.
Proof using Hvol HK Hq Ht He.
  destruct (free_slot_spec fs K q t Ht) as (Htr & _).
  assert (vol_ok fs K1) by (eapply vol_ok_len; [exact Hvol|apply len_put_slot]).
  split_and!; [done|by apply mark_deleted_vol|by apply put_slot_sectors].
Qed.

(** The old slot is as before in the first of the two writes. *)
Lemma moved_old : matches fs K1 p nm s = true /\ dir_unique fs K1 p.
Proof using All.
  destruct (free_slot_spec fs K q t Ht) as (Htr & Hre & _).
  destruct (decide (p = q)) as [->|Hne].
  - assert (s <> t) as Hst.
    { intros ->. pose proof (matches_reusable fs K Hvol HK q t e' nm' Hq He Htidy Ht Hlive Hn' nm). congruence. }
    split; [by erewrite matches_add_other|by eapply unique_add].
  - assert (forall so, 0 <= so < dir_sectors fs p ->
      idx K1 (dir_start fs p + so) = idx K (dir_start fs p + so)) as Hsame.
    { intros so Hso. pose proof (dir_region_range fs K Hvol p Hp). pose proof (vol_root_range fs K Hvol).
      apply put_slot_outside; [done..|lia|]. unfold slot_sector.
      pose proof (dir_regions_disjoint fs K Hvol q p (t / 16) so Hq Hp).
      assert (0 <= t / 16 < dir_sectors fs q) by dlia. intuition lia. }
    split; [by rewrite (matches_frame fs K)|by apply (dir_unique_frame fs K)].
Qed.

Lemma moved_added dir n : dir_ok fs dir = true ->
  dir_lookup fs K1 dir n =
    if bool_decide ((dir, n) = (q, nm')) then Some (e', slot_pos fs q t) else dir_lookup fs K dir n.
Proof using All.
  intros Hd. destruct (free_slot_spec fs K q t Ht) as (Htr & _).
  destruct (decide (dir = q)) as [->|Hne].
  - case_bool_decide as Heq; [injection Heq as ->; by eapply lookup_add_same|].
    eapply lookup_add_other; try done. congruence.
  - rewrite bool_decide_false by congruence. by apply dir_lookup_put_slot_other.
Qed.

Lemma moved_lookup dir n : dir_ok fs dir = true ->
  dir_lookup fs K2 dir n =
    if bool_decide ((dir, n) = (p, nm)) then None
    else if bool_decide ((dir, n) = (q, nm')) then Some (e', slot_pos fs q t) else dir_lookup fs K dir n.
Proof using All.
  intros Hd. rewrite <- moved_added by done. destruct moved_vol as (Hv1 & _ & HK1), moved_old.
  by apply unlinked_lookup.
Qed.

Lemma moved_fat c : 0 <= c < n_clusters fs -> vol_get fs K2 c = vol_get fs K c.
Proof using All.
  intros Hc. destruct moved_vol as (Hv1 & _). rewrite mark_deleted_fat by done.
  pose proof (vol_cluster_covered fs _ Hvol c Hc) as Hcov.
  pose proof (vol_fat_range fs _ Hvol c Hcov). pose proof (vol_root_range fs _ Hvol).
  pose proof (slot_sector_range fs _ Hvol q t Hq (proj1 (free_slot_spec fs _ q t Ht))).
  unfold vol_get, put_slot. apply fat_get_upd; lia.
Qed.

(** A file moved: the walks that do not end at its old slot are kept. *)
Lemma moved_walk cs dir r :
  is_directory (slot fs K p s) = false ->
  walk fs K dir cs = Ok r -> snd r <> slot_pos fs p s -> walk fs K2 dir cs = Ok r.
Proof using All.
  intros Hfile. apply (walk_keep fs K K2 (fun r => snd r <> slot_pos fs p s)).
  - intros dir' n [e0 p0] Hd' Hl Hr. rewrite moved_lookup by done. cbn in Hr.
    rewrite !bool_decide_false; [done| |].
    + congruence.
    + intros [= -> ->]. apply dir_lookup_Some in Hl as (s0 & Hs0 & Hm0 & _ & -> & _).
      by rewrite (Hup nm s0 s) in Hr.
  - intros dir' n [e0 p0] Hd' (s0 & Hs0 & _ & -> & -> & _)%dir_lookup_Some Hisd Heq. cbn in *.
    destruct (slot_pos_inj fs K dir' p s0 s) as [-> ->]; try done. congruence.
Qed.
End moved.

(** [find_entry] on a device, by the abstract walk. *)
Lemma find_entry_on {D} `{BlockDeviceLaws D} fs (d : D) path r :
  dev_ok d -> vol_ok fs (disk d) -> walk fs (disk d) 0 (components path) = r -> r <> Panic ->
  fst (find_entry fs path d) = r.
Proof.
  intros Hd Hvol Hw Hr. destruct (find_entry_triple fs (disk d) path Hvol ltac:(congruence) d)
    as (d' & E & _); [done..|]. by rewrite E, Hw.
Qed.

(** The parent of a path that survives. *)
Lemma parent_dir_keep fs K K' pp p :
  (forall e pos, walk fs K 0 (components pp) = Ok (e, pos) -> is_directory e = true ->
     walk fs K' 0 (components pp) = Ok (e, pos)) ->
  parent_dir fs K pp = Some p -> parent_dir fs K' pp = Some p.
Proof.
  unfold parent_dir. intros Hk. case_test; [done|].
  destruct (walk fs K 0 (components pp)) as [[e pos]| | |] eqn:Ew; try done.
  destruct (is_directory e) eqn:Ed; [|done]. by rewrite (Hk e pos), Ed.
Qed.

(** C12: [rename] of an existing entry to a valid new name in a directory with a
    free slot succeeds: in the directory of the new name that name now stands
    for the same clusters, size and attributes, the old name is gone, every
    other name of every directory stands for what it stood for, and the table is
    unchanged.  When the entry is a file, so do the paths: the new one resolves
    to it, the old one is [NotFound], and every other path resolves as before. *)
Theorem rename_ok {D} `{BlockDeviceLaws D} (fs : Fat16) (d : D)
    (from pf nm to pt b ex : list Z) (p q t pos : Z) (e : DirEntry83) :
  dev_ok d -> vol_ok fs (disk d) ->
  split_parent from = (pf, nm) -> nm <> [] -> parent_dir fs (disk d) pf = Some p -> dir_ok fs p = true ->
  dir_unique fs (disk d) p -> dir_lookup fs (disk d) p nm = Some (e, pos) -> dir_entry_wf e ->
  split_parent to = (pt, name83 b ex) -> valid_parts b ex -> parent_dir fs (disk d) pt = Some q ->
  dir_ok fs q = true -> dir_tidy fs (disk d) q -> dir_lookup fs (disk d) q (name83 b ex) = None ->
  free_slot fs (disk d) q = Some t ->
  exists d', rename fs from to d = (Ok tt, d') /\ dev_ok d' /\ vol_ok fs (disk d') /\
    (forall dir n, dir_ok fs dir = true ->
       dir_lookup fs (disk d') dir n =
         if bool_decide ((dir, n) = (p, nm)) then None
         else if bool_decide ((dir, n) = (q, name83 b ex)) then Some (renamed e b ex, slot_pos fs q t)
         else dir_lookup fs (disk d) dir n) /\
    (forall c, 0 <= c < n_clusters fs -> vol_get fs (disk d') c = vol_get fs (disk d) c) /\
    (is_directory e = false ->
       fst (find_entry fs to d') = Ok (renamed e b ex, slot_pos fs q t) /\
       fst (find_entry fs from d') = Err NotFound /\
       (forall path r, walk fs (disk d) 0 (components path) = Ok r -> snd r <> pos ->
          fst (find_entry fs path d') = Ok r)).
Proof.
  intros Hd Hvol Hsf Hne Hpf Hp Hup Hlook He Hst Hname Hpt Hq Htidy Hnew Ht.
  pose proof (dev_sectors d Hd) as HK. destruct (renamed_live e b ex Hname) as [Hlive Hn'].
  pose proof (renamed_wf e b ex He) as Hwf. pose proof (len_name83 b ex Hname) as [_ Hne'].
  pose proof Hlook as (s & Hs & Hm & Hes & -> & _)%dir_lookup_Some.
  assert (walk fs (disk d) 0 (components from) = Ok (e, slot_pos fs p s)) as Hw.
  { rewrite (walk_parent fs (disk d) from pf nm p) by done. cbn. by rewrite Hp, Hlook. }
  pose proof (rename_triple fs (disk d) Hvol from to pt b ex p s q e Hp Hs Hw He Hst Hname Hpt Hq Hnew) as Htr.
  rewrite Ht in Htr. destruct (Htr d Hd eq_refl) as (d' & E & Hd' & HK').
  pose proof (moved_lookup fs (disk d) Hvol HK p s q t nm _ _ Hp Hs Hm Hup Hq Htidy Ht Hwf Hlive Hn' Hnew) as Hl.
  pose proof (moved_vol fs (disk d) Hvol HK p s q t _ Hq Ht Hwf) as (_ & Hv & _). rewrite <- HK' in Hl, Hv.
  exists d'. split_and!; [done..| |].
  { intros c Hc. rewrite HK'. by eapply (moved_fat fs (disk d) Hvol HK p s q t nm). }
  intros Hfile. assert (forall path r, walk fs (disk d) 0 (components path) = Ok r -> snd r <> slot_pos fs p s ->
    walk fs (disk d') 0 (components path) = Ok r) as Hkeep.
  { intros path r Hr Hne0. rewrite HK'. eapply (moved_walk fs (disk d) Hvol HK p s q t nm); try done. by subst e. }
  assert (forall pp p0, parent_dir fs (disk d) pp = Some p0 -> parent_dir fs (disk d') pp = Some p0) as Hpk.
  { intros pp p0. apply parent_dir_keep. intros e0 pos0 Ew Ed. apply Hkeep; [done|]. cbn. intros ->.
    apply walk_result in Ew as (dir' & n & Hd0 & (s0 & Hs0 & _ & -> & Hpos & _)%dir_lookup_Some).
    destruct (slot_pos_inj fs _ p dir' s s0 Hvol) as [-> ->]; try done. congruence. }
  split_and!.
  - apply find_entry_on; [done..| |done]. rewrite (walk_parent fs (disk d') to pt _ q) by (done || by apply Hpk).
    cbn [walk]. rewrite Hq, Hl by done. rewrite bool_decide_false by (intros [= -> <-]; congruence).
    by rewrite bool_decide_true.
  - apply find_entry_on; [done..| |done]. rewrite (walk_parent fs (disk d') from pf nm p) by (done || by apply Hpk).
    cbn [walk]. rewrite Hp, Hl by done. by rewrite bool_decide_true.
  - intros path r Hr Hne0. apply find_entry_on; [done..| |done]. by apply Hkeep.
Qed.

(** ** Making a directory *)

(** The first sector of a new directory, and the disk once [init_directory] has
    cleared the cluster. *)
Definition dot_sector (c p : Z) : list Z :=
  put_entry (put_entry (vec 0 SECTOR_SIZE) 0 (new_directory [0x2E] c)) 1 (new_directory [0x2E; 0x2E] p).
Definition fresh_dir (fs : Fat16) (K : list (list Z)) (c p : Z) : list (list Z) :=
  fill (upd K (cluster_sector fs c) (dot_sector c p)) (cluster_sector fs c + 1)
    (cluster_sector fs c + sectors_per_cluster (boot_sector fs)) (vec 0 SECTOR_SIZE).

Section fresh.
Context (fs : Fat16) (K : list (list Z)) (Hvol : vol_ok fs K) (c p : Z).
Context (Hc : 2 <= c < n_clusters fs) (Hp : dir_ok fs p = true).
Abbreviation K' := (fresh_dir fs K c p).

Lemma fresh_ranges :
  0 < c < 65536 /\ 0 <= p < 65536 /\ 0 < cluster_sector fs c /\ 1 <= sectors_per_cluster (boot_sector fs) /\
  cluster_sector fs c + sectors_per_cluster (boot_sector fs) <= len K /\
  root_dir_start fs + 32 <= cluster_sector fs c.
Proof using Hvol Hc Hp.
  pose proof (cluster_sector_range fs K c Hvol Hc). pose proof (vo_spc _ _ Hvol). pose proof (vo_data _ _ Hvol).
  pose proof (vol_root_range fs K Hvol). pose proof (n_clusters_range fs K Hvol). unfold dir_ok in Hp. lia.
Qed.

Lemma dot_sector_ok : sector_ok (dot_sector c p).
Proof using Hvol Hc Hp.
  pose proof fresh_ranges.
  repeat (apply put_entry_sector; [|by change entries_per_sector with 16; lia|by apply new_directory_wf; lia]). done.
Qed.

Lemma len_fresh_dir : len K' = len K.
Proof using Hvol Hc Hp. pose proof fresh_ranges. unfold fresh_dir. rewrite len_fill; rewrite ?len_upd; lia. Qed.

Lemma idx_fresh_dir i : 0 <= i ->
  idx K' i = if decide (i = cluster_sector fs c) then Some (dot_sector c p)
             else if decide (cluster_sector fs c < i < cluster_sector fs c + sectors_per_cluster (boot_sector fs))
             then Some (vec 0 SECTOR_SIZE) else idx K i.
Proof using Hvol Hc Hp.
  intros Hi. pose proof fresh_ranges. unfold fresh_dir. rewrite idx_fill by (rewrite ?len_upd; lia).
  repeat case_decide; try lia; try done; [subst; apply idx_upd_eq; lia|apply idx_upd_ne; lia].
Qed.

Lemma fresh_dir_vol : vol_ok fs K'.
Proof using Hvol Hc Hp. eapply vol_ok_len; [exact Hvol|apply len_fresh_dir]. Qed.

Lemma fresh_dir_sectors : Forall sector_ok K -> Forall sector_ok K'.
Proof using Hvol Hc Hp. intros HK. apply fill_sectors; [|done]. apply upd_sectors; [done|apply dot_sector_ok]. Qed.

(** Only the sectors of the cluster change. *)
Lemma fresh_dir_other dir so : dir_ok fs dir = true -> dir <> c -> 0 <= so < dir_sectors fs dir ->
  idx K' (dir_start fs dir + so) = idx K (dir_start fs dir + so).
Proof using Hvol Hc Hp.
  intros Hd Hne Hso. pose proof fresh_ranges. pose proof (dir_region_range fs K Hvol dir Hd).
  pose proof (vol_root_range fs K Hvol).
  assert (dir_ok fs c = true) as Hdc by (unfold dir_ok; lia).
  assert (dir_start fs c = cluster_sector fs c) as Es by (unfold dir_start; by replace (c =? 0) with false by lia).
  assert (dir_sectors fs c = sectors_per_cluster (boot_sector fs)) as En by
    (unfold dir_sectors; by replace (c =? 0) with false by lia).
  assert (forall k, 0 <= k < sectors_per_cluster (boot_sector fs) -> dir_start fs dir + so <> cluster_sector fs c + k) as Hdis.
  { intros k Hk. pose proof (dir_regions_disjoint fs K Hvol dir c so k Hd Hdc Hne) as Hx.
    rewrite Es, En in Hx. apply Hx; lia. }
  rewrite idx_fresh_dir by lia. pose proof (Hdis 0 ltac:(lia)).
  pose proof (Hdis (dir_start fs dir + so - cluster_sector fs c)). rewrite !decide_False by lia. done.
Qed.

Lemma fresh_dir_fat x : 0 <= x < n_clusters fs -> vol_get fs K' x = vol_get fs K x.
Proof using Hvol Hc Hp.
  intros Hx. pose proof (vol_cluster_covered fs _ Hvol x Hx) as Hcov. pose proof (vol_fat_range fs _ Hvol x Hcov).
  pose proof (vol_root_range fs _ Hvol). pose proof fresh_ranges.
  unfold vol_get, fat_get, sector_at. rewrite idx_fresh_dir by lia. by rewrite !decide_False by lia.
Qed.

(** The new directory holds its two dot entries and nothing else. *)
Lemma fresh_slot s : 0 <= s < 16 * dir_sectors fs c ->
  if decide (s = 0) then slot fs K' c s = new_directory [0x2E] c
  else if decide (s = 1) then slot fs K' c s = new_directory [0x2E; 0x2E] p
  else is_free (slot fs K' c s) = true.
Proof using Hvol Hc Hp.
  pose proof fresh_ranges. unfold slot, slot_sector, dir_start, dir_sectors.
  replace (c =? 0) with false by lia. intros Hs. unfold sector_at. rewrite idx_fresh_dir by dlia.
  assert (forall i, i ∈ range 0 16 -> is_free (entry_at (vec 0 SECTOR_SIZE) i) = true) as Hzero.
  { apply Forall_forall. by vm_compute; repeat constructor. }
  assert (0 <= s mod 16 < 16) as Hm by dlia.
  assert (sector_ok (put_entry (vec 0 SECTOR_SIZE) 0 (new_directory [0x2E] c))) as Hok.
  { apply put_entry_sector; [done|by change entries_per_sector with 16; lia|apply new_directory_wf; lia]. }
  assert (dir_entry_wf (new_directory [0x2E] c) /\ dir_entry_wf (new_directory [0x2E; 0x2E] p)) as [Hw1 Hw2] by
    (split; apply new_directory_wf; lia).
  destruct (decide (cluster_sector fs c + s / 16 = cluster_sector fs c)) as [E0|E0].
  - assert (s < 16) by dlia. rewrite Z.mod_small by lia. cbn [default from_option id]. unfold dot_sector.
    case_decide; [subst s|case_decide; [subst s|]].
    + rewrite entry_at_put_other by (try done; change entries_per_sector with 16; lia).
      apply entry_at_put_same; try done; change entries_per_sector with 16; lia.
    + apply entry_at_put_same; try done; change entries_per_sector with 16; lia.
    + rewrite !entry_at_put_other by (try done; change entries_per_sector with 16; lia).
      apply Hzero, elem_of_range. lia.
  - rewrite !decide_False by dlia. rewrite decide_True by dlia. cbn [default from_option id].
    apply Hzero, elem_of_range. lia.
Qed.
End fresh.

Section fresh_lookup.
Context (fs : Fat16) (K : list (list Z)) (Hvol : vol_ok fs K) (c p : Z).
Context (Hc : 2 <= c < n_clusters fs) (Hp : dir_ok fs p = true).
Abbreviation K' := (fresh_dir fs K c p).

Lemma fresh_matches n s : 0 <= s < 16 * dir_sectors fs c ->
  matches fs K' c n s = ((s =? 0) && list_eqb [0x2E] n) || ((s =? 1) && list_eqb [0x2E; 0x2E] n).
Proof using Hvol Hc Hp.
  intros Hs. pose proof (fresh_slot fs K Hvol c p Hc Hp) as Hsl.
  assert (0 < dir_sectors fs c) as Hn by lia. pose proof (Hsl 0 ltac:(lia)) as H0. pose proof (Hsl 1 ltac:(lia)) as H1.
  cbn in H0, H1. specialize (Hsl s Hs).
  assert (part_ok 8 [0x2E] /\ part_ok 8 [0x2E; 0x2E]) as [Hd1 Hd2] by
    (split; split_and!; try done; set_solver by lia).
  assert (reached fs K' c s = (s <=? 1)) as Hr.
  { apply eq_true_iff_eq. rewrite reached_spec, Z.leb_le. split.
    - intros Hx. destruct (decide (s <= 1)); [done|]. specialize (Hx s ltac:(dlia)).
      rewrite !decide_False in Hsl by lia. congruence.
    - intros Hx j Hj. assert (j = 0 \/ j = 1) as [->| ->] by dlia; [by rewrite H0|by rewrite H1]. }
  unfold matches. rewrite Hr. destruct (decide (s = 0)) as [->|].
  - rewrite Hsl, get_name_new_directory by done. cbn. by rewrite orb_false_r.
  - destruct (decide (s = 1)) as [->|].
    + rewrite Hsl, get_name_new_directory by done. done.
    + by replace (s <=? 1) with false by lia; replace (s =? 0) with false by lia; replace (s =? 1) with false by lia.
Qed.

Lemma fresh_lookup n :
  dir_lookup fs K' c n =
    if list_eqb n [0x2E] then Some (new_directory [0x2E] c, slot_pos fs c 0)
    else if list_eqb n [0x2E; 0x2E] then Some (new_directory [0x2E; 0x2E] p, slot_pos fs c 1) else None.
Proof using Hvol Hc Hp.
  pose proof (fresh_slot fs K Hvol c p Hc Hp) as Hsl. pose proof (fresh_ranges fs K Hvol c p Hc Hp).
  assert (0 < dir_sectors fs c) as Hn by (unfold dir_sectors; replace (c =? 0) with false by lia; lia).
  pose proof (Hsl 0 ltac:(lia)) as H0. pose proof (Hsl 1 ltac:(lia)) as H1. cbn in H0, H1.
  unfold dir_lookup. unfold list_eqb. repeat case_bool_decide; subst.
  - rewrite (find_range_first _ _ _ 0); [cbn; by rewrite H0|lia|by rewrite fresh_matches by lia|lia].
  - rewrite (find_range_first _ _ _ 1); [cbn; by rewrite H1|lia|by rewrite fresh_matches by lia|].
    intros j Hj. rewrite fresh_matches by lia. assert (j = 0) as -> by lia. done.
  - rewrite find_range_none; [done|]. intros s Hs. rewrite fresh_matches by lia.
    unfold list_eqb. rewrite !bool_decide_false by congruence. by rewrite !andb_false_r.
Qed.

Lemma fresh_shape : dir_tidy fs K' c /\ dir_unique fs K' c.
Proof using Hvol Hc Hp.
  pose proof (fresh_slot fs K Hvol c p Hc Hp) as Hsl. split.
  - intros s s' Hs Hs' Hf. pose proof (Hsl s Hs) as H1. pose proof (Hsl s' ltac:(dlia)) as H2.
    destruct (decide (s = 0)) as [->|]; [by rewrite H1 in Hf|].
    destruct (decide (s = 1)) as [->|]; [by rewrite H1 in Hf|]. by rewrite !decide_False in H2 by lia.
  - intros n s s' Hs Hs'. rewrite !fresh_matches by done. unfold list_eqb.
    intros [[? ?]%andb_prop|[? ?]%andb_prop]%orb_prop [[? ?]%andb_prop|[? ?]%andb_prop]%orb_prop;
      repeat match goal with H : bool_decide _ = true |- _ => apply bool_decide_eq_true in H end;
      try lia; subst n; done.
Qed.
End fresh_lookup.

(** The directories a path can lead to. *)
Inductive reachable (fs : Fat16) (K : list (list Z)) : Z -> Prop :=
  | reach_root : reachable fs K 0
  | reach_sub dir n e pos :
      reachable fs K dir -> dir_ok fs dir = true -> dir_lookup fs K dir n = Some (e, pos) ->
      is_directory e = true -> reachable fs K (start_cluster e).

Lemma walk_reachable fs K cs dir e pos :
  reachable fs K dir -> walk fs K dir cs = Ok (e, pos) -> is_directory e = true ->
  reachable fs K (start_cluster e).
Proof.
  revert dir. induction cs as [|c cs IH]; intros dir Hr; [done|]. cbn [walk].
  destruct (dir_ok fs dir) eqn:Hd; [|done].
  destruct (dir_lookup fs K dir c) as [[e0 p0]|] eqn:E; [|done]. destruct cs as [|c' cs].
  - intros [= -> ->] He. by eapply reach_sub.
  - destruct (is_directory e0) eqn:He0; [|done]. apply IH. by eapply reach_sub.
Qed.

Lemma parent_reachable fs K pp p : parent_dir fs K pp = Some p -> reachable fs K p.
Proof.
  unfold parent_dir. case_test; [intros [= <-]; apply reach_root|].
  destruct (walk fs K 0 (components pp)) as [[e pos]| | |] eqn:Ew; try done.
  destruct (is_directory e) eqn:Ed; [|done]. intros [= <-]. eapply walk_reachable; [apply reach_root|done..].
Qed.

(** A walk survives any change that keeps the lookups in reachable directories. *)
Lemma walk_keep_reachable fs K K' :
  (forall dir n r, reachable fs K dir -> dir_ok fs dir = true -> dir_lookup fs K dir n = Some r ->
     dir_lookup fs K' dir n = Some r) ->
  forall cs dir r, reachable fs K dir -> walk fs K dir cs = Ok r -> walk fs K' dir cs = Ok r.
Proof.
  intros Hlook. induction cs as [|c cs IH]; intros dir r Hr; [done|]. cbn [walk].
  destruct (dir_ok fs dir) eqn:Hd; [|done].
  destruct (dir_lookup fs K dir c) as [[e pos]|] eqn:E; [|done]. rewrite (Hlook dir c _ Hr Hd E).
  destruct cs as [|c' cs]; [done|]. destruct (is_directory e) eqn:Ed; [|done]. apply IH. by eapply reach_sub.
Qed.

Section create_dir.
Context {D : Type} `{BlockDeviceLaws D}.
Context (fs : Fat16).

Lemma init_directory_triple K c p :
  vol_ok fs K -> 2 <= c < n_clusters fs -> dir_ok fs p = true ->
  dtriple K (init_directory fs c p) (Ok tt) (fresh_dir fs K c p).
Proof.
  intros Hvol Hc Hp. pose proof (fresh_ranges fs K Hvol c p Hc Hp). unfold init_directory.
  eapply dtriple_bind; [apply cluster_to_sector_triple; lia|].
  eapply dtriple_bind; [apply dtriple_write; [lia|exact (dot_sector_ok fs K Hvol c p Hc Hp)]|].
  apply dtriple_fill; [lia|lia|rewrite len_upd; lia|done].
Qed.

Context (K : list (list Z)) (Hvol : vol_ok fs K) (path pp nm : list Z) (p : Z).
Context (Hsplit : split_parent path = (pp, nm)) (Hname : valid_parts nm []).
Context (Hparent : parent_dir fs K pp = Some p) (Hp : dir_ok fs p = true).
Context (Hnew : dir_lookup fs K p nm = None).

Lemma new_directory_live c :
  (is_free (new_directory nm c) = false /\ is_deleted (new_directory nm c) = false) /\
  get_name (new_directory nm c) = nm.
Proof using Hname. apply (new_file_live nm [] c Hname). Qed.

(** The disk with the cluster taken and cleared. *)
Definition cleared (c : Z) : list (list Z) := fresh_dir fs (vol_put fs K c 0xFFFF) c p.

Lemma cleared_vol c : 2 <= c < n_clusters fs ->
  vol_ok fs (vol_put fs K c 0xFFFF) /\ vol_ok fs (cleared c) /\
  (Forall sector_ok K -> Forall sector_ok (cleared c)).
Proof using Hvol Hp.
  intros Hc. assert (vol_ok fs (vol_put fs K c 0xFFFF)) as Hvol' by
    (eapply vol_ok_len; [exact Hvol|apply len_vol_put]).
  split_and!; [done|by apply fresh_dir_vol|]. intros HK. apply fresh_dir_sectors; [done..|].
  apply vol_put_sectors; [done..|]. eapply vol_cluster_covered; [done|lia].
Qed.

Lemma cleared_same c dir so : 2 <= c < n_clusters fs -> dir_ok fs dir = true -> dir <> c ->
  0 <= so < dir_sectors fs dir -> idx (cleared c) (dir_start fs dir + so) = idx K (dir_start fs dir + so).
Proof using Hvol Hp.
  intros Hc Hd Hne Hso. destruct (cleared_vol c Hc) as (Hv & _). unfold cleared.
  rewrite fresh_dir_other by done. apply vol_put_dir_same; (done || lia).
Qed.

Lemma cleared_free_slot c : 2 <= c < n_clusters fs -> p <> c -> free_slot fs (cleared c) p = free_slot fs K p.
Proof using Hvol Hp.
  intros Hc Hne. apply find_ext. intros s Hs%elem_of_range. unfold reusable.
  rewrite (slot_frame fs K); [done| |done]. intros. by apply cleared_same.
Qed.

Lemma create_dir_triple :
  match free_cluster fs K with
  | None => dtriple K (create_dir fs path) (Err NotSupported) K
  | Some c => p <> c ->
      match free_slot fs K p with
      | None => dtriple K (create_dir fs path) (Err NotSupported) (cleared c)
      | Some s => dtriple K (create_dir fs path) (Ok tt) (put_slot fs (cleared c) p s (new_directory nm c))
      end
  end.
Proof using All.
  pose proof (len_name83 nm [] Hname) as [_ Hne]. destruct Hname as [[Hl _] _ _ _ _ _].
  unfold create_dir. rewrite Hsplit.
  replace (_ <? len nm) with false by (unfold MAX_FILENAME_LENGTH; lia).
  assert (walk fs K 0 (components path) = Err NotFound) as Hw.
  { rewrite (walk_parent fs K path pp _ p) by done. cbn. by rewrite Hp, Hnew. }
  assert (dtriple K (find_entry_is_ok fs path) (Ok false) K) as Hex.
  { pose proof (find_entry_is_ok_triple fs K path Hvol) as Hf. rewrite Hw in Hf. by apply Hf. }
  pose proof (allocate_cluster_triple fs K Hvol) as Hal.
  destruct (free_cluster fs K) as [c|] eqn:Ec.
  2: { eapply dtriple_bind; [exact Hex|]. by apply dtriple_bind_err. }
  intros Hpc. apply free_cluster_spec in Ec as [Hc _]. pose proof (n_clusters_range fs K Hvol).
  destruct (cleared_vol c Hc) as (Hv1 & Hv2 & _).
  assert (dtriple (vol_put fs K c 0xFFFF) (parent_cluster_of fs pp) (Ok p) (vol_put fs K c 0xFFFF)).
  { apply parent_cluster_of_triple; [done|]. by rewrite parent_dir_vol_put by (done || lia). }
  pose proof (write_dir_entry_triple fs _ Hv2 p (new_directory nm c) Hp) as Hwr.
  rewrite cleared_free_slot in Hwr by done.
  specialize (Hwr (new_directory_wf nm c ltac:(lia))).
  destruct (free_slot fs K p) as [s|];
    (eapply dtriple_bind; [exact Hex|]; eapply dtriple_bind; [exact Hal|];
     eapply dtriple_bind; [eassumption|]; eapply dtriple_bind; [by apply init_directory_triple|];
     with_strategy opaque [write_dir_entry dtriple] exact Hwr).
Qed.

(** The directories afterwards. *)
Lemma create_dir_lookups c s :
  Forall sector_ok K -> dir_tidy fs K p -> 2 <= c < n_clusters fs -> p <> c -> free_slot fs K p = Some s ->
  let K' := put_slot fs (cleared c) p s (new_directory nm c) in
  (forall dir n, dir_ok fs dir = true -> dir <> c ->
     dir_lookup fs K' dir n =
       if bool_decide ((dir, n) = (p, nm)) then Some (new_directory nm c, slot_pos fs p s) else dir_lookup fs K dir n) /\
  (forall n, dir_lookup fs K' c n = dir_lookup fs (cleared c) c n) /\
  dir_tidy fs K' p /\ (dir_unique fs K p -> dir_unique fs K' p) /\ dir_tidy fs K' c /\ dir_unique fs K' c.
Proof using All.
  intros HK Htidy Hc Hpc Hs K'. destruct (cleared_vol c Hc) as (Hv1 & Hv2 & HK2). specialize (HK2 HK).
  destruct (new_directory_live c) as [Hlive Hnm]. pose proof (n_clusters_range fs K Hvol).
  assert (dir_entry_wf (new_directory nm c)) as Hwf by (apply new_directory_wf; lia).
  assert (free_slot fs (cleared c) p = Some s) as Hs' by (by rewrite cleared_free_slot).
  destruct (free_slot_spec fs (cleared c) p s Hs') as (Hsr & _).
  assert (forall dir, dir_ok fs dir = true -> dir <> c -> forall n,
    dir_lookup fs (cleared c) dir n = dir_lookup fs K dir n) as Hsame.
  { intros dir Hd Hne n. apply dir_lookup_frame. intros. by apply cleared_same. }
  assert (dir_tidy fs (cleared c) p) as Ht.
  { apply (dir_tidy_frame fs K); [|done]. intros. by apply cleared_same. }
  assert (dir_ok fs c = true) as Hdc by (unfold dir_ok; lia).
  assert (forall so, 0 <= so < dir_sectors fs c ->
    idx K' (dir_start fs c + so) = idx (cleared c) (dir_start fs c + so)) as Hnewdir.
  { intros so Hso. pose proof (dir_region_range fs _ Hv2 c Hdc). pose proof (vol_root_range fs _ Hv2).
    apply put_slot_outside; [done..|lia|]. unfold slot_sector.
    pose proof (dir_regions_disjoint fs _ Hv2 p c (s / 16) so Hp Hdc Hpc).
    assert (0 <= s / 16 < dir_sectors fs p) by dlia. intuition lia. }
  split_and!.
  - intros dir n Hd Hne. rewrite <- Hsame by done. destruct (decide (dir = p)) as [->|Hdp].
    + case_bool_decide as Heq; [injection Heq as ->; apply lookup_add_same; try done; by rewrite Hsame|].
      eapply lookup_add_other; try done. congruence.
    + rewrite bool_decide_false by congruence. by apply dir_lookup_put_slot_other.
  - intros n. by apply dir_lookup_frame.
  - by eapply tidy_add.
  - intros Hu. eapply unique_add; try done; [by rewrite Hsame|].
    apply (dir_unique_frame fs K); [|done]. intros. by apply cleared_same.
  - eapply dir_tidy_frame; [exact Hnewdir|]. by apply fresh_shape.
  - eapply dir_unique_frame; [exact Hnewdir|]. by apply fresh_shape.
Qed.
End create_dir.

Lemma create_dir_spec {D} `{BlockDeviceLaws D} (fs : Fat16) (d : D) (path pp nm : list Z) (p c s : Z) :
  dev_ok d -> vol_ok fs (disk d) ->
  split_parent path = (pp, nm) -> valid_parts nm [] ->
  parent_dir fs (disk d) pp = Some p -> dir_ok fs p = true -> dir_tidy fs (disk d) p ->
  dir_lookup fs (disk d) p nm = None ->
  free_cluster fs (disk d) = Some c -> ~ reachable fs (disk d) c -> free_slot fs (disk d) p = Some s ->
  exists d', create_dir fs path d = (Ok tt, d') /\ dev_ok d' /\ vol_ok fs (disk d') /\
    dir_lookup fs (disk d') p nm = Some (new_directory nm c, slot_pos fs p s) /\
    fst (find_entry fs path d') = Ok (new_directory nm c, slot_pos fs p s) /\
    (forall n, dir_lookup fs (disk d') c n =
       if list_eqb n [0x2E] then Some (new_directory [0x2E] c, slot_pos fs c 0)
       else if list_eqb n [0x2E; 0x2E] then Some (new_directory [0x2E; 0x2E] p, slot_pos fs c 1) else None) /\
    (dir_tidy fs (disk d') c /\ dir_unique fs (disk d') c) /\
    (dir_tidy fs (disk d') p /\ (dir_unique fs (disk d) p -> dir_unique fs (disk d') p)) /\
    (forall x, 0 <= x < n_clusters fs ->
       vol_get fs (disk d') x = if x =? c then 0xFFFF else vol_get fs (disk d) x) /\
    (forall path' r, walk fs (disk d) 0 (components path') = Ok r -> fst (find_entry fs path' d') = Ok r).
Proof.
  intros Hd Hvol Hsplit Hname Hpar Hp Htidy Hnew Hfc Hnr Hs. pose proof (dev_sectors d Hd) as HK.
  pose proof (parent_reachable fs _ pp p Hpar) as Hreach. assert (p <> c) as Hpc by congruence.
  pose proof (create_dir_triple fs (disk d) Hvol path pp nm p Hsplit Hname Hpar Hp Hnew) as Ht.
  rewrite Hfc, Hs in Ht. destruct (Ht Hpc d Hd eq_refl) as (d' & E & Hd' & HK'). clear Ht.
  apply free_cluster_spec in Hfc as [Hc _]. pose proof (n_clusters_range fs _ Hvol).
  destruct (cleared_vol fs (disk d) Hvol p Hp c Hc) as (Hv1 & Hv2 & _).
  destruct (create_dir_lookups fs (disk d) Hvol path pp nm p Hsplit Hname Hpar Hp Hnew c s HK Htidy Hc Hpc Hs)
    as (Hlook & Hself & Htp & Hup & Htc & Huc). rewrite <- HK' in *.
  assert (vol_ok fs (disk d')) as Hvol' by (eapply vol_ok_len; [exact Hv2|]; by rewrite HK', len_put_slot).
  assert (forall cs r, walk fs (disk d) 0 cs = Ok r -> walk fs (disk d') 0 cs = Ok r) as Hmono.
  { intros cs r. apply walk_keep_reachable; [|apply reach_root]. intros dir n r' Hr Hdir Hl.
    rewrite Hlook, bool_decide_false; [done| |done|congruence]. congruence. }
  exists d'. split_and!; try done.
  - rewrite Hlook by done. by rewrite bool_decide_true.
  - apply find_entry_on; [done..| |done].
    rewrite (walk_parent fs (disk d') path pp nm p); [|done|by apply (len_name83 nm [])|].
    + cbn [walk]. rewrite Hp, Hlook by done. by rewrite bool_decide_true.
    + eapply parent_dir_keep; [|exact Hpar]. intros e pos Hw _. by apply Hmono.
  - intros n. rewrite Hself. by apply fresh_lookup.
  - intros x Hx. pose proof (vol_cluster_covered fs _ Hvol x Hx) as Hcov.
    pose proof (vol_fat_range fs _ Hvol x Hcov). pose proof (vol_root_range fs _ Hvol).
    pose proof (slot_sector_range fs _ Hvol p s Hp (proj1 (free_slot_spec fs _ p s Hs))).
    assert (vol_get fs (disk d') x = vol_get fs (cleared fs (disk d) p c) x) as ->.
    { rewrite HK'. unfold vol_get, put_slot. apply fat_get_upd; lia. }
    unfold cleared. rewrite fresh_dir_fat by done. destruct (x =? c) eqn:Exc.
    + assert (x = c) as -> by lia. by apply vol_get_put_same.
    + apply vol_get_put_other; try done; [|lia]. eapply vol_cluster_covered; [done|lia].
  - intros path' r Hw. apply find_entry_on; [done..| |done]. by apply Hmono.
Qed.

(** C11: [create_dir] of a valid new name in an existing directory with a free
    slot, when a cluster is free and no path leads to it, succeeds: the path then
    resolves to a directory at that cluster, which holds exactly [.], naming
    itself, and [..], naming the parent; the cluster is marked end-of-chain and
    every other entry of the table is unchanged; and every path that resolved
    before resolves to the same entry. *)
Theorem create_dir_ok {D} `{BlockDeviceLaws D} (fs : Fat16) (d : D) (path pp nm : list Z) (p c s : Z) :
  dev_ok d -> vol_ok fs (disk d) ->
  split_parent path = (pp, nm) -> valid_parts nm [] ->
  parent_dir fs (disk d) pp = Some p -> dir_ok fs p = true -> dir_tidy fs (disk d) p ->
  dir_lookup fs (disk d) p nm = None ->
  free_cluster fs (disk d) = Some c -> ~ reachable fs (disk d) c -> free_slot fs (disk d) p = Some s ->
  exists d', create_dir fs path d = (Ok tt, d') /\ dev_ok d' /\ vol_ok fs (disk d') /\
    fst (find_entry fs path d') = Ok (new_directory nm c, slot_pos fs p s) /\
    (forall n, dir_lookup fs (disk d') c n =
       if list_eqb n [0x2E] then Some (new_directory [0x2E] c, slot_pos fs c 0)
       else if list_eqb n [0x2E; 0x2E] then Some (new_directory [0x2E; 0x2E] p, slot_pos fs c 1) else None) /\
    (dir_tidy fs (disk d') c /\ dir_unique fs (disk d') c) /\
    (dir_tidy fs (disk d') p /\ (dir_unique fs (disk d) p -> dir_unique fs (disk d') p)) /\
    (forall x, 0 <= x < n_clusters fs ->
       vol_get fs (disk d') x = if x =? c then 0xFFFF else vol_get fs (disk d) x) /\
    (forall path' r, walk fs (disk d) 0 (components path') = Ok r -> fst (find_entry fs path' d') = Ok r).
Proof.
  intros Hd Hvol Hsplit Hname Hpar Hp Htidy Hnew Hfc Hnr Hs.
  destruct (create_dir_spec fs d path pp nm p c s) as (d' & ? & ? & ? & _ & ?); try done. by exists d'.
Qed.

(** ** Removing a directory *)

(** The scan of [is_directory_empty] from slot [a] of a sector on. *)
Definition dots (n : list Z) : Prop := n = [0x2E] \/ n = [0x2E; 0x2E].

Lemma no_regular_from buf k a :
  0 <= a -> Z.of_nat k = 16 - a -> (forall j, 0 <= j < a -> is_free (entry_at buf j) = false) ->
  no_regular_entry buf (range a 16) = true <->
  (forall n s, a <= s < 16 -> sector_match buf n s = true -> dots n).
Proof.
  revert a. induction k as [|k IH]; intros a Ha Hk Hr; [rewrite range_nil by lia; split; [intros; lia|done]|].
  rewrite range_cons by lia. cbn [no_regular_entry]. destruct (is_free (entry_at buf a)) eqn:Hf.
  - split; [|done]. intros _ n s Hs [[Hx _]%andb_prop _]%andb_prop.
    rewrite sector_reached in Hx. by rewrite Hx in Hf by lia.
  - assert (forall j, 0 <= j < a + 1 -> is_free (entry_at buf j) = false) as Hr'.
    { intros j Hj. destruct (decide (j = a)) as [->|]; [done|]. apply Hr. lia. }
    specialize (IH (a + 1) ltac:(lia) ltac:(lia) Hr'). set (g := get_name (entry_at buf a)) in *.
    assert (forall n, sector_match buf n a = negb (is_deleted (entry_at buf a)) && list_eqb g n) as Hma.
    { intros n. unfold sector_match. rewrite (proj2 (sector_reached buf a)); [done|]. intros j Hj. apply Hr'. lia. }
    assert ((forall n s, a <= s < 16 -> sector_match buf n s = true -> dots n) <->
      (forall n, sector_match buf n a = true -> dots n) /\
      (forall n s, a + 1 <= s < 16 -> sector_match buf n s = true -> dots n)) as ->.
    { split; [intros Hx; split; [intros n; apply Hx; lia|intros n s Hs; apply Hx; lia]|].
      intros [Hx Hy] n s Hs. destruct (decide (s = a)) as [->|]; [apply Hx|apply Hy; lia]. }
    rewrite <- IH. setoid_rewrite Hma. destruct (is_deleted (entry_at buf a)); cbn [negb andb].
    + split; [by intros|by intros [_ ?]].
    + unfold list_eqb. destruct (decide (g = [0x2E] \/ g = [0x2E; 0x2E])) as [Hg|Hg].
      * assert (negb (bool_decide (g = [0x2E])) && negb (bool_decide (g = [0x2E; 0x2E])) = false) as ->.
        { destruct Hg as [-> | ->]; done. }
        split; [|by intros [_ ?]]. intros Hx. split; [|done]. intros n Hn%bool_decide_eq_true. by subst n.
      * rewrite !bool_decide_false by tauto. cbn [negb andb]. split; [done|]. intros [Hx _].
        by destruct Hg; apply (Hx g (bool_decide_eq_true_2 _ eq_refl)).
Qed.

Section remove_dir.
Context {D : Type} `{BlockDeviceLaws D}.
Context (fs : Fat16) (K : list (list Z)) (Hvol : vol_ok fs K).

(** What [is_directory_empty] decides: no name but the dot entries is found in
    the first sector. *)
Lemma no_regular_spec c :
  2 <= c < n_clusters fs ->
  no_regular_entry (sector_at K (cluster_sector fs c)) (range 0 16) = true <->
  (forall n s, 0 <= s < 16 -> matches fs K c n s = true -> dots n).
Proof.
  intros Hc. rewrite (no_regular_from _ 16 0) by (lia || (intros; lia)).
  assert (forall n s, 0 <= s < 16 -> matches fs K c n s = sector_match (sector_at K (cluster_sector fs c)) n s) as Hmatch.
  { intros n s Hs. pose proof (matches_split fs K c n 0 s Hs) as Hx.
    unfold dir_start in Hx. replace (c =? 0) with false in Hx by lia. by rewrite Z.add_0_r in Hx. }
  split; intros Hx n s Hs.
  - rewrite Hmatch by done. by apply Hx.
  - rewrite <- Hmatch by done. by apply Hx.
Qed.

Lemma is_directory_empty_triple c :
  2 <= c < n_clusters fs ->
  dtriple K (is_directory_empty fs c) (Ok (no_regular_entry (sector_at K (cluster_sector fs c)) (range 0 16))) K.
Proof using Hvol.
  intros Hc. pose proof (cluster_sector_range fs K c Hvol Hc). pose proof (vo_spc _ _ Hvol).
  pose proof (vo_data _ _ Hvol). pose proof (vol_root_range fs K Hvol). pose proof (n_clusters_range fs K Hvol).
  eapply dtriple_bind; [apply cluster_to_sector_triple; lia|].
  eapply dtriple_bind; [apply dtriple_read; [lia|done|apply sector_at_idx; lia]|]. apply dtriple_ret.
Qed.

Lemma remove_dir_triple fuel path p s e cs :
  dir_ok fs p = true -> 0 <= s < 16 * dir_sectors fs p ->
  walk fs K 0 (components path) = Ok (e, slot_pos fs p s) ->
  chain (fat_start fs) (n_clusters fs) K (start_cluster e) cs -> 2 <= start_cluster e < n_clusters fs ->
  (Z.to_nat (n_clusters fs) <= fuel)%nat ->
  let empty := no_regular_entry (sector_at K (cluster_sector fs (start_cluster e))) (range 0 16) in
  dtriple K (remove_dir fuel fs path)
    (if is_directory e then if empty then Ok tt else Err DirectoryNotEmpty else Err NotSupported)
    (if is_directory e && empty then freed fs (mark_deleted fs K p s) cs else K).
Proof using Hvol.
  intros Hp Hs Hw Hchain Hc Hfuel empty. eapply (dtriple_bind _ _ _ _ _ (e, slot_pos fs p s)).
  { rewrite <- Hw. apply find_entry_triple; [done|]. by rewrite Hw. }
  cbv beta iota. destruct (is_directory e) eqn:Hdir; cbn [negb andb]; [|apply dtriple_err].
  eapply dtriple_bind; [by apply is_directory_empty_triple|]. fold empty.
  destruct empty; cbn [negb]; [|apply dtriple_err]. by eapply (remove_entry_triple fs K Hvol path p s e cs).
Qed.
End remove_dir.

(** C13: [remove_dir] returns in as many rounds as the table has clusters, and
    does one of three things: an entry that is not a directory is refused with
    [NotSupported], a directory in whose first sector a name other than [.] and
    [..] is found is refused with [DirectoryNotEmpty], both without a change to
    the disk; any other directory is removed: its name is gone from its parent,
    every other name of every directory stands for what it stood for, and
    exactly the clusters of its chain are free. *)
Theorem remove_dir_cases {D} `{BlockDeviceLaws D} (fs : Fat16) (d : D)
    (path pp nm : list Z) (p pos : Z) (e : DirEntry83) (cs : list Z) (fuel : nat) :
  dev_ok d -> vol_ok fs (disk d) ->
  split_parent path = (pp, nm) -> nm <> [] -> parent_dir fs (disk d) pp = Some p ->
  dir_ok fs p = true -> dir_unique fs (disk d) p -> dir_lookup fs (disk d) p nm = Some (e, pos) ->
  chain (fat_start fs) (n_clusters fs) (disk d) (start_cluster e) cs ->
  (Z.to_nat (n_clusters fs) <= fuel)%nat ->
  exists r d', remove_dir fuel fs path d = (r, d') /\ dev_ok d' /\
    (is_directory e = false -> r = Err NotSupported /\ disk d' = disk d) /\
    (is_directory e = true ->
       (exists n s, 0 <= s < 16 /\ matches fs (disk d) (start_cluster e) n s = true /\ ~ dots n) ->
       r = Err DirectoryNotEmpty /\ disk d' = disk d) /\
    (is_directory e = true ->
       (forall n s, 0 <= s < 16 -> matches fs (disk d) (start_cluster e) n s = true -> dots n) ->
       r = Ok tt /\ vol_ok fs (disk d') /\
       (forall dir n, dir_ok fs dir = true ->
          dir_lookup fs (disk d') dir n =
            if bool_decide ((dir, n) = (p, nm)) then None else dir_lookup fs (disk d) dir n) /\
       (forall c, 0 <= c < n_clusters fs ->
          vol_get fs (disk d') c = if bool_decide (c ∈ cs) then 0 else vol_get fs (disk d) c)).
Proof.
  intros Hd Hvol Hsplit Hne Hpar Hp Huniq Hlook Hchain Hfuel. pose proof (dev_sectors d Hd) as HK.
  pose proof Hlook as (s & Hs & Hm & He & -> & _)%dir_lookup_Some.
  assert (walk fs (disk d) 0 (components path) = Ok (e, slot_pos fs p s)) as Hw.
  { rewrite (walk_parent fs (disk d) path pp nm p) by done. cbn [walk]. by rewrite Hp, Hlook. }
  pose proof (chain_range _ _ _ _ _ Hchain) as Hcs.
  assert (2 <= start_cluster e < n_clusters fs) as Hc by
    (inversion Hchain; subst; by apply Forall_cons in Hcs as [? _]).
  pose proof (no_regular_spec fs (disk d) _ Hc) as Hspec.
  pose proof (remove_dir_triple fs (disk d) Hvol fuel path p s e cs Hp Hs Hw Hchain Hc Hfuel) as Ht. cbv zeta in Ht.
  destruct (Ht d Hd eq_refl) as (d' & E & Hd' & HK'). eexists _, d'. split; [exact E|]. clear E Ht.
  destruct (is_directory e) eqn:Hdir; [|by split_and!].
  destruct (no_regular_entry _ _) eqn:Hreg; cbn [andb] in HK'.
  2: { split_and!; try done. intros _ Hx. by apply Hspec in Hx. }
  split_and!; try done.
  { intros _ (n & s' & Hs' & Hm' & Hn). by destruct Hn, (proj1 Hspec eq_refl n s' Hs' Hm'); [left|right]. }
  intros _ _. split_and!; [done| | |].
  - eapply vol_ok_len; [exact Hvol|]. rewrite HK', len_freed. apply len_upd.
  - intros dir n Hdo. rewrite HK', removed_lookup by done. by apply unlinked_lookup.
  - intros c Hcr. rewrite HK'. destruct (freed_spec fs cs (mark_deleted fs (disk d) p s)) as (_ & Hg & _);
      [by apply mark_deleted_vol|by apply mark_deleted_sectors|done|]. rewrite Hg by done. by rewrite mark_deleted_fat.
Qed.

(** ** The operations on the 50-block disk *)

Lemma demo_lookup : dir_lookup demo_fs (disk demo_created) 0 demo_path =
  Some (new_file demo_base demo_ext 2, slot_pos demo_fs 0 0).
Proof.
  destruct demo_created_ok as (_ & _ & _ & _ & Hw & _).
  change (components demo_path) with [demo_path] in Hw. cbn [walk] in Hw.
  destruct (dir_lookup demo_fs (disk demo_created) 0 demo_path) as [[e pos]|]; [|discriminate Hw].
  by injection Hw as -> ->.
Qed.


Definition demo_base' : list Z := bytes_of_string "B".
Definition demo_path' : list Z := bytes_of_string "B.TXT".

Lemma demo_parts' : valid_parts demo_base' demo_ext.
Proof.
  split; [| |done| | |done].
  all: try (split_and!; [by vm_compute|done|]). all: cbn; try (intros Hin; set_solver); set_solver by lia.
Qed.

Abbreviation demo_K := (disk (snd demo_volume)).

(** What creating the file made of the disk: the root directory is tidy, its
    second slot is free, and no other name is in it. *)
Lemma demo_created_disk :
  disk demo_created = put_slot demo_fs (vol_put demo_fs demo_K 2 0xFFFF) 0 0 (new_file demo_base demo_ext 2).
Proof.
  destruct demo_mounted as (_ & Hd & Hv & _).
  pose proof (create_file_triple demo_fs demo_K Hv demo_path [] demo_base demo_ext 0 eq_refl demo_parts eq_refl eq_refl
    (blank_lookup _ _ _ demo_root_blank _)) as Ht. rewrite demo_free_cluster, demo_free_slot in Ht.
  destruct (Ht (snd demo_volume) Hd eq_refl) as (d' & E & _ & HK). unfold demo_created. by rewrite E.
Qed.

Lemma demo_created_root :
  dir_tidy demo_fs (disk demo_created) 0 /\ dir_lookup demo_fs (disk demo_created) 0 demo_path' = None /\
  free_slot demo_fs (disk demo_created) 0 = Some 1.
Proof.
  destruct demo_mounted as (_ & Hd & Hv & _). pose proof (dev_sectors _ Hd) as HK. rewrite demo_created_disk.
  assert (vol_ok demo_fs (vol_put demo_fs demo_K 2 0xFFFF)) as Hv1 by (eapply vol_ok_len; [exact Hv|apply len_vol_put]).
  assert (Forall sector_ok (vol_put demo_fs demo_K 2 0xFFFF)) as HK1.
  { apply vol_put_sectors; [done..|]. by eapply vol_cluster_covered. }
  destruct (create_file_lookups demo_fs demo_K Hv demo_path [] demo_base demo_ext 0 eq_refl demo_parts eq_refl eq_refl
    (blank_lookup _ _ _ demo_root_blank _) 2 0 HK (blank_tidy _ _ _ demo_root_blank) ltac:(done) demo_free_slot)
    as (_ & Hother & Ht & _).
  split_and!; [done|rewrite Hother; [by apply blank_lookup, demo_root_blank|done|done]|].
  assert (dir_entry_wf (new_file demo_base demo_ext 2)) as Hwf by (by apply new_file_wf).
  apply find_range_first; [done| |].
  - unfold reusable. rewrite slot_put_other by done. rewrite (slot_frame demo_fs demo_K); [|intros; by apply vol_put_dir_same; [..|lia]|done].
    by rewrite (blank_slot_free demo_fs _ 0 demo_root_blank).
  - intros j Hj. assert (j = 0) as -> by lia. unfold reusable. by rewrite slot_put_same.
Qed.

Lemma rename_ok_witness :
  exists d', rename demo_fs demo_path demo_path' demo_created = (Ok tt, d') /\
    fst (find_entry demo_fs demo_path' d') = Ok (renamed (new_file demo_base demo_ext 2) demo_base' demo_ext, slot_pos demo_fs 0 1) /\
    fst (find_entry demo_fs demo_path d') = Err NotFound.
Proof.
  destruct demo_created_ok as (_ & Hd & Hv & Hu & _). destruct demo_created_root as (Ht & Hn & Hs).
  destruct (rename_ok demo_fs demo_created demo_path [] demo_path demo_path' [] demo_base' demo_ext 0 0 1
    (slot_pos demo_fs 0 0) (new_file demo_base demo_ext 2)) as (d' & E & _ & _ & _ & _ & Hfile).
  - exact Hd.
  - exact Hv.
  - reflexivity.
  - discriminate.
  - reflexivity.
  - reflexivity.
  - exact Hu.
  - exact demo_lookup.
  - apply new_file_wf. lia.
  - reflexivity.
  - exact demo_parts'.
  - reflexivity.
  - reflexivity.
  - exact Ht.
  - exact Hn.
  - exact Hs.
  - destruct (Hfile eq_refl) as (Hto & Hfrom & _). exists d'. exact (conj E (conj Hto Hfrom)).
Defined.

(** A directory in the root. *)
Definition demo_name : list Z := bytes_of_string "DIR".
Definition demo_made : MemoryBlockDevice.MemoryBlockDevice := snd (create_dir demo_fs demo_name (snd demo_volume)).

Lemma demo_name_parts : valid_parts demo_name [].
Proof.
  split; [| |done| | |done].
  all: try (split_and!; [by vm_compute|done|]). all: cbn; try (intros Hin; set_solver); set_solver by lia.
Qed.

Lemma demo_unreachable : ~ reachable demo_fs demo_K 2.
Proof.
  assert (forall dir, reachable demo_fs demo_K dir -> dir = 0) as Hr.
  { induction 1 as [|dir n e pos _ IH _ Hl _]; [done|]. subst dir.
    by rewrite (blank_lookup _ _ _ demo_root_blank) in Hl. }
  by intros ?%Hr.
Qed.

Lemma create_dir_ok_witness :
  exists d', create_dir demo_fs demo_name (snd demo_volume) = (Ok tt, d') /\
    fst (find_entry demo_fs demo_name d') = Ok (new_directory demo_name 2, slot_pos demo_fs 0 0).
Proof.
  destruct demo_mounted as (_ & Hd & Hv & _).
  destruct (create_dir_ok demo_fs (snd demo_volume) demo_name [] demo_name 0 2 0) as (d' & E & _ & _ & Hf & _).
  - exact Hd.
  - exact Hv.
  - reflexivity.
  - exact demo_name_parts.
  - reflexivity.
  - reflexivity.
  - apply blank_tidy, demo_root_blank.
  - apply blank_lookup, demo_root_blank.
  - exact demo_free_cluster.
  - exact demo_unreachable.
  - exact demo_free_slot.
  - exists d'. exact (conj E Hf).
Defined.

Lemma demo_made_ok :
  dev_ok demo_made /\ vol_ok demo_fs (disk demo_made) /\ dir_unique demo_fs (disk demo_made) 0 /\
  dir_lookup demo_fs (disk demo_made) 0 demo_name = Some (new_directory demo_name 2, slot_pos demo_fs 0 0) /\
  chain (fat_start demo_fs) (n_clusters demo_fs) (disk demo_made) 2 [2] /\
  (forall n s, 0 <= s < 16 -> matches demo_fs (disk demo_made) 2 n s = true -> dots n).
Proof.
  destruct demo_mounted as (_ & Hd & Hv & _).
  destruct (create_dir_spec demo_fs (snd demo_volume) demo_name [] demo_name 0 2 0
    Hd Hv eq_refl demo_name_parts eq_refl eq_refl (blank_tidy _ _ _ demo_root_blank)
    (blank_lookup _ _ _ demo_root_blank _) demo_free_cluster demo_unreachable demo_free_slot)
    as (d' & E & Hd' & Hv' & Hl & _ & Hself & _ & (_ & Hu) & Hg & _).
  assert (demo_made = d') as -> by (unfold demo_made; by rewrite E).
  split_and!; [done|done|apply Hu, blank_unique, demo_root_blank|done| |].
  - apply chain_last; [by split|]. assert (0 <= 2 < n_clusters demo_fs) as H2 by (split; [discriminate|reflexivity]).
    specialize (Hg 2 H2). change (2 =? 2) with true in Hg. unfold vol_get at 1 in Hg. rewrite Hg. discriminate.
  - intros n s Hs Hm. specialize (Hself n). destruct (decide (dots n)) as [|Hn]; [done|]. exfalso.
    unfold list_eqb in Hself. rewrite !bool_decide_false in Hself by (unfold dots in Hn; tauto).
    unfold dir_lookup in Hself. destruct (List.find _ _) eqn:Ef; [done|].
    eapply find_none in Ef; [by rewrite Hm in Ef|]. apply list_elem_of_In, elem_of_range.
    change (dir_sectors demo_fs 2) with 4. lia.
Qed.

Lemma remove_dir_cases_witness :
  exists d', remove_dir 3 demo_fs demo_name demo_made = (Ok tt, d') /\
    dir_lookup demo_fs (disk d') 0 demo_name = None /\ vol_get demo_fs (disk d') 2 = 0.
Proof.
  destruct demo_made_ok as (Hd & Hv & Hu & Hl & Hc & Hdots).
  destruct (remove_dir_cases demo_fs demo_made demo_name [] demo_name 0 (slot_pos demo_fs 0 0)
    (new_directory demo_name 2) [2] 3) as (r & d' & E & _ & _ & _ & Hrm).
  - exact Hd.
  - exact Hv.
  - reflexivity.
  - discriminate.
  - reflexivity.
  - reflexivity.
  - exact Hu.
  - exact Hl.
  - exact Hc.
  - vm_compute. lia.
  - destruct (Hrm eq_refl Hdots) as (-> & _ & Hlook & Hg). exists d'.
    pose proof (Hlook 0 demo_name eq_refl) as H1. rewrite bool_decide_true in H1 by reflexivity.
    assert (0 <= 2 < n_clusters demo_fs) as Hr by (split; [discriminate|reflexivity]).
    pose proof (Hg 2 Hr) as H2. rewrite bool_decide_true in H2 by apply list_elem_of_here.
    exact (conj E (conj H1 H2)).
Defined.
