(* ===== verification/FatFd.v ===== *)
(** * The table of open files ([filesys/fat16/mod.rs]: descriptors)

    What [open_file], [close_file], [seek_file], [read_file] and [write_file]
    do to the table of descriptors: an invariant of the table under any
    sequence of operations, freshness of the descriptors handed out, and the
    behaviour of reads, writes and seeks through a descriptor. *)

From S2P Require Import Prelude BlockDev FatLayout FatSpec FatFile FatVolume FatDir FatFs.
Import Fat16File.

(** ** The heap of reusable descriptors *)

Lemma heap_max_in l m : heap_max l = Some m -> m ∈ l.
Proof.
  destruct l as [|x l]; [done|]. cbn. intros [= <-].
  assert (forall l x, fold_left Z.max l x = x \/ fold_left Z.max l x ∈ l) as Hf.
  { clear. induction l as [|y l IH]; intros x; [by left|]. cbn.
    destruct (IH (Z.max x y)) as [->|Hin]; [|right; set_solver].
    destruct (Z.max_spec x y) as [[_ ->]|[_ ->]]; [right; set_solver|by left]. }
  destruct (Hf l x) as [->|]; set_solver.
Qed.

Lemma remove_one_spec x l : NoDup l -> NoDup (remove_one x l) /\ (forall y, y ∈ remove_one x l <-> y ∈ l /\ y <> x).
Proof.
  induction l as [|z l IH]; intros Hnd; [split; [constructor|set_solver]|].
  apply NoDup_cons in Hnd as [Hz Hnd]. destruct (IH Hnd) as [Hnd' Hin]. cbn.
  destruct (x =? z) eqn:E.
  - assert (x = z) as -> by lia. split; [done|]. intros y. rewrite elem_of_cons. split; [|naive_solver].
    intros Hy. split; [by right|]. by intros ->.
  - split; [constructor; [rewrite Hin; naive_solver|done]|]. intros y. rewrite !elem_of_cons, Hin.
    assert (x <> z) by lia. naive_solver.
Qed.

(** ** The invariant of the table *)

(** The counter is the size of the table, and the reusable descriptors are
    exactly the closed ones, each once. *)
Record fds_ok (fs : Fat16) : Prop := {
  fd_count : fd_counter fs = len (fd_table fs);
  fd_nodup : NoDup (reuse_fds fs);
  fd_reuse : forall fd, fd ∈ reuse_fds fs <->
    0 <= fd /\ exists f, idx (fd_table fs) fd = Some f /\ valid f = false
}.

(** Descriptor [fd] is open. *)
Definition is_open (fs : Fat16) (fd : Z) : Prop :=
  0 <= fd /\ exists f, idx (fd_table fs) fd = Some f /\ valid f = true.

(** The two ways a descriptor is handed out. *)
Lemma fds_reuse fs fd rest f :
  fds_ok fs -> heap_pop (reuse_fds fs) = Some (fd, rest) -> valid f = true ->
  (exists old, idx (fd_table fs) fd = Some old /\ valid old = false) /\ ~ is_open fs fd /\
  fds_ok (set_fds fs (fd_counter fs) rest (upd (fd_table fs) fd f)).
Proof.
  intros [Hc Hnd Hr] Hpop Hf. unfold heap_pop in Hpop.
  destruct (heap_max (reuse_fds fs)) as [m|] eqn:Em; [|done]. injection Hpop as -> <-.
  apply heap_max_in in Em. pose proof Em as (Hfd & old & Hold & Hov)%Hr.
  pose proof (idx_Some_lt _ _ _ Hfd Hold). destruct (remove_one_spec fd (reuse_fds fs) Hnd) as [Hnd' Hin].
  split_and!; [by exists old|intros (_ & g & Hg & Hgv); congruence|].
  split; cbn; [by rewrite len_upd|done|]. intros x. rewrite Hin, Hr.
  destruct (decide (x = fd)) as [->|Hne].
  - rewrite idx_upd_eq by lia. naive_solver congruence.
  - split.
    + intros [[Hx0 Hx] _]. split; [done|]. by rewrite idx_upd_ne by lia.
    + intros [Hx0 Hx]. rewrite idx_upd_ne in Hx by lia. done.
Qed.

Lemma fds_push fs f :
  fds_ok fs -> valid f = true ->
  ~ is_open fs (fd_counter fs) /\
  fds_ok (set_fds fs (fd_counter fs + 1) (reuse_fds fs) (fd_table fs ++ [f])).
Proof.
  intros [Hc Hnd Hr] Hf. pose proof (len_nonneg (fd_table fs)). split.
  - intros (_ & g & Hg & _). rewrite idx_None in Hg by lia. done.
  - split; cbn; [rewrite len_app, Hc; done|done|]. intros x. rewrite Hr.
    destruct (decide (x < len (fd_table fs))) as [Hlt|Hge].
    + split; intros [Hx0 Hx]; (split; [done|]); rewrite idx_app_l in * by lia; done.
    + split; intros [Hx0 (g & Hg & Hgv)]; exfalso.
      * rewrite idx_None in Hg by lia. done.
      * rewrite idx_app_r in Hg by lia. destruct (decide (x = len (fd_table fs))) as [->|].
        -- rewrite Z.sub_diag in Hg. injection Hg as <-. congruence.
        -- rewrite idx_None in Hg; [done|]. unfold len in *. cbn. lia.
Qed.

Lemma fds_close fs fd f :
  fds_ok fs -> 0 <= fd -> idx (fd_table fs) fd = Some f -> valid f = true ->
  fds_ok (set_fds fs (fd_counter fs) (fd :: reuse_fds fs) (upd (fd_table fs) fd closed_file)).
Proof.
  intros [Hc Hnd Hr] Hfd Hf Hv. pose proof (idx_Some_lt _ _ _ Hfd Hf). split; cbn.
  - by rewrite len_upd.
  - constructor; [|done]. rewrite Hr. naive_solver congruence.
  - intros x. rewrite elem_of_cons, Hr. destruct (decide (x = fd)) as [->|Hne].
    + rewrite idx_upd_eq by lia. naive_solver.
    + split.
      * intros [->|[Hx0 Hx]]; [done|]. split; [done|]. by rewrite idx_upd_ne by lia.
      * intros [Hx0 Hx]. right. rewrite idx_upd_ne in Hx by lia. done.
Qed.

(** Operations on one open file that keep its [valid] flag keep the invariant. *)
Lemma fds_update fs fd f f' :
  fds_ok fs -> 0 <= fd -> idx (fd_table fs) fd = Some f -> valid f' = valid f ->
  fds_ok (set_fds fs (fd_counter fs) (reuse_fds fs) (upd (fd_table fs) fd f')).
Proof.
  intros [Hc Hnd Hr] Hfd Hf Hv. pose proof (idx_Some_lt _ _ _ Hfd Hf). split; cbn.
  - by rewrite len_upd.
  - done.
  - intros x. rewrite Hr. destruct (decide (x = fd)) as [->|Hne].
    + rewrite idx_upd_eq by lia. rewrite Hf. split; intros [? (g & [= <-] & ?)]; eauto with congruence.
    + destruct (decide (0 <= x)); [|naive_solver]. by rewrite idx_upd_ne by lia.
Qed.

(** ** Operations keep the [valid] flag *)

Section keeps.
Context {D : Type} `{BlockDevice D}.

Definition keeps_valid {A} (m : M (Fat16File * D) FsError A) : Prop :=
  forall f d, valid (fst (snd (m (f, d)))) = valid f.

Lemma keeps_ret {A} (a : A) : keeps_valid (ret a).
Proof. done. Qed.
Lemma keeps_err {A} e : keeps_valid (A:=A) (err e).
Proof. done. Qed.
Lemma keeps_diverge {A} : keeps_valid (A:=A) diverge.
Proof. done. Qed.
Lemma keeps_self : keeps_valid self_.
Proof. done. Qed.
Lemma keeps_rem a b : keeps_valid (rem_chk a b).
Proof. intros f d. unfold rem_chk. by case_test. Qed.
Lemma keeps_ok_or {A} (o : option A) e : keeps_valid (ok_or o e).
Proof. by destruct o. Qed.
Lemma keeps_device {A} (m : M D FsError A) : keeps_valid (on_device m).
Proof. intros f d. unfold on_device. by destruct (m d). Qed.
Lemma keeps_position p : keeps_valid (modify (set_position p)).
Proof. done. Qed.
Lemma keeps_size p : keeps_valid (modify (set_size p)).
Proof. done. Qed.
Lemma keeps_cluster p : keeps_valid (modify (set_current_cluster p)).
Proof. done. Qed.

Lemma keeps_bind {A B} (m : M (Fat16File * D) FsError A) (k : A -> M (Fat16File * D) FsError B) :
  keeps_valid m -> (forall a, keeps_valid (k a)) -> keeps_valid (bind m k).
Proof.
  intros Hm Hk f d. unfold bind. specialize (Hm f d).
  destruct (m (f, d)) as [[a|e| |] [f1 d1]]; cbn in *; try done. by rewrite Hk.
Qed.

Lemma keeps_if {A} (b : bool) (m1 m2 : M (Fat16File * D) FsError A) :
  keeps_valid m1 -> keeps_valid m2 -> keeps_valid (if b then m1 else m2).
Proof. by destruct b. Qed.
End keeps.

Create HintDb keeps.
#[export] Hint Resolve keeps_ret keeps_err keeps_diverge keeps_self keeps_rem keeps_ok_or keeps_device
  keeps_position keeps_size keeps_cluster keeps_bind keeps_if : keeps.

Section fd_ops.
Context {D : Type} `{BlockDevice D}.

Lemma keeps_read_loop fuel : forall total done_ boff buf,
  keeps_valid (D:=D) (read_file_loop fuel total done_ boff buf).
Proof. induction fuel; intros; cbn [read_file_loop]; eauto 15 with keeps. Qed.

Lemma keeps_write_loop fuel : forall buf done_ boff,
  keeps_valid (D:=D) (write_file_loop fuel buf done_ boff).
Proof. induction fuel; intros; cbn [write_file_loop]; eauto 20 with keeps. Qed.

Lemma keeps_seek pos : keeps_valid (D:=D) (seek_body pos).
Proof.
  unfold seek_body. apply keeps_bind; [auto with keeps|]. intros f.
  apply keeps_bind; [destruct pos|]; eauto with keeps.
Qed.

Lemma with_file_ok {A} fs d fd (m : M (Fat16File * D) FsError A) r fs' d' :
  fds_ok fs -> 0 <= fd -> keeps_valid m -> with_file fd m (fs, d) = (r, (fs', d')) -> fds_ok fs'.
Proof.
  intros Hok Hfd Hk. unfold with_file. destruct (idx (fd_table fs) fd) as [f|] eqn:Hf.
  - specialize (Hk f d). destruct (m (f, d)) as [r0 [f0 d0]]. intros [= _ <- _].
    by eapply fds_update.
  - by intros [= _ <- _].
Qed.

(** ** Sequences of operations *)

(** A call on the descriptor interface. *)
Inductive fd_op :=
| OpOpen (path : list Z)
| OpClose (fd : Z)
| OpSeek (fd : Z) (pos : SeekFrom)
| OpRead (fd : Z) (buf : list Z)
| OpWrite (fd : Z) (buf : list Z).

(** Descriptors are [usize]. *)
Definition op_typed (op : fd_op) : Prop :=
  match op with
  | OpOpen _ => True
  | OpClose fd | OpSeek fd _ | OpRead fd _ | OpWrite fd _ => 0 <= fd
  end.

Definition exec_fd (op : fd_op) : M (Fat16 * D) FsError unit :=
  match op with
  | OpOpen path => let! _ := open_file path in ret tt
  | OpClose fd => close_file fd
  | OpSeek fd pos => let! _ := seek_file fd pos in ret tt
  | OpRead fd buf => let! _ := read_file fd buf in ret tt
  | OpWrite fd buf => let! _ := write_file fd buf in ret tt
  end.

(** States a client can bring the file system into; an [Err] is no obstacle to
    further calls, a panic ends the run. *)
Inductive reachable (s : Fat16 * D) : Fat16 * D -> Prop :=
| reach_start : reachable s s
| reach_step s1 s2 op r :
    reachable s s1 -> op_typed op -> exec_fd op s1 = (r, s2) -> reachable s s2.

Lemma open_file_inv fs d path r fs' d' :
  fds_ok fs -> open_file path (fs, d) = (r, (fs', d')) ->
  fds_ok fs' /\
  (forall fd, r = Ok fd -> ~ is_open fs fd /\ is_open fs' fd /\
     forall fd', 0 <= fd' -> fd' <> fd -> fd' < len (fd_table fs) ->
       idx (fd_table fs') fd' = idx (fd_table fs) fd').
Proof.
  intros Hok. unfold open_file, bind, get_self, dev.
  destruct (find_entry fs path d) as [[[e pos]|e| |] d1]; try (by intros [= <- <- _]).
  cbn. destruct (is_directory e); [by intros [= <- <- _]|].
  set (f := mk _ _ _ _ _ _ _ _).
  destruct (heap_pop (reuse_fds fs)) as [[fd rest]|] eqn:Ep.
  - destruct (fds_reuse fs fd rest f Hok Ep eq_refl) as ((old & Ho & Hov) & Hno & Hok').
    assert (0 <= fd < len (fd_table fs)) as Hfd.
    { unfold heap_pop in Ep. destruct (heap_max _) as [m|] eqn:Em; [|done]. injection Ep as -> _.
      apply heap_max_in, (fd_reuse _ Hok) in Em as (? & g & Hg & _). split; [done|]. by eapply idx_Some_lt. }
    rewrite Ho. cbn. unfold rassert. rewrite Hov. cbn.
    assert (fds_ok (set_fds fs (fd_counter fs) rest (upd (fd_table fs) fd f)) /\
      forall x, x = fd -> ~ is_open fs x /\
        is_open (set_fds fs (fd_counter fs) rest (upd (fd_table fs) fd f)) x /\
        forall fd', 0 <= fd' -> fd' <> x -> fd' < len (fd_table fs) ->
          idx (upd (fd_table fs) fd f) fd' = idx (fd_table fs) fd') as [? Hres].
    { split; [done|]. intros x ->. split_and!; [done| |].
      - split; [lia|]. exists f. cbn. by rewrite idx_upd_eq.
      - intros fd' ???. by rewrite idx_upd_ne by lia. }
    case_test; intros [= <- <- _]; (split; [done|]); intros x; [intros [= <-]; by apply Hres|done].
  - destruct (fds_push fs f Hok eq_refl) as [Hno Hok']. cbn. unfold rassert.
    case_test; intros [= <- <- _]; (split; [done|]); intros x; [intros [= <-]|done].
    rewrite (fd_count _ Hok) in *. pose proof (len_nonneg (fd_table fs)). split_and!; [done| |].
    + split; [done|]. exists f. cbn. rewrite idx_app_r by lia. by rewrite Z.sub_diag.
    + intros fd' ???. cbn. by rewrite idx_app_l by lia.
Qed.

Lemma exec_fd_inv op fs d r fs' d' :
  fds_ok fs -> op_typed op -> exec_fd op (fs, d) = (r, (fs', d')) -> fds_ok fs'.
Proof.
  intros Hok Hty.
  assert (forall A (m : M (Fat16 * D) FsError A),
    (forall r1 s1, m (fs, d) = (r1, s1) -> fds_ok (fst s1)) ->
    bind m (fun _ => ret tt) (fs, d) = (r, (fs', d')) -> fds_ok fs') as Hdrop.
  { intros A m Hm. unfold bind, ret. destruct (m (fs, d)) as [r1 [fs1 d1]] eqn:E.
    specialize (Hm _ _ eq_refl). destruct r1; by intros [= _ <- _]. }
  destruct op as [path|fd|fd pos|fd buf|fd buf]; cbn [exec_fd op_typed] in *.
  - apply Hdrop. intros r1 [fs1 d1] E. by apply (open_file_inv _ _ _ _ _ _ Hok E).
  - unfold close_file, bind, get_self, expect. destruct (idx (fd_table fs) fd) as [f|] eqn:Hf; cbn.
    + unfold rassert. destruct (valid f) eqn:Hv; cbn; intros [= _ <- _]; [by eapply fds_close|done].
    + by intros [= _ <- _].
  - apply Hdrop. intros r1 [fs1 d1] E. eapply with_file_ok; [done|done|apply keeps_seek|exact E].
  - apply Hdrop. intros r1 [fs1 d1] E. eapply with_file_ok; [done|done| |exact E].
    apply keeps_bind; [auto with keeps|]. intros f. apply keeps_if; [auto with keeps|apply keeps_read_loop].
  - apply Hdrop. intros r1 [fs1 d1] E. eapply with_file_ok; [done|done| |exact E].
    apply keeps_bind; [apply keeps_write_loop|]. eauto with keeps.
Qed.

(** C27: After any sequence of open, close, seek, read and write calls on a
    freshly mounted file system, whatever their results, the descriptor table
    is consistent: the counter is its length, the reuse pool holds exactly the
    closed descriptors, each once. *)
Theorem fd_table_invariant (fs : Fat16) (d : D) (fs' : Fat16) (d' : D) :
  fd_counter fs = 0 -> reuse_fds fs = [] -> fd_table fs = [] ->
  reachable (fs, d) (fs', d') -> fds_ok fs'.
Proof.
  intros Hc Hr Ht Hreach.
  assert (fds_ok (fst (fs, d))) as Hstart.
  { split; cbn; rewrite ?Hc, ?Hr, ?Ht; [done|constructor|]. intros fd. split; [set_solver|].
    intros (_ & f & Hf & _). done. }
  assert (forall s, reachable (fs, d) s -> fds_ok (fst s)) as Hall.
  { induction 1 as [|[fs1 d1] [fs2 d2] op r _ IH Hty Hex]; [done|]. by eapply exec_fd_inv. }
  apply (Hall _ Hreach).
Qed.

(** [open_file] never hands out a descriptor that is open: the descriptor
    it returns was not open before and is open after, and no other descriptor
    changes. *)
Theorem open_file_fresh (fs : Fat16) (d : D) (path : list Z) (fd : Z) (fs' : Fat16) (d' : D) :
  fds_ok fs -> open_file path (fs, d) = (Ok fd, (fs', d')) ->
  ~ is_open fs fd /\ is_open fs' fd /\
  forall fd', 0 <= fd' -> fd' <> fd -> is_open fs fd' ->
    idx (fd_table fs') fd' = idx (fd_table fs) fd'.
Proof.
  intros Hok E. destruct (open_file_inv fs d path _ _ _ Hok E) as [_ Hf].
  destruct (Hf fd eq_refl) as (Hno & Ho & Hother). split_and!; [done|done|].
  intros fd' Hfd' Hne (_ & f & Hidx & _). apply Hother; try done. by eapply idx_Some_lt.
Qed.
End fd_ops.

(** ** Open files of a volume *)

(** The file [open_file] puts in the table. *)
Definition opened_as (fs : Fat16) (e : DirEntry83) (pos : Z) : Fat16File :=
  mk true (start_cluster e) 0 (file_size e) (FatVolume.cluster_size fs)
    (FatVolume.fat_start fs) (FatVolume.data_start fs) pos.

Lemma opened_spc fs K e pos : vol_ok fs K -> spc (opened_as fs e pos) = sectors_per_cluster (boot_sector fs).
Proof.
  intros Hvol. unfold spc. cbn. rewrite (vo_cs _ _ Hvol). unfold SECTOR_SIZE.
  apply Z.div_mul. lia.
Qed.

Lemma opened_first_sector fs K e pos c : vol_ok fs K ->
  first_sector (opened_as fs e pos) c = cluster_sector fs c.
Proof. intros Hvol. unfold first_sector. by rewrite (opened_spc fs K). Qed.

Lemma open_geometry fs K e pos :
  vol_ok fs K -> 2 <= n_clusters fs -> geometry (opened_as fs e pos) (n_clusters fs) K.
Proof.
  intros Hvol Hn. pose proof (n_clusters_range fs K Hvol). pose proof (vol_root_range fs K Hvol).
  pose proof (opened_spc fs K e pos Hvol) as Hs. pose proof (vo_spc _ _ Hvol). pose proof (vo_data _ _ Hvol).
  split; rewrite ?Hs; try lia.
  - apply (vo_cs _ _ Hvol).
  - cbn. lia.
  - intros c Hc. pose proof (vol_cluster_covered fs K Hvol c ltac:(lia)) as Hcov.
    pose proof (vol_fat_range fs K Hvol c Hcov). cbn. lia.
  - cbn. pose proof (vo_len _ _ Hvol).
    assert (n_clusters fs * sectors_per_cluster (boot_sector fs)
            <= total_sectors_16 (boot_sector fs) - FatVolume.data_start fs).
    { unfold n_clusters. rewrite Z.mul_comm. apply Z.mul_div_le. lia. }
    nia.
Qed.

(** The directory entry of a file is a slot of a directory, so it is outside
    the table and outside every cluster that is not that directory. *)
Lemma slot_entry_ok fs K e p s c :
  vol_ok fs K -> dir_ok fs p = true -> 0 <= s < 16 * dir_sectors fs p ->
  2 <= c < n_clusters fs -> c <> p ->
  entry_ok (opened_as fs e (slot_pos fs p s)) [c] K /\
  entry_off_table (opened_as fs e (slot_pos fs p s)) (n_clusters fs).
Proof.
  intros Hvol Hp Hs Hc Hne. destruct (slot_pos_split fs p s) as [Hq Hr].
  pose proof (slot_sector_range fs K Hvol p s Hp Hs). pose proof (vol_root_range fs K Hvol).
  split; [split|]; cbn [entry_position opened_as]; rewrite ?Hq, ?Hr.
  - lia.
  - unfold DIR_ENTRY_SIZE, SECTOR_SIZE. dlia.
  - intros c' ->%list_elem_of_singleton.
    rewrite (opened_first_sector fs K), (opened_spc fs K) by done.
    assert (dir_ok fs c = true) as Hdc by (unfold dir_ok; lia).
    assert (0 <= s / 16 < dir_sectors fs p) by dlia. unfold slot_sector.
    assert (dir_start fs c = cluster_sector fs c /\ dir_sectors fs c = sectors_per_cluster (boot_sector fs))
      as [E1 E2] by (unfold dir_start, dir_sectors; by replace (c =? 0) with false by lia).
    set (so := dir_start fs p + s / 16 - dir_start fs c).
    destruct (decide (0 <= so < dir_sectors fs c)) as [Hin|Hout]; [|lia].
    exfalso. apply (dir_regions_disjoint fs K Hvol c p so (s / 16)); (done || lia).
  - intros c' Hc'. cbn. pose proof (vol_cluster_covered fs K Hvol c' ltac:(lia)) as Hcov.
    pose proof (vol_fat_range fs K Hvol c' Hcov). rewrite Hq. lia.
Qed.

(** The duplicated code: [read_file] and [write_file] on a descriptor are
    [read_with_device] and [write_with_device] on its file. *)
Lemma read_file_with_device {D} `{BlockDevice D} fd buf :
  read_file (D:=D) fd buf = with_file fd (read_with_device buf).
Proof. reflexivity. Qed.
Lemma write_file_with_device {D} `{BlockDevice D} fd buf :
  write_file (D:=D) fd buf = with_file fd (write_with_device buf).
Proof. reflexivity. Qed.

(** Opening a file of a consistent table succeeds. *)
Lemma open_file_spec {D} `{BlockDevice D} fs (d : D) path e pos d1 :
  fds_ok fs -> len (fd_table fs) < 2 ^ 64 - 1 ->
  find_entry fs path d = (Ok (e, pos), d1) -> is_directory e = false ->
  exists fd fs', open_file path (fs, d) = (Ok fd, (fs', d1)) /\ 0 <= fd /\
    idx (fd_table fs') fd = Some (opened_as fs e pos).
Proof.
  intros Hok Hbound Hfind Hfile. unfold open_file, bind, get_self, dev. rewrite Hfind. cbn. rewrite Hfile.
  fold (opened_as fs e pos).
  destruct (heap_pop (reuse_fds fs)) as [[fd rest]|] eqn:Ep.
  - destruct (fds_reuse fs fd rest (opened_as fs e pos) Hok Ep eq_refl) as ((old & Ho & Hov) & _).
    assert (0 <= fd < len (fd_table fs)) as Hfd.
    { unfold heap_pop in Ep. destruct (heap_max _) as [m|] eqn:Em; [|done]. injection Ep as -> _.
      apply heap_max_in, (fd_reuse _ Hok) in Em as (? & g & Hg & _). split; [done|]. by eapply idx_Some_lt. }
    rewrite Ho. cbn. unfold rassert. rewrite Hov. cbn. replace (fd =? _) with false by lia. cbn.
    eexists _, _. split; [done|]. split; [lia|]. cbn. by apply idx_upd_eq.
  - cbn. pose proof (fd_count _ Hok) as Hc. pose proof (len_nonneg (fd_table fs)). unfold rassert.
    replace (fd_counter fs =? _) with false by lia. cbn.
    eexists _, _. split; [done|]. split; [lia|]. cbn. rewrite Hc, idx_app_r by lia. by rewrite Z.sub_diag.
Qed.

(** Running a computation on the file of a descriptor. *)
Lemma with_file_run {D} `{BlockDevice D} {A} fs (d : D) fd f (m : M (Fat16File * D) FsError A) r f' d' :
  0 <= fd -> idx (fd_table fs) fd = Some f -> m (f, d) = (r, (f', d')) ->
  exists fs', with_file fd m (fs, d) = (r, (fs', d')) /\ idx (fd_table fs') fd = Some f'.
Proof.
  intros Hfd Hf E. unfold with_file. rewrite Hf, E. eexists. split; [done|]. cbn.
  apply idx_upd_eq. split; [done|]. by eapply idx_Some_lt.
Qed.

(** ** Seeking *)

(** The offset a seek asks for, as an integer. *)
Definition seek_target (f : Fat16File) (pos : SeekFrom) : Z :=
  match pos with
  | Start o => o
  | Current o => position f + o
  | FatFile.End o => size f + o
  end.

Section seek.
Context {D : Type} `{BlockDevice D}.

(** The checked arithmetic of the two signed cases is integer arithmetic. *)
Lemma signed_offset (f : Fat16File) (d : D) base o :
  0 <= base ->
  (if o <? 0 then ok_or (S:=Fat16File * D) (checked (Z.abs o <=? base) (base - Z.abs o)) InvalidOffset
   else ok_or (checked (base + o <? 2 ^ 64) (base + o)) InvalidOffset) (f, d) =
  (if decide (0 <= base + o /\ (o < 0 \/ base + o < 2 ^ 64))
   then (Ok (base + o), (f, d)) else (Err InvalidOffset, (f, d))).
Proof.
  intros Hb. unfold checked, ok_or. destruct (o <? 0) eqn:E; case_test; case_decide; try lia; try done.
  unfold ret. replace (base - Z.abs o) with (base + o) by lia. done.
Qed.

Lemma seek_body_spec (f : Fat16File) (d : D) (pos : SeekFrom) :
  0 <= size f < 2 ^ 64 -> 0 <= position f -> (forall o, pos = Start o -> 0 <= o) ->
  seek_body pos (f, d) =
    (if decide (0 <= seek_target f pos <= size f)
     then (Ok (seek_target f pos), (set_position (seek_target f pos) f, d))
     else (Err InvalidOffset, (f, d))).
Proof.
  intros Hs Hp Hstart. unfold seek_body, bind, self_. destruct pos as [o|o|o]; cbn [seek_target].
  - specialize (Hstart o eq_refl). cbn. case_test; case_decide; (done || lia).
  - rewrite signed_offset by done. repeat case_decide; try lia; try done; case_test; (done || lia).
  - rewrite signed_offset by lia. repeat case_decide; try lia; try done; case_test; (done || lia).
Qed.

(** [seek_file] moves the cursor to the requested offset, computed without
    overflow, exactly when it lies in the file ([0 <= offset <= size]); any
    other request is [InvalidOffset] and changes nothing. *)
Theorem seek_file_exact (fs : Fat16) (d : D) (fd : Z) (f : Fat16File) (pos : SeekFrom) :
  0 <= fd -> idx (fd_table fs) fd = Some f ->
  0 <= size f < 2 ^ 64 -> 0 <= position f -> (forall o, pos = Start o -> 0 <= o) ->
  seek_file fd pos (fs, d) =
    (if decide (0 <= seek_target f pos <= size f)
     then (Ok (seek_target f pos),
           (set_fds fs (fd_counter fs) (reuse_fds fs)
              (upd (fd_table fs) fd (set_position (seek_target f pos) f)), d))
     else (Err InvalidOffset, (set_fds fs (fd_counter fs) (reuse_fds fs) (fd_table fs), d))).
Proof.
  intros Hfd Hf Hs Hp Hstart. unfold seek_file, with_file. rewrite Hf, seek_body_spec by done.
  case_decide; [done|]. by rewrite upd_id.
Qed.
End seek.

(** ** From creation to reading back *)

Section round_trip.
Context {D : Type} `{BlockDeviceLaws D}.

(** [fs.create_file(path)?; let fd = fs.open_file(path)?; fs.write_file(fd, buf)?;
    fs.seek_file(fd, SeekFrom::Start(0))?; fs.read_file(fd, rbuf)]. *)
Definition create_write_read (path buf rbuf : list Z) : M (Fat16 * D) FsError (Z * list Z) :=
  let! self := get_self in
  dev (create_file self path) ;!
  let! fd := open_file path in
  let! _ := write_file fd buf in
  let! _ := seek_file fd (Start 0) in
  read_file fd rbuf.

(** A new file, opened: one cluster, no bytes, the cursor at its start. *)
Lemma opened_new fs (d : D) b ex c pos :
  dev_ok d -> vol_ok fs (disk d) -> 2 <= c < n_clusters fs -> vol_get fs (disk d) c = 0xFFFF ->
  opened (opened_as fs (new_file b ex c) pos) (n_clusters fs) c [c] d.
Proof.
  intros Hd Hvol Hc Heoc. pose proof (vo_cs _ _ Hvol). pose proof (vo_spc _ _ Hvol).
  split; cbn; try done; unfold SECTOR_SIZE in *; try nia.
  - apply open_geometry; [done|lia].
  - constructor; [done|]. unfold vol_get in Heoc. lia.
  - change (len [c]) with 1. lia.
Qed.

(** C1: A new file that is created, opened, written with fewer bytes than a
    cluster holds, rewound and read gives back exactly the bytes written. *)
Theorem create_write_read_ok (fs : Fat16) (d : D) (path pp b ex buf rbuf : list Z) (p c s : Z) :
  dev_ok d -> vol_ok fs (disk d) ->
  split_parent path = (pp, name83 b ex) -> valid_parts b ex ->
  parent_dir fs (disk d) pp = Some p -> dir_ok fs p = true -> dir_tidy fs (disk d) p ->
  dir_lookup fs (disk d) p (name83 b ex) = None ->
  free_cluster fs (disk d) = Some c -> free_slot fs (disk d) p = Some s ->
  (p = 0 \/ vol_get fs (disk d) p <> 0) ->
  fds_ok fs -> len (fd_table fs) < 2 ^ 64 - 1 ->
  len buf < FatVolume.cluster_size fs -> len rbuf = len buf ->
  exists st, create_write_read path buf rbuf (fs, d) = (Ok (len buf, buf), st).
Proof.
  intros Hd Hvol Hsplit Hname Hpar Hp Htidy Hnew Hc Hs Halloc Hok Hbound Hbuf Hrbuf.
  destruct (create_file_spec fs d path pp b ex p c s)
    as (d1 & E1 & Hd1 & Hvol1 & _ & _ & Hwalk & _ & Heoc & _ & _); try done.
  pose proof (free_cluster_spec fs (disk d) c Hc) as [Hcr Hc0].
  pose proof (free_slot_spec fs (disk d) p s Hs) as (Hsr & _).
  assert (c <> p) as Hne by (intros ->; destruct Halloc; lia).
  destruct (find_entry_triple fs (disk d1) path Hvol1 ltac:(by rewrite Hwalk) d1)
    as (d2 & E2 & Hd2 & HK2); [done..|]. rewrite Hwalk in E2.
  assert (vol_ok fs (disk d2)) as Hvol2 by by rewrite HK2.
  destruct (open_file_spec fs d1 path _ _ d2 Hok Hbound E2 eq_refl) as (fd & fs2 & E3 & Hfd & Hidx).
  set (f := opened_as fs (new_file b ex c) (slot_pos fs p s)) in *.
  assert (opened f (n_clusters fs) c [c] d2) as Hop by (apply opened_new; try done; by rewrite HK2).
  destruct (slot_entry_ok fs (disk d2) (new_file b ex c) p s c Hvol2 Hp Hsr Hcr Hne) as [Hen Hoff].
  pose proof (len_nonneg buf). pose proof (vo_cs _ _ Hvol). pose proof (vo_spc _ _ Hvol).
  destruct (write_spec f (n_clusters fs) c [c] d2 buf) as (f3 & d3 & E4 & Hw & Hop3 & _); try done.
  { cbn. change (len [c]) with 1. lia. }
  { cbn. change (len [c]) with 1. unfold SECTOR_SIZE in *. lia. }
  destruct (with_file_run fs2 d2 fd f (write_with_device buf) _ f3 d3 Hfd Hidx E4) as (fs3 & E5 & Hidx3).
  destruct Hw as [Hsp Hpos Hsize Hcont _ _]. cbn [position size f opened_as] in Hpos, Hsize.
  assert (size f3 = len buf) as Hsz by (rewrite Hsize; cbn; lia).
  assert (len buf < 2 ^ 64) by (unfold SECTOR_SIZE in *; lia).
  destruct (with_file_run fs3 d3 fd f3 (seek_body (Start 0)) (Ok 0) (set_position 0 f3) d3 Hfd Hidx3)
    as (fs4 & E6 & Hidx4).
  { rewrite seek_body_spec by (cbn; (lia || (intros o [= <-]; lia))). by rewrite decide_True by (cbn; lia). }
  assert (opened (set_position 0 f3) (n_clusters fs) c [c] d3) as Hop4.
  { destruct Hop3 as [Hd3 Hg3 Hch3 _ Hcap3 Htr3]. pose proof Hsp as (Ecs & _).
    split; try done; cbn; [by eapply (same_place_geometry f3)|lia|]. intros _. change (len [c]) with 1 in *.
    assert (FatVolume.cluster_size fs = cluster_size f3) as Ecs' by done.
    unfold tracks in *. cbn. rewrite <- Htr3 by lia. by rewrite !Z.div_small by lia. }
  destruct (read_spec (set_position 0 f3) (n_clusters fs) c [c] d3 rbuf Hop4) as (f5 & d5 & E7 & _).
  destruct (with_file_run fs4 d3 fd _ (read_with_device rbuf) _ f5 d5 Hfd Hidx4 E7) as (fs5 & E8 & _).
  exists (fs5, d5). unfold create_write_read, get_self. unfold bind at 1.
  rewrite (bind_ok _ _ _ tt (fs, d1)) by (unfold dev; by rewrite E1).
  rewrite (bind_ok _ _ _ _ _ E3), write_file_with_device, (bind_ok _ _ _ _ _ E5).
  rewrite (bind_ok _ _ _ _ _ E6), read_file_with_device, E8. cbn [position size set_position].
  assert (len (contents f (disk d2) [c]) = FatVolume.cluster_size fs) as Hlc.
  { rewrite (len_contents f (n_clusters fs) (disk d2)); [cbn; change (len [c]) with 1; lia| | |].
    - apply Hop.
    - by apply dev_sectors.
    - by apply Forall_singleton. }
  rewrite (same_place_contents f (set_position 0 f3)), Hcont by (destruct Hsp as (?&?&?&?&?); by split_and!).
  assert (Z.min (len rbuf) (size f3 - 0) = len buf) as -> by lia.
  change (position f) with 0. rewrite slice_splice_same by lia. do 3 f_equal.
  unfold splice. rewrite drop_ge by (unfold len in *; lia). by rewrite app_nil_r.
Qed.
End round_trip.

(** On any volume made by [format] (37 to 65535 blocks) a write that reaches
    the end of the file's cluster chain is [NoSpace], however many clusters are
    free: files never grow past the cluster they were created with.  The bytes
    up to the end of the chain are on the disk, the size in the directory entry
    and everything else outside the chain is as before. *)
Theorem write_file_never_grows {D} `{BlockDeviceLaws D} (blocks : Z) (fs : Fat16) (d : D)
    (fd : Z) (f : Fat16File) (n c0 : Z) (cs buf : list Z) :
  37 <= blocks < 65536 ->
  data_start f = FatVolume.data_start (formatted blocks) ->
  cluster_size f = FatVolume.cluster_size (formatted blocks) ->
  0 <= fd -> idx (fd_table fs) fd = Some f -> opened f n c0 cs d ->
  position f < cluster_size f * len cs <= position f + len buf ->
  exists fs' d',
    write_file fd buf (fs, d) = (Err NoSpace, (fs', d')) /\
    contents f (disk d') cs =
      splice (contents f (disk d) cs) (position f) (slice buf 0 (cluster_size f * len cs - position f)) /\
    (forall i, 0 <= i -> outside f cs i -> idx (disk d') i = idx (disk d) i).
Proof.
  intros Hb Hds Hcs Hfd Hidx Hop Hend. pose proof (format_spf_range blocks Hb).
  destruct (write_full_spec f n c0 cs d buf) as (f' & d' & E & Hc & Hf); try done.
  { rewrite Hds, Hcs. cbn. rewrite Z.div_small; [done|]. unfold SECTOR_SIZE. lia. }
  destruct (with_file_run fs d fd f (write_with_device buf) _ f' d' Hfd Hidx E) as (fs' & E' & _).
  exists fs', d'. by rewrite write_file_with_device.
Qed.

(** ** The file of the formatted 50-block disk, opened *)

Definition demo_file : Fat16File := opened_as demo_fs (new_file demo_base demo_ext 2) (slot_pos demo_fs 0 0).
Definition demo_fds : Fat16 := set_fds demo_fs 1 [] [demo_file].

Lemma demo_opened : opened demo_file (n_clusters demo_fs) 2 [2] demo_created.
Proof.
  destruct demo_created_ok as (_ & Hd & Hv & _ & _ & Hg).
  apply opened_new; [exact Hd|exact Hv|split; reflexivity || discriminate|exact Hg].
Qed.

Lemma demo_entry :
  entry_ok demo_file [2] (disk demo_created) /\ entry_off_table demo_file (n_clusters demo_fs).
Proof.
  destruct demo_created_ok as (_ & _ & Hv & _).
  apply (slot_entry_ok demo_fs (disk demo_created) (new_file demo_base demo_ext 2) 0 0 2 Hv);
    [reflexivity|split; reflexivity || discriminate|split; reflexivity || discriminate|discriminate].
Qed.

Lemma demo_fds_ok : fds_ok demo_fs.
Proof.
  split; [reflexivity|constructor|]. intros fd. split; [set_solver|]. intros (_ & f & Hf & _). discriminate Hf.
Qed.

Lemma read_with_device_ok_witness :
  exists st, read_with_device [7; 7] (demo_file, demo_created) = (Ok (0, [7; 7]), st).
Proof.
  destruct (read_with_device_ok demo_file (n_clusters demo_fs) 2 [2] demo_created [7; 7] demo_opened)
    as (f' & d' & E & _).
  exists (f', d'). rewrite E. reflexivity.
Defined.

Lemma write_with_device_ok_witness :
  exists f' d', write_with_device [1; 2; 3] (demo_file, demo_created) = (Ok 3, (f', d')) /\
    fst (read_with_device [0; 0; 0] (set_size (size f') demo_file, d')) = Ok (3, [1; 2; 3]).
Proof.
  destruct demo_entry as [Hen Hoff].
  destruct (write_with_device_ok demo_file (n_clusters demo_fs) 2 [2] demo_created [1; 2; 3] [0; 0; 0])
    as (f' & d' & E & _ & _ & Hr).
  - exact demo_opened.
  - exact Hen.
  - exact Hoff.
  - reflexivity.
  - reflexivity.
  - reflexivity.
  - exists f', d'. split; [exact E|exact Hr].
Defined.

Lemma fd_table_invariant_witness :
  exists fs' d', reachable (demo_fs, demo_created) (fs', d') /\ len (fd_table fs') = 1 /\ fds_ok fs'.
Proof.
  destruct demo_created_ok as (_ & Hd & Hv & _ & Hw & _).
  destruct (find_entry_triple demo_fs (disk demo_created) demo_path Hv ltac:(rewrite Hw; discriminate)
    demo_created Hd eq_refl) as (d2 & E2 & _). rewrite Hw in E2.
  destruct (open_file_spec demo_fs demo_created demo_path _ _ d2 demo_fds_ok eq_refl E2 eq_refl)
    as (fd & fs' & E & _ & _).
  assert (reachable (demo_fs, demo_created) (fs', d2)) as Hr.
  { apply (reach_step _ (demo_fs, demo_created) _ (OpOpen demo_path) (Ok tt)); [apply reach_start|exact I|].
    cbn [exec_fd]. unfold bind. rewrite E. reflexivity. }
  exists fs', d2. split; [exact Hr|]. split.
  - unfold open_file, bind, get_self, dev in E. rewrite E2 in E. cbn in E. injection E as _ <-. reflexivity.
  - exact (fd_table_invariant demo_fs demo_created fs' d2 eq_refl eq_refl eq_refl Hr).
Defined.

Lemma open_file_fresh_witness :
  exists fd st, open_file demo_path (demo_fs, demo_created) = (Ok fd, st) /\ ~ is_open demo_fs fd.
Proof.
  destruct demo_created_ok as (_ & Hd & Hv & _ & Hw & _).
  destruct (find_entry_triple demo_fs (disk demo_created) demo_path Hv ltac:(rewrite Hw; discriminate)
    demo_created Hd eq_refl) as (d2 & E2 & _). rewrite Hw in E2.
  destruct (open_file_spec demo_fs demo_created demo_path _ _ d2 demo_fds_ok eq_refl E2 eq_refl)
    as (fd & fs' & E & _ & _).
  exists fd, (fs', d2). split; [exact E|].
  exact (proj1 (open_file_fresh demo_fs demo_created demo_path fd fs' d2 demo_fds_ok E)).
Defined.

Lemma seek_file_exact_witness :
  fst (seek_file 0 (FatFile.End 0) (demo_fds, demo_disk)) = Ok 0 /\
  fst (seek_file 0 (Current (-1)) (demo_fds, demo_disk)) = Err InvalidOffset.
Proof.
  split.
  - rewrite (seek_file_exact demo_fds demo_disk 0 demo_file (FatFile.End 0));
      [reflexivity|done|done|done|done|discriminate].
  - rewrite (seek_file_exact demo_fds demo_disk 0 demo_file (Current (-1)));
      [reflexivity|done|done|done|done|discriminate].
Defined.

Lemma create_write_read_ok_witness :
  exists st, create_write_read demo_path [1; 2; 3] [0; 0; 0] (demo_fs, snd demo_volume)
    = (Ok (3, [1; 2; 3]), st).
Proof.
  destruct demo_mounted as (_ & Hd & Hv & _).
  apply (create_write_read_ok demo_fs (snd demo_volume) demo_path [] demo_base demo_ext [1; 2; 3] [0; 0; 0] 0 2 0).
  - exact Hd.
  - exact Hv.
  - reflexivity.
  - exact demo_parts.
  - reflexivity.
  - reflexivity.
  - apply blank_tidy, demo_root_blank.
  - apply blank_lookup, demo_root_blank.
  - exact demo_free_cluster.
  - exact demo_free_slot.
  - left. reflexivity.
  - exact demo_fds_ok.
  - reflexivity.
  - reflexivity.
  - reflexivity.
Defined.

Lemma write_file_never_grows_witness :
  exists st, write_file 0 (vec 1 2048) (demo_fds, demo_created) = (Err NoSpace, st).
Proof.
  destruct (write_file_never_grows 50 demo_fds demo_created 0 demo_file (n_clusters demo_fs) 2 [2] (vec 1 2048))
    as (fs' & d' & E & _).
  - lia.
  - reflexivity.
  - reflexivity.
  - lia.
  - reflexivity.
  - exact demo_opened.
  - split; [reflexivity|]. rewrite len_vec by lia. discriminate.
  - exists (fs', d'). exact E.
Defined.
