(* ===== verification/Frames.v ===== *)
(** * Physical frames ([memory/*_frame_allocator.rs], [memory/heap.rs])

    The boot allocator, the bitmap allocator, the enum that wraps them and the
    switch from one to the other once the heap is up.  The bitmap allocator is
    shown to implement an abstract set of free frames.

    [PhysFrame] and [PhysAddr] are types of the [x86_64] crate and the memory
    map is a response of the boot loader: frames are a class with the laws the
    crate documents, the memory map is data. *)

From S2P Require Import Prelude.

(** Nothing here returns a [Result]: the error type is empty. *)
Abbreviation N := (Empty_set : Type).

Definition FRAME_SIZE : Z := 4096.
Definition BITMAP_ENTRY_SIZE : Z := 64.
Definition FULL_BITMAP_ENTRY : Z := 0xFFFFFFFFFFFFFFFF.
Definition MAX_ALLOCATED_FRAMES : Z := 1024.
Definition HEAP_START : Z := 0xFFFF810000000000.
Definition HEAP_SIZE : Z := 1024 * 1024.

(** ** The frames of the [x86_64] crate

    [containing_address a] is [PhysFrame::containing_address(PhysAddr::new(a))];
    it is [None] where [PhysAddr::new] panics (addresses have 52 bits). *)
Class PhysFrames (F : Type) := {
  containing_address : Z -> option F;
  start_address : F -> Z
}.

Class PhysFramesLaws (F : Type) `{PhysFrames F} := {
  frame_of_address a : 0 <= a < 2 ^ 52 ->
    exists f, containing_address a = Some f /\ start_address f = a - a mod FRAME_SIZE;
  frame_start f : 0 <= start_address f < 2 ^ 52 /\ start_address f mod FRAME_SIZE = 0;
  frame_inj f g : start_address f = start_address g -> f = g
}.

(** An entry of the memory map of the boot loader; [usable] is
    [entry_type == EntryType::USABLE]. *)
Record Entry := mkEntry { base : Z; length_ : Z; usable : bool }.

(** ** The bitmap allocator ([memory/bitmap_frame_allocator.rs]) *)

(** [struct BitmapFrameAllocator]. *)
Record BitmapFrameAllocator := mkBitmap {
  total_frames : Z;
  free_frames : Z;
  to_allocate : Z;
  bitmap : list Z;
  allocate_count : Z;
  free_count : Z
}.

Definition set_bitmap (a : BitmapFrameAllocator) (b : list Z) (free : Z) : BitmapFrameAllocator :=
  mkBitmap (total_frames a) free (to_allocate a) b (allocate_count a) (free_count a).
Definition set_to_allocate (a : BitmapFrameAllocator) (i : Z) : BitmapFrameAllocator :=
  mkBitmap (total_frames a) (free_frames a) i (bitmap a) (allocate_count a) (free_count a).
Definition set_allocate_count (a : BitmapFrameAllocator) (n : Z) : BitmapFrameAllocator :=
  mkBitmap (total_frames a) (free_frames a) (to_allocate a) (bitmap a) n (free_count a).
Definition set_free_count (a : BitmapFrameAllocator) (n : Z) : BitmapFrameAllocator :=
  mkBitmap (total_frames a) (free_frames a) (to_allocate a) (bitmap a) (allocate_count a) n.

(** [1 << bit_index] and [!mask] on [u64]. *)
Definition bit_mask (bit_index : Z) : Z := Z.shiftl 1 bit_index.
Definition not64 (x : Z) : Z := wrap 64 (Z.lnot x).

(** [set_bit]. *)
Definition set_bit (frame_index : Z) : M BitmapFrameAllocator N unit :=
  let! self := get_state in
  rassert (frame_index <? total_frames self) ;!
  let byte_index := frame_index / 64 in
  let mask := bit_mask (frame_index mod 64) in
  let! word := expect (idx (bitmap self) byte_index) in
  let! free := chk 64 (free_frames self - 1) in
  put_state (set_bitmap self (upd (bitmap self) byte_index (Z.lor word mask)) free).

(** [clear_bit]; the inner assertion compares a word that is 0 with 1. *)
Definition clear_bit (frame_index : Z) : M BitmapFrameAllocator N unit :=
  let! self := get_state in
  rassert (frame_index <? total_frames self) ;!
  let byte_index := frame_index / 64 in
  let mask := bit_mask (frame_index mod 64) in
  let! word := expect (idx (bitmap self) byte_index) in
  (if word =? 0 then rassert (word =? 1) else ret tt) ;!
  let! free := chk 64 (free_frames self + 1) in
  put_state (set_bitmap self (upd (bitmap self) byte_index (Z.land word (not64 mask))) free).

(** [clear_bit_init]. *)
Definition clear_bit_init (frame_index : Z) : M BitmapFrameAllocator N unit :=
  let! self := get_state in
  rassert (frame_index <? total_frames self) ;!
  let byte_index := frame_index / 64 in
  let mask := bit_mask (frame_index mod 64) in
  let! word := expect (idx (bitmap self) byte_index) in
  let! free := chk 64 (free_frames self + 1) in
  put_state (set_bitmap self (upd (bitmap self) byte_index (Z.land word (not64 mask))) free).

(** [is_bit_set]. *)
Definition is_bit_set (frame_index : Z) : M BitmapFrameAllocator N bool :=
  let! self := get_state in
  rassert (frame_index <? total_frames self) ;!
  let byte_index := frame_index / 64 in
  let mask := bit_mask (frame_index mod 64) in
  let! word := expect (idx (bitmap self) byte_index) in
  ret (negb (Z.land word mask =? 0)).

(** [free_region]. *)
Definition free_region (base length : Z) : M BitmapFrameAllocator N unit :=
  let start_frame := base / FRAME_SIZE in
  let! end_ := chk 64 (base + length) in
  let end_frame := end_ / FRAME_SIZE in
  for_do (range start_frame end_frame) clear_bit_init.

Section bitmap.
Context {F : Type} `{PhysFrames F}.

(** [is_frame_used], [mark_frame_used], [mark_frame_free]. *)
Definition is_frame_used (frame : F) : M BitmapFrameAllocator N bool :=
  is_bit_set (start_address frame / FRAME_SIZE).
Definition mark_frame_used (frame : F) : M BitmapFrameAllocator N unit :=
  set_bit (start_address frame / FRAME_SIZE).
Definition mark_frame_free (frame : F) : M BitmapFrameAllocator N unit :=
  clear_bit (start_address frame / FRAME_SIZE).

(** The first loop of [init]: the top of usable memory. *)
Definition find_true_end (entries : list Entry) : M unit N Z :=
  for_fold entries 0 (fun true_end entry =>
    if usable entry then
      let! end_addr := chk 64 (base entry + length_ entry) in
      ret (if true_end <? end_addr then end_addr else true_end)
    else ret true_end).

(** The allocator [init] starts from: every frame used. *)
Definition full_bitmap (true_end initial : Z) : BitmapFrameAllocator :=
  let total_frames := div_ceil true_end FRAME_SIZE in
  let bitmap_size := div_ceil total_frames BITMAP_ENTRY_SIZE in
  mkBitmap total_frames 0 initial (vec FULL_BITMAP_ENTRY bitmap_size) 0 0.

(** The other two loops of [init]. *)
Definition free_usable (entries : list Entry) : M BitmapFrameAllocator N unit :=
  for_do entries (fun entry =>
    if usable entry then
      free_region (base entry) (length_ entry) ;!
      let! self := get_state in
      let! free := chk 64 (free_frames self + div_ceil (length_ entry) FRAME_SIZE) in
      put_state (set_bitmap self (bitmap self) free)
    else ret tt).
Definition mark_initial (frames : list F) : M BitmapFrameAllocator N unit :=
  for_do frames mark_frame_used.

(** [BitmapFrameAllocator::init]; it builds its state, so it is a function to
    an outcome. *)
Definition init (memory_map : list Entry) (initial_frames : list F) : outcome N BitmapFrameAllocator :=
  match find_true_end memory_map tt with
  | (Ok true_end, _) =>
      match (free_usable memory_map ;! mark_initial initial_frames)
              (full_bitmap true_end (len initial_frames)) with
      | (Ok _, allocator) => Ok allocator
      | (Err e, _) => Err e
      | (Panic, _) => Panic
      | (Diverge, _) => Diverge
      end
  | (Err e, _) => Err e
  | (Panic, _) => Panic
  | (Diverge, _) => Diverge
  end.

(** The [loop] of [allocate_frame]. *)
Fixpoint allocate_loop (fuel : nat) : M BitmapFrameAllocator N (option F) :=
  match fuel with
  | O => diverge
  | S fuel' =>
      let! self := get_state in
      let! used := is_bit_set (to_allocate self) in
      if negb used then
        set_bit (to_allocate self) ;!
        let! addr := chk 64 (to_allocate self * FRAME_SIZE) in
        let! self := get_state in
        let! next := rem_chk (to_allocate self + 1) (total_frames self) in
        let! count := chk 64 (allocate_count self + 1) in
        put_state (set_allocate_count (set_to_allocate self next) count) ;!
        let! frame := expect (containing_address addr) in
        ret (Some frame)
      else
        let! next := rem_chk (to_allocate self + 1) (total_frames self) in
        put_state (set_to_allocate self next) ;!
        allocate_loop fuel'
  end.

(** [FrameAllocator::allocate_frame] for the bitmap. *)
Definition allocate_frame (fuel : nat) : M BitmapFrameAllocator N (option F) :=
  let! self := get_state in
  if free_frames self =? total_frames self then ret None else allocate_loop fuel.

(** [FrameDeallocator::deallocate_frame] for the bitmap. *)
Definition deallocate_frame (frame : F) : M BitmapFrameAllocator N unit :=
  let! self := get_state in
  let! count := chk 64 (free_count self + 1) in
  put_state (set_free_count self count) ;!
  mark_frame_free frame.
End bitmap.

(** ** The boot allocator ([memory/boot_frame_allocator.rs]) *)

(** [struct BootIntoFrameAllocator]. *)
Record BootIntoFrameAllocator (F : Type) := mkBoot {
  memory_map : list Entry;
  next : Z;
  first_frame : option F;
  last_frame : option F;
  allocated_count : Z;
  kernel_start : Z;
  kernel_end : Z
}.
Arguments mkBoot {F}.
Arguments memory_map {F}.
Arguments next {F}.
Arguments first_frame {F}.
Arguments last_frame {F}.
Arguments allocated_count {F}.
Arguments kernel_start {F}.
Arguments kernel_end {F}.

Section boot.
Context {F : Type} `{PhysFrames F}.

(** [BootIntoFrameAllocator::init], given the answers of the boot loader and
    the linker's [_kernel_end]. *)
Definition boot_init (memory_map : list Entry) (physical_base virtual_base kernel_end_symbol : Z)
    : M unit N (BootIntoFrameAllocator F) :=
  let! d := chk 64 (kernel_end_symbol - virtual_base) in
  let! kernel_end := chk 64 (d + physical_base) in
  ret (mkBoot memory_map 0 None None 0 physical_base kernel_end).

(** [(base..base + length).step_by(4096)]. *)
Definition step_by_4096 (lo hi : Z) : list Z :=
  map (fun k => lo + k * 4096) (range 0 (div_ceil (hi - lo) 4096)).

(** The addresses [usable_frames] takes from one usable entry. *)
Definition entry_addresses (self : BootIntoFrameAllocator F) (r : Entry) : list Z :=
  List.filter (fun addr =>
      (addr <? kernel_start self) || (kernel_end self <=? addr) || (addr <? HEAP_START)
        || (wrap 64 (HEAP_START + HEAP_SIZE) <? addr))
    (step_by_4096 (base r) (base r + length_ r)).

Definition is_frame (a : Z) : bool :=
  match containing_address (F:=F) a with Some _ => true | None => false end.

(** [self.usable_frames().nth(n)]: the iterator is lazy, it computes the end of
    an entry when it reaches it and makes a frame of every address it passes. *)
Fixpoint nth_frame {S} (self : BootIntoFrameAllocator F) (entries : list Entry) (n : Z) : M S N (option F) :=
  match entries with
  | [] => ret None
  | r :: rs =>
      if negb (usable r) then nth_frame self rs n else
      let! _ := chk 64 (base r + length_ r) in
      let addrs := entry_addresses self r in
      rassert (forallb is_frame (take (Z.to_nat (n + 1)) addrs)) ;!
      match idx addrs n with
      | Some addr => let! frame := expect (containing_address addr) in ret (Some frame)
      | None => nth_frame self rs (n - len addrs)
      end
  end.

(** [FrameAllocator::allocate_frame] for the boot allocator. *)
Definition boot_allocate_frame : M (BootIntoFrameAllocator F) N (option F) :=
  let! self := get_state in
  let! frame := nth_frame self (memory_map self) (next self) in
  match frame with
  | None => ret None
  | Some frame =>
      let! next' := chk 64 (next self + 1) in
      rassert (allocated_count self <? MAX_ALLOCATED_FRAMES) ;!
      let first := match first_frame self with None => Some frame | Some f => Some f end in
      put_state (mkBoot (memory_map self) next' first (Some frame) (allocated_count self + 1)
                   (kernel_start self) (kernel_end self)) ;!
      ret (Some frame)
  end.

(** [FrameDeallocator::deallocate_frame] for the boot allocator. *)
Definition boot_deallocate_frame (frame : F) : M (BootIntoFrameAllocator F) N unit := panic.

(** [allocated_frames]: assumes the frames are contiguous. *)
Definition allocated_frames (self : BootIntoFrameAllocator F) : M unit N (list F) :=
  let! f := expect (first_frame self) in
  let start_addr := start_address f in
  for_fold (range 0 (allocated_count self)) [] (fun acc i =>
    let! addr := chk 64 (start_addr + i * FRAME_SIZE) in
    let! frame := expect (containing_address addr) in
    ret (acc ++ [frame])).
End boot.

(** ** The global allocator ([memory/frame_allocator.rs], [memory/heap.rs]) *)

(** [enum GlobalFrameAllocator]. *)
Inductive GlobalFrameAllocator (F : Type) :=
| Boot (boot_alloc : BootIntoFrameAllocator F)
| Bitmap (bitmap_alloc : BitmapFrameAllocator).
Arguments Boot {F}.
Arguments Bitmap {F}.

Section global.
Context {F : Type} `{PhysFrames F}.

(** The contents of [FRAME_ALLOCATOR] while its lock is held. *)
Abbreviation G := (option (GlobalFrameAllocator F)).

(** Run a computation on a component of the state. *)
Definition on_boot {A} (b : BootIntoFrameAllocator F) (m : M (BootIntoFrameAllocator F) N A) : M G N A :=
  fun _ => let '(r, b') := m b in (r, Some (Boot b')).
Definition on_bitmap {A} (b : BitmapFrameAllocator) (m : M BitmapFrameAllocator N A) : M G N A :=
  fun _ => let '(r, b') := m b in (r, Some (Bitmap b')).

(** [with_generic_allocator]: [f] is given the allocator and stores it back. *)
Definition with_generic_allocator {A} (f : GlobalFrameAllocator F -> M G N A) : M G N A :=
  let! g := get_state in
  match g with
  | Some allocator => f allocator
  | None => panic
  end.

(** The enum's [allocate_frame] and [deallocate_frame]. *)
Definition global_allocate_frame (fuel : nat) (self : GlobalFrameAllocator F) : M G N (option F) :=
  match self with
  | Boot b => on_boot b boot_allocate_frame
  | Bitmap b => on_bitmap b (allocate_frame fuel)
  end.
Definition global_deallocate_frame (frame : F) (self : GlobalFrameAllocator F) : M G N unit :=
  match self with
  | Boot b => on_boot b (boot_deallocate_frame frame)
  | Bitmap b => on_bitmap b (deallocate_frame frame)
  end.

Definition alloc_frame (fuel : nat) : M G N (option F) := with_generic_allocator (global_allocate_frame fuel).
Definition dealloc_frame (frame : F) : M G N unit := with_generic_allocator (global_deallocate_frame frame).

(** [with_bitmap_frame_allocator]. *)
Definition with_bitmap_frame_allocator {A} (f : M BitmapFrameAllocator N A) : M G N A :=
  let! g := get_state in
  match g with
  | Some (Bitmap b) => on_bitmap b f
  | _ => panic
  end.

(** [with_boot_into_frame_allocator]. *)
Definition with_boot_into_frame_allocator {A} (f : M (BootIntoFrameAllocator F) N A) : M G N A :=
  let! g := get_state in
  match g with
  | Some (Boot b) => on_boot b f
  | _ => panic
  end.

(** [switch_allocator]. *)
Definition switch_allocator : M G N unit :=
  let! g := get_state in
  match g with
  | Some (Boot b) =>
      match allocated_frames b tt with
      | (Ok frames, _) =>
          match init (memory_map b) frames with
          | Ok a => put_state (Some (Bitmap a))
          | Err e => err e
          | Panic => panic
          | Diverge => diverge
          end
      | (Err e, _) => err e
      | (Panic, _) => panic
      | (Diverge, _) => diverge
      end
  | _ => panic
  end.
End global.

(** ** Bits of a word *)

Lemma bit_mask_bits i k : 0 <= i -> 0 <= k -> Z.testbit (bit_mask i) k = (k =? i).
Proof.
  intros. unfold bit_mask. rewrite Z.shiftl_1_l, Z.pow2_bits_eqb by done. apply Z.eqb_sym.
Qed.

Lemma set_bits w i k :
  0 <= i -> 0 <= k -> Z.testbit (Z.lor w (bit_mask i)) k = Z.testbit w k || (k =? i).
Proof. intros. by rewrite Z.lor_spec, bit_mask_bits. Qed.

Lemma clear_bits w i k :
  0 <= w < 2 ^ 64 -> 0 <= i -> 0 <= k ->
  Z.testbit (Z.land w (not64 (bit_mask i))) k = Z.testbit w k && negb (k =? i).
Proof.
  intros Hw Hi Hk. rewrite Z.land_spec. unfold not64, wrap. destruct (decide (k < 64)).
  - by rewrite Z.mod_pow2_bits_low, Z.lnot_spec, bit_mask_bits by lia.
  - replace (Z.testbit w k) with false; [done|]. symmetry.
    destruct (decide (w = 0)) as [->|]; [apply Z.bits_0|].
    apply Z.bits_above_log2; [lia|]. apply Z.lt_le_trans with 64; [|lia]. apply Z.log2_lt_pow2; lia.
Qed.

Lemma test_bit w i : 0 <= i -> negb (Z.land w (bit_mask i) =? 0) = Z.testbit w i.
Proof.
  intros Hi. destruct (Z.testbit w i) eqn:E.
  - apply negb_true_iff, Z.eqb_neq. intros H0.
    assert (Z.testbit (Z.land w (bit_mask i)) i = false) as Hf by by rewrite H0, Z.bits_0.
    rewrite Z.land_spec, bit_mask_bits, E, Z.eqb_refl in Hf by done. done.
  - apply negb_false_iff, Z.eqb_eq, Z.bits_inj'. intros k Hk.
    rewrite Z.land_spec, bit_mask_bits, Z.bits_0 by done.
    destruct (k =? i) eqn:Ek; [|by rewrite andb_false_r]. by replace k with i by lia; rewrite E.
Qed.

Lemma word_range w : 0 <= w -> (forall k, 64 <= k -> Z.testbit w k = false) -> w < 2 ^ 64.
Proof.
  intros Hw Hk. destruct (decide (w = 0)) as [->|]; [done|]. apply Z.log2_lt_pow2; [lia|].
  destruct (decide (Z.log2 w < 64)); [done|]. specialize (Hk (Z.log2 w) ltac:(lia)).
  rewrite Z.bit_log2 in Hk by lia. done.
Qed.

Lemma set_bits_range w i : 0 <= w < 2 ^ 64 -> 0 <= i < 64 -> 0 <= Z.lor w (bit_mask i) < 2 ^ 64.
Proof.
  intros Hw Hi. assert (0 <= bit_mask i) by (unfold bit_mask; rewrite Z.shiftl_1_l; lia).
  split; [apply Z.lor_nonneg; lia|]. apply word_range; [apply Z.lor_nonneg; lia|].
  intros k Hk. rewrite set_bits by lia. replace (k =? i) with false by lia. rewrite orb_false_r.
  destruct (decide (w = 0)) as [->|]; [apply Z.bits_0|].
  apply Z.bits_above_log2; [lia|]. apply Z.lt_le_trans with 64; [|lia]. apply Z.log2_lt_pow2; lia.
Qed.

Lemma clear_bits_range w m : 0 <= w < 2 ^ 64 -> 0 <= Z.land w (not64 m) < 2 ^ 64.
Proof.
  intros Hw. pose proof (wrap_range 64 (Z.lnot m) ltac:(lia)) as Hm. fold (not64 m) in Hm.
  assert (0 <= Z.land w (not64 m)) by (apply Z.land_nonneg; lia). split; [done|].
  apply word_range; [done|]. intros k Hk. rewrite Z.land_spec.
  destruct (decide (w = 0)) as [->|]; [by rewrite Z.bits_0|].
  rewrite (Z.bits_above_log2 w); [done|lia|]. apply Z.lt_le_trans with 64; [|lia]. apply Z.log2_lt_pow2; lia.
Qed.

(** ** The bitmap as a set of frame numbers *)

Definition used (a : BitmapFrameAllocator) (i : Z) : bool :=
  Z.testbit (default 0 (idx (bitmap a) (i / 64))) (i mod 64).

(** The free frames: the abstract state. *)
Definition free_set (a : BitmapFrameAllocator) : gset Z :=
  list_to_set (List.filter (fun i => negb (used a i)) (range 0 (total_frames a))).

(** The bitmap has a bit for every frame, in words of 64 bits. *)
Record bits_ok (a : BitmapFrameAllocator) : Prop := {
  bo_total : 0 < total_frames a;
  bo_phys : total_frames a * FRAME_SIZE <= 2 ^ 52;
  bo_len : len (bitmap a) = div_ceil (total_frames a) 64;
  bo_words : Forall (fun w => 0 <= w < 2 ^ 64) (bitmap a)
}.

Lemma elem_of_free_set a i : i ∈ free_set a <-> 0 <= i < total_frames a /\ used a i = false.
Proof.
  unfold free_set. rewrite elem_of_list_to_set, list_elem_of_In, filter_In, <- list_elem_of_In, elem_of_range.
  by rewrite negb_true_iff.
Qed.

Lemma word_in_range a i : bits_ok a -> 0 <= i < total_frames a ->
  exists w, idx (bitmap a) (i / 64) = Some w /\ 0 <= w < 2 ^ 64 /\ used a i = Z.testbit w (i mod 64).
Proof.
  intros [] Hi. destruct (idx_is_Some (bitmap a) (i / 64)) as [w Hw].
  { rewrite bo_len0. unfold div_ceil. dlia. }
  exists w. split; [done|]. split; [exact (Forall_lookup_1 _ _ _ _ bo_words0 Hw)|].
  unfold used. by rewrite Hw.
Qed.

(** Replacing the bit of one frame. *)
Lemma used_upd a i w free j b :
  bits_ok a -> 0 <= i < total_frames a -> 0 <= j ->
  (forall k, 0 <= k -> Z.testbit w k =
     if k =? i mod 64 then b else Z.testbit (default 0 (idx (bitmap a) (i / 64))) k) ->
  used (set_bitmap a (upd (bitmap a) (i / 64) w) free) j = if j =? i then b else used a j.
Proof.
  intros Hok Hi Hj Hw. destruct (word_in_range a i Hok Hi) as (w0 & Hw0 & _).
  pose proof (idx_Some_lt (bitmap a) (i / 64) w0 ltac:(dlia) Hw0). unfold used. cbn.
  destruct (decide (j / 64 = i / 64)) as [Hq|Hq].
  - rewrite Hq, idx_upd_eq by dlia. cbn. rewrite Hw by dlia.
    destruct (j =? i) eqn:E; destruct (j mod 64 =? i mod 64) eqn:E'; try done; dlia.
  - rewrite idx_upd_ne by dlia. destruct (j =? i) eqn:E; [|done]. by replace j with i in Hq by lia.
Qed.

Lemma bits_ok_upd a i w free :
  bits_ok a -> 0 <= w < 2 ^ 64 -> bits_ok (set_bitmap a (upd (bitmap a) i w) free).
Proof. intros [] Hw. split; cbn; rewrite ?len_upd; try done. by apply Forall_insert. Qed.

Lemma is_bit_set_spec a i :
  bits_ok a -> 0 <= i < total_frames a -> is_bit_set i a = (Ok (used a i), a).
Proof.
  intros Hok Hi. destruct (word_in_range a i Hok Hi) as (w & Hw & _ & ->).
  unfold is_bit_set, bind, get_state, rassert. replace (i <? _) with true by lia. cbn.
  rewrite Hw. cbn. by rewrite test_bit by dlia.
Qed.

Lemma set_bit_spec a i :
  bits_ok a -> 0 <= i < total_frames a -> 1 <= free_frames a < 2 ^ 64 ->
  exists b, set_bit i a = (Ok tt, set_bitmap a b (free_frames a - 1)) /\
    bits_ok (set_bitmap a b (free_frames a - 1)) /\
    (forall j, 0 <= j -> used (set_bitmap a b (free_frames a - 1)) j = if j =? i then true else used a j).
Proof.
  intros Hok Hi Hf. destruct (word_in_range a i Hok Hi) as (w & Hw & Hwr & _).
  exists (upd (bitmap a) (i / 64) (Z.lor w (bit_mask (i mod 64)))). split_and!.
  - unfold set_bit, bind, get_state, rassert. replace (i <? _) with true by lia. cbn [ret].
    rewrite Hw. cbn [expect ret]. by rewrite chk_ok by lia.
  - apply bits_ok_upd; [done|]. apply set_bits_range; [done|dlia].
  - intros j Hj. apply used_upd; [done..|]. intros k Hk. rewrite Hw. cbn. rewrite set_bits by dlia.
    destruct (k =? i mod 64); [by rewrite orb_true_r|by rewrite orb_false_r].
Qed.

(** Clearing the bit, as both [clear_bit] and [clear_bit_init] do. *)
Lemma clear_word_spec a i :
  bits_ok a -> 0 <= i < total_frames a ->
  exists w b, idx (bitmap a) (i / 64) = Some w /\
    b = upd (bitmap a) (i / 64) (Z.land w (not64 (bit_mask (i mod 64)))) /\
    bits_ok (set_bitmap a b (free_frames a + 1)) /\
    (forall j, 0 <= j -> used (set_bitmap a b (free_frames a + 1)) j = if j =? i then false else used a j) /\
    (used a i = true -> w <> 0).
Proof.
  intros Hok Hi. destruct (word_in_range a i Hok Hi) as (w & Hw & Hwr & Hu).
  exists w, (upd (bitmap a) (i / 64) (Z.land w (not64 (bit_mask (i mod 64))))). split_and!; [done|done| | |].
  - apply bits_ok_upd; [done|]. by apply clear_bits_range.
  - intros j Hj. apply used_upd; [done..|]. intros k Hk. rewrite Hw. cbn. rewrite clear_bits by (lia || dlia).
    destruct (k =? i mod 64); [by rewrite andb_false_r|by rewrite andb_true_r].
  - intros Hused ->. rewrite Hu, Z.bits_0 in Hused. done.
Qed.

(** ** Allocation and deallocation *)

(** [slack] is by how much the counter exceeds the number of free frames:
    [init] counts every usable frame twice. *)
Record bm_ok (slack : Z) (a : BitmapFrameAllocator) : Prop := {
  bm_bits : bits_ok a;
  bm_cursor : 0 <= to_allocate a < total_frames a;
  bm_free : free_frames a = Z.of_nat (size (free_set a)) + slack;
  bm_slack : 0 <= slack <= 2 ^ 52;
  bm_counts : 0 <= allocate_count a /\ 0 <= free_count a
}.

(** The frames in the order the cursor visits them. *)
Definition cyclic (a : BitmapFrameAllocator) : list Z :=
  map (fun k => (to_allocate a + k) mod total_frames a) (range 0 (total_frames a)).
Definition next_free (a : BitmapFrameAllocator) : option Z :=
  List.find (fun i => negb (used a i)) (cyclic a).

Lemma size_free_set_le a : Z.of_nat (size (free_set a)) <= Z.max 0 (total_frames a).
Proof.
  assert (free_set a ⊆ list_to_set (range 0 (total_frames a))) as Hsub%subseteq_size.
  { intros i [Hi _]%elem_of_free_set. by apply elem_of_list_to_set, elem_of_range. }
  rewrite size_list_to_set, length_range in Hsub by apply NoDup_range. lia.
Qed.

Lemma bm_free_range slack a : bm_ok slack a -> slack <= free_frames a <= 2 ^ 53.
Proof.
  intros [[] ? Hf ? _]. pose proof (size_free_set_le a). unfold FRAME_SIZE in *. lia.
Qed.

(** What removing or adding one frame does to the set. *)
Lemma free_set_take a a' i :
  total_frames a' = total_frames a -> 0 <= i < total_frames a ->
  (forall j, 0 <= j -> used a' j = if j =? i then true else used a j) ->
  free_set a' = free_set a ∖ {[i]}.
Proof.
  intros Ht Hi Hu. apply set_eq. intros j.
  rewrite elem_of_difference, elem_of_singleton, !elem_of_free_set, Ht.
  destruct (decide (0 <= j)); [|lia]. rewrite Hu by done.
  destruct (j =? i) eqn:E; split; intros; split_and!; try lia; naive_solver lia.
Qed.

Lemma free_set_give a a' i :
  total_frames a' = total_frames a -> 0 <= i < total_frames a ->
  (forall j, 0 <= j -> used a' j = if j =? i then false else used a j) ->
  free_set a' = {[i]} ∪ free_set a.
Proof.
  intros Ht Hi Hu. apply set_eq. intros j.
  rewrite elem_of_union, elem_of_singleton, !elem_of_free_set, Ht.
  destruct (decide (0 <= j)); [|naive_solver lia]. rewrite Hu by done.
  destruct (j =? i) eqn:E; naive_solver lia.
Qed.

Section bitmap_proofs.
Context {F : Type} `{PhysFramesLaws F}.

(** One more turn of the cursor. *)
Lemma turn t k n : 0 < n -> (t mod n + k) mod n = (t + k) mod n.
Proof. intros. by rewrite Zplus_mod_idemp_l. Qed.

Lemma allocate_loop_spec fuel : forall a k,
  bits_ok a -> 0 <= to_allocate a < total_frames a -> 0 <= k -> k < Z.of_nat fuel ->
  (forall j, 0 <= j < k -> used a ((to_allocate a + j) mod total_frames a) = true) ->
  let i := (to_allocate a + k) mod total_frames a in
  used a i = false -> 1 <= free_frames a < 2 ^ 64 -> 0 <= allocate_count a < 2 ^ 64 - 1 ->
  exists f a', allocate_loop (F:=F) fuel a = (Ok (Some f), a') /\ start_address f = i * FRAME_SIZE /\
    bits_ok a' /\ total_frames a' = total_frames a /\ free_frames a' = free_frames a - 1 /\
    to_allocate a' = (i + 1) mod total_frames a /\
    allocate_count a' = allocate_count a + 1 /\ free_count a' = free_count a /\
    (forall j, 0 <= j -> used a' j = if j =? i then true else used a j).
Proof.
  induction fuel as [|fuel IH]; intros a k Hok Ht Hk Hfuel Hbefore i Hi Hf Hc; [lia|].
  pose proof (bo_total _ Hok) as Hpos. pose proof (bo_phys _ Hok) as Hphys. unfold FRAME_SIZE in *.
  assert (0 <= i < total_frames a) as Hir by (apply Z.mod_pos_bound; lia).
  cbn [allocate_loop]. rewrite bind_get, (bind_ok _ _ _ _ _ (is_bit_set_spec a (to_allocate a) Hok Ht)).
  destruct (decide (k = 0)) as [->|Hne].
  - assert (i = to_allocate a) as Ei by (unfold i; rewrite Z.add_0_r; by apply Z.mod_small).
    rewrite <- Ei, Hi. cbn [negb].
    destruct (set_bit_spec a i Hok Hir Hf) as (b & Es & Hok' & Hu).
    destruct (frame_of_address (F:=F) (i * 4096)) as (f & Ef & Hsf); [lia|].
    rewrite (bind_ok _ _ _ _ _ Es), bind_chk, bind_get by (unfold FRAME_SIZE; lia).
    cbn [to_allocate total_frames allocate_count set_bitmap].
    rewrite bind_rem, bind_chk, bind_put by lia. rewrite (bind_expect _ f) by done.
    eexists f, _. split; [done|]. rewrite Hsf. unfold FRAME_SIZE. rewrite Z.mod_mul by lia. cbn.
    split_and!; try done; [lia|by destruct Hok'|by rewrite Ei].
  - pose proof (Hbefore 0 ltac:(lia)) as H0used. rewrite Z.add_0_r, Z.mod_small in H0used by lia.
    rewrite H0used. cbn [negb]. rewrite bind_rem, bind_put by lia.
    set (a1 := set_to_allocate a _).
    assert (forall j, (to_allocate a1 + j) mod total_frames a1 = (to_allocate a + (j + 1)) mod total_frames a) as Ht1.
    { intros j. cbn. rewrite turn by lia. f_equal. lia. }
    destruct (IH a1 (k - 1)) as (f & a' & E & Hs & Hok' & Htot & Hfree & Hto & Hac & Hfc & Hu);
      try done; try lia.
    + destruct Hok. by split.
    + cbn. by apply Z.mod_pos_bound.
    + intros j Hj. rewrite Ht1. apply Hbefore. lia.
    + rewrite Ht1. by replace (k - 1 + 1) with k by lia.
    + rewrite Ht1 in Hs, Hto, Hu. replace (k - 1 + 1) with k in Hs, Hto, Hu by lia.
      exists f, a'. split_and!; done.
Qed.

(** With nothing free the loop never ends. *)
Lemma allocate_loop_spins fuel : forall a,
  bits_ok a -> 0 <= to_allocate a < total_frames a ->
  (forall i, 0 <= i < total_frames a -> used a i = true) ->
  exists a', allocate_loop (F:=F) fuel a = (Diverge, a').
Proof.
  induction fuel as [|fuel IH]; intros a Hok Ht Hall; [by exists a|].
  pose proof (bo_total _ Hok) as Hpos. cbn [allocate_loop].
  rewrite bind_get, (bind_ok _ _ _ _ _ (is_bit_set_spec a (to_allocate a) Hok Ht)), Hall by done.
  cbn [negb]. rewrite bind_rem, bind_put by lia. apply IH; [|by apply Z.mod_pos_bound|done].
  destruct Hok. by split.
Qed.

Lemma find_map_range (P : Z -> bool) g n i :
  List.find P (map g (range 0 n)) = Some i ->
  exists k, 0 <= k < n /\ i = g k /\ P i = true /\ forall j, 0 <= j < k -> P (g j) = false.
Proof.
  destruct (first_in_range (fun k => P (g k)) 0 n) as [(k & Hk & HP & Hb)|Hnone].
  - assert (forall l, List.find P (map g l) = option_map g (List.find (fun k => P (g k)) l)) as Hmap.
    { induction l as [|x l IH]; [done|]. cbn. by case_test. }
    rewrite Hmap, (find_range_first _ _ _ k) by done. intros [= <-]. exists k. done.
  - intros [Hin HP]%find_some. apply in_map_iff in Hin as (k & <- & Hk).
    apply list_elem_of_In, elem_of_range in Hk. by rewrite Hnone in HP.
Qed.

Lemma next_free_some a i :
  bits_ok a -> 0 <= to_allocate a < total_frames a -> next_free a = Some i ->
  exists k, 0 <= k < total_frames a /\ i = (to_allocate a + k) mod total_frames a /\ used a i = false /\
    forall j, 0 <= j < k -> used a ((to_allocate a + j) mod total_frames a) = true.
Proof.
  intros Hok Ht (k & Hk & Hi & HP & Hb)%find_map_range. apply negb_true_iff in HP.
  exists k. split_and!; try done; [lia..|]. intros j Hj. by apply negb_false_iff, Hb.
Qed.

(** The cursor visits every frame. *)
Lemma next_free_exists a :
  bits_ok a -> 0 <= to_allocate a < total_frames a -> free_set a <> ∅ -> exists i, next_free a = Some i.
Proof.
  intros Hok Ht Hne. apply set_choose_L in Hne as (i & [Hi Hu]%elem_of_free_set).
  unfold next_free. destruct (List.find _ _) as [x|] eqn:E; [by exists x|]. exfalso.
  assert (i ∈ cyclic a) as Hin.
  { apply list_elem_of_In, in_map_iff. exists ((i - to_allocate a) mod total_frames a). split.
    - rewrite Zplus_mod_idemp_r. replace (to_allocate a + (i - to_allocate a)) with i by lia.
      by apply Z.mod_small.
    - apply list_elem_of_In, elem_of_range. apply Z.mod_pos_bound. lia. }
  eapply find_none in E; [|by apply list_elem_of_In]. by rewrite Hu in E.
Qed.

(** A successful allocation, as a step of the abstract set. *)
Lemma allocate_frame_step slack a fuel :
  bm_ok slack a -> free_frames a <> total_frames a -> free_set a <> ∅ ->
  total_frames a <= Z.of_nat fuel -> allocate_count a < 2 ^ 64 - 1 ->
  exists i f a', next_free a = Some i /\ allocate_frame (F:=F) fuel a = (Ok (Some f), a') /\
    start_address f = i * FRAME_SIZE /\ i ∈ free_set a /\ free_set a' = free_set a ∖ {[i]} /\
    total_frames a' = total_frames a /\
    to_allocate a' = (i + 1) mod total_frames a /\ bm_ok slack a' /\
    allocate_count a' = allocate_count a + 1 /\ free_count a' = free_count a.
Proof.
  intros Hbm Hne Hfree Hfuel Hcnt. pose proof (bm_free_range _ _ Hbm). destruct Hbm as [Hok Ht Hcount Hsl [Hc1 Hc2]].
  destruct (next_free_exists a Hok Ht Hfree) as [i Hi]. pose proof Hi as Hi'.
  apply next_free_some in Hi' as (k & Hk & Ei & Hu & Hb); [|done..].
  assert (0 <= i < total_frames a) as Hir by (rewrite Ei; apply Z.mod_pos_bound; lia).
  assert (i ∈ free_set a) as Hin by by apply elem_of_free_set.
  assert (size (free_set a) <> 0%nat) by (apply size_non_empty_iff; by rewrite leibniz_equiv_iff).
  destruct (allocate_loop_spec fuel a k) as (f & a' & E & Hs & Hok' & Htot & Hff & Hto & Hac & Hfc & Hu');
    try done; try lia; rewrite <- ?Ei; try done.
  rewrite <- Ei in Hs, Hto, Hu'.
  exists i, f, a'. split_and!; try done.
  - unfold allocate_frame, bind at 1, get_state. by replace (free_frames a =? total_frames a) with false by lia.
  - by apply free_set_take.
  - assert (free_set a' = free_set a ∖ {[i]}) as Hset by by apply free_set_take.
    split; try done; [|rewrite Hset, size_difference by set_solver; rewrite size_singleton; lia|lia].
    rewrite Hto, Htot. apply Z.mod_pos_bound. lia.
Qed.

(** Giving back a frame that is in use. *)
Lemma deallocate_frame_step slack a (f : F) :
  bm_ok slack a -> start_address f / FRAME_SIZE < total_frames a ->
  used a (start_address f / FRAME_SIZE) = true -> free_count a < 2 ^ 64 - 1 ->
  exists a', deallocate_frame f a = (Ok tt, a') /\
    free_set a' = {[start_address f / FRAME_SIZE]} ∪ free_set a /\
    total_frames a' = total_frames a /\ to_allocate a' = to_allocate a /\ bm_ok slack a' /\
    allocate_count a' = allocate_count a /\ free_count a' = free_count a + 1.
Proof.
  intros Hbm Hlt Hused Hcnt. pose proof (bm_free_range _ _ Hbm). destruct Hbm as [Hok Ht Hcount Hsl [Hc1 Hc2]].
  set (i := start_address f / FRAME_SIZE) in *. destruct (frame_start f) as [Hfs _].
  assert (0 <= i) by (apply Z.div_pos; [lia|done]).
  set (a1 := set_free_count a (free_count a + 1)).
  assert (bits_ok a1) as Hok1 by (destruct Hok; by split).
  destruct (clear_word_spec a1 i Hok1 ltac:(cbn; lia)) as (w & b & Hw & Hb & Hok' & Hu & Hnz).
  set (a' := set_bitmap a1 b (free_frames a1 + 1)) in *.
  assert (free_set a' = {[i]} ∪ free_set a) as Hset by (apply (free_set_give a); done).
  exists a'. split_and!; try done.
  - unfold deallocate_frame. rewrite bind_get, bind_chk, bind_put by lia.
    fold a1. unfold mark_frame_free, clear_bit. fold i. rewrite bind_get, bind_assert by (cbn; lia).
    rewrite (bind_expect _ w) by done. replace (w =? 0) with false by (specialize (Hnz Hused); lia).
    rewrite bind_ret, bind_chk by (cbn; lia). by rewrite <- Hb.
  - split; try done; [|cbn; lia]. rewrite Hset, size_union by
      (apply disjoint_singleton_l; rewrite elem_of_free_set; naive_solver congruence).
    rewrite size_singleton. cbn. lia.
Qed.
End bitmap_proofs.

(** ** Initialisation *)

(** The fields an operation on the bits leaves alone. *)
Definition same_meta (a a' : BitmapFrameAllocator) : Prop :=
  total_frames a' = total_frames a /\ to_allocate a' = to_allocate a /\
  allocate_count a' = allocate_count a /\ free_count a' = free_count a.

(** The frame numbers of an entry and of the usable entries of a map. *)
Definition entry_frames (r : Entry) : list Z :=
  range (base r / FRAME_SIZE) ((base r + length_ r) / FRAME_SIZE).
Definition usable_frames (entries : list Entry) : list Z :=
  flat_map entry_frames (List.filter usable entries).

(** What the boot loader promises of a memory map: usable entries are page
    aligned, lie in physical memory and do not overlap. *)
Definition entry_ok (r : Entry) : Prop :=
  usable r = true ->
  0 <= base r /\ 0 <= length_ r /\ base r + length_ r <= 2 ^ 52 /\
  base r mod FRAME_SIZE = 0 /\ length_ r mod FRAME_SIZE = 0.
Definition map_ok (entries : list Entry) : Prop :=
  Forall entry_ok entries /\ NoDup (usable_frames entries).

(** The top of usable memory. *)
Definition top (entries : list Entry) : Z :=
  fold_left (fun t r => if usable r then Z.max t (base r + length_ r) else t) entries 0.

Lemma clear_bit_init_spec a i :
  bits_ok a -> 0 <= i < total_frames a -> 0 <= free_frames a < 2 ^ 64 - 1 ->
  exists a', clear_bit_init i a = (Ok tt, a') /\ bits_ok a' /\ same_meta a a' /\
    free_frames a' = free_frames a + 1 /\ free_set a' = {[i]} ∪ free_set a.
Proof.
  intros Hok Hi Hf. destruct (clear_word_spec a i Hok Hi) as (w & b & Hw & Hb & Hok' & Hu & _).
  eexists. split_and!; [|exact Hok'|done|done|by apply (free_set_give a)].
  unfold clear_bit_init. rewrite bind_get, bind_assert by lia. rewrite (bind_expect _ w) by done.
  rewrite bind_chk by lia. by rewrite <- Hb.
Qed.

Lemma same_meta_trans a b c : same_meta a b -> same_meta b c -> same_meta a c.
Proof. unfold same_meta. intuition congruence. Qed.

Lemma clear_list l : forall a,
  bits_ok a -> Forall (fun i => 0 <= i < total_frames a) l ->
  0 <= free_frames a -> free_frames a + len l < 2 ^ 64 ->
  exists a', for_do l clear_bit_init a = (Ok tt, a') /\ bits_ok a' /\ same_meta a a' /\
    free_frames a' = free_frames a + len l /\ free_set a' = list_to_set l ∪ free_set a.
Proof.
  induction l as [|i l IH]; intros a Hok Hl Hf Hlen; unfold len in *; cbn [length] in *.
  { exists a. split_and!; try done; [cbn; lia|set_solver]. }
  apply Forall_cons in Hl as [Hi Hl].
  destruct (clear_bit_init_spec a i Hok Hi ltac:(lia)) as (a1 & E1 & Hok1 & Hm1 & Hf1 & Hs1).
  destruct (IH a1) as (a2 & E2 & Hok2 & Hm2 & Hf2 & Hs2); [done| |lia|lia|].
  { destruct Hm1 as (-> & _). done. }
  exists a2. cbn [for_do]. rewrite (bind_ok _ _ _ _ _ E1). split_and!; try done.
  - by eapply same_meta_trans.
  - lia.
  - rewrite Hs2, Hs1. set_solver.
Qed.

Lemma div_ceil_exact x : 0 <= x -> x mod FRAME_SIZE = 0 -> div_ceil x FRAME_SIZE = x / FRAME_SIZE.
Proof. unfold div_ceil, FRAME_SIZE. intros. dlia. Qed.

Lemma len_entry_frames r : entry_ok r -> usable r = true -> len (entry_frames r) = length_ r / FRAME_SIZE.
Proof.
  intros Hr Hu. destruct (Hr Hu) as (? & ? & ? & ? & ?). unfold entry_frames, len. rewrite length_range.
  unfold FRAME_SIZE in *. dlia.
Qed.

Lemma len_usable_frames_cons r rs :
  len (usable_frames (r :: rs)) =
    (if usable r then len (entry_frames r) else 0) + len (usable_frames rs).
Proof. unfold usable_frames. cbn. destruct (usable r); [cbn; by rewrite len_app|done]. Qed.

(** Freeing the usable entries: every frame is counted twice. *)
Lemma free_usable_spec entries : forall a,
  bits_ok a -> Forall entry_ok entries -> Forall (fun i => 0 <= i < total_frames a) (usable_frames entries) ->
  0 <= free_frames a -> free_frames a + 2 * len (usable_frames entries) < 2 ^ 64 ->
  exists a', free_usable entries a = (Ok tt, a') /\ bits_ok a' /\ same_meta a a' /\
    free_frames a' = free_frames a + 2 * len (usable_frames entries) /\
    free_set a' = list_to_set (usable_frames entries) ∪ free_set a.
Proof.
  induction entries as [|r rs IH]; intros a Hok He Hin Hf Hlen.
  { exists a. split_and!; try done; [unfold len; cbn; lia|set_solver]. }
  apply Forall_cons in He as [Hr He]. rewrite len_usable_frames_cons in *.
  unfold free_usable. cbn [for_do]. fold (free_usable rs).
  unfold usable_frames in *. cbn [List.filter] in *. destruct (usable r) eqn:Hu; cbn [flat_map] in *.
  - apply Forall_app in Hin as [Hin1 Hin2]. fold (usable_frames rs) in *.
    pose proof (len_entry_frames r Hr Hu) as Hl. destruct (Hr Hu) as (? & ? & ? & ? & ?).
    pose proof (len_nonneg (usable_frames rs)). pose proof (len_nonneg (entry_frames r)).
    destruct (clear_list (entry_frames r) a) as (a1 & E1 & Hok1 & Hm1 & Hf1 & Hs1); try done; [lia|].
    set (a2 := set_bitmap a1 (bitmap a1) (free_frames a1 + len (entry_frames r))).
    assert (bits_ok a2) as Hok2 by (destruct Hok1; by split).
    assert (free_set a2 = free_set a1) as Hs2 by done.
    destruct (IH a2) as (a' & E' & Hok' & Hm' & Hf' & Hs'); try done; cbn.
    { destruct Hm1 as (-> & _). done. }
    { lia. } { lia. }
    exists a'. split_and!; try done.
    + assert (free_region (base r) (length_ r) a = (Ok tt, a1)) as Er
        by (unfold free_region; rewrite bind_chk by lia; exact E1).
      rewrite bind_assoc, (bind_ok _ _ _ _ _ Er), bind_assoc, bind_get, bind_assoc.
      by rewrite div_ceil_exact, <- Hl, bind_chk, bind_put by (done || lia).
    + by eapply same_meta_trans; [exact Hm1|].
    + cbn in Hf'. lia.
    + rewrite Hs', Hs2, Hs1, list_to_set_app_L. set_solver.
  - destruct (IH a) as (a' & E' & Hok' & Hm' & Hf' & Hs'); try done.
    exists a'. split_and!; try done.
Qed.

Lemma full_bitmap_ok t k :
  0 < t <= 2 ^ 52 -> t mod FRAME_SIZE = 0 ->
  bits_ok (full_bitmap t k) /\ free_set (full_bitmap t k) = ∅ /\
  total_frames (full_bitmap t k) = t / FRAME_SIZE.
Proof.
  intros Ht Hm. pose proof (div_ceil_exact t ltac:(lia) Hm) as Hc. unfold full_bitmap. cbv zeta. rewrite Hc.
  assert (0 < t / FRAME_SIZE /\ t / FRAME_SIZE * FRAME_SIZE = t) as [Hpos Heq] by (unfold FRAME_SIZE in *; dlia).
  set (n := t / FRAME_SIZE) in *. clearbody n. clear Hc Hm.
  assert (0 <= div_ceil n 64) by (unfold div_ceil; dlia).
  split_and!; [split; cbn| |done].
  - done.
  - lia.
  - by apply len_vec.
  - apply Forall_replicate. done.
  - apply set_eq. intros i. rewrite elem_of_free_set. cbn. split; [|set_solver]. intros [Hi Hu]. exfalso.
    unfold used in Hu. cbn in Hu. rewrite idx_vec in Hu by (unfold div_ceil, BITMAP_ENTRY_SIZE; dlia). cbn in Hu.
    assert (forall k, 0 <= k < 64 -> Z.testbit FULL_BITMAP_ENTRY k = true) as Hbits.
    { intros k0 Hk0. change FULL_BITMAP_ENTRY with (Z.ones 64). apply Z.ones_spec_low. lia. }
    rewrite Hbits in Hu by dlia. done.
Qed.

Lemma top_ge entries t : t <= fold_left (fun t r => if usable r then Z.max t (base r + length_ r) else t) entries t.
Proof.
  revert t. induction entries as [|r rs IH]; intros t; cbn; [lia|]. etrans; [|apply IH]. case_test; lia.
Qed.

Lemma find_true_end_spec entries :
  Forall entry_ok entries -> find_true_end entries tt = (Ok (top entries), tt).
Proof.
  unfold find_true_end, top. intros He. assert (0 <= 0) as Ht by lia. revert Ht. generalize 0 at 2 3 4 as t.
  induction He as [|r rs Hr He IH]; intros t Ht; [done|]. cbn [for_fold fold_left].
  destruct (usable r) eqn:Hu.
  - destruct (Hr Hu) as (? & ? & ? & _). rewrite bind_assoc, bind_chk, bind_ret by lia.
    replace (if t <? base r + length_ r then base r + length_ r else t) with (Z.max t (base r + length_ r))
      by (case_test; lia). apply IH. lia.
  - rewrite bind_ret. by apply IH.
Qed.

Lemma top_from_bounds entries t :
  Forall entry_ok entries -> 0 <= t <= 2 ^ 52 -> t mod FRAME_SIZE = 0 ->
  let T := fold_left (fun t r => if usable r then Z.max t (base r + length_ r) else t) entries t in
  0 <= T <= 2 ^ 52 /\ T mod FRAME_SIZE = 0 /\ Forall (fun i => 0 <= i < T / FRAME_SIZE) (usable_frames entries).
Proof.
  intros He. revert t. induction He as [|r rs Hr He IH]; intros t Ht Hm; cbn [fold_left]; [done|].
  unfold usable_frames. cbn [List.filter]. destruct (usable r) eqn:Hu; [|by apply IH].
  destruct (Hr Hu) as (? & ? & ? & ? & ?). cbn [flat_map]. fold (usable_frames rs).
  assert (0 <= Z.max t (base r + length_ r) <= 2 ^ 52) as Hmax by (clear Hm; lia).
  destruct (IH (Z.max t (base r + length_ r))) as (Hb1 & Hb2 & Hb3); [done| |].
  { clear Hmax. unfold FRAME_SIZE in *. destruct (Z.max_spec t (base r + length_ r)) as [[_ ->]|[_ ->]]; dlia. }
  pose proof (top_ge rs (Z.max t (base r + length_ r))) as Htop.
  set (T := fold_left _ rs _) in *. cbv zeta. split; [done|]. split; [done|]. apply Forall_app. split; [|done].
  apply Forall_forall. intros i Hi%elem_of_range. unfold FRAME_SIZE in *. dlia.
Qed.

Lemma top_bounds entries :
  Forall entry_ok entries ->
  0 <= top entries <= 2 ^ 52 /\ top entries mod FRAME_SIZE = 0 /\
  Forall (fun i => 0 <= i < top entries / FRAME_SIZE) (usable_frames entries).
Proof. intros He. by apply top_from_bounds. Qed.

Section init_proofs.
Context {F : Type} `{PhysFramesLaws F}.

Definition frame_number (f : F) : Z := start_address f / FRAME_SIZE.

Lemma frame_number_start f : start_address f = frame_number f * FRAME_SIZE /\ 0 <= frame_number f.
Proof. destruct (frame_start f) as [Hr Hm]. unfold frame_number, FRAME_SIZE in *. dlia. Qed.

Lemma frame_number_inj f g : frame_number f = frame_number g -> f = g.
Proof.
  intros E. apply frame_inj. destruct (frame_number_start f), (frame_number_start g). congruence.
Qed.

Lemma mark_initial_spec fs : forall a,
  bits_ok a -> Forall (fun f => frame_number f < total_frames a) fs -> len fs <= free_frames a < 2 ^ 64 ->
  exists a', mark_initial fs a = (Ok tt, a') /\ bits_ok a' /\ same_meta a a' /\
    free_frames a' = free_frames a - len fs /\ free_set a' = free_set a ∖ list_to_set (map frame_number fs).
Proof.
  induction fs as [|f fs IH]; intros a Hok Hin Hf; unfold len in *; cbn [length] in *.
  { exists a. split_and!; try done; [lia|set_solver]. }
  apply Forall_cons in Hin as [Hi Hin]. destruct (frame_number_start f) as [_ Hpos].
  destruct (set_bit_spec a (frame_number f) Hok ltac:(lia) ltac:(lia)) as (b & E1 & Hok1 & Hu1).
  set (a1 := set_bitmap a b (free_frames a - 1)) in *.
  assert (free_set a1 = free_set a ∖ {[frame_number f]}) as Hs1 by (apply (free_set_take a); done).
  destruct (IH a1) as (a2 & E2 & Hok2 & Hm2 & Hf2 & Hs2); try done; cbn; try lia.
  exists a2. unfold mark_initial. cbn [for_do]. rewrite (bind_ok _ _ _ _ _ E1). split_and!; try done.
  - cbn in Hf2. lia.
  - rewrite Hs2, Hs1. cbn. set_solver.
Qed.

(** The state [init] builds. *)
Lemma init_spec entries (fs : list F) :
  map_ok entries -> NoDup fs -> Forall (fun f => frame_number f ∈ usable_frames entries) fs ->
  len fs < top entries / FRAME_SIZE ->
  exists a, init entries fs = Ok a /\ bm_ok (len (usable_frames entries)) a /\
    free_set a = list_to_set (usable_frames entries) ∖ list_to_set (map frame_number fs) /\
    total_frames a = top entries / FRAME_SIZE /\ allocate_count a = 0 /\ free_count a = 0.
Proof.
  intros [He Hnd] Hndf Hin Hlen. destruct (top_bounds entries He) as (Htop & Hm & Hr).
  pose proof (len_nonneg fs). set (T := top entries) in *.
  assert (0 < T) by (unfold FRAME_SIZE in *; dlia).
  destruct (full_bitmap_ok T (len fs)) as (Hok & Hempty & Htot); [lia|done|].
  assert (len (usable_frames entries) <= T / FRAME_SIZE) as HU.
  { unfold len.
    assert (usable_frames entries ⊆+ range 0 (T / FRAME_SIZE)) as Hsub.
    { apply NoDup_submseteq; [done|]. intros x Hx. apply elem_of_range.
      by apply (proj1 (Forall_forall _ _) Hr). }
    apply submseteq_length in Hsub. rewrite length_range in Hsub. lia. }
  assert (T / FRAME_SIZE <= 2 ^ 40) by (unfold FRAME_SIZE; dlia).
  assert (len fs <= len (usable_frames entries)) as Hfl.
  { assert (map frame_number fs ⊆+ usable_frames entries) as Hsub.
    { apply NoDup_submseteq; [by apply NoDup_fmap_2_strong; [intros; by apply frame_number_inj|]|].
      intros x Hx. apply list_elem_of_fmap in Hx as (f & -> & Hf).
      by apply (proj1 (Forall_forall _ _) Hin). }
    apply submseteq_length in Hsub. rewrite length_map in Hsub. unfold len. lia. }
  destruct (free_usable_spec entries (full_bitmap T (len fs))) as (a1 & E1 & Hok1 & Hm1 & Hf1 & Hs1);
    try done; [by rewrite Htot|cbn; lia|].
  pose proof Hm1 as (Ht1 & Hc1 & Ha1 & Hfc1). rewrite Htot in Ht1. cbn in Hf1, Hc1, Ha1, Hfc1.
  destruct (mark_initial_spec fs a1) as (a2 & E2 & Hok2 & Hm2 & Hf2 & Hs2); try done; [|lia|].
  { rewrite Ht1. eapply Forall_impl; [exact Hin|]. intros f Hf.
    by apply (proj1 (Forall_forall _ _) Hr). }
  pose proof Hm2 as (Ht2 & Hc2 & Ha2 & Hfc2).
  assert (free_set a2 = list_to_set (usable_frames entries) ∖ list_to_set (map frame_number fs)) as Hset
    by (rewrite Hs2, Hs1, Hempty; set_solver).
  exists a2. split_and!; try congruence.
  - unfold init. rewrite find_true_end_spec by done. fold T. by rewrite (bind_ok _ _ _ _ _ E1), E2.
  - assert (size (free_set a2) = length (usable_frames entries) - length fs)%nat as Hsz.
    { rewrite Hset, size_difference, !size_list_to_set, length_map; try done.
      - by apply NoDup_fmap_2_strong; [intros; by apply frame_number_inj|].
      - intros x. rewrite !elem_of_list_to_set. intros (f & -> & Hf)%list_elem_of_fmap.
        by apply (proj1 (Forall_forall _ _) Hin). }
    unfold len in *. split; try done; [lia|lia|lia|lia].
Qed.
End init_proofs.

(** ** The boot allocator hands out the usable frames in order *)

Section boot_proofs.
Context {F : Type} `{PhysFramesLaws F}.

(** The kernel and heap filter lets every physical address pass: the heap is
    a virtual range far above them. *)
Lemma entry_addresses_all (b : BootIntoFrameAllocator F) r :
  entry_ok r -> usable r = true ->
  entry_addresses b r = map (fun i => i * FRAME_SIZE) (entry_frames r).
Proof.
  intros Hr Hu. destruct (Hr Hu) as (Hb & Hl & Hend & Hba & Hla). unfold entry_addresses, step_by_4096.
  rewrite List.forallb_filter_id.
  - replace (base r + length_ r - base r) with (length_ r) by lia. change 4096 with FRAME_SIZE.
    rewrite div_ceil_exact by done. unfold entry_frames.
    replace ((base r + length_ r) / FRAME_SIZE) with (base r / FRAME_SIZE + length_ r / FRAME_SIZE)
      by (unfold FRAME_SIZE in *; clear Hend; dlia).
    rewrite <- map_range_shift by (apply Z.div_pos; done).
    apply map_ext. intros k. rewrite Z.mul_add_distr_r. f_equal. unfold FRAME_SIZE in *. clear Hend Hl. dlia.
  - apply forallb_forall. intros a Ha. apply in_map_iff in Ha as (k & <- & Hk).
    apply list_elem_of_In, elem_of_range in Hk.
    replace (_ <? HEAP_START) with true; [by rewrite !orb_true_r|]. symmetry. apply Z.ltb_lt.
    unfold HEAP_START, div_ceil in *. dlia.
Qed.

Lemma frame_at i : 0 <= i -> i * FRAME_SIZE < 2 ^ 52 ->
  exists f : F, containing_address (i * FRAME_SIZE) = Some f /\ frame_number f = i.
Proof.
  intros Hi Hlt. destruct (frame_of_address (F:=F) (i * FRAME_SIZE)) as (f & E & Hs).
  { unfold FRAME_SIZE in *. lia. }
  exists f. split; [done|]. unfold frame_number. rewrite Hs. unfold FRAME_SIZE in *. dlia.
Qed.

Lemma nth_frame_spec {S} (b : BootIntoFrameAllocator F) entries n (s : S) :
  Forall entry_ok entries -> 0 <= n ->
  match idx (usable_frames entries) n with
  | Some i => exists f, nth_frame b entries n s = (Ok (Some f), s) /\ frame_number f = i
  | None => nth_frame b entries n s = (Ok None, s)
  end.
Proof.
  intros He. revert n. induction He as [|r rs Hr He IH]; intros n Hn; [done|].
  cbn [nth_frame]. unfold usable_frames. cbn [List.filter].
  destruct (usable r) eqn:Hu; cbn [negb]; [|by apply IH].
  cbn [flat_map]. fold (usable_frames rs). destruct (Hr Hu) as (Hb & Hl & Hend & Hba & Hla).
  rewrite bind_chk by lia. rewrite entry_addresses_all by done. cbv zeta.
  assert (forall i, i ∈ entry_frames r -> exists f : F, containing_address (i * FRAME_SIZE) = Some f /\ frame_number f = i) as Hfr.
  { intros i Hi%elem_of_range. apply frame_at; unfold FRAME_SIZE in *; dlia. }
  rewrite bind_assert.
  2: { apply forallb_forall. intros a Ha. apply list_elem_of_In in Ha.
       apply elem_of_take in Ha as (k & Hk & _). apply list_elem_of_lookup_2 in Hk.
       apply list_elem_of_fmap in Hk as (i & -> & Hi). unfold is_frame.
       by destruct (Hfr i Hi) as (f & -> & _). }
  assert (len (map (fun i => i * FRAME_SIZE) (entry_frames r)) = len (entry_frames r)) as Hlm
    by (unfold len; by rewrite length_map).
  destruct (decide (n < len (entry_frames r))) as [Hlt|Hge].
  - rewrite idx_app_l by lia. destruct (idx_is_Some (entry_frames r) n ltac:(lia)) as [i Hi].
    rewrite Hi. assert (i ∈ entry_frames r) as Hin by (by eapply list_elem_of_lookup_2).
    destruct (Hfr i Hin) as (f & Ef & Hfn). exists f. split; [|done].
    assert (idx (map (fun i => i * FRAME_SIZE) (entry_frames r)) n = Some (i * FRAME_SIZE)) as ->.
    { unfold idx in *. by rewrite list_lookup_fmap, Hi. }
    by rewrite (bind_expect _ f) by done.
  - rewrite idx_app_r by lia. rewrite (idx_None (map _ _)) by lia. rewrite Hlm. apply IH. lia.
Qed.

(** The boot allocator after handing out the first [k] usable frames. *)
Record boot_ok (entries : list Entry) (handed : list F) (b : BootIntoFrameAllocator F) : Prop := {
  bk_map : memory_map b = entries;
  bk_next : next b = len handed;
  bk_count : allocated_count b = len handed;
  bk_first : first_frame b = head handed;
  bk_last : last_frame b = last handed;
  bk_handed : map frame_number handed = take (length handed) (usable_frames entries)
}.

Lemma boot_allocate_spec entries handed b :
  map_ok entries -> boot_ok entries handed b -> len handed < MAX_ALLOCATED_FRAMES ->
  match idx (usable_frames entries) (len handed) with
  | Some i => exists f b', boot_allocate_frame b = (Ok (Some f), b') /\ frame_number f = i /\
      (f ∉ handed) /\ boot_ok entries (handed ++ [f]) b'
  | None => boot_allocate_frame b = (Ok None, b)
  end.
Proof.
  intros [He Hnd] [Hmap Hnext Hcount Hfirst Hlast Hhand] Hmax. pose proof (len_nonneg handed).
  pose proof (nth_frame_spec b entries (len handed) b He ltac:(lia)) as Hnth.
  unfold boot_allocate_frame. destruct (idx (usable_frames entries) (len handed)) as [i|] eqn:Ei.
  - destruct Hnth as (f & Ef & Hfn). rewrite bind_get, Hmap, Hnext, (bind_ok _ _ _ _ _ Ef).
    unfold MAX_ALLOCATED_FRAMES in *. rewrite bind_chk, bind_assert, bind_put by lia.
    eexists f, _. split; [done|]. split; [done|].
    assert (take (length (handed ++ [f])) (usable_frames entries) = map frame_number (handed ++ [f])) as Htake.
    { rewrite length_app, map_app. cbn. rewrite Nat.add_1_r, Hhand, Hfn. apply take_S_r.
      unfold idx, len in Ei. by rewrite Nat2Z.id in Ei. }
    split.
    + intros Hin. assert (NoDup (map frame_number (handed ++ [f]))) as Hnd'.
      { rewrite <- Htake. apply (sublist_NoDup _ (usable_frames entries)); [done|apply sublist_take]. }
      rewrite map_app in Hnd'. apply NoDup_app in Hnd' as (_ & Hd & _).
      apply (Hd (frame_number f)); [by apply list_elem_of_fmap_2|cbn; set_solver].
    + split; cbn; rewrite ?len_app, ?Hcount; try done; try (unfold len; cbn; lia).
      * rewrite Hfirst. by destruct handed.
      * by rewrite last_snoc.
  - by rewrite bind_get, Hmap, Hnext, (bind_ok _ _ _ _ _ Hnth).
Qed.

(** [allocated_frames] lists consecutive frames from the first one on. *)
Lemma allocated_frames_spec entries handed b f0 :
  map_ok entries -> boot_ok entries handed b -> head handed = Some f0 ->
  (frame_number f0 + len handed) * FRAME_SIZE <= 2 ^ 52 ->
  exists fs, allocated_frames b tt = (Ok fs, tt) /\
    map frame_number fs = range (frame_number f0) (frame_number f0 + len handed).
Proof.
  intros Hmap [_ _ Hcount Hfirst _ _] Hhead Hbound. destruct (frame_number_start f0) as [Hs Hpos].
  unfold allocated_frames. rewrite Hfirst, Hhead. rewrite (bind_expect _ f0), Hcount, Hs by done.
  pose proof (len_nonneg handed).
  assert (forall m : nat, Z.of_nat m <= len handed ->
    exists fs, for_fold (E:=N) (range 0 (Z.of_nat m)) [] (fun acc i =>
      let! addr := chk 64 (frame_number f0 * FRAME_SIZE + i * FRAME_SIZE) in
      let! frame := expect (containing_address addr) in ret (acc ++ [frame])) tt = (Ok fs, tt) /\
    map frame_number fs = range (frame_number f0) (frame_number f0 + Z.of_nat m)) as Hgen.
  { induction m as [|m IH]; intros Hm.
    - exists []. split; [done|]. by rewrite range_nil by lia.
    - destruct (IH ltac:(lia)) as (fs & E & Hfs). rewrite Nat2Z.inj_succ. unfold Z.succ.
      rewrite range_snoc by lia.
      destruct (frame_at (frame_number f0 + Z.of_nat m)) as (f & Ef & Hfn); [lia|unfold FRAME_SIZE in *; lia|].
      exists (fs ++ [f]). split.
      + rewrite for_fold_app, (bind_ok _ _ _ _ _ E). cbn [for_fold].
        rewrite bind_assoc, bind_chk by (unfold FRAME_SIZE in *; lia).
        rewrite <- Z.mul_add_distr_r, bind_assoc, (bind_expect _ f) by done. done.
      + rewrite map_app, Hfs, Z.add_assoc, range_snoc by lia. cbn. by rewrite Hfn. }
  destruct (Hgen (length handed)) as (fs & E & Hfs); [unfold len; lia|]. by exists fs.
Qed.
End boot_proofs.
