(* ===== verification/FrameSafety.v ===== *)
(** * What the frame allocators guarantee

    Theorems over [Frames]: allocation and deallocation as steps of the set of
    free frames, safety of any run of the bitmap allocator, its state after
    [init], and the hand-over from the boot allocator.  The behaviours that
    differ from the intended ones (the exhaustion test, the double-free check,
    the hand-over across gaps) are proved as they are. *)

From S2P Require Import Prelude Frames.

Section safety.
Context {F : Type} `{PhysFramesLaws F}.

(** With a free frame and the counter not equal to the total,
    [allocate_frame] returns within [total_frames] rounds: it takes the first
    free frame at or after the cursor, cyclically, marks exactly that frame
    used and leaves the cursor after it. *)
Theorem allocate_frame_ok (slack : Z) (a : BitmapFrameAllocator) (fuel : nat) :
  bm_ok slack a -> free_frames a <> total_frames a -> free_set a <> ∅ ->
  total_frames a <= Z.of_nat fuel -> allocate_count a < 2 ^ 64 - 1 ->
  exists i f a', next_free a = Some i /\ allocate_frame (F:=F) fuel a = (Ok (Some f), a') /\
    start_address f = i * FRAME_SIZE /\ i ∈ free_set a /\ free_set a' = free_set a ∖ {[i]} /\
    to_allocate a' = (i + 1) mod total_frames a /\ bm_ok slack a'.
Proof.
  intros Hbm Hne Hfree Hfuel Hc.
  destruct (allocate_frame_step slack a fuel Hbm Hne Hfree Hfuel Hc) as (i & f & a' & ? & ? & ? & ? & ? & _ & ? & ? & _).
  by exists i, f, a'.
Qed.

Lemma allocate_loop_not_none fuel : forall a a', allocate_loop (F:=F) fuel a <> (Ok None, a').
Proof.
  induction fuel as [|fuel IH]; intros a a'; [done|]. cbn [allocate_loop]. intros E.
  rewrite bind_get in E. apply bind_ok_inv in E as (u & s1 & _ & E). destruct u; cbn [negb] in E.
  - apply bind_ok_inv in E as (n & s2 & _ & E). apply bind_ok_inv in E as (? & s3 & _ & E). by apply IH in E.
  - do 6 (apply bind_ok_inv in E as (? & ? & _ & E)).
    apply bind_ok_inv in E as (? & ? & _ & E). done.
Qed.

(** [allocate_frame] answers [None] exactly when the counter of free frames
    equals the number of frames, that is, when the number of frames still free
    is [total_frames - slack]; with the counts [init] leaves, that is the number
    of frames below the top of memory that are not usable at all. *)
Theorem allocate_none_exact (slack : Z) (a : BitmapFrameAllocator) (fuel : nat) :
  bm_ok slack a ->
  (exists a', allocate_frame (F:=F) fuel a = (Ok None, a')) <->
  Z.of_nat (size (free_set a)) = total_frames a - slack.
Proof.
  intros [_ _ Hf _ _]. unfold allocate_frame. rewrite bind_get.
  destruct (free_frames a =? total_frames a) eqn:E.
  - split; [lia|]. intros _. by exists a.
  - split; [|lia]. intros [a' Ha]. by apply allocate_loop_not_none in Ha.
Qed.

(** When nothing is free and the counter differs from the total,
    [allocate_frame] never returns. *)
Theorem allocate_exhausted_spins (slack : Z) (a : BitmapFrameAllocator) (fuel : nat) :
  bm_ok slack a -> free_set a = ∅ -> slack <> total_frames a ->
  exists a', allocate_frame (F:=F) fuel a = (Diverge, a').
Proof.
  intros [Hok Ht Hf _ _] Hempty Hne. unfold allocate_frame. rewrite bind_get, Hf, Hempty, size_empty.
  replace (_ =? _) with false by lia. apply allocate_loop_spins; [done|done|].
  intros i Hi. destruct (used a i) eqn:Hu; [done|]. exfalso.
  assert (i ∈ free_set a) by by apply elem_of_free_set. set_solver.
Qed.

(** Giving back a frame that is in use succeeds and makes exactly that frame
    free; giving back a frame that is free panics if the 64 frames of its word
    are all free, and otherwise goes unnoticed and counts the frame again. *)
Theorem deallocate_frame_cases (slack : Z) (a : BitmapFrameAllocator) (f : F) :
  bm_ok slack a -> frame_number f < total_frames a -> free_count a < 2 ^ 64 - 1 ->
  if used a (frame_number f) then
    exists a', deallocate_frame f a = (Ok tt, a') /\ free_set a' = {[frame_number f]} ∪ free_set a /\ bm_ok slack a'
  else if forallb (fun j => negb (used a (frame_number f / 64 * 64 + j))) (range 0 64) then
    fst (deallocate_frame f a) = Panic
  else
    exists a', deallocate_frame f a = (Ok tt, a') /\ free_set a' = free_set a /\
      free_frames a' = free_frames a + 1.
Proof.
  intros Hbm Hlt Hc. pose proof (bm_free_range _ _ Hbm). pose proof Hbm as [Hok _ _ Hsl [_ Hfc]].
  destruct (used a (frame_number f)) eqn:Hu.
  { destruct (deallocate_frame_step slack a f) as (a' & E & Hs & _ & _ & Hbm' & _); try done. by exists a'. }
  destruct (frame_number_start f) as [_ Hpos]. set (i := frame_number f) in *.
  set (a1 := set_free_count a (free_count a + 1)). assert (bits_ok a1) as Hok1 by (destruct Hok; by split).
  destruct (clear_word_spec a1 i Hok1 ltac:(cbn; lia)) as (w & b & Hw & Hb & Hok' & Hu' & _).
  assert (deallocate_frame f a =
    if w =? 0 then (Panic, a1) else (Ok tt, set_bitmap a1 b (free_frames a1 + 1))) as E.
  { unfold deallocate_frame. rewrite bind_get, bind_chk, bind_put by lia. fold a1.
    unfold mark_frame_free, clear_bit. change (start_address f / FRAME_SIZE) with i.
    rewrite bind_get, bind_assert by (cbn; lia). rewrite (bind_expect _ w) by done.
    destruct (w =? 0) eqn:Ew; [by replace (w =? 1) with false by lia|].
    rewrite bind_ret, bind_chk by (cbn; lia). by rewrite <- Hb. }
  assert (forall j, 0 <= j < 64 -> used a (i / 64 * 64 + j) = Z.testbit w j) as Hword.
  { intros j Hj. unfold used. change (bitmap a) with (bitmap a1).
    replace ((i / 64 * 64 + j) / 64) with (i / 64) by dlia. rewrite Hw. cbn. f_equal. dlia. }
  destruct (forallb _ _) eqn:Hall; rewrite E.
  - rewrite forallb_range in Hall. replace (w =? 0) with true; [done|]. symmetry. apply Z.eqb_eq, Z.bits_inj'.
    intros k Hk. rewrite Z.bits_0. destruct (decide (k < 64)).
    + rewrite <- Hword by lia. by apply negb_true_iff, Hall.
    + destruct (word_in_range a1 i Hok1 ltac:(cbn; lia)) as (w' & Hw' & Hwr & _).
      rewrite Hw in Hw'. injection Hw' as <-. destruct (decide (w = 0)) as [->|]; [apply Z.bits_0|].
      apply Z.bits_above_log2; [lia|]. apply Z.lt_le_trans with 64; [|lia]. apply Z.log2_lt_pow2; lia.
  - destruct (w =? 0) eqn:Ew.
    + exfalso. apply not_true_iff_false in Hall. apply Hall. rewrite forallb_range. intros j Hj.
      rewrite Hword by done. assert (w = 0) as -> by lia. by rewrite Z.bits_0.
    + eexists. split; [done|]. split; [|done].
      rewrite (free_set_give a _ i); [|done|lia|exact Hu']. apply set_eq. intros x.
      rewrite elem_of_union, elem_of_singleton. split; [|by right].
      intros [->|?]; [|done]. apply elem_of_free_set. split; [lia|done].
Qed.

(** ** Runs *)

(** The allocator and the numbers of the frames its clients hold. *)
Inductive step : BitmapFrameAllocator * gset Z -> BitmapFrameAllocator * gset Z -> Prop :=
| step_alloc a held f a' :
    allocate_frame (F:=F) (Z.to_nat (total_frames a)) a = (Ok (Some f), a') ->
    step (a, held) (a', {[frame_number f]} ∪ held)
| step_none a held a' :
    allocate_frame (F:=F) (Z.to_nat (total_frames a)) a = (Ok None, a') -> step (a, held) (a', held)
| step_dealloc a held f a' :
    frame_number f ∈ held -> deallocate_frame (F:=F) f a = (Ok tt, a') ->
    step (a, held) (a', held ∖ {[frame_number f]}).

Inductive runs (s : BitmapFrameAllocator * gset Z) : nat -> BitmapFrameAllocator * gset Z -> Prop :=
| runs_start : runs s 0 s
| runs_step n s1 s2 : runs s n s1 -> step s1 s2 -> runs s (S n) s2.

(** The clients' frames and the free frames are disjoint, and together they
    are always the same set. *)
Record run_inv (slack : Z) (all : gset Z) (total : Z) (n : nat) (s : BitmapFrameAllocator * gset Z) : Prop := {
  ri_bm : bm_ok slack (fst s);
  ri_total : total_frames (fst s) = total;
  ri_disjoint : snd s ## free_set (fst s);
  ri_all : snd s ∪ free_set (fst s) = all;
  ri_range : forall i, i ∈ snd s -> 0 <= i < total;
  ri_counts : allocate_count (fst s) <= Z.of_nat n /\ free_count (fst s) <= Z.of_nat n
}.

(** Allocation never hands out a held frame, whatever it does. *)
Lemma allocate_inv slack all total n a held f a' :
  run_inv slack all total n (a, held) -> Z.of_nat n < 2 ^ 64 - 1 ->
  allocate_frame (F:=F) (Z.to_nat (total_frames a)) a = (Ok (Some f), a') ->
  (frame_number f ∉ held) /\ run_inv slack all total (S n) (a', {[frame_number f]} ∪ held).
Proof.
  intros [Hbm Htot Hdis Hall Hrange [Hc1 Hc2]] Hn E. cbn [fst snd] in *.
  destruct (decide (free_set a = ∅)) as [Hempty|Hne].
  { exfalso. destruct Hbm as [Hok Ht Hf _ _]. unfold allocate_frame in E. rewrite bind_get in E.
    destruct (free_frames a =? total_frames a); [done|].
    destruct (allocate_loop_spins (F:=F) (Z.to_nat (total_frames a)) a Hok Ht) as [a2 E2]; [|congruence].
    intros i Hi. destruct (used a i) eqn:Hu; [done|]. exfalso.
    assert (i ∈ free_set a) by by apply elem_of_free_set. set_solver. }
  destruct (decide (free_frames a = total_frames a)) as [Heq|Hneq].
  { exfalso. unfold allocate_frame in E. rewrite bind_get, Heq, Z.eqb_refl in E. done. }
  pose proof (bo_total _ (bm_bits _ _ Hbm)).
  destruct (allocate_frame_step slack a (Z.to_nat (total_frames a)) Hbm Hneq Hne ltac:(lia) ltac:(lia))
    as (i & g & a2 & _ & E2 & Hs & Hi & Hset & Ht2 & _ & Hbm2 & Hca & Hcf).
  rewrite E in E2. injection E2 as <- <-.
  assert (frame_number f = i) as -> by (unfold frame_number; rewrite Hs; unfold FRAME_SIZE; by rewrite Z.div_mul).
  assert (i ∉ held) as Hnot by set_solver. split; [done|].
  assert (0 <= i < total) by (apply elem_of_free_set in Hi; lia).
  split; cbn [fst snd]; try done.
  - congruence.
  - rewrite Hset. set_solver.
  - rewrite Hset, <- Hall. apply set_eq. intros x. destruct (decide (x = i)); set_solver.
  - intros j. rewrite elem_of_union, elem_of_singleton. intros [->|?]; [done|by apply Hrange].
  - lia.
Qed.

Lemma deallocate_inv slack all total n a held (f : F) :
  run_inv slack all total n (a, held) -> Z.of_nat n < 2 ^ 64 - 1 -> frame_number f ∈ held ->
  exists a', deallocate_frame f a = (Ok tt, a') /\ frame_number f ∈ free_set a' /\
    run_inv slack all total (S n) (a', held ∖ {[frame_number f]}).
Proof.
  intros [Hbm Htot Hdis Hall Hrange [Hc1 Hc2]] Hn Hf. cbn [fst snd] in *.
  pose proof (Hrange _ Hf) as Hr. set (i := frame_number f) in *.
  assert (used a i = true) as Hu.
  { destruct (used a i) eqn:Hu; [done|]. exfalso.
    assert (i ∈ free_set a) by (apply elem_of_free_set; split; [lia|done]). set_solver. }
  assert (start_address f / FRAME_SIZE < total_frames a) as Hlt by (change (i < total_frames a); lia).
  destruct (deallocate_frame_step slack a f Hbm Hlt Hu ltac:(lia))
    as (a' & E & Hset & Ht & _ & Hbm' & Hca & Hcf). change (start_address f / FRAME_SIZE) with i in Hset.
  exists a'. split; [done|]. split; [set_solver|]. split; cbn [fst snd]; try done.
  - congruence.
  - rewrite Hset. set_solver.
  - rewrite Hset, <- Hall. apply set_eq. intros x. destruct (decide (x = i)); set_solver.
  - intros j. set_solver.
  - lia.
Qed.

Lemma step_inv slack all total n s s' :
  run_inv slack all total n s -> Z.of_nat n < 2 ^ 64 - 1 -> step s s' -> run_inv slack all total (S n) s'.
Proof.
  intros Hinv Hn Hstep. destruct Hstep as [a held f a' E|a held a' E|a held f a' Hf E].
  - by apply (allocate_inv slack all total n a held f a').
  - unfold allocate_frame in E. rewrite bind_get in E. destruct (_ =? _) eqn:Eq.
    + injection E as <-. destruct Hinv as [? ? ? ? ? [? ?]]. split; try done. cbn in *. lia.
    + by apply allocate_loop_not_none in E.
  - destruct (deallocate_inv slack all total n a held f Hinv Hn Hf) as (a2 & E2 & _ & Hinv2). congruence.
Qed.

Lemma runs_inv slack all total n s s' :
  run_inv slack all total 0 s -> runs s n s' -> Z.of_nat n < 2 ^ 64 -> run_inv slack all total n s'.
Proof.
  intros Hstart Hr. induction Hr as [|n s1 s2 Hr IH Hst]; intros Hn; [done|].
  eapply step_inv; [apply IH; lia|lia|done].
Qed.

(** C3: From the state [init] builds, through any run of fewer than 2^63
    allocations and deallocations of held frames: the held frames and the free
    frames are disjoint and together are exactly the usable frames of the
    memory map, an allocation never returns a held frame, and giving back a held
    frame always succeeds and makes it allocatable again. *)
Theorem frame_run_safe (entries : list Entry) (fs : list F) (a0 : BitmapFrameAllocator)
    (n : nat) (a : BitmapFrameAllocator) (held : gset Z) :
  map_ok entries -> NoDup fs -> Forall (fun f => frame_number f ∈ usable_frames entries) fs ->
  len fs < top entries / FRAME_SIZE -> init entries fs = Ok a0 ->
  runs (a0, list_to_set (map frame_number fs)) n (a, held) -> Z.of_nat n < 2 ^ 63 ->
  held ## free_set a /\ held ∪ free_set a = list_to_set (usable_frames entries) /\
  (forall f a', allocate_frame (Z.to_nat (total_frames a)) a = (Ok (Some f), a') -> frame_number f ∉ held) /\
  (forall f : F, frame_number f ∈ held ->
     exists a', deallocate_frame f a = (Ok tt, a') /\ frame_number f ∈ free_set a').
Proof.
  intros Hmap Hnd Hin Hlen E0 Hr Hn.
  destruct (init_spec entries fs Hmap Hnd Hin Hlen) as (a1 & E1 & Hbm & Hset & Htot & Hca & Hcf).
  rewrite E0 in E1. injection E1 as <-. destruct Hmap as [He _].
  destruct (top_bounds entries He) as (_ & _ & Hrange).
  assert (forall x, x ∈ map frame_number fs -> x ∈ usable_frames entries) as Hsub.
  { intros x (f & -> & Hf)%list_elem_of_fmap. by apply (proj1 (Forall_forall _ _) Hin). }
  assert (run_inv (len (usable_frames entries)) (list_to_set (usable_frames entries))
            (top entries / FRAME_SIZE) n (a, held)) as Hinv.
  { eapply runs_inv; [|exact Hr|lia]. split; cbn [fst snd]; try done.
    - rewrite Hset. set_solver.
    - rewrite Hset. apply set_eq. intros x. rewrite elem_of_union, elem_of_difference, !elem_of_list_to_set.
      destruct (decide (x ∈ map frame_number fs)); naive_solver.
    - intros i Hi%elem_of_list_to_set%Hsub. by apply (proj1 (Forall_forall _ _) Hrange).
    - lia. }
  split_and!; [apply Hinv|apply Hinv| |].
  - intros f a' E. eapply (proj1 (allocate_inv _ _ _ n a held f a' Hinv ltac:(lia) E)).
  - intros f Hf. destruct (deallocate_inv _ _ _ n a held f Hinv ltac:(lia) Hf) as (a' & ? & ? & _). by exists a'.
Qed.

(** C24: [init] on a well-formed memory map and the distinct usable frames
    already in use builds an allocator whose free frames are the other usable
    frames; its counter, however, is [2 * usable - in use], since every usable
    frame is counted twice. *)
Theorem init_ok (entries : list Entry) (fs : list F) :
  map_ok entries -> NoDup fs -> Forall (fun f => frame_number f ∈ usable_frames entries) fs ->
  len fs < top entries / FRAME_SIZE ->
  exists a, init entries fs = Ok a /\
    free_set a = list_to_set (usable_frames entries) ∖ list_to_set (map frame_number fs) /\
    total_frames a = top entries / FRAME_SIZE /\
    free_frames a = Z.of_nat (size (free_set a)) + len (usable_frames entries).
Proof.
  intros Hmap Hnd Hin Hlen.
  destruct (init_spec entries fs Hmap Hnd Hin Hlen) as (a & E & Hbm & Hset & Htot & _).
  exists a. split_and!; try done. by destruct Hbm.
Qed.
End safety.

(** ** The hand-over *)

Section handover.
Context {F : Type} `{PhysFramesLaws F}.

(** [k] calls of [alloc_frame], collecting the frames. *)
Fixpoint alloc_frames (k : nat) : M (option (GlobalFrameAllocator F)) N (list F) :=
  match k with
  | O => ret []
  | S k' =>
      let! f := alloc_frame 0 in
      let! fs := alloc_frames k' in
      ret (match f with Some f => f :: fs | None => fs end)
  end.

Lemma alloc_frames_boot entries k : forall handed b,
  map_ok entries -> boot_ok entries handed b ->
  len handed + Z.of_nat k <= MAX_ALLOCATED_FRAMES -> len handed + Z.of_nat k <= len (usable_frames entries) ->
  exists fs b', alloc_frames k (Some (Boot b)) = (Ok fs, Some (Boot b')) /\
    boot_ok entries (handed ++ fs) b' /\ length fs = k.
Proof.
  induction k as [|k IH]; intros handed b Hmap Hb Hmax Hlen.
  { exists [], b. by rewrite app_nil_r. }
  pose proof (len_nonneg handed).
  pose proof (boot_allocate_spec entries handed b Hmap Hb ltac:(lia)) as Hal.
  destruct (idx_is_Some (usable_frames entries) (len handed) ltac:(lia)) as [i Hi]. rewrite Hi in Hal.
  destruct Hal as (f & b1 & E1 & _ & _ & Hb1).
  destruct (IH (handed ++ [f]) b1 Hmap Hb1) as (fs & b' & E2 & Hb' & Hl);
    [rewrite len_app; unfold len at 2; cbn; lia..|].
  exists (f :: fs), b'. split_and!.
  - cbn [alloc_frames].
    assert (alloc_frame 0 (Some (Boot b)) = (Ok (Some f), Some (Boot b1))) as E
      by (unfold alloc_frame, with_generic_allocator; rewrite bind_get; cbn; unfold on_boot; by rewrite E1).
    by rewrite (bind_ok _ _ _ _ _ E), (bind_ok _ _ _ _ _ E2).
  - by rewrite <- app_assoc in Hb'.
  - cbn. by rewrite Hl.
Qed.

(** C25: If the frames the boot allocator handed out are consecutive (they are
    when the first usable region is large enough), switching to the bitmap
    allocator loses and duplicates nothing: the free frames are exactly the
    usable frames that were not handed out. *)
Theorem switch_allocator_safe (entries : list Entry) (ks ke : Z) (k : nat) (u0 : Z) :
  map_ok entries -> (0 < k)%nat -> Z.of_nat k <= MAX_ALLOCATED_FRAMES ->
  take k (usable_frames entries) = range u0 (u0 + Z.of_nat k) ->
  Z.of_nat k < top entries / FRAME_SIZE ->
  exists fs a,
    (let! fs := alloc_frames k in switch_allocator ;! ret fs)
      (Some (Boot (mkBoot entries 0 None None 0 ks ke))) = (Ok fs, Some (Bitmap a)) /\
    length fs = k /\ NoDup fs /\ bm_ok (len (usable_frames entries)) a /\
    free_set a = list_to_set (usable_frames entries) ∖ list_to_set (map frame_number fs).
Proof.
  intros Hmap Hk Hmax Hcontig Htop. pose proof Hmap as [He Hnd].
  assert (length (take k (usable_frames entries)) = k) as Hlt
    by (rewrite Hcontig, length_range; lia).
  rewrite length_take in Hlt.
  destruct (alloc_frames_boot entries k [] (mkBoot entries 0 None None 0 ks ke)) as (fs & b & E & Hb & Hl);
    [done|by split|unfold len; cbn; lia|unfold len; cbn; lia|]. cbn [app] in Hb.
  pose proof (bk_handed _ _ _ Hb) as Hfs. rewrite Hl, Hcontig in Hfs.
  destruct fs as [|f0 fs']; [cbn in Hl; lia|]. set (fs := f0 :: fs') in *.
  assert (frame_number f0 = u0) as Hu0.
  { rewrite range_cons in Hfs by lia. by injection Hfs. }
  destruct (top_bounds entries He) as (Htb & Htm & Hrange).
  assert (Forall (fun i => i ∈ usable_frames entries) (map frame_number fs)) as Hin.
  { rewrite Hfs, <- Hcontig. apply Forall_forall. intros x Hx. by apply elem_of_take in Hx as (j & Hj%list_elem_of_lookup_2 & _). }
  assert (NoDup fs) as Hndf.
  { apply (NoDup_fmap_1 frame_number). change (frame_number <$> fs) with (map frame_number fs).
    rewrite Hfs. apply NoDup_range. }
  destruct (allocated_frames_spec entries fs b f0 Hmap Hb eq_refl) as (gs & Eg & Hgs).
  { assert (u0 + Z.of_nat k - 1 ∈ usable_frames entries) as Hlast.
    { assert (u0 + Z.of_nat k - 1 ∈ take k (usable_frames entries)) as Hx
        by (rewrite Hcontig; apply elem_of_range; lia).
      by apply elem_of_take in Hx as (j & Hj%list_elem_of_lookup_2 & _). }
    pose proof (proj1 (Forall_forall _ _) Hrange _ Hlast) as Hr. cbn in Hr.
    unfold len. rewrite Hl, Hu0. unfold FRAME_SIZE in *. dlia. }
  assert (gs = fs) as ->.
  { apply (list_fmap_eq_inj frame_number); [intros x y; apply frame_number_inj|].
    change (map frame_number gs = map frame_number fs). rewrite Hgs, Hfs, Hu0. unfold len. by rewrite Hl. }
  destruct (init_spec entries fs Hmap Hndf) as (a & Ei & Hbm & Hset & _).
  { apply Forall_forall. intros f Hf. apply (proj1 (Forall_forall _ _) Hin). by apply list_elem_of_fmap_2. }
  { unfold len. by rewrite Hl. }
  exists fs, a. split_and!; try done.
  rewrite (bind_ok _ _ _ _ _ E). unfold switch_allocator.
  rewrite bind_assoc, bind_get. rewrite Eg, (bk_map _ _ _ Hb), Ei. done.
Qed.
End handover.

(** ** A concrete kind of frame, and runs on it *)

(** Frames as numbers below 2^40. *)
Definition Frame : Type := dsig (fun i : Z => 0 <= i < 2 ^ 40).

Definition frame_containing (a : Z) : option Frame :=
  match decide (0 <= a / FRAME_SIZE < 2 ^ 40) with
  | left H => Some (dexist (a / FRAME_SIZE) H)
  | right _ => None
  end.

#[global] Instance Frame_PhysFrames : PhysFrames Frame := {
  containing_address := frame_containing;
  start_address f := proj1_sig f * FRAME_SIZE
}.

#[global] Instance Frame_Laws : PhysFramesLaws Frame.
Proof.
  split.
  - intros a Ha. cbn. unfold frame_containing. destruct (decide _) as [Hd|Hd].
    + eexists. split; [done|]. cbn. unfold FRAME_SIZE. dlia.
    + exfalso. apply Hd. unfold FRAME_SIZE. dlia.
  - intros f. cbn. pose proof (proj2_dsig f) as Hf. cbn in Hf. unfold FRAME_SIZE in *.
    split; [lia|]. by rewrite Z.mod_mul.
  - intros f g E. apply dsig_eq. cbn in E. unfold FRAME_SIZE in E. lia.
Qed.

(** Eight frames, of which 0 to 3 and 6 to 7 are usable. *)
Definition demo_map : list Entry := [mkEntry 0 16384 true; mkEntry 16384 8192 false; mkEntry 24576 8192 true].

Lemma demo_map_ok : map_ok demo_map.
Proof.
  split.
  - repeat (apply Forall_cons; split; [intros Hu; split_and!; (done || discriminate)|]). apply Forall_nil_2.
  - change (usable_frames demo_map) with [0; 1; 2; 3; 6; 7].
    apply (bool_decide_unpack _). by vm_compute.
Qed.

(** Boot allocations, the switch, and one more allocation: the numbers of the
    frames handed out before and after the switch. *)
Definition boot_switch_alloc (map_ : list Entry) (k fuel : nat) : outcome N (list Z * option Z) :=
  match (let! fs := alloc_frames (F:=Frame) k in switch_allocator ;! let! f := alloc_frame fuel in ret (fs, f))
          (Some (Boot (mkBoot map_ 0 None None 0 0 0))) with
  | (Ok (fs, f), _) => Ok (map frame_number fs, option_map frame_number f)
  | (Err e, _) => Err e
  | (Panic, _) => Panic
  | (Diverge, _) => Diverge
  end.

(** Across a gap in usable memory the hand-over is unsafe: with usable
    frames 0-3 and 6-7, after five boot allocations (0, 1, 2, 3 and 6) the
    bitmap allocator hands out frame 6 a second time. *)
Theorem switch_across_gap_duplicates :
  boot_switch_alloc demo_map 5 8 = Ok ([0; 1; 2; 3; 6], Some 6).
Proof. vm_compute. reflexivity. Qed.

(** Two frames of which the first, or both, are used. *)
Definition one_free : BitmapFrameAllocator := mkBitmap 2 1 0 [1] 0 0.
Definition none_free : BitmapFrameAllocator := mkBitmap 2 0 0 [3] 0 0.

Lemma one_free_ok : bm_ok 0 one_free.
Proof.
  split; [split|..]; cbn; try (done || lia).
  apply Forall_singleton. lia.
Qed.

Lemma none_free_ok : bm_ok 0 none_free.
Proof.
  split; [split|..]; cbn; try (done || lia).
  apply Forall_singleton. lia.
Qed.

Definition frame0 : Frame := dexist 0 (conj (Z.le_refl 0) (eq_refl : 0 < 2 ^ 40)).

Lemma frame0_number : frame_number frame0 = 0.
Proof. reflexivity. Qed.

Lemma allocate_frame_ok_witness :
  exists f a', allocate_frame (F:=Frame) 2 one_free = (Ok (Some f), a') /\ start_address f = 4096.
Proof.
  destruct (allocate_frame_ok (F:=Frame) 0 one_free 2) as (i & f & a' & Hi & E & Hs & _).
  - exact one_free_ok.
  - discriminate.
  - intros Hf. apply (f_equal (fun X => bool_decide (1 ∈ X))) in Hf. vm_compute in Hf. discriminate Hf.
  - discriminate.
  - reflexivity.
  - exists f, a'. split; [exact E|]. vm_compute in Hi. injection Hi as <-. exact Hs.
Defined.

Lemma allocate_none_exact_witness : ~ exists a', allocate_frame (F:=Frame) 2 one_free = (Ok None, a').
Proof.
  intros Hn. apply (proj1 (allocate_none_exact (F:=Frame) 0 one_free 2 one_free_ok)) in Hn.
  vm_compute in Hn. discriminate Hn.
Defined.

Lemma allocate_exhausted_spins_witness : exists a', allocate_frame (F:=Frame) 1000 none_free = (Diverge, a').
Proof.
  apply (allocate_exhausted_spins (F:=Frame) 0 none_free 1000 none_free_ok).
  - vm_compute. reflexivity.
  - discriminate.
Defined.

Lemma deallocate_frame_cases_witness :
  exists a', deallocate_frame frame0 one_free = (Ok tt, a') /\ bm_ok 0 a'.
Proof.
  assert (frame_number frame0 < total_frames one_free) as Hlt by reflexivity.
  pose proof (deallocate_frame_cases (F:=Frame) 0 one_free frame0 one_free_ok Hlt eq_refl) as Hc.
  rewrite frame0_number in Hc. change (used one_free 0) with true in Hc. cbv iota in Hc.
  destruct Hc as (a' & E & _ & Hb). exists a'. split; [exact E|exact Hb].
Defined.

Lemma demo_init_hyps :
  NoDup [frame0] /\ Forall (fun f => frame_number f ∈ usable_frames demo_map) [frame0] /\
  len [frame0] < top demo_map / FRAME_SIZE.
Proof.
  split_and!; [apply NoDup_singleton| |reflexivity].
  apply Forall_singleton. rewrite frame0_number. change (usable_frames demo_map) with [0; 1; 2; 3; 6; 7]. set_solver.
Qed.

Lemma init_ok_witness : exists a, init demo_map [frame0] = Ok a /\ free_frames a = 11.
Proof.
  destruct demo_init_hyps as (Hn & Hi & Hl).
  destruct (init_ok demo_map [frame0] demo_map_ok Hn Hi Hl) as (a & E & _).
  exists a. split; [exact E|]. vm_compute in E. injection E as <-. reflexivity.
Defined.

Lemma frame_run_safe_witness :
  exists a0, init demo_map [frame0] = Ok a0 /\ 0 ∉ free_set a0.
Proof.
  destruct demo_init_hyps as (Hn & Hi & Hl).
  destruct (init_spec demo_map [frame0] demo_map_ok Hn Hi Hl) as (a0 & E & _).
  exists a0. split; [exact E|].
  pose proof (frame_run_safe demo_map [frame0] a0 0 a0 _ demo_map_ok Hn Hi Hl E (runs_start _) eq_refl)
    as (Hd & _ & _).
  intros Hf. apply (Hd 0); [|exact Hf]. cbn. rewrite frame0_number. set_solver.
Defined.

Lemma switch_allocator_safe_witness :
  exists fs a, (let! fs := alloc_frames (F:=Frame) 4 in switch_allocator ;! ret fs)
      (Some (Boot (mkBoot demo_map 0 None None 0 0 0))) = (Ok fs, Some (Bitmap a)) /\ length fs = 4%nat.
Proof.
  destruct (switch_allocator_safe (F:=Frame) demo_map 0 0 4 0) as (fs & a & E & Hl & _).
  - exact demo_map_ok.
  - lia.
  - discriminate.
  - reflexivity.
  - reflexivity.
  - exists fs, a. split; [exact E|exact Hl].
Defined.
