(* ===== verification/FrameStore.v ===== *)
(** * What the frame allocator promises its clients

    Paging, the loader and process teardown take frames and give them back
    through [alloc_frame] and [dealloc_frame] of [memory/frame_allocator.rs].
    [FrameStore] states what they rely on, as a set of free frames; the bitmap
    allocator is an instance, by the lemmas of [Frames].

    [ready n g] says that [n] more operations are within the allocator's means:
    so many frames are free, its counters have room, and its test for
    exhaustion, which compares two counters, does not fire on the way. *)

From S2P Require Import Prelude Frames.

Class FrameStore (F G : Type) := {
  store_alloc : M G no_error (option F);
  store_dealloc : F -> M G no_error unit;
  avail : G -> gset Z;
  total : G -> Z;
  ready : nat -> G -> Prop
}.

Class FrameStoreLaws (F G : Type) `{PhysFrames F} `{FrameStore F G} := {
  store_alloc_law (n : nat) (g : G) : ready (S n) g ->
    exists f g', store_alloc g = (Ok (Some f), g') /\ frame_number f ∈ avail g /\
      avail g' = avail g ∖ {[frame_number f]} /\ total g' = total g /\ ready n g';
  store_dealloc_law (n : nat) (g : G) (f : F) :
    ready (S n) g -> frame_number f < total g -> frame_number f ∉ avail g ->
    exists g', store_dealloc f g = (Ok tt, g') /\
      avail g' = {[frame_number f]} ∪ avail g /\ total g' = total g /\ ready n g';
  store_avail_range (n : nat) (g : G) (i : Z) : ready n g -> i ∈ avail g -> 0 <= i < total g;
  store_ready_le (n : nat) (g : G) : ready (S n) g -> ready n g
}.

Section consequences.
Context {F G : Type} `{FrameStoreLaws F G}.

Lemma ready_mono n m g : (n <= m)%nat -> ready m g -> ready n g.
Proof. induction 1; [done|]. intros Hr. by apply IHle, store_ready_le. Qed.

(** A frame just taken is not free any more, and lies below the top of memory. *)
Lemma alloc_fresh n g : ready (S n) g ->
  exists f g', store_alloc g = (Ok (Some f), g') /\ frame_number f ∈ avail g /\ (frame_number f ∉ avail g') /\
    avail g' ⊆ avail g /\ avail g' = avail g ∖ {[frame_number f]} /\ frame_number f < total g /\
    total g' = total g /\ ready n g'.
Proof.
  intros Hr. destruct (store_alloc_law n g Hr) as (f & g' & E & Hin & Ha & Ht & Hr').
  destruct (store_avail_range _ _ _ Hr Hin) as [_ Hlt].
  exists f, g'. split_and!; try done; rewrite Ha; set_solver.
Qed.
End consequences.

(** ** The bitmap allocator behind [FRAME_ALLOCATOR] *)

Section bitmap_store.
Context {F : Type} `{PhysFramesLaws F} (fuel : nat).

Definition bitmap_ready (n : nat) (a : BitmapFrameAllocator) : Prop :=
  exists slack, bm_ok slack a /\ total_frames a <= Z.of_nat fuel /\
    Z.of_nat n <= Z.of_nat (size (free_set a)) /\ total_frames a + Z.of_nat n <= free_frames a /\
    allocate_count a + Z.of_nat n < 2 ^ 64 /\ free_count a + Z.of_nat n < 2 ^ 64.

#[local] Instance global_store : FrameStore F (option (GlobalFrameAllocator F)) := {
  store_alloc := alloc_frame fuel;
  store_dealloc := dealloc_frame;
  avail g := match g with Some (Bitmap a) => free_set a | _ => ∅ end;
  total g := match g with Some (Bitmap a) => total_frames a | _ => 0 end;
  ready n g := match g with Some (Bitmap a) => bitmap_ready n a | _ => False end
}.

Lemma alloc_frame_bitmap (a : BitmapFrameAllocator) r a' :
  allocate_frame (F:=F) fuel a = (r, a') -> alloc_frame fuel (Some (Bitmap a)) = (r, Some (Bitmap a')).
Proof. intros E. unfold alloc_frame, with_generic_allocator. rewrite bind_get. cbn. unfold on_bitmap. by rewrite E. Qed.

Lemma dealloc_frame_bitmap (a : BitmapFrameAllocator) (f : F) r a' :
  deallocate_frame f a = (r, a') -> dealloc_frame f (Some (Bitmap a)) = (r, Some (Bitmap a')).
Proof. intros E. unfold dealloc_frame, with_generic_allocator. rewrite bind_get. cbn. unfold on_bitmap. by rewrite E. Qed.

Lemma global_store_alloc n (g : option (GlobalFrameAllocator F)) : ready (S n) g ->
  exists f g', store_alloc g = (Ok (Some f), g') /\ frame_number f ∈ avail g /\
    avail g' = avail g ∖ {[frame_number f]} /\ total g' = total g /\ ready n g'.
Proof.
  destruct g as [[b|a]|]; [done| |done]. intros (slack & Hbm & Hfuel & Hsz & Hfree & Hc1 & Hc2).
  pose proof (bm_free _ _ Hbm) as Hcount.
  destruct (allocate_frame_step (F:=F) slack a fuel) as
    (i & f & a' & _ & E & Hst & Hin & Hset & Htot & _ & Hbm' & Hac & Hfc); try done; [lia| |lia|].
  { intros E. rewrite E, size_empty in Hsz. lia. }
  assert (frame_number f = i) as <-.
  { unfold frame_number. rewrite Hst. by apply Z.div_mul. }
  exists f, (Some (Bitmap a')). split_and!; try done; [by apply alloc_frame_bitmap|].
  pose proof (bm_free _ _ Hbm') as Hcount'.
  assert (size (free_set a') = size (free_set a) - 1)%nat as Hs.
  { rewrite Hset, size_difference by set_solver. by rewrite size_singleton. }
  exists slack. rewrite Hac, Hfc, Htot. split_and!; try done; lia.
Qed.

Lemma global_store_dealloc n (g : option (GlobalFrameAllocator F)) (f : F) :
  ready (S n) g -> frame_number f < total g -> frame_number f ∉ avail g ->
  exists g', store_dealloc f g = (Ok tt, g') /\
    avail g' = {[frame_number f]} ∪ avail g /\ total g' = total g /\ ready n g'.
Proof.
  destruct g as [[b|a]|]; [done| |done]. intros (slack & Hbm & Hfuel & Hsz & Hfree & Hc1 & Hc2) Hlt Hno.
  pose proof (bm_free _ _ Hbm) as Hcount. destruct (frame_number_start f) as [_ Hpos].
  assert (used a (frame_number f) = true) as Hu.
  { apply not_false_iff_true. intros Hu. by apply Hno, elem_of_free_set. }
  destruct (deallocate_frame_step slack a f) as (a' & E & Hset & Htot & _ & Hbm' & Hac & Hfc); try done; [lia|].
  exists (Some (Bitmap a')). split_and!; try done; [by apply dealloc_frame_bitmap|].
  pose proof (bm_free _ _ Hbm') as Hcount'. cbn in Hno.
  assert (size (free_set a') = size (free_set a) + 1)%nat as Hs.
  { rewrite Hset. change (start_address f / FRAME_SIZE) with (frame_number f).
    rewrite size_union by set_solver. rewrite size_singleton. lia. }
  exists slack. rewrite Hac, Hfc, Htot. split_and!; try done; lia.
Qed.

#[local] Instance global_store_laws : FrameStoreLaws F (option (GlobalFrameAllocator F)).
Proof.
  split; [apply global_store_alloc|apply global_store_dealloc| |].
  - intros n [[b|a]|] i; [done| |done]. by intros _ [? _]%elem_of_free_set.
  - intros n [[b|a]|]; [done| |done]. intros (slack & ? & ? & ? & ? & ? & ?). exists slack.
    split_and!; try done; lia.
Qed.
End bitmap_store.
