(* ===== verification/Apic.v ===== *)
(** * The local APIC and the interval timer ([interrupts/x2apic.rs])

    The processor and its devices are a class: model-specific registers, I/O
    ports, the TLB and what [cpuid] reports, as operations on a machine state
    of their own.  Everything the driver does is one of these operations, in
    the order of the source. *)

From S2P Require Import Prelude.

Definition MAX_CORES : Z := 2.
Definition TIMER_VECTOR : Z := 32.
Definition TLB_SHOOTDOWN_VECTOR : Z := 33.

Definition IA32_APIC_BASE_MSR : Z := 0x1B.
Definition X2APIC_EOI : Z := 0x80B.
Definition X2APIC_SIVR : Z := 0x80F.
Definition X2APIC_TPR : Z := 0x808.
Definition X2APIC_ID : Z := 0x802.
Definition X2APIC_ICR : Z := 0x830.
Definition X2APIC_LVT_TIMER : Z := 0x832.
Definition X2APIC_TIMER_ICR : Z := 0x838.
Definition X2APIC_TIMER_CCR : Z := 0x839.
Definition X2APIC_TIMER_DCR : Z := 0x83E.
Definition PIT_FREQUENCY : Z := 1193182.
Definition CHANNEL_2_PORT : Z := 0x42.
Definition COMMAND_PORT : Z := 0x43.
Definition CONTROL_PORT : Z := 0x61.

Inductive X2ApicError :=
| NotSupported | NotEnabled | EnableFailed | InvalidVector | ConfigurationFailed | TimerError | CoreOutOfRange.
Inductive PitError := InvalidDuration | CalibrationFailed.

(** ** The machine *)

(** The core that executes, and the devices it reaches. *)
Class Machine (W : Type) := {
  rdmsr : Z -> W -> Z * W;
  wrmsr : Z -> Z -> W -> W;
  inb : Z -> W -> Z * W;
  outb : Z -> Z -> W -> W;
  invlpg : Z -> W -> W;
  has_x2apic : W -> bool
}.

(** [struct X2Apic]. *)
Record X2Apic := mkX2Apic { enabled : bool }.

(** The statics of the module and the machine; [APIC_MANAGER] is its [apics]. *)
Record Apic (W : Type) := mkApic {
  apics : list (option X2Apic);
  CALIBRATED_TIMER_COUNT : Z;
  TLB_SHOOTDOWN_ADDR : list Z;
  machine : W
}.
Arguments mkApic {W}.
Arguments apics {W}.
Arguments CALIBRATED_TIMER_COUNT {W}.
Arguments TLB_SHOOTDOWN_ADDR {W}.
Arguments machine {W}.

Section apic.
Context {W : Type} `{Machine W}.

Definition with_machine (s : Apic W) (w : W) : Apic W :=
  mkApic (apics s) (CALIBRATED_TIMER_COUNT s) (TLB_SHOOTDOWN_ADDR s) w.
Definition with_apics (s : Apic W) (l : list (option X2Apic)) : Apic W :=
  mkApic l (CALIBRATED_TIMER_COUNT s) (TLB_SHOOTDOWN_ADDR s) (machine s).
Definition with_count (s : Apic W) (n : Z) : Apic W :=
  mkApic (apics s) n (TLB_SHOOTDOWN_ADDR s) (machine s).
Definition with_addresses (s : Apic W) (l : list Z) : Apic W :=
  mkApic (apics s) (CALIBRATED_TIMER_COUNT s) l (machine s).

(** The statics at boot. *)
Definition apic_boot (w : W) : Apic W := mkApic (vec None MAX_CORES) 0 (vec 0 MAX_CORES) w.

(** [Msr::new(r).read()], [.write(v)], [Port::read], [Port::write], [invlpg]. *)
Definition msr_read {E} (r : Z) : M (Apic W) E Z :=
  let! s := get_state in
  let (v, w) := rdmsr r (machine s) in put_state (with_machine s w) ;! ret v.
Definition msr_write {E} (r v : Z) : M (Apic W) E unit :=
  let! s := get_state in put_state (with_machine s (wrmsr r v (machine s))).
Definition port_read {E} (p : Z) : M (Apic W) E Z :=
  let! s := get_state in
  let (v, w) := inb p (machine s) in put_state (with_machine s w) ;! ret v.
Definition port_write {E} (p v : Z) : M (Apic W) E unit :=
  let! s := get_state in put_state (with_machine s (outb p v (machine s))).
Definition flush_page {E} (vaddr : Z) : M (Apic W) E unit :=
  let! s := get_state in put_state (with_machine s (invlpg vaddr (machine s))).

(** ** [X2Apic] *)

(** [X2Apic::new]. *)
Definition X2Apic_new : M (Apic W) X2ApicError X2Apic :=
  let! s := get_state in
  if negb (has_x2apic (machine s)) then err NotSupported else ret (mkX2Apic false).

(** [X2Apic::enable]. *)
Definition enable (self : X2Apic) : M (Apic W) X2ApicError X2Apic :=
  if enabled self then ret self else
  let bits := Z.lor (Z.shiftl 1 11) (Z.shiftl 1 10) in
  let! value := msr_read IA32_APIC_BASE_MSR in
  msr_write IA32_APIC_BASE_MSR (Z.lor value bits) ;!
  let! new_value := msr_read IA32_APIC_BASE_MSR in
  if negb (Z.land new_value bits =? bits) then err EnableFailed else
  msr_write X2APIC_SIVR (Z.lor 0xFF (Z.shiftl 1 8)) ;!
  msr_write X2APIC_TPR 0 ;!
  ret (mkX2Apic true).

(** ** [X2ApicManager] *)

Definition current_core_id {E} : M (Apic W) E Z := msr_read X2APIC_ID.

Definition initialize_current_core : M (Apic W) X2ApicError unit :=
  let! apic := X2Apic_new in
  let! apic := enable apic in
  let! id := current_core_id in
  if MAX_CORES <=? id then err CoreOutOfRange else
  let! s := get_state in
  put_state (with_apics s (upd (apics s) id (Some apic))).

Definition configure_timer_current_core (counter : Z) : M (Apic W) X2ApicError unit :=
  let timer_config := Z.lor (Z.shiftl 1 17) TIMER_VECTOR in
  msr_write X2APIC_LVT_TIMER timer_config ;!
  msr_write X2APIC_TIMER_DCR 0xB ;!
  msr_write X2APIC_TIMER_ICR counter.

Definition manager_send_eoi : M (Apic W) X2ApicError unit := msr_write X2APIC_EOI 0.

Definition manager_mask_timer {E} : M (Apic W) E unit :=
  let! val := msr_read X2APIC_LVT_TIMER in
  msr_write X2APIC_LVT_TIMER (Z.lor val (Z.shiftl 1 16)).
Definition manager_unmask_timer {E} : M (Apic W) E unit :=
  let! val := msr_read X2APIC_LVT_TIMER in
  msr_write X2APIC_LVT_TIMER (Z.land val (wrap 64 (Z.lnot (Z.shiftl 1 16)))).

Definition manager_send_ipi (target_id vector : Z) : M (Apic W) X2ApicError unit :=
  if vector <? 16 then err InvalidVector else
  msr_write X2APIC_ICR (Z.lor (Z.shiftl target_id 32) vector).

(** ** The interval timer *)

(** The loop that waits for 40 edges of bit 5 of the control port. *)
Fixpoint count_edges {E} (fuel : nat) (last changes : Z) : M (Apic W) E unit :=
  match fuel with
  | O => diverge
  | S fuel =>
      if changes <? 40 then
        let! c := port_read CONTROL_PORT in
        let t := Z.land c 0x20 in
        if negb (t =? last) then count_edges fuel t (changes + 1) else count_edges fuel last changes
      else ret tt
  end.

(** [Pit::calibrate_apic_timer]. *)
Definition calibrate_apic_timer (fuel : nat) (hz : Z) : M (Apic W) PitError Z :=
  manager_mask_timer ;!
  msr_write X2APIC_TIMER_DCR 0xB ;!
  let initial := 2 ^ 32 - 1 in
  msr_write X2APIC_TIMER_ICR initial ;!
  port_write CONTROL_PORT 1 ;!
  port_write COMMAND_PORT 182 ;!
  let pit_divider := wrap 32 PIT_FREQUENCY / 20 in
  if 0xFFFF <? pit_divider then err InvalidDuration else
  port_write CHANNEL_2_PORT (wrap 8 (Z.land pit_divider 0xFF)) ;!
  port_write CHANNEL_2_PORT (wrap 8 (Z.shiftr pit_divider 8)) ;!
  let! c := port_read CONTROL_PORT in
  count_edges fuel (Z.land c 0x20) 0 ;!
  port_write CONTROL_PORT 0 ;!
  let! count := msr_read X2APIC_TIMER_CCR in
  let! diff := chk 32 (initial - wrap 32 count) in
  div_chk diff hz.

(** [X2ApicManager::calibrate_timer]. *)
Definition calibrate_timer (fuel : nat) (hz : Z) : M (Apic W) X2ApicError Z :=
  map_err (fun _ => TimerError) (calibrate_apic_timer fuel hz).

(** [bsp_init], [ap_init]. *)
Definition bsp_init (fuel : nat) (hz : Z) : M (Apic W) X2ApicError unit :=
  let! count := calibrate_timer fuel hz in
  let! s := get_state in
  put_state (with_count s count) ;!
  initialize_current_core ;!
  configure_timer_current_core count.
Definition ap_init : M (Apic W) X2ApicError unit :=
  let! s := get_state in
  let count := CALIBRATED_TIMER_COUNT s in
  initialize_current_core ;!
  configure_timer_current_core count.

(** The module's functions that the rest of the kernel calls. *)
Definition send_eoi {E} : M (Apic W) E unit := unwrap manager_send_eoi.
Definition send_ipi {E} (target_id vector : Z) : M (Apic W) E unit := unwrap (manager_send_ipi target_id vector).
Definition mask_timer {E} : M (Apic W) E unit := unwrap (E:=X2ApicError) manager_mask_timer.
Definition unmask_timer {E} : M (Apic W) E unit := unwrap (E:=X2ApicError) manager_unmask_timer.

Lemma msr_read_eq {E} r s :
  msr_read (E:=E) r s = (Ok (rdmsr r (machine s)).1, with_machine s (rdmsr r (machine s)).2).
Proof. unfold msr_read, bind. cbn. by destruct (rdmsr r _). Qed.
End apic.
