(* ===== verification/ApicTimer.v ===== *)
(** * Setting up the timers ([interrupts/x2apic.rs])

    What a processor promises the driver of [Apic.v]: registers that keep what
    is written to them, and an interval timer whose output changes.  On such a
    processor the bootstrap core calibrates its timer against the interval timer
    in bounded time, and every core programs its timer with the result. *)

From S2P Require Import Prelude Apic.

(** The registers of a local APIC that the driver relies on. *)
Record Regs := mkRegs {
  apic_base : Z;
  sivr : Z;
  tpr : Z;
  apic_id : Z;
  lvt_timer : Z;
  timer_icr : Z;
  timer_dcr : Z
}.

Definition get_reg (r : Z) (R : Regs) : option Z :=
  if r =? IA32_APIC_BASE_MSR then Some (apic_base R)
  else if r =? X2APIC_ID then Some (apic_id R)
  else if r =? X2APIC_LVT_TIMER then Some (lvt_timer R)
  else None.

Definition set_reg (r v : Z) (R : Regs) : option Regs :=
  let b := apic_base R in let s := sivr R in let t := tpr R in let i := apic_id R in
  let l := lvt_timer R in let c := timer_icr R in let d := timer_dcr R in
  if r =? IA32_APIC_BASE_MSR then Some (mkRegs v s t i l c d)
  else if r =? X2APIC_SIVR then Some (mkRegs b v t i l c d)
  else if r =? X2APIC_TPR then Some (mkRegs b s v i l c d)
  else if r =? X2APIC_LVT_TIMER then Some (mkRegs b s t i v c d)
  else if r =? X2APIC_TIMER_ICR then Some (mkRegs b s t i l v d)
  else if r =? X2APIC_TIMER_DCR then Some (mkRegs b s t i l c v)
  else None.

(** The state of the machine after [n] reads of a port. *)
Fixpoint after_reads {W : Type} `{Machine W} (p : Z) (n : nat) (w : W) : W :=
  match n with O => w | S n => after_reads p n (inb p w).2 end.

(** Registers read as they were written, and reading or using ports does not
    change them; the current count has 32 bits; among [pit_reads] reads of the
    control port in a row there are both levels of the interval timer's output. *)
Class ApicLaws (W : Type) `{Machine W} := {
  regs : W -> Regs;
  pit_reads : nat;
  rdmsr_value r w v : get_reg r (regs w) = Some v -> (rdmsr r w).1 = v;
  rdmsr_keeps r w : regs (rdmsr r w).2 = regs w /\ has_x2apic (rdmsr r w).2 = has_x2apic w;
  wrmsr_sets r v w R : set_reg r v (regs w) = Some R ->
    regs (wrmsr r v w) = R /\ has_x2apic (wrmsr r v w) = has_x2apic w;
  inb_keeps p w : regs (inb p w).2 = regs w /\ has_x2apic (inb p w).2 = has_x2apic w;
  outb_keeps p v w : regs (outb p v w) = regs w /\ has_x2apic (outb p v w) = has_x2apic w;
  count_bits w : 0 <= (rdmsr X2APIC_TIMER_CCR w).1 < 2 ^ 32;
  pit_changes w v : exists i, (i < pit_reads)%nat /\
    Z.land (inb CONTROL_PORT (after_reads CONTROL_PORT i w)).1 0x20 <> v
}.

Section timers.
Context {W : Type} `{ApicLaws W}.
Implicit Types (s : Apic W) (w : W) (R : Regs).

(** [m] succeeds on [s] with [a], changes only the machine, and leaves the
    registers [R]. *)
Definition sets {E A} (m : M (Apic W) E A) s (a : A) R : Prop :=
  exists w', m s = (Ok a, with_machine s w') /\ regs w' = R /\ has_x2apic w' = has_x2apic (machine s).

Lemma sets_bind {E A B} (m : M (Apic W) E A) (k : A -> M (Apic W) E B) s a R b R' :
  sets m s a R ->
  (forall w, regs w = R -> has_x2apic w = has_x2apic (machine s) -> sets (k a) (with_machine s w) b R') ->
  sets (bind m k) s b R'.
Proof.
  intros (w & E1 & HR & Hx) Hk. destruct (Hk w HR Hx) as (w' & E2 & HR' & Hx').
  exists w'. rewrite (bind_ok _ _ _ _ _ E1). split_and!; [exact E2|done|cbn in Hx'; congruence].
Qed.

Lemma sets_ret {E A} (a : A) s : sets (E:=E) (ret a) s a (regs (machine s)).
Proof. exists (machine s). by destruct s. Qed.

Lemma sets_read {E} r s v : get_reg r (regs (machine s)) = Some v -> sets (E:=E) (msr_read r) s v (regs (machine s)).
Proof.
  intros Hv. exists (rdmsr r (machine s)).2. rewrite msr_read_eq, (rdmsr_value _ _ _ Hv). by destruct (rdmsr_keeps r (machine s)).
Qed.

Lemma sets_write {E} r v s R : set_reg r v (regs (machine s)) = Some R -> sets (E:=E) (msr_write r v) s tt R.
Proof. intros HR. exists (wrmsr r v (machine s)). by destruct (wrmsr_sets _ _ _ _ HR). Qed.

Lemma sets_out {E} p v s : sets (E:=E) (port_write p v) s tt (regs (machine s)).
Proof. exists (outb p v (machine s)). by destruct (outb_keeps p v (machine s)). Qed.

Lemma port_read_eq {E} p s :
  port_read (E:=E) p s = (Ok (inb p (machine s)).1, with_machine s (inb p (machine s)).2).
Proof. unfold port_read, bind. cbn. by destruct (inb p _). Qed.

Lemma sets_in {E} p s : sets (E:=E) (port_read p) s (inb p (machine s)).1 (regs (machine s)).
Proof. exists (inb p (machine s)).2. rewrite port_read_eq. by destruct (inb_keeps p (machine s)). Qed.

(** ** Calibration *)

Lemma sets_bind_in {E B} p (k : Z -> M (Apic W) E B) s b R :
  sets (k (inb p (machine s)).1) (with_machine s (inb p (machine s)).2) b R -> sets (bind (port_read p) k) s b R.
Proof.
  intros (w & E1 & HR & Hx). exists w. rewrite (bind_ok _ _ _ _ _ (port_read_eq p s)).
  split_and!; [exact E1|done|]. rewrite Hx. apply inb_keeps.
Qed.

(** Waiting for the next edge, which is [i] reads away. *)
Lemma count_edges_next {E} i : forall fuel last changes s,
  changes < 40 -> Z.land (inb CONTROL_PORT (after_reads CONTROL_PORT i (machine s))).1 0x20 <> last ->
  (i < fuel)%nat ->
  (forall fuel' last' w, (fuel <= S i + fuel')%nat -> regs w = regs (machine s) ->
     sets (E:=E) (count_edges fuel' last' (changes + 1)) (with_machine s w) tt (regs (machine s))) ->
  sets (E:=E) (count_edges fuel last changes) s tt (regs (machine s)).
Proof.
  induction i as [|i IH]; intros [|fuel] last changes s Hc Hi Hf Hk; try lia; cbn [count_edges];
    replace (changes <? 40) with true by lia; apply sets_bind_in; destruct (inb_keeps CONTROL_PORT (machine s)) as [Hr _].
  - cbn in Hi. replace (negb _) with true by (symmetry; apply negb_true_iff, Z.eqb_neq, Hi). apply Hk; [lia|done].
  - destruct (negb _); [apply Hk; [lia|done]|]. rewrite <- Hr. apply IH; [done|exact Hi|lia|].
    intros fuel' last' w Hf' Hw. cbn in *. rewrite Hr. apply Hk; [lia|congruence].
Qed.

Lemma count_edges_ok {E} n : forall fuel last changes s,
  changes = 40 - Z.of_nat n -> (n * pit_reads < fuel)%nat ->
  sets (E:=E) (count_edges fuel last changes) s tt (regs (machine s)).
Proof.
  induction n as [|n IH]; intros fuel last changes s Hc Hf.
  - destruct fuel as [|fuel]; [lia|]. cbn. replace (changes <? 40) with false by lia. apply sets_ret.
  - destruct (pit_changes (machine s) last) as (i & Hi & Hb). eapply count_edges_next; [lia|exact Hb|lia|].
    intros fuel' last' w Hf' Hw. rewrite <- Hw. apply (IH fuel' last' _ (with_machine s w)); lia.
Qed.

(** The registers while the timer is measured, and once it is programmed. *)
Definition measuring R : Regs :=
  mkRegs (apic_base R) (sivr R) (tpr R) (apic_id R) (Z.lor (lvt_timer R) (Z.shiftl 1 16)) (2 ^ 32 - 1) 0xB.

Lemma sets_bind_ex {E A B C} (m : M (Apic W) E A) (k : A -> M (Apic W) E B) s a R (P : C -> Prop) (f : C -> B) R' :
  sets m s a R ->
  (forall w, regs w = R -> exists t, P t /\ sets (k a) (with_machine s w) (f t) R') ->
  exists t, P t /\ sets (bind m k) s (f t) R'.
Proof.
  intros (w & E1 & HR & Hx) Hk. destruct (Hk w HR) as (t & HP & w' & E2 & HR' & Hx').
  exists t. split; [done|]. exists w'. rewrite (bind_ok _ _ _ _ _ E1). split_and!; [exact E2|done|cbn in Hx'; congruence].
Qed.

Ltac next_op :=
  match goal with
  | Hw : regs ?w = _ |- exists t, _ /\ sets _ (with_machine ?s ?w) _ _ =>
      eapply sets_bind_ex;
      [first [apply sets_out | apply sets_write; cbn; rewrite Hw; reflexivity]|];
      let w' := fresh "w" in let Hw' := fresh "Hw" in intros w' Hw';
      change (with_machine (with_machine s w) w') with (with_machine s w') in *; cbn [machine with_machine] in Hw';
      try rewrite Hw in Hw'; clear w Hw
  end.

Lemma mask_timer_ok {E} s :
  let R := regs (machine s) in
  sets (E:=E) manager_mask_timer s tt
    (mkRegs (apic_base R) (sivr R) (tpr R) (apic_id R) (Z.lor (lvt_timer R) (Z.shiftl 1 16)) (timer_icr R) (timer_dcr R)).
Proof.
  cbn. unfold manager_mask_timer. eapply sets_bind; [by apply sets_read|]. intros w Hw _.
  apply sets_write. cbn. by rewrite Hw.
Qed.

Lemma calibrate_apic_timer_ok fuel hz s :
  0 < hz -> (40 * pit_reads < fuel)%nat ->
  exists ticks, 0 <= ticks < 2 ^ 32 /\ sets (calibrate_apic_timer fuel hz) s (ticks / hz) (measuring (regs (machine s))).
Proof.
  intros Hhz Hf. unfold calibrate_apic_timer.
  eapply (sets_bind_ex _ _ _ _ _ _ (fun t => t / hz)); [apply mask_timer_ok|]. intros w Hw.
  do 4 next_op. replace (0xFFFF <? _) with false by done. do 2 next_op.
  eapply sets_bind_ex; [apply sets_in|]. intros w' Hw'.
  change (with_machine (with_machine s w) w') with (with_machine s w'). cbn [machine with_machine] in Hw'.
  rewrite Hw in Hw'. match goal with |- context [count_edges _ ?l _] => generalize l end. intros last. clear w Hw.
  eapply sets_bind_ex; [apply (count_edges_ok 40); [done|exact Hf]|]. intros w Hw.
  change (with_machine (with_machine s w') w) with (with_machine s w). cbn [machine with_machine] in Hw.
  rewrite Hw' in Hw. clear w' Hw'. next_op.
  pose proof (count_bits w0) as Hb. destruct (rdmsr_keeps X2APIC_TIMER_CCR w0) as [HR Hx].
  set (c := (rdmsr X2APIC_TIMER_CCR w0).1) in *. exists (2 ^ 32 - 1 - c). split; [lia|].
  exists (rdmsr X2APIC_TIMER_CCR w0).2. rewrite (bind_ok _ _ _ _ _ (msr_read_eq _ _)). cbn [machine with_machine].
  fold c. rewrite (wrap_small 32 c) by lia. rewrite bind_chk by lia. unfold div_chk.
  replace (hz =? 0) with false by lia. split; [done|]. split; [by rewrite HR, Hw0|done].
Qed.

Lemma calibrate_timer_ok fuel hz s :
  0 < hz -> (40 * pit_reads < fuel)%nat ->
  exists ticks, 0 <= ticks < 2 ^ 32 /\ sets (calibrate_timer fuel hz) s (ticks / hz) (measuring (regs (machine s))).
Proof.
  intros Hhz Hf. destruct (calibrate_apic_timer_ok fuel hz s Hhz Hf) as (t & Ht & w & E1 & HR & Hx).
  exists t. split; [done|]. exists w. split; [|done]. unfold calibrate_timer, map_err, attempt, bind. by rewrite E1.
Qed.

(** ** Bringing up a core *)

(** A core whose APIC is enabled and whose timer fires every [count] ticks. *)
Definition x2apic_bits : Z := Z.lor (Z.shiftl 1 11) (Z.shiftl 1 10).
Definition programmed R (count : Z) : Regs :=
  mkRegs (Z.lor (apic_base R) x2apic_bits) 0x1FF 0 (apic_id R) (Z.lor (Z.shiftl 1 17) TIMER_VECTOR) count 0xB.

Lemma enable_ok s :
  let R := regs (machine s) in
  sets (enable (mkX2Apic false)) s (mkX2Apic true)
    (mkRegs (Z.lor (apic_base R) x2apic_bits) 0x1FF 0 (apic_id R) (lvt_timer R) (timer_icr R) (timer_dcr R)).
Proof.
  cbn zeta. unfold enable. cbn [enabled]. fold x2apic_bits.
  eapply sets_bind; [by apply sets_read|]. intros w Hw Hx. cbn [machine with_machine].
  eapply sets_bind; [apply sets_write; cbn; rewrite Hw; reflexivity|]. intros w1 Hw1 Hx1.
  eapply sets_bind; [apply sets_read; cbn; by rewrite Hw1|]. intros w2 Hw2 Hx2. cbn [machine with_machine] in *.
  rewrite Hw1 in Hw2. replace (Z.land _ x2apic_bits) with x2apic_bits.
  2: { apply Z.bits_inj'. intros n _. cbn [apic_base]. rewrite Z.land_spec, Z.lor_spec.
       destruct (Z.testbit x2apic_bits n); [by rewrite orb_true_r|by rewrite andb_false_r]. }
  rewrite Z.eqb_refl. cbn [negb].
  eapply sets_bind; [apply sets_write; cbn; by rewrite Hw2|]. intros w3 Hw3 Hx3.
  eapply sets_bind; [apply sets_write; cbn; by rewrite Hw3|]. intros w4 Hw4 Hx4.
  pose proof (sets_ret (E:=X2ApicError) (mkX2Apic true) (with_machine s w4)) as Hret.
  cbn [machine with_machine] in Hret. rewrite Hw4 in Hret. exact Hret.
Qed.

(** [initialize_current_core] and the timer, on a core with an x2APIC. *)
Lemma core_init_ok s count :
  let R := regs (machine s) in
  has_x2apic (machine s) = true -> apic_id R < MAX_CORES ->
  exists w, (initialize_current_core ;! configure_timer_current_core count) s =
      (Ok tt, with_apics (with_machine s w) (upd (apics s) (apic_id R) (Some (mkX2Apic true)))) /\
    regs w = programmed R count.
Proof.
  cbn zeta. intros Hx Hid.
  assert (exists w, initialize_current_core s =
      (Ok tt, with_apics (with_machine s w) (upd (apics s) (apic_id (regs (machine s))) (Some (mkX2Apic true)))) /\
    regs w = mkRegs (Z.lor (apic_base (regs (machine s))) x2apic_bits) 0x1FF 0 (apic_id (regs (machine s)))
      (lvt_timer (regs (machine s))) (timer_icr (regs (machine s))) (timer_dcr (regs (machine s)))) as (w & E1 & HR).
  { unfold initialize_current_core, X2Apic_new. rewrite bind_assoc, bind_get, Hx. cbn [negb]. rewrite bind_ret.
    destruct (enable_ok s) as (w & E1 & HR & _). rewrite (bind_ok _ _ _ _ _ E1).
    destruct (sets_read (E:=X2ApicError) X2APIC_ID (with_machine s w) (apic_id (regs (machine s)))) as (w' & E2 & HR' & _).
    { cbn. by rewrite HR. }
    unfold current_core_id. rewrite (bind_ok _ _ _ _ _ E2). replace (MAX_CORES <=? _) with false by lia.
    rewrite bind_get. exists w'. split; [done|]. cbn in HR'. by rewrite HR', HR. }
  set (s1 := with_apics (with_machine s w) _) in E1.
  assert (sets (configure_timer_current_core count) s1 tt (programmed (regs (machine s)) count)) as (w' & E2 & HR' & _).
  { unfold configure_timer_current_core, programmed.
    eapply sets_bind; [apply sets_write; cbn; rewrite HR; reflexivity|]. intros w1 Hw1 _.
    eapply sets_bind; [apply sets_write; cbn; rewrite Hw1; reflexivity|]. intros w2 Hw2 _.
    apply sets_write. cbn. by rewrite Hw2. }
  exists w'. by rewrite (bind_ok _ _ _ _ _ E1), E2.
Qed.

(** The shared state after the bootstrap core, and after any other core. *)
Lemma bsp_init_ok fuel hz s :
  0 < hz -> (40 * pit_reads < fuel)%nat -> has_x2apic (machine s) = true -> apic_id (regs (machine s)) < MAX_CORES ->
  exists ticks s', 0 <= ticks < 2 ^ 32 /\ bsp_init fuel hz s = (Ok tt, s') /\
    CALIBRATED_TIMER_COUNT s' = ticks / hz /\
    apics s' = upd (apics s) (apic_id (regs (machine s))) (Some (mkX2Apic true)) /\
    TLB_SHOOTDOWN_ADDR s' = TLB_SHOOTDOWN_ADDR s /\
    regs (machine s') = programmed (regs (machine s)) (ticks / hz).
Proof.
  intros Hhz Hf Hx Hid. destruct (calibrate_timer_ok fuel hz s Hhz Hf) as (t & Ht & w & E1 & HR & Hx').
  destruct (core_init_ok (with_count (with_machine s w) (t / hz)) (t / hz)) as (w' & E2 & HR').
  { cbn. by rewrite Hx'. }
  { cbn. by rewrite HR. }
  exists t. eexists. split; [done|]. unfold bsp_init. rewrite (bind_ok _ _ _ _ _ E1), bind_get, bind_put.
  split; [exact E2|]. cbn in *. rewrite HR in HR' |- *. by rewrite HR'.
Qed.

Lemma ap_init_ok s :
  has_x2apic (machine s) = true -> apic_id (regs (machine s)) < MAX_CORES ->
  exists s', ap_init s = (Ok tt, s') /\ CALIBRATED_TIMER_COUNT s' = CALIBRATED_TIMER_COUNT s /\
    apics s' = upd (apics s) (apic_id (regs (machine s))) (Some (mkX2Apic true)) /\
    TLB_SHOOTDOWN_ADDR s' = TLB_SHOOTDOWN_ADDR s /\
    regs (machine s') = programmed (regs (machine s)) (CALIBRATED_TIMER_COUNT s).
Proof.
  intros Hx Hid. destruct (core_init_ok s (CALIBRATED_TIMER_COUNT s)) as (w & E1 & HR); [done..|].
  eexists. unfold ap_init. rewrite bind_get. split; [exact E1|]. by cbn.
Qed.


(** What goes wrong otherwise: no x2APIC, too many cores, or no frequency. *)
Lemma core_init_errors s :
  (has_x2apic (machine s) = false -> initialize_current_core s = (Err NotSupported, s)) /\
  (has_x2apic (machine s) = true -> MAX_CORES <= apic_id (regs (machine s)) ->
   exists w, initialize_current_core s = (Err CoreOutOfRange, with_machine s w)).
Proof.
  unfold initialize_current_core, X2Apic_new. rewrite bind_assoc, bind_get. split; [by intros ->|].
  intros -> Hid. cbn [negb]. rewrite bind_ret. destruct (enable_ok s) as (w & E1 & HR & _). rewrite (bind_ok _ _ _ _ _ E1).
  destruct (sets_read (E:=X2ApicError) X2APIC_ID (with_machine s w) (apic_id (regs (machine s)))) as (w' & E2 & _).
  { cbn. by rewrite HR. }
  unfold current_core_id. rewrite (bind_ok _ _ _ _ _ E2). replace (MAX_CORES <=? _) with true by lia. by exists w'.
Qed.
End timers.

(** ** A processor *)

(** Registers, a counter that loses 1000 ticks with each read of a port, and an
    interval timer whose output changes with every third read. *)
Module Processor.
Record t := mk { registers : Regs; count : Z; level : nat }.

#[export] Instance machine : Machine t := {
  rdmsr r w := (if r =? X2APIC_TIMER_CCR then count w mod 2 ^ 32 else default 0 (get_reg r (registers w)), w);
  wrmsr r v w :=
    mk (default (registers w) (set_reg r v (registers w))) (if r =? X2APIC_TIMER_ICR then v else count w) (level w);
  inb p w := (if p =? CONTROL_PORT then (if (level w mod 6 <? 3)%nat then 0 else 0x20) else 0,
              mk (registers w) (count w - 1000) (S (level w)));
  outb p v w := w;
  invlpg v w := w;
  has_x2apic w := true
}.

Lemma after_reads_level i w : level (after_reads CONTROL_PORT i w) = (i + level w)%nat.
Proof. revert w. induction i as [|i IH]; intros w; [done|]. cbn [after_reads]. rewrite IH. cbn. lia. Qed.

Lemma level_changes w v : exists i, (i < 6)%nat /\
  Z.land (inb CONTROL_PORT (after_reads CONTROL_PORT i w)).1 0x20 <> v.
Proof.
  set (n := (level w mod 6)%nat). assert (n < 6)%nat by (apply Nat.mod_upper_bound; lia).
  assert (forall i, Z.land (inb CONTROL_PORT (after_reads CONTROL_PORT i w)).1 0x20 =
    if ((i + n) mod 6 <? 3)%nat then 0 else 0x20) as Hl.
  { intros i. cbn [inb machine fst]. rewrite Z.eqb_refl, after_reads_level. unfold n.
    rewrite Nat.Div0.add_mod_idemp_r. by destruct (_ <? _)%nat. }
  assert (exists i, (i < 6)%nat /\ ((i + n) mod 6 = 0)%nat) as (i0 & Hi0 & E0).
  { exists ((6 - n) mod 6)%nat. split; [apply Nat.mod_upper_bound; lia|].
    do 6 (destruct n as [|n]; [done|]). lia. }
  assert (exists i, (i < 6)%nat /\ ((i + n) mod 6 = 3)%nat) as (i1 & Hi1 & E1).
  { exists ((9 - n) mod 6)%nat. split; [apply Nat.mod_upper_bound; lia|].
    do 6 (destruct n as [|n]; [done|]). lia. }
  destruct (decide (v = 0)) as [->|Hv].
  - exists i1. split; [done|]. by rewrite Hl, E1.
  - exists i0. split; [done|]. by rewrite Hl, E0.
Qed.

#[export] Instance laws : ApicLaws t.
Proof.
  refine {| regs := registers; pit_reads := 6 |}.
  - intros r w v Hv. cbn. destruct (Z.eqb_spec r X2APIC_TIMER_CCR) as [->|]; [done|]. by rewrite Hv.
  - done.
  - intros r v w R HR. cbn. by rewrite HR.
  - done.
  - done.
  - intros w. cbn. apply Z.mod_pos_bound. lia.
  - exact level_changes.
Defined.

Definition reset (id : Z) : t := mk (mkRegs 0xFEE00900 0xFF 0 id (Z.shiftl 1 16) 0 0) 0 0.

End Processor.
