(* ===== verification/Tlb.v ===== *)
(** * TLB shootdowns ([memory/tlb.rs], [interrupts/idt.rs])

    A core that changes a mapping posts the address in a slot of every other
    core, sends each an interrupt and flushes its own TLB; the handler flushes
    the address in its core's slot.  The protocol runs on a machine with one TLB
    and one set of requested vectors per core, where it is shown to leave no
    stale translation as long as a slot is not reused before its core has read
    it, and to lose one when it is. *)

From S2P Require Import Prelude Apic.

Section shootdown.
Context {W : Type} `{Machine W}.

(** The loop body of [tlb_shootdown]: the slot and the interrupt of one core. *)
Definition post_core {E} (current_core vaddr core : Z) : M (Apic W) E unit :=
  if negb (core =? current_core) then
    let! s := get_state in
    let! _ := expect (idx (TLB_SHOOTDOWN_ADDR s) core) in
    put_state (with_addresses s (upd (TLB_SHOOTDOWN_ADDR s) core vaddr)) ;!
    send_ipi core TLB_SHOOTDOWN_VECTOR
  else ret tt.
Definition tlb_shootdown {E} (vaddr : Z) : M (Apic W) E unit :=
  let! current_core := current_core_id in
  for_do (range 0 MAX_CORES) (post_core current_core vaddr) ;!
  flush_page vaddr.

(** [tlb_shootdown_handler]. *)
Definition tlb_shootdown_handler {E} : M (Apic W) E unit :=
  let! core := current_core_id in
  let! s := get_state in
  let! vaddr_to_invalidate := expect (idx (TLB_SHOOTDOWN_ADDR s) core) in
  (if negb (vaddr_to_invalidate =? 0) then
     flush_page vaddr_to_invalidate ;!
     let! s := get_state in
     put_state (with_addresses s (upd (TLB_SHOOTDOWN_ADDR s) core 0))
   else ret tt) ;!
  send_eoi.

(** A shootdown always completes, on any machine; all it changes of the
    statics are the slots. *)
Lemma tlb_shootdown_total {E} (vaddr : Z) (s : Apic W) :
  len (TLB_SHOOTDOWN_ADDR s) = MAX_CORES ->
  exists s', tlb_shootdown (E:=E) vaddr s = (Ok tt, s') /\
    len (TLB_SHOOTDOWN_ADDR s') = MAX_CORES /\ apics s' = apics s /\
    CALIBRATED_TIMER_COUNT s' = CALIBRATED_TIMER_COUNT s.
Proof.
  intros Hlen.
  assert (forall current s1, len (TLB_SHOOTDOWN_ADDR s1) = MAX_CORES ->
    wp (for_do (range 0 MAX_CORES) (post_core (E:=E) current vaddr))
       (fun _ s2 => len (TLB_SHOOTDOWN_ADDR s2) = MAX_CORES /\ apics s2 = apics s1 /\
          CALIBRATED_TIMER_COUNT s2 = CALIBRATED_TIMER_COUNT s1) False s1) as Hloop.
  { intros current s1 Hs1. apply wp_for_do; [|done]. intros core s2 Hcore%elem_of_range (Hs2 & Ha & Hc).
    unfold post_core. destruct (negb _); [|by apply wp_ret].
    apply wp_bind, wp_get, wp_bind, wp_expect.
    - intros a _. apply wp_bind, wp_put. unfold wp. cbn. by rewrite len_upd.
    - intros Hn. destruct (idx_is_Some (TLB_SHOOTDOWN_ADDR s2) core) as [? Hx]; [lia|congruence]. }
  unfold tlb_shootdown, current_core_id. rewrite (bind_ok _ _ _ _ _ (msr_read_eq _ _)).
  set (current := (rdmsr _ _).1). set (w := (rdmsr _ _).2).
  destruct (wp_total _ _ _ _ (Hloop current (with_machine s w) Hlen)) as ([] & s2 & E2 & Hl & Ha & Hc); [tauto|].
  rewrite (bind_ok _ _ _ _ _ E2). unfold flush_page. rewrite bind_get.
  by eexists.
Qed.
End shootdown.

(** ** A machine with several cores *)

(** The core that executes, the pages each core's TLB holds a translation of,
    and the interrupt vectors requested at each core. *)
Record Smp := mkSmp { core : Z; tlbs : list (gset Z); requested : list (gset Z) }.

Definition page_of (vaddr : Z) : Z := vaddr / 4096.

(** Writing the ICR requests the vector (bits 0-7) at the target (bits 32-63);
    [invlpg] drops the translation of the page that contains the address. *)
#[global] Instance Smp_Machine : Machine Smp := {
  rdmsr r w := (if r =? X2APIC_ID then core w else 0, w);
  wrmsr r v w :=
    if r =? X2APIC_ICR then
      let target := Z.shiftr v 32 in
      mkSmp (core w) (tlbs w)
        (upd (requested w) target ({[Z.land v 0xFF]} ∪ default ∅ (idx (requested w) target)))
    else w;
  inb p w := (0, w);
  outb p v w := w;
  invlpg vaddr w :=
    mkSmp (core w) (upd (tlbs w) (core w) (default ∅ (idx (tlbs w) (core w)) ∖ {[page_of vaddr]}))
      (requested w);
  has_x2apic w := true
}.

(** What happens in the system: a core changes the mapping of [vaddr] and shoots
    it down; a core takes the interrupt that is requested; a core's TLB is
    filled with the translation of a page. *)
Inductive event :=
| Shootdown (c vaddr : Z)
| Take (c : Z)
| Fill (c page : Z).

(** The kernel's state, and for each core the pages whose translation in its
    TLB predates the last change of their mapping. *)
Record Coherence := mkCoherence { apic : Apic Smp; stale : list (gset Z) }.

Definition on_core (c : Z) (s : Apic Smp) : Apic Smp :=
  with_machine s (mkSmp c (tlbs (machine s)) (requested (machine s))).

Definition still_cached (st : list (gset Z)) (s : Apic Smp) : list (gset Z) :=
  zip_with (fun x t => x ∩ t) st (tlbs (machine s)).

Definition happens (e : event) (x : Coherence) : option Coherence :=
  let s := apic x in
  match e with
  | Shootdown c vaddr =>
      match tlb_shootdown (E:=no_error) vaddr (on_core c s) with
      | (Ok _, s') => Some (mkCoherence s' (still_cached (map (fun st => {[page_of vaddr]} ∪ st) (stale x)) s'))
      | _ => None
      end
  | Take c =>
      let w := machine s in
      let r := default ∅ (idx (requested w) c) in
      if bool_decide (TLB_SHOOTDOWN_VECTOR ∈ r) then
        match tlb_shootdown_handler (E:=no_error)
                (on_core c (with_machine s (mkSmp c (tlbs w) (upd (requested w) c (r ∖ {[TLB_SHOOTDOWN_VECTOR]}))))) with
        | (Ok _, s') => Some (mkCoherence s' (still_cached (stale x) s'))
        | _ => None
        end
      else None
  | Fill c page =>
      let w := machine s in
      Some (mkCoherence
        (with_machine s (mkSmp (core w) (upd (tlbs w) c ({[page]} ∪ default ∅ (idx (tlbs w) c))) (requested w)))
        (stale x))
  end.

(** A slot may be posted to only when it is empty. *)
Definition slot_free (x : Coherence) (d : Z) : Prop := idx (TLB_SHOOTDOWN_ADDR (apic x)) d = Some 0.
Definition allowed (e : event) (x : Coherence) : Prop :=
  match e with
  | Shootdown c vaddr => 0 <= c < MAX_CORES /\ vaddr <> 0 /\
      (forall d, 0 <= d < MAX_CORES -> d <> c -> slot_free x d)
  | Take c | Fill c _ => 0 <= c < MAX_CORES
  end.

Inductive serial (x : Coherence) : list event -> Coherence -> Prop :=
| serial_nil : serial x [] x
| serial_snoc es e y z : serial x es y -> allowed e y -> happens e y = Some z -> serial x (es ++ [e]) z.

Definition boot_coherence : Coherence :=
  mkCoherence (apic_boot (mkSmp 0 (vec ∅ MAX_CORES) (vec ∅ MAX_CORES))) (vec ∅ MAX_CORES).

(** ** Coherence *)

(** What holds of one core: its slot [a], its TLB [t], the vectors [r] requested
    there and the stale pages [s]. *)
Record slot_ok (a : Z) (t r s : gset Z) : Prop := {
  so_cached : s ⊆ t;
  so_posted : forall p, p ∈ s -> a <> 0 /\ p = page_of a;
  so_requested : a <> 0 -> TLB_SHOOTDOWN_VECTOR ∈ r
}.

Definition two_cores (k : list (option X2Apic)) (n c a0 a1 : Z) (t0 t1 r0 r1 s0 s1 : gset Z) : Coherence :=
  mkCoherence (mkApic k n [a0; a1] (mkSmp c [t0; t1] [r0; r1])) [s0; s1].

Inductive coherent : Coherence -> Prop :=
| coherent_two k n c a0 a1 t0 t1 r0 r1 s0 s1 :
    slot_ok a0 t0 r0 s0 -> slot_ok a1 t1 r1 s1 -> coherent (two_cores k n c a0 a1 t0 t1 r0 r1 s0 s1).

(** One shootdown, on the core that starts it and on the other. *)
Lemma slot_ok_self a t r s v :
  slot_ok a t r s -> slot_ok a (t ∖ {[page_of v]}) r (({[page_of v]} ∪ s) ∩ (t ∖ {[page_of v]})).
Proof. intros [? Hp ?]. split; [set_solver| |done]. intros p Hs. apply Hp. set_solver. Qed.

Lemma slot_ok_posted t r s v :
  slot_ok 0 t r s -> v <> 0 -> slot_ok v t ({[TLB_SHOOTDOWN_VECTOR]} ∪ r) (({[page_of v]} ∪ s) ∩ t).
Proof.
  intros [? Hp ?] Hv. split; [set_solver| |set_solver].
  intros p [[Hs|Hs]%elem_of_union _]%elem_of_intersection; [set_solver|]. by destruct (Hp p Hs).
Qed.

Lemma slot_ok_other a t r s : slot_ok a t r s -> slot_ok a t r (s ∩ t).
Proof. intros [? Hp ?]. split; [set_solver| |done]. intros p Hs. apply Hp. set_solver. Qed.

Lemma slot_ok_taken a t r s v :
  slot_ok a t r s -> a <> 0 -> slot_ok 0 (t ∖ {[page_of a]}) (r ∖ {[v]}) (s ∩ (t ∖ {[page_of a]})).
Proof.
  intros [? Hp ?] Ha. split; [set_solver| |done].
  intros p [Hs [_ Hn]%elem_of_difference]%elem_of_intersection. destruct (Hp p Hs) as [_ ->]. set_solver.
Qed.

Lemma slot_ok_spurious t r s v : slot_ok 0 t r s -> slot_ok 0 t (r ∖ {[v]}) (s ∩ t).
Proof.
  intros [? Hp ?]. split; [set_solver| |done].
  intros p [Hs _]%elem_of_intersection. by destruct (Hp p Hs).
Qed.

Lemma slot_ok_fill a t r s p : slot_ok a t r s -> slot_ok a ({[p]} ∪ t) r s.
Proof. intros [? Hp ?]. split; [set_solver|done|done]. Qed.

Lemma two_or c : 0 <= c < MAX_CORES -> c = 0 \/ c = 1.
Proof. unfold MAX_CORES. lia. Qed.

Section two.
Context (k : list (option X2Apic)) (n c a0 a1 : Z) (t0 t1 r0 r1 s0 s1 : gset Z).
Let x := two_cores k n c a0 a1 t0 t1 r0 r1 s0 s1.

Lemma shootdown_0 v : happens (Shootdown 0 v) x =
  Some (two_cores k n 0 a0 v (t0 ∖ {[page_of v]}) t1 r0 ({[TLB_SHOOTDOWN_VECTOR]} ∪ r1)
          (({[page_of v]} ∪ s0) ∩ (t0 ∖ {[page_of v]})) (({[page_of v]} ∪ s1) ∩ t1)).
Proof. reflexivity. Qed.

Lemma shootdown_1 v : happens (Shootdown 1 v) x =
  Some (two_cores k n 1 v a1 t0 (t1 ∖ {[page_of v]}) ({[TLB_SHOOTDOWN_VECTOR]} ∪ r0) r1
          (({[page_of v]} ∪ s0) ∩ t0) (({[page_of v]} ∪ s1) ∩ (t1 ∖ {[page_of v]}))).
Proof. reflexivity. Qed.

Lemma take_0 : TLB_SHOOTDOWN_VECTOR ∈ r0 -> happens (Take 0) x =
  Some (let v := TLB_SHOOTDOWN_VECTOR in
        if a0 =? 0 then two_cores k n 0 a0 a1 t0 t1 (r0 ∖ {[v]}) r1 (s0 ∩ t0) (s1 ∩ t1)
        else two_cores k n 0 0 a1 (t0 ∖ {[page_of a0]}) t1 (r0 ∖ {[v]}) r1
               (s0 ∩ (t0 ∖ {[page_of a0]})) (s1 ∩ t1)).
Proof.
  intros Hr. unfold happens. rewrite bool_decide_true by exact Hr.
  destruct a0; reflexivity.
Qed.

Lemma take_1 : TLB_SHOOTDOWN_VECTOR ∈ r1 -> happens (Take 1) x =
  Some (let v := TLB_SHOOTDOWN_VECTOR in
        if a1 =? 0 then two_cores k n 1 a0 a1 t0 t1 r0 (r1 ∖ {[v]}) (s0 ∩ t0) (s1 ∩ t1)
        else two_cores k n 1 a0 0 t0 (t1 ∖ {[page_of a1]}) r0 (r1 ∖ {[v]})
               (s0 ∩ t0) (s1 ∩ (t1 ∖ {[page_of a1]}))).
Proof.
  intros Hr. unfold happens. rewrite bool_decide_true by exact Hr.
  destruct a1; reflexivity.
Qed.
End two.

Lemma coherent_step e y z : coherent y -> allowed e y -> happens e y = Some z -> coherent z.
Proof.
  intros [k n c a0 a1 t0 t1 r0 r1 s0 s1 H0 H1] Hal Hh. destruct e as [d v|d|d p].
  - destruct Hal as ([->| ->]%two_or & Hv & Hfree).
    + specialize (Hfree 1 ltac:(done) ltac:(done)). injection Hfree as ->.
      rewrite shootdown_0 in Hh. injection Hh as <-. split; [by apply slot_ok_self|by apply slot_ok_posted].
    + specialize (Hfree 0 ltac:(done) ltac:(done)). injection Hfree as ->.
      rewrite shootdown_1 in Hh. injection Hh as <-. split; [by apply slot_ok_posted|by apply slot_ok_self].
  - destruct (two_or _ Hal) as [->| ->].
    + destruct (decide (TLB_SHOOTDOWN_VECTOR ∈ r0)) as [Hr|Hr];
        [|unfold happens in Hh; rewrite bool_decide_false in Hh by exact Hr; done].
      rewrite take_0 in Hh by done. injection Hh as <-. cbn zeta. destruct (Z.eqb_spec a0 0) as [->|Ha].
      * split; [by apply slot_ok_spurious|by apply slot_ok_other].
      * split; [by apply slot_ok_taken|by apply slot_ok_other].
    + destruct (decide (TLB_SHOOTDOWN_VECTOR ∈ r1)) as [Hr|Hr];
        [|unfold happens in Hh; rewrite bool_decide_false in Hh by exact Hr; done].
      rewrite take_1 in Hh by done. injection Hh as <-. cbn zeta. destruct (Z.eqb_spec a1 0) as [->|Ha].
      * split; [by apply slot_ok_other|by apply slot_ok_spurious].
      * split; [by apply slot_ok_other|by apply slot_ok_taken].
  - injection Hh as <-. destruct (two_or _ Hal) as [->| ->].
    + apply (coherent_two k n c a0 a1 ({[p]} ∪ t0) t1); [by apply slot_ok_fill|done].
    + apply (coherent_two k n c a0 a1 t0 ({[p]} ∪ t1)); [done|by apply slot_ok_fill].
Qed.

Lemma serial_coherent es y : serial boot_coherence es y -> coherent y.
Proof.
  induction 1 as [|es e y z _ IH Hal Hh]; [|by apply (coherent_step e y)].
  apply (coherent_two (vec None MAX_CORES) 0 0 0 0 ∅ ∅ ∅ ∅ ∅ ∅); by split.
Qed.


Definition replay (es : list event) : option Coherence :=
  fold_left (fun x e => x ≫= happens e) es (Some boot_coherence).

(** A second shootdown that reaches a core before it has taken the first
    overwrites the address in its slot: the core flushes only the second page,
    no interrupt is left to take, and the translation of the first page stays
    in its TLB although its mapping changed. *)
Theorem shootdown_overlap_loses :
  exists y, replay [Fill 1 5; Shootdown 0 (5 * 4096); Shootdown 0 (6 * 4096); Take 1] = Some y /\
    requested (machine (apic y)) = [∅; ∅] /\ TLB_SHOOTDOWN_ADDR (apic y) = [0; 0] /\ stale y = [∅; {[5]}].
Proof. eexists. split; [vm_compute; reflexivity|]. split_and!; vm_compute; reflexivity. Qed.

