(* ===== verification/Paging.v ===== *)
(** * Paging ([memory/paging.rs], [memory/heap.rs], [memory/mod.rs])

    Mapping, remapping and unmapping of pages, with the frames they take and
    give back and the TLB shootdowns they cause.  Page tables are walked and
    changed by the [Mapper] of the [x86_64] crate: it is a class, with the
    behaviour its documentation states as laws.  Pages and virtual addresses
    are types of the same crate. *)

From S2P Require Import Prelude Apic Tlb Frames FrameStore.

Definition PAGE_SIZE : Z := 4096.
Definition EPHEMERAL_KERNEL_MAPPINGS_START : Z := 0xFFFFFF8000000000.

(** ** The [x86_64] crate *)

(** [VirtAddr::new] panics ([None]) on an address that is not canonical. *)
Class Pages (P : Type) := {
  VirtAddr_new : Z -> option Z;
  page_containing : Z -> P;
  page_start : P -> Z;
  range_inclusive : P -> P -> list P
}.

Definition canonical (a : Z) : Prop := 0 <= a < 2 ^ 47 \/ 2 ^ 64 - 2 ^ 47 <= a < 2 ^ 64.

Class PagesLaws (P : Type) `{Pages P} := {
  VirtAddr_new_canonical a : canonical a -> VirtAddr_new a = Some a;
  page_containing_start a : canonical a -> page_start (page_containing a) = a - a mod PAGE_SIZE;
  page_start_ok p : canonical (page_start p) /\ page_start p mod PAGE_SIZE = 0;
  page_inj p q : page_start p = page_start q -> p = q;
  range_inclusive_starts p q : page_start p <= page_start q ->
    (page_start q < 2 ^ 47 \/ 2 ^ 64 - 2 ^ 47 <= page_start p) ->
    map page_start (range_inclusive p q) =
    map (fun i => page_start p + i * PAGE_SIZE) (range 0 ((page_start q - page_start p) / PAGE_SIZE + 1))
}.

(** The [PageTableFlags] used here; [|] is the union of their bits. *)
Class PageTableFlags := {
  PRESENT : Z;
  WRITABLE : Z;
  USER_ACCESSIBLE : Z;
  NO_EXECUTE : Z
}.

(** What the page tables say of a page of 4 KiB: nothing, a frame and its
    flags, or that a huge page covers it. *)
Inductive view (F : Type) :=
| Unmapped
| Mapped (f : F) (flags : Z)
| Huge.
Arguments Unmapped {F}.
Arguments Mapped {F}.
Arguments Huge {F}.

(** [Mapper<Size4KiB>] and [CleanUp] of page tables [T]: [translate] is what the
    processor finds in them and [table_frames] are the frames they occupy. *)
Class Mapper (P F G T : Type) := {
  map_error : Type;
  map_to : P -> F -> Z -> M (T * G) map_error unit;
  unmap : P -> M T map_error F;
  update_flags : P -> Z -> M T map_error unit;
  clean_up : M (T * G) no_error unit;
  translate : T -> P -> view F;
  table_frames : T -> gset Z
}.

(** Two tables differ at most at page [p]. *)
Definition same_but {P F G T} `{Mapper P F G T} (p : P) (t t' : T) : Prop :=
  forall q, q <> p -> translate t' q = translate t q.

Class MapperLaws (P F G T : Type) `{PhysFrames F} `{FrameStore F G} `{Mapper P F G T} := {
  map_to_law n t g p f flags : ready (3 + n) g -> translate t p = Unmapped ->
    exists t' g', map_to p f flags (t, g) = (Ok tt, (t', g')) /\
      translate t' p = Mapped f flags /\ same_but p t t' /\ avail g' ⊆ avail g /\ total g' = total g /\
      table_frames t' = table_frames t ∪ (avail g ∖ avail g') /\
      (size (table_frames t') <= size (table_frames t) + 3)%nat /\ ready n g';
  map_to_fails t g p f flags : translate t p <> Unmapped ->
    exists e, map_to p f flags (t, g) = (Err e, (t, g));
  unmap_law t p f flags : translate t p = Mapped f flags ->
    exists t', unmap p t = (Ok f, t') /\ translate t' p = Unmapped /\ same_but p t t' /\
      table_frames t' = table_frames t;
  unmap_fails t p : (forall f flags, translate t p <> Mapped f flags) ->
    exists e, unmap p t = (Err e, t);
  update_flags_law t p f flags flags' : translate t p = Mapped f flags ->
    exists t', update_flags p flags' t = (Ok tt, t') /\ translate t' p = Mapped f flags' /\
      same_but p t t' /\ table_frames t' = table_frames t;
  update_flags_fails t p flags' : (forall f flags, translate t p <> Mapped f flags) ->
    exists e, update_flags p flags' t = (Err e, t);
  clean_up_law n t g : ready (size (table_frames t) + n) g ->
    (forall i, i ∈ table_frames t -> 0 <= i < total g /\ (i ∉ avail g)) ->
    exists t' g', clean_up (t, g) = (Ok tt, (t', g')) /\ (forall q, translate t' q = translate t q) /\
      table_frames t' ⊆ table_frames t /\
      avail g' = avail g ∪ (table_frames t ∖ table_frames t') /\ total g' = total g /\
      ready (size (table_frames t') + n) g'
}.

(** ** The state of the memory system *)

(** [FRAME_ALLOCATOR], the interrupt controllers with the shootdown slots,
    [NEXT_EPH_OFFSET] and the bytes of physical memory. *)
Record Vm (G W : Type) := mkVm {
  vm_frames : G;
  vm_apic : Apic W;
  NEXT_EPH_OFFSET : Z;
  phys : gmap Z Z
}.
Arguments mkVm {G W}.
Arguments vm_frames {G W}.
Arguments vm_apic {G W}.
Arguments NEXT_EPH_OFFSET {G W}.
Arguments phys {G W}.

Section paging.
Context {P F G T W : Type} `{Pages P} `{PhysFrames F} `{PageTableFlags} `{FrameStore F G}.
Context `{Mapper P F G T} `{Machine W}.
Abbreviation MT := (M (T * Vm G W) no_error).

Definition with_frames (vm : Vm G W) (g : G) : Vm G W := mkVm g (vm_apic vm) (NEXT_EPH_OFFSET vm) (phys vm).
Definition with_apic (vm : Vm G W) (a : Apic W) : Vm G W := mkVm (vm_frames vm) a (NEXT_EPH_OFFSET vm) (phys vm).
Definition with_eph (vm : Vm G W) (o : Z) : Vm G W := mkVm (vm_frames vm) (vm_apic vm) o (phys vm).
Definition with_phys (vm : Vm G W) (m : gmap Z Z) : Vm G W :=
  mkVm (vm_frames vm) (vm_apic vm) (NEXT_EPH_OFFSET vm) m.

(** The allocator, the controllers, the mapper, the mapper with the locked allocator. *)
Definition in_frames {A} (m : M G no_error A) : MT A :=
  zoom (fun s => vm_frames s.2) (fun g s => (s.1, with_frames s.2 g)) m.
Definition in_apic {A} (m : M (Apic W) no_error A) : MT A :=
  zoom (fun s => vm_apic s.2) (fun a s => (s.1, with_apic s.2 a)) m.
Definition in_mapper {E A} (m : M T E A) : M (T * Vm G W) E A :=
  zoom fst (fun t s => (t, s.2)) m.
Definition in_tables {E A} (m : M (T * G) E A) : M (T * Vm G W) E A :=
  zoom (fun s => (s.1, vm_frames s.2)) (fun tg s => (tg.1, with_frames s.2 tg.2)) m.

Definition create_mapping (page : P) (flags : option Z) : MT F :=
  let! frame := in_frames store_alloc in
  let! frame := expect frame in
  unwrap (in_tables (map_to page frame
    (default (Z.lor (Z.lor PRESENT WRITABLE) USER_ACCESSIBLE) flags))) ;!
  ret frame.

Definition update_mapping (page : P) (frame : F) : MT unit :=
  let flags := Z.lor PRESENT WRITABLE in
  let! old_frame := unwrap (in_mapper (unmap page)) in
  if negb (start_address old_frame =? start_address frame) then
    ignore (in_tables (map_to page frame flags)) ;!
    in_apic (tlb_shootdown (page_start page))
  else ret tt.

Definition remove_mapping (page : P) : MT F :=
  let! frame := unwrap (in_mapper (unmap page)) in
  in_apic (tlb_shootdown (page_start page)) ;!
  ret frame.

Definition remove_mapped_frame (page : P) : MT unit :=
  let! frame := unwrap (in_mapper (unmap page)) in
  in_frames (store_dealloc frame) ;!
  in_apic (tlb_shootdown (page_start page)).

Definition map_kernel_frame (frame : F) (flags : Z) : MT Z :=
  let! s := get_state in
  let offset := NEXT_EPH_OFFSET s.2 in
  let! next := chk 64 (offset + 0x1000) in
  put_state (s.1, with_eph s.2 next) ;!
  let! addr := chk 64 (EPHEMERAL_KERNEL_MAPPINGS_START + offset) in
  let! temp_virt := expect (VirtAddr_new addr) in
  let temp_page := page_containing temp_virt in
  unwrap (in_tables (map_to temp_page frame flags)) ;!
  in_apic (flush_page (page_start temp_page)) ;!
  ret temp_virt.

Definition update_permissions (page : P) (flags : Z) : MT unit :=
  unwrap (in_mapper (update_flags page flags)) ;!
  in_apic (tlb_shootdown (page_start page)).
End paging.

(** ** The mapper of an address space *)

(** [active_level_4_table], [paging::init] and [PCB::create_mapper]: the page
    tables whose top table is in the frame [cr3] holds, or in that of the
    process, found at its address in the direct map.  [new] is
    [OffsetPageTable::new]. *)
Section mappers.
Context {P F T S : Type} `{Pages P} `{PhysFrames F} (HHDM_OFFSET : Z) (new : Z -> T).

Definition table_at (phys : Z) : M S no_error Z :=
  let! virt := chk 64 (HHDM_OFFSET + phys) in
  expect (VirtAddr_new virt).
Definition active_level_4_table (cr3 : F) : M S no_error Z := table_at (start_address cr3).
Definition init (cr3 : F) : M S no_error T :=
  let! level_4_table := active_level_4_table cr3 in
  ret (new level_4_table).
Definition create_mapper (pml4_frame : F) : M S no_error T :=
  let! virt := table_at (start_address pml4_frame) in
  ret (new virt).

(** With a direct map that reaches all frames, the two never fail, and agree on
    the address space that is active. *)
Lemma create_mapper_ok `{!PagesLaws P} (f : F) s :
  canonical (HHDM_OFFSET + start_address f) ->
  create_mapper f s = (Ok (new (HHDM_OFFSET + start_address f)), s) /\ init f s = create_mapper f s.
Proof.
  intros Hc. unfold init, create_mapper, active_level_4_table, table_at. split; [|done].
  rewrite bind_assoc, bind_chk by (unfold canonical in Hc; lia).
  by rewrite (bind_expect _ (HHDM_OFFSET + start_address f)) by by apply VirtAddr_new_canonical.
Qed.
End mappers.

(** ** What the operations do *)

Section paging_proofs.
Context {P F G T W : Type} `{PagesLaws P} `{PhysFramesLaws F} `{PageTableFlags} `{!FrameStore F G, !FrameStoreLaws F G}.
Context `{!Mapper P F G T, !MapperLaws P F G T} `{Machine W}.
Implicit Types (vm : Vm G W) (t : T) (page : P).

Lemma avail_refill (A A1 tf : gset Z) (i : Z) :
  A1 ⊆ A -> i ∈ A -> tf ## A -> A = {[i]} ∪ A1 ∪ (tf ∪ A ∖ {[i]} ∖ A1) ∖ tf.
Proof.
  clear. intros Hsub Hi Hd. apply set_eq. intros j. destruct (decide (j = i)) as [->|]; [set_solver|].
  destruct (decide (j ∈ A1)); set_solver.
Qed.

(** The slots of the shootdown protocol are those of [MAX_CORES] cores. *)
Definition slots_ok vm : Prop := len (TLB_SHOOTDOWN_ADDR (vm_apic vm)) = MAX_CORES.

(** Running a part of the state. *)
Lemma in_frames_eq {A} (m : M G no_error A) t vm r g :
  m (vm_frames vm) = (r, g) -> in_frames m (t, vm) = (r, (t, with_frames vm g)).
Proof. intros E. unfold in_frames. by rewrite (zoom_ok _ _ _ (t, vm) _ _ E). Qed.
Lemma in_apic_eq {A} (m : M (Apic W) no_error A) t vm r a :
  m (vm_apic vm) = (r, a) -> in_apic m (t, vm) = (r, (t, with_apic vm a)).
Proof. intros E. unfold in_apic. by rewrite (zoom_ok _ _ _ (t, vm) _ _ E). Qed.
Lemma in_mapper_eq {E A} (m : M T E A) t vm r t' :
  m t = (r, t') -> in_mapper m (t, vm) = (r, (t', vm)).
Proof. intros Em. unfold in_mapper. by rewrite (zoom_ok _ _ _ (t, vm) _ _ Em). Qed.
Lemma in_tables_eq {E A} (m : M (T * G) E A) t vm r t' g :
  m (t, vm_frames vm) = (r, (t', g)) -> in_tables m (t, vm) = (r, (t', with_frames vm g)).
Proof. intros Em. unfold in_tables. by rewrite (zoom_ok _ _ _ (t, vm) _ _ Em). Qed.

Lemma same_but_trans page t t1 t2 :
  same_but page t t1 -> same_but page t1 t2 -> translate t2 page = translate t page ->
  forall q, translate t2 q = translate t q.
Proof.
  intros H1' H2' Hp q. destruct (decide (page_start q = page_start page)) as [->%page_inj|Hne]; [done|].
  assert (q <> page) by (intros ->; done). by rewrite H2', H1'.
Qed.

Lemma shootdown_step v t vm : slots_ok vm ->
  exists a, in_apic (T:=T) (tlb_shootdown v) (t, vm) = (Ok tt, (t, with_apic vm a)) /\ slots_ok (with_apic vm a) /\
    tlb_shootdown (E:=no_error) v (vm_apic vm) = (Ok tt, a).
Proof.
  intros Hs. destruct (tlb_shootdown_total (E:=no_error) v (vm_apic vm) Hs) as (a & E & Hl & _).
  exists a. split_and!; [|done|done]. by apply in_apic_eq.
Qed.

Lemma map_to_step n t vm page (f : F) flags :
  ready (3 + n) (vm_frames vm) -> translate t page = Unmapped ->
  exists t' g', in_tables (W:=W) (map_to page f flags) (t, vm) = (Ok tt, (t', with_frames vm g')) /\
    translate t' page = Mapped f flags /\ same_but page t t' /\ avail g' ⊆ avail (vm_frames vm) /\
    total g' = total (vm_frames vm) /\ table_frames t' = table_frames t ∪ (avail (vm_frames vm) ∖ avail g') /\
    (size (table_frames t') <= size (table_frames t) + 3)%nat /\ ready n g'.
Proof.
  intros Hr Hu. destruct (map_to_law n t (vm_frames vm) page f flags Hr Hu) as (t' & g' & E & ?).
  exists t', g'. split; [|done]. by apply in_tables_eq.
Qed.

Lemma unmap_step t vm page f flags : translate t page = Mapped f flags ->
  exists t', in_mapper (W:=W) (unmap page) (t, vm) = (Ok f, (t', vm)) /\ translate t' page = Unmapped /\
    same_but page t t' /\ table_frames t' = table_frames t.
Proof.
  intros Hm. destruct (unmap_law t page f flags Hm) as (t' & E & ?).
  exists t'. split; [|done]. by apply in_mapper_eq.
Qed.

(** [create_mapping] on a page that is not mapped: it takes a free frame and
    maps the page to it; the page tables may take up to three frames more. *)
Lemma create_mapping_step n t vm page flags :
  ready (4 + n) (vm_frames vm) -> translate t page = Unmapped ->
  exists f t' g', create_mapping page flags (t, vm) = (Ok f, (t', with_frames vm g')) /\
    frame_number f ∈ avail (vm_frames vm) /\ (frame_number f ∉ avail g') /\
    translate t' page = Mapped f (default (Z.lor (Z.lor PRESENT WRITABLE) USER_ACCESSIBLE) flags) /\
    same_but page t t' /\ avail g' ⊆ avail (vm_frames vm) /\ total g' = total (vm_frames vm) /\
    table_frames t' = table_frames t ∪ (avail (vm_frames vm) ∖ {[frame_number f]} ∖ avail g') /\
    (size (table_frames t') <= size (table_frames t) + 3)%nat /\ ready n g'.
Proof.
  intros Hr Hu. destruct (alloc_fresh (3 + n) (vm_frames vm) Hr) as (f & g1 & E1 & Hin & Hno & Hsub & Ha & _ & Ht & Hr1).
  unfold create_mapping. rewrite (bind_ok _ _ _ (Some f) (t, with_frames vm g1)) by
    (by apply in_frames_eq).
  rewrite (bind_expect _ f) by done.
  set (fl := default _ flags).
  destruct (map_to_step n t (with_frames vm g1) page f fl) as (t' & g' & E2 & Hm & Hsame & Hsub2 & Ht2 & Htf & Hsz & Hr2);
    [done|done|].
  rewrite (bind_ok _ _ _ _ _ (unwrap_ok _ _ _ _ E2)). cbn in *.
  exists f, t', g'. split_and!; try done; [set_solver|set_solver|congruence|]. by rewrite Htf, Ha.
Qed.

(** ... and on a page that is mapped it panics. *)
Lemma create_mapping_panics n t vm page flags :
  ready (S n) (vm_frames vm) -> translate t page <> Unmapped -> (create_mapping page flags (t, vm)).1 = Panic.
Proof.
  intros Hr Hm. destruct (alloc_fresh n (vm_frames vm) Hr) as (f & g1 & E1 & _).
  unfold create_mapping. rewrite (bind_ok _ _ _ (Some f) (t, with_frames vm g1)) by
    (by apply in_frames_eq).
  rewrite (bind_expect _ f) by done.
  destruct (map_to_fails t g1 page f (default (Z.lor (Z.lor PRESENT WRITABLE) USER_ACCESSIBLE) flags) Hm) as [e E].
  erewrite bind_panic; [done|]. eapply unwrap_err. by apply in_tables_eq.
Qed.


(** [update_mapping] on a page mapped to another frame maps it to the new
    frame, present and writable only, and shoots the page down; when the new
    frame is the old one it leaves the page unmapped and shoots nothing down;
    on a page that is not mapped it panics. *)
Theorem update_mapping_cases (n : nat) (t : T) (vm : Vm G W) (page : P) (frame : F) :
  ready (3 + n) (vm_frames vm) -> slots_ok vm ->
  match translate t page with
  | Mapped old _ =>
      if start_address old =? start_address frame then
        exists t', update_mapping page frame (t, vm) = (Ok tt, (t', vm)) /\
          translate t' page = Unmapped /\ same_but page t t'
      else
        exists t' vm', update_mapping page frame (t, vm) = (Ok tt, (t', vm')) /\
          translate t' page = Mapped frame (Z.lor PRESENT WRITABLE) /\ same_but page t t' /\
          tlb_shootdown (E:=no_error) (page_start page) (vm_apic vm) = (Ok tt, vm_apic vm') /\
          avail (vm_frames vm') ⊆ avail (vm_frames vm) /\ phys vm' = phys vm
  | _ => (update_mapping page frame (t, vm)).1 = Panic
  end.
Proof.
  intros Hr Hs.
  assert ((forall f flags, translate t page <> Mapped f flags) ->
    (update_mapping page frame (t, vm)).1 = Panic) as Hpanic.
  { intros [e E]%unmap_fails. unfold update_mapping.
    by rewrite (bind_panic _ _ _ _ (unwrap_err _ _ _ _ (in_mapper_eq _ t vm _ _ E))). }
  destruct (translate t page) as [|old fl|] eqn:Ht; [by apply Hpanic| |by apply Hpanic]. clear Hpanic.
  destruct (unmap_step t vm page old fl Ht) as (t1 & E1 & Hu1 & Hsame1 & _).
  unfold update_mapping. rewrite (bind_ok _ _ _ _ _ (unwrap_ok _ _ _ _ E1)).
  destruct (start_address old =? start_address frame) eqn:Eold; cbn [negb]; [by exists t1|].
  destruct (map_to_step n t1 vm page frame (Z.lor PRESENT WRITABLE) Hr Hu1)
    as (t2 & g2 & E2 & Hm & Hsame2 & Hsub & _).
  rewrite (bind_ok _ _ _ _ _ (ignore_ok _ _ _ _ E2)).
  destruct (shootdown_step (page_start page) t2 (with_frames vm g2) Hs) as (a & E3 & _ & Ea).
  exists t2, (with_apic (with_frames vm g2) a). split_and!; try done.
  intros q Hq. by rewrite Hsame2, Hsame1.
Qed.
End paging_proofs.
