(* ===== verification/Loader.v ===== *)
(** * The ELF loader ([processes/loader.rs])

    [load_elf] maps every page of every loadable segment into the address space
    of a new process, copies the file's bytes into it through a temporary kernel
    mapping, fills the rest with zeros, and maps the user stack.

    The ELF parser is the [goblin] crate: a function from bytes to the fields
    that are read here.  A write through a pointer goes where the kernel's page
    tables say; a page that is not mapped there is a page fault, hence a panic. *)

From S2P Require Import Prelude Apic Tlb Frames FrameStore Paging.

Definition STACK_START : Z := 0x700000000000.
Definition STACK_SIZE : Z := 2 * 4096.
Definition PT_LOAD : Z := 1.
Definition PF_X : Z := 1.
Definition PF_W : Z := 2.

(** The fields of a program header and of an ELF file that the loader reads. *)
Record ProgramHeader := mkPh {
  p_type : Z; p_flags : Z; p_offset : Z; p_vaddr : Z; p_filesz : Z; p_memsz : Z
}.
Record Elf := mkElf { program_headers : list ProgramHeader; e_entry : Z }.

Section loader.
Context {P F G T W : Type} `{Pages P} `{PhysFrames F} `{PageTableFlags} `{FrameStore F G}.
Context `{Mapper P F G T} `{Machine W} (parse : list Z -> option Elf).

(** The tables of [user_mapper] and [kernel_mapper], and the memory system. *)
Abbreviation Ld := (T * T * Vm G W)%type.
Abbreviation ML := (M Ld no_error).

Definition in_user {A} (m : M (T * Vm G W) no_error A) : ML A :=
  zoom (fun s => (s.1.1, s.2)) (fun x s => (x.1, s.1.2, x.2)) m.
Definition in_kernel {A} (m : M (T * Vm G W) no_error A) : ML A :=
  zoom (fun s => (s.1.2, s.2)) (fun x s => (s.1.1, x.1, x.2)) m.

(** Bytes stored from a virtual address on ([copy_nonoverlapping], [write_bytes]). *)
Fixpoint write_virt (vaddr : Z) (bytes : list Z) : M (T * Vm G W) no_error unit :=
  match bytes with
  | [] => ret tt
  | b :: bytes =>
      let! s := get_state in
      match translate s.1 (page_containing vaddr) with
      | Mapped f _ =>
          put_state (s.1, with_phys s.2 (<[start_address f + vaddr mod PAGE_SIZE := b]> (phys s.2))) ;!
          write_virt (vaddr + 1) bytes
      | _ => panic
      end
  end.

Definition default_flags : Z := Z.lor (Z.lor PRESENT USER_ACCESSIBLE) WRITABLE.

(** [flags], widened by the permissions of the segment. *)
Definition widen_flags (ph : ProgramHeader) (flags : Z) : Z :=
  let flags := if negb (Z.land (p_flags ph) PF_W =? 0) then Z.lor flags WRITABLE else flags in
  if Z.land (p_flags ph) PF_X =? 0 then Z.lor flags NO_EXECUTE else flags.

(** The contents of a page: the bytes of the file, then zeros. *)
Definition copy_page (elf_bytes : list Z) (ph : ProgramHeader) (kernel_alias page_offset : Z) : ML unit :=
  let page_remaining := PAGE_SIZE - page_offset mod PAGE_SIZE in
  let to_copy := Z.min (Z.max 0 (p_filesz ph - page_offset)) page_remaining in
  if 0 <? to_copy then
    let! from := chk 64 (p_offset ph + page_offset) in
    let! to := chk 64 (from + to_copy) in
    rassert (to <=? len elf_bytes) ;!
    in_kernel (write_virt kernel_alias (slice elf_bytes from to_copy))
  else ret tt.
Definition zero_page (ph : ProgramHeader) (kernel_alias page_offset : Z) : ML unit :=
  let page_remaining := PAGE_SIZE - page_offset mod PAGE_SIZE in
  let bss_start := Z.max 0 (p_filesz ph - page_offset) in
  if bss_start <? page_remaining then
    let zero_offset_in_page := Z.max bss_start 0 in
    let zero_len := Z.max 0 (page_remaining - zero_offset_in_page) in
    if 0 <? zero_len then
      in_kernel (write_virt (kernel_alias + zero_offset_in_page) (vec 0 zero_len))
    else ret tt
  else ret tt.

(** The body of the loop over the pages of a segment; returns [flags]. *)
Definition load_page (elf_bytes : list Z) (ph : ProgramHeader) (start_page : P) (flags : Z) (page : P) : ML Z :=
  let! frame := in_user (create_mapping page (Some default_flags)) in
  let! kernel_alias := in_kernel (map_kernel_frame frame default_flags) in
  let page_offset := Z.max 0 (page_start page - page_start start_page) in
  copy_page elf_bytes ph kernel_alias page_offset ;!
  zero_page ph kernel_alias page_offset ;!
  let flags := widen_flags ph flags in
  in_user (update_permissions page flags) ;!
  let unmap_page := page_containing kernel_alias in
  in_kernel (unwrap (in_mapper (unmap unmap_page)) ;! in_apic (flush_page (page_start unmap_page))) ;!
  in_kernel (in_tables clean_up) ;!
  in_user (update_permissions page flags) ;!
  ret flags.

(** The body of the loop over the program headers. *)
Definition load_segment (elf_bytes : list Z) (ph : ProgramHeader) : ML unit :=
  if negb (p_type ph =? PT_LOAD) then ret tt else
  let! virt_addr := expect (VirtAddr_new (p_vaddr ph)) in
  let! last := chk 64 (p_memsz ph - 1) in
  let! last := chk 64 (virt_addr + last) in
  let! last := expect (VirtAddr_new last) in
  let start_page := page_containing virt_addr in
  let end_page := page_containing last in
  let! _ := for_fold (range_inclusive start_page end_page) (Z.lor PRESENT USER_ACCESSIBLE)
              (load_page elf_bytes ph start_page) in
  ret tt.

(** The user stack. *)
Definition stack_flags : Z := Z.lor (Z.lor PRESENT WRITABLE) USER_ACCESSIBLE.
Definition map_stack : ML Z :=
  let! stack_start := expect (VirtAddr_new STACK_START) in
  let! stack_end := expect (VirtAddr_new (STACK_START + STACK_SIZE)) in
  let start_page := page_containing stack_start in
  let end_page := page_containing stack_end in
  for_do (range_inclusive start_page end_page) (fun page =>
    let! _ := in_user (create_mapping page (Some stack_flags)) in ret tt) ;!
  ret stack_end.

Definition load_elf (elf_bytes : list Z) : ML (Z * Z) :=
  let! elf := expect (parse elf_bytes) in
  for_do (program_headers elf) (load_segment elf_bytes) ;!
  let! stack_end := map_stack in
  ret (stack_end, e_entry elf).
End loader.

(** ** What is loaded *)

(** Bytes laid down from an address on. *)
Fixpoint put_bytes (m : gmap Z Z) (a : Z) (bytes : list Z) : gmap Z Z :=
  match bytes with [] => m | b :: bytes => put_bytes (<[a := b]> m) (a + 1) bytes end.

Lemma put_bytes_out m a bytes x : x < a \/ a + len bytes <= x -> put_bytes m a bytes !! x = m !! x.
Proof.
  revert m a. induction bytes as [|b bytes IH]; intros m a Hx; [done|].
  assert (len (b :: bytes) = 1 + len bytes) as El by (unfold len; cbn; lia). pose proof (len_nonneg bytes).
  cbn. rewrite IH by lia. apply lookup_insert_ne. lia.
Qed.

Lemma put_bytes_in m a bytes x : a <= x < a + len bytes -> put_bytes m a bytes !! x = idx bytes (x - a).
Proof.
  revert m a. induction bytes as [|b bytes IH]; intros m a Hx; [unfold len in Hx; cbn in Hx; lia|].
  assert (len (b :: bytes) = 1 + len bytes) as El by (unfold len; cbn; lia). pose proof (len_nonneg bytes). cbn.
  destruct (decide (x = a)) as [->|].
  - rewrite put_bytes_out by lia. rewrite lookup_insert_eq. by replace (a - a) with 0 by lia.
  - rewrite IH by lia. unfold idx. replace (Z.to_nat (x - a)) with (S (Z.to_nat (x - (a + 1)))) by lia. done.
Qed.

Section loader_proofs.
Context {P F G T W : Type} `{PagesLaws P} `{PhysFramesLaws F} `{PageTableFlags} `{!FrameStore F G, !FrameStoreLaws F G}.
Context `{!Mapper P F G T, !MapperLaws P F G T} `{Machine W}.
Implicit Types (vm : Vm G W) (t u k : T) (page : P) (f : F).

Lemma canonical_in_page a off : canonical a -> a mod PAGE_SIZE = 0 -> 0 <= off < PAGE_SIZE -> canonical (a + off).
Proof. unfold canonical, PAGE_SIZE. intros. dlia. Qed.

Lemma page_containing_in page off : 0 <= off < PAGE_SIZE -> page_containing (page_start page + off) = page.
Proof.
  intros Hoff. destruct (page_start_ok page) as [Hc Hm]. apply page_inj.
  rewrite page_containing_start by (by apply canonical_in_page). unfold PAGE_SIZE in *. dlia.
Qed.

Lemma write_virt_ok t vm page f fl off bytes :
  translate t page = Mapped f fl -> 0 <= off -> off + len bytes <= PAGE_SIZE ->
  write_virt (page_start page + off) bytes (t, vm) =
    (Ok tt, (t, with_phys vm (put_bytes (phys vm) (start_address f + off) bytes))).
Proof.
  intros Ht. destruct (page_start_ok page) as [_ Hal].
  revert vm off. induction bytes as [|b bytes IH]; intros vm off Hoff Hlen; [by destruct vm|].
  assert (len (b :: bytes) = 1 + len bytes) as El by (unfold len; cbn; lia). pose proof (len_nonneg bytes).
  cbn [write_virt]. rewrite bind_get. cbn [fst snd].
  rewrite page_containing_in by lia. rewrite Ht, bind_put.
  replace ((page_start page + off) mod PAGE_SIZE) with off by (unfold PAGE_SIZE in *; dlia).
  replace (page_start page + off + 1) with (page_start page + (off + 1)) by lia.
  rewrite IH by lia. cbn. by replace (start_address f + off + 1) with (start_address f + (off + 1)) by lia.
Qed.

(** The bytes of page number [i] of a segment. *)
Definition page_bytes (elf_bytes : list Z) (ph : ProgramHeader) (i : Z) : list Z :=
  map (fun j => if i * PAGE_SIZE + j <? p_filesz ph
                then default 0 (idx elf_bytes (p_offset ph + i * PAGE_SIZE + j)) else 0)
      (range 0 PAGE_SIZE).

(** Frame [f] holds a page of bytes. *)
Definition holds_page (m : gmap Z Z) (f : F) (bytes : list Z) : Prop :=
  forall j, 0 <= j < PAGE_SIZE -> m !! (start_address f + j) = idx bytes j.

(** What a header must satisfy for its bytes to lie within the file and its
    pages in the lower half of the address space. *)
Record header_ok (elf_bytes : list Z) (ph : ProgramHeader) : Prop := {
  ho_file : 0 <= p_offset ph /\ 0 <= p_filesz ph /\ p_offset ph + p_filesz ph <= len elf_bytes < 2 ^ 63;
  ho_mem : 0 <= p_vaddr ph /\ 1 <= p_memsz ph /\ p_vaddr ph + p_memsz ph <= 2 ^ 47
}.

Lemma idx_page_bytes elf_bytes ph i j : 0 <= j < PAGE_SIZE ->
  idx (page_bytes elf_bytes ph i) j =
  Some (if i * PAGE_SIZE + j <? p_filesz ph
        then default 0 (idx elf_bytes (p_offset ph + i * PAGE_SIZE + j)) else 0).
Proof.
  intros Hj. unfold idx, page_bytes. rewrite list_lookup_fmap.
  unfold range. rewrite lookup_seqZ_lt by lia. cbn. by replace (0 + Z.of_nat (Z.to_nat j)) with j by lia.
Qed.

Lemma in_user_eq {A} (m : M (T * Vm G W) no_error A) u k vm r u' vm' :
  m (u, vm) = (r, (u', vm')) -> in_user m (u, k, vm) = (r, (u', k, vm')).
Proof. intros E. unfold in_user. by rewrite (zoom_ok _ _ _ (u, k, vm) _ _ E). Qed.
Lemma in_kernel_eq {A} (m : M (T * Vm G W) no_error A) u k vm r k' vm' :
  m (k, vm) = (r, (k', vm')) -> in_kernel m (u, k, vm) = (r, (u, k', vm')).
Proof. intros E. unfold in_kernel. by rewrite (zoom_ok _ _ _ (u, k, vm) _ _ E). Qed.

(** How many bytes of the file page number [i] gets. *)
Definition file_part (ph : ProgramHeader) (i : Z) : Z :=
  Z.min (Z.max 0 (p_filesz ph - i * PAGE_SIZE)) PAGE_SIZE.

Lemma copy_page_ok elf_bytes ph u k vm alias f fl i :
  header_ok elf_bytes ph -> 0 <= i -> translate k alias = Mapped f fl ->
  exists m, copy_page elf_bytes ph (page_start alias) (i * PAGE_SIZE) (u, k, vm) = (Ok tt, (u, k, with_phys vm m)) /\
    forall x, m !! x =
      if (start_address f <=? x) && (x <? start_address f + file_part ph i)
      then idx elf_bytes (p_offset ph + i * PAGE_SIZE + (x - start_address f)) else phys vm !! x.
Proof.
  intros [(Ho & Hf & Hl) _] Hi Hk. unfold copy_page.
  replace (i * PAGE_SIZE mod PAGE_SIZE) with 0 by (unfold PAGE_SIZE; dlia). rewrite Z.sub_0_r. fold (file_part ph i).
  assert (0 <= i * PAGE_SIZE) by (unfold PAGE_SIZE; lia).
  assert (file_part ph i <= PAGE_SIZE /\ 0 <= file_part ph i /\
    (0 < file_part ph i -> i * PAGE_SIZE + file_part ph i <= p_filesz ph)) as (Hn1 & Hn2 & Hn3)
    by (unfold file_part, PAGE_SIZE in *; lia).
  destruct (0 <? file_part ph i) eqn:En.
  - specialize (Hn3 ltac:(lia)). set (n := file_part ph i) in *. set (o := p_offset ph + i * PAGE_SIZE).
    rewrite bind_chk by lia. fold o. rewrite bind_chk by (unfold o; lia). rewrite bind_assert by (unfold o; lia).
    assert (len (slice elf_bytes o n) = n) as Els by (apply len_slice; unfold o; lia).
    pose proof (write_virt_ok k vm alias f fl 0 (slice elf_bytes o n) Hk ltac:(lia) ltac:(lia)) as E.
    rewrite !Z.add_0_r in E. rewrite (in_kernel_eq _ u _ _ _ _ _ E). eexists. split; [done|]. intros x.
    destruct ((_ <=? x) && _) eqn:Ex.
    + rewrite put_bytes_in by lia. rewrite idx_slice by lia. f_equal; unfold o; lia.
    + apply put_bytes_out. lia.
  - exists (phys vm). split; [by destruct vm|]. intros x. by replace ((_ <=? x) && _) with false by lia.
Qed.

Lemma zero_page_ok ph u k vm alias f fl i :
  0 <= i -> translate k alias = Mapped f fl ->
  exists m, zero_page ph (page_start alias) (i * PAGE_SIZE) (u, k, vm) = (Ok tt, (u, k, with_phys vm m)) /\
    forall x, m !! x =
      if (start_address f + file_part ph i <=? x) && (x <? start_address f + PAGE_SIZE)
      then Some 0 else phys vm !! x.
Proof.
  intros Hi Hk. unfold zero_page.
  replace (i * PAGE_SIZE mod PAGE_SIZE) with 0 by (unfold PAGE_SIZE; dlia). rewrite Z.sub_0_r.
  set (b := Z.max 0 (p_filesz ph - i * PAGE_SIZE)). assert (0 < PAGE_SIZE) by done.
  assert (file_part ph i = Z.min b PAGE_SIZE) as -> by done.
  destruct (b <? PAGE_SIZE) eqn:Eb.
  - replace (Z.max b 0) with b by lia. replace (Z.max 0 (PAGE_SIZE - b)) with (PAGE_SIZE - b) by lia.
    replace (0 <? PAGE_SIZE - b) with true by lia. replace (Z.min b PAGE_SIZE) with b by lia.
    assert (len (vec 0 (PAGE_SIZE - b)) = PAGE_SIZE - b) as El by (apply len_vec; lia).
    pose proof (write_virt_ok k vm alias f fl b (vec 0 (PAGE_SIZE - b)) Hk ltac:(lia) ltac:(lia)) as E.
    rewrite (in_kernel_eq _ u _ _ _ _ _ E). eexists. split; [done|]. intros x.
    destruct ((_ <=? x) && _) eqn:Ex.
    + rewrite put_bytes_in by lia. apply idx_vec. lia.
    + apply put_bytes_out. lia.
  - exists (phys vm). split; [by destruct vm|]. intros x. by replace ((_ <=? x) && _) with false by lia.
Qed.

(** Together they fill the frame with the bytes of the page and touch no other. *)
Lemma fill_page_ok elf_bytes ph u k vm alias f fl i :
  header_ok elf_bytes ph -> 0 <= i -> translate k alias = Mapped f fl ->
  exists m,
    (copy_page elf_bytes ph (page_start alias) (i * PAGE_SIZE) ;!
     zero_page ph (page_start alias) (i * PAGE_SIZE)) (u, k, vm) = (Ok tt, (u, k, with_phys vm m)) /\
    holds_page m f (page_bytes elf_bytes ph i) /\
    (forall x, x < start_address f \/ start_address f + PAGE_SIZE <= x -> m !! x = phys vm !! x).
Proof.
  intros Hh Hi Hk. destruct (copy_page_ok elf_bytes ph u k vm alias f fl i Hh Hi Hk) as (m1 & E1 & Hm1).
  destruct (zero_page_ok ph u k (with_phys vm m1) alias f fl i Hi Hk) as (m & E2 & Hm).
  destruct Hh as [(Ho & Hf & Hl) _]. assert (0 < PAGE_SIZE) by done.
  exists m. rewrite (bind_ok _ _ _ _ _ E1). split_and!; [done| |].
  - intros j Hj. rewrite Hm, Hm1, idx_page_bytes by done. unfold file_part.
    destruct (i * PAGE_SIZE + j <? p_filesz ph) eqn:Ej.
    + replace ((_ <=? _) && _) with false by lia. replace ((_ <=? _) && _) with true by lia.
      replace (p_offset ph + i * PAGE_SIZE + (start_address f + j - start_address f))
        with (p_offset ph + i * PAGE_SIZE + j) by lia.
      destruct (idx_is_Some elf_bytes (p_offset ph + i * PAGE_SIZE + j)) as [b ->]; [lia|done].
    + by replace ((_ <=? _) && _) with true by lia.
  - intros x Hx. rewrite Hm, Hm1. cbn. unfold file_part.
    replace ((_ <=? _) && _) with false by lia. by replace ((_ <=? _) && _) with false by lia.
Qed.

(** ** Frames, tables and what the process owns *)

(** The frames the process owns are neither free nor part of page tables, and
    the tables of the process share no frame with the kernel's. *)
Record spaces_ok (owned : gset Z) u k vm : Prop := {
  sp_slots : slots_ok vm;
  sp_kernel i : i ∈ table_frames k -> 0 <= i < total (vm_frames vm) /\ (i ∉ avail (vm_frames vm));
  sp_user i : i ∈ table_frames u -> (i ∉ avail (vm_frames vm)) /\ (i ∉ table_frames k);
  sp_owned i : i ∈ owned -> (i ∉ avail (vm_frames vm)) /\ (i ∉ table_frames u) /\ (i ∉ table_frames k)
}.

(** Mapping a page of the process to a fresh frame. *)
Lemma user_map_step owned n u k vm page flags :
  spaces_ok owned u k vm -> ready (4 + n) (vm_frames vm) -> translate u page = Unmapped ->
  exists f u' vm', create_mapping page (Some flags) (u, vm) = (Ok f, (u', vm')) /\
    translate u' page = Mapped f flags /\ same_but page u u' /\
    frame_number f ∈ avail (vm_frames vm) /\ (frame_number f ∉ owned) /\
    spaces_ok ({[frame_number f]} ∪ owned) u' k vm' /\ ready n (vm_frames vm') /\
    phys vm' = phys vm /\ NEXT_EPH_OFFSET vm' = NEXT_EPH_OFFSET vm.
Proof.
  intros Hsp Hr Hu. pose proof Hsp as [Hs Hk Hus Ho].
  destruct (create_mapping_step n u vm page (Some flags) Hr Hu)
    as (f & u' & g & E & Hin & Hno & Hm & Hsame & Hsub & Htot & Htf & _ & Hr').
  exists f, u', (with_frames vm g).
  split_and!; try done; [by intros [? _]%Ho|]. split; [done|..]; cbn; rewrite ?Htot, ?Htf.
  - intros i Hi. destruct (Hk i Hi). split; [done|]. auto.
  - intros i [Hi|Hi]%elem_of_union.
    + destruct (Hus i Hi). auto.
    + apply elem_of_difference in Hi as [[Hi _]%elem_of_difference Hni]. split; [done|]. by intros [_ ?]%Hk.
  - intros i [->%elem_of_singleton|Hi]%elem_of_union.
    + split_and!; [done|set_solver|]. by intros [_ ?]%Hk.
    + destruct (Ho i Hi) as (Ha & Hb & Hc). split_and!; [auto|set_solver|done].
Qed.

(** The temporary kernel mapping. *)
Definition eph_page (off : Z) : P := page_containing (EPHEMERAL_KERNEL_MAPPINGS_START + off).

Definition eph_ok (off : Z) : Prop := 0 <= off /\ off mod PAGE_SIZE = 0 /\ off + PAGE_SIZE <= 2 ^ 39.

Lemma eph_page_start off : eph_ok off ->
  canonical (EPHEMERAL_KERNEL_MAPPINGS_START + off) /\
  page_start (eph_page off) = EPHEMERAL_KERNEL_MAPPINGS_START + off.
Proof.
  intros (Hp & Hm & Hl). unfold eph_page, EPHEMERAL_KERNEL_MAPPINGS_START, PAGE_SIZE in *.
  assert (canonical (0xFFFFFF8000000000 + off)) as Hc by (unfold canonical; lia).
  split; [done|]. rewrite page_containing_start by done. unfold PAGE_SIZE. dlia.
Qed.

Lemma kernel_map_step owned n u k vm f flags :
  spaces_ok owned u k vm -> ready (3 + n) (vm_frames vm) ->
  eph_ok (NEXT_EPH_OFFSET vm) -> translate k (eph_page (NEXT_EPH_OFFSET vm)) = Unmapped ->
  exists k' vm', map_kernel_frame f flags (k, vm) = (Ok (page_start (eph_page (NEXT_EPH_OFFSET vm))), (k', vm')) /\
    translate k' (eph_page (NEXT_EPH_OFFSET vm)) = Mapped f flags /\ same_but (eph_page (NEXT_EPH_OFFSET vm)) k k' /\
    (size (table_frames k') <= size (table_frames k) + 3)%nat /\
    spaces_ok owned u k' vm' /\ ready n (vm_frames vm') /\
    phys vm' = phys vm /\ NEXT_EPH_OFFSET vm' = NEXT_EPH_OFFSET vm + PAGE_SIZE.
Proof.
  intros [Hs Hk Hus Ho] Hr Heph Hu. destruct (eph_page_start _ Heph) as [Hc Hst].
  set (off := NEXT_EPH_OFFSET vm) in *. set (vm1 := with_eph vm (off + PAGE_SIZE)).
  destruct (map_to_step n k vm1 (eph_page off) f flags Hr Hu)
    as (k' & g & E & Hm & Hsame & Hsub & Htot & Htf & Hsz & Hr').
  exists k', (with_apic (with_frames vm1 g) (with_machine (vm_apic vm1) (invlpg (page_start (eph_page off)) (machine (vm_apic vm1))))).
  split_and!; try done.
  - unfold map_kernel_frame. rewrite bind_get. cbn [snd fst]. fold off. change 0x1000 with PAGE_SIZE.
    destruct Heph as (Hp & _ & Hl). rewrite bind_chk by (unfold PAGE_SIZE in *; lia). rewrite bind_put. fold vm1.
    rewrite bind_chk by (unfold canonical in Hc; lia).
    rewrite (bind_expect _ (EPHEMERAL_KERNEL_MAPPINGS_START + off)) by by apply VirtAddr_new_canonical.
    cbn zeta. fold (eph_page off). rewrite (bind_ok _ _ _ _ _ (unwrap_ok _ _ _ _ E)). by rewrite Hst.
  - cbn in Hsub, Htot, Htf. split; [done|..]; cbn; rewrite ?Htot, ?Htf.
    + intros i [Hi|Hi]%elem_of_union; [destruct (Hk i Hi); auto|].
      apply elem_of_difference in Hi as [Hi Hni]. split; [|done]. by apply (store_avail_range (3 + n)).
    + intros i Hi. destruct (Hus i Hi) as [Ha Hb]. set_solver.
    + intros i Hi. destruct (Ho i Hi) as (Ha & Hb & Hc'). set_solver.
Qed.

(** Changing the flags of a page. *)
Lemma permissions_step owned u k vm page f flags flags' :
  spaces_ok owned u k vm -> translate u page = Mapped f flags ->
  exists u' vm', update_permissions page flags' (u, vm) = (Ok tt, (u', vm')) /\
    translate u' page = Mapped f flags' /\ same_but page u u' /\ spaces_ok owned u' k vm' /\
    vm_frames vm' = vm_frames vm /\ phys vm' = phys vm /\ NEXT_EPH_OFFSET vm' = NEXT_EPH_OFFSET vm.
Proof.
  intros [Hs Hk Hus Ho] Hm. destruct (update_flags_law u page f flags flags' Hm) as (u' & E & Hm' & Hsame & Htf).
  destruct (shootdown_step (page_start page) u' vm Hs) as (a & E2 & Hs2 & _).
  exists u', (with_apic vm a). split_and!; try done; [|by split; cbn; rewrite ?Htf].
  unfold update_permissions. by rewrite (bind_ok _ _ _ _ _ (unwrap_ok _ _ _ _ (in_mapper_eq _ u vm _ _ E))).
Qed.

(** Removing the temporary mapping and the page tables it leaves empty. *)
Lemma release_step owned n u k vm alias f fl :
  spaces_ok owned u k vm -> ready (size (table_frames k) + n) (vm_frames vm) -> translate k alias = Mapped f fl ->
  exists k1 vm1 k' vm',
    (unwrap (in_mapper (unmap alias)) ;! in_apic (flush_page (page_start alias))) (k, vm) = (Ok tt, (k1, vm1)) /\
    in_tables clean_up (k1, vm1) = (Ok tt, (k', vm')) /\
    translate k' alias = Unmapped /\ same_but alias k k' /\ spaces_ok owned u k' vm' /\
    ready (size (table_frames k') + n) (vm_frames vm') /\
    phys vm' = phys vm /\ NEXT_EPH_OFFSET vm' = NEXT_EPH_OFFSET vm.
Proof.
  intros [Hs Hk Hus Ho] Hr Hm. destruct (unmap_step k vm alias f fl Hm) as (k1 & E1 & Hu1 & Hsame1 & Htf1).
  set (vm1 := with_apic vm (with_machine (vm_apic vm) (invlpg (page_start alias) (machine (vm_apic vm))))).
  destruct (clean_up_law n k1 (vm_frames vm)) as (k' & g & E2 & Htr & Hsub & Ha & Htot & Hr');
    [by rewrite Htf1|by rewrite Htf1|].
  exists k1, vm1, k', (with_frames vm1 g). split_and!; try done.
  - by rewrite (bind_ok _ _ _ _ _ (unwrap_ok _ _ _ _ E1)).
  - by apply in_tables_eq.
  - by rewrite Htr.
  - intros q Hq. by rewrite Htr, Hsame1.
  - rewrite Htf1 in *. split; [done|..]; cbn; rewrite ?Htot, ?Ha.
    + intros i Hi. destruct (Hk i (Hsub _ Hi)). split; [done|]. set_solver.
    + intros i Hi. destruct (Hus i Hi). set_solver.
    + intros i Hi. destruct (Ho i Hi) as (? & ? & ?). set_solver.
Qed.

(** One page of a segment. *)
Lemma load_page_step owned n elf_bytes ph start_page flags page i u k vm :
  header_ok elf_bytes ph -> 0 <= i -> page_start page = page_start start_page + i * PAGE_SIZE ->
  spaces_ok owned u k vm -> ready (size (table_frames k) + (10 + n)) (vm_frames vm) ->
  translate u page = Unmapped ->
  eph_ok (NEXT_EPH_OFFSET vm) -> translate k (eph_page (NEXT_EPH_OFFSET vm)) = Unmapped ->
  exists f u' k' vm',
    load_page elf_bytes ph start_page flags page (u, k, vm) = (Ok (widen_flags ph flags), (u', k', vm')) /\
    translate u' page = Mapped f (widen_flags ph flags) /\ same_but page u u' /\
    (forall q, translate k' q = translate k q) /\ (frame_number f ∉ owned) /\
    spaces_ok ({[frame_number f]} ∪ owned) u' k' vm' /\ ready (size (table_frames k') + n) (vm_frames vm') /\
    holds_page (phys vm') f (page_bytes elf_bytes ph i) /\
    (forall x, x < start_address f \/ start_address f + PAGE_SIZE <= x -> phys vm' !! x = phys vm !! x) /\
    NEXT_EPH_OFFSET vm' = NEXT_EPH_OFFSET vm + PAGE_SIZE.
Proof.
  intros Hh Hi Hpage Hsp Hr Hu Heph Hku.
  destruct (user_map_step owned (size (table_frames k) + (6 + n)) u k vm page default_flags Hsp)
    as (f & u1 & vm1 & E1 & Hm1 & Hsame1 & _ & Hfresh & Hsp1 & Hr1 & Hph1 & He1);
    [by eapply ready_mono; [|exact Hr]; lia|done|].
  rewrite <- He1 in Heph, Hku.
  destruct (kernel_map_step _ (size (table_frames k) + (3 + n)) u1 k vm1 f default_flags Hsp1)
    as (k2 & vm2 & E2 & Hm2 & Hsame2 & Hsz & Hsp2 & Hr2 & Hph2 & He2);
    [by eapply ready_mono; [|exact Hr1]; lia|done|done|].
  set (alias := eph_page (NEXT_EPH_OFFSET vm1)) in *.
  destruct (fill_page_ok elf_bytes ph u1 k2 vm2 alias f default_flags i Hh Hi Hm2) as (m & E3 & Hholds & Hout).
  assert (spaces_ok ({[frame_number f]} ∪ owned) u1 k2 (with_phys vm2 m)) as Hsp3 by (destruct Hsp2; by split).
  set (fl := widen_flags ph flags).
  destruct (permissions_step _ u1 k2 (with_phys vm2 m) page f _ fl Hsp3 Hm1)
    as (u4 & vm4 & E4 & Hm4 & Hsame4 & Hsp4 & Hfr4 & Hph4 & He4).
  destruct (release_step _ n u4 k2 vm4 alias f default_flags Hsp4)
    as (k5 & vm5 & k6 & vm6 & E5 & E6 & Hu6 & Hsame6 & Hsp6 & Hr6 & Hph6 & He6);
    [rewrite Hfr4; by eapply ready_mono; [|exact Hr2]; lia|done|].
  destruct (permissions_step _ u4 k6 vm6 page f _ fl Hsp6 Hm4)
    as (u7 & vm7 & E7 & Hm7 & Hsame7 & Hsp7 & Hfr7 & Hph7 & He7).
  exists f, u7, k6, vm7. split_and!; try done.
  - unfold load_page. rewrite (bind_ok _ _ _ _ _ (in_user_eq _ _ k _ _ _ _ E1)).
    rewrite (bind_ok _ _ _ _ _ (in_kernel_eq _ u1 _ _ _ _ _ E2)). cbn zeta.
    replace (Z.max 0 (page_start page - page_start start_page)) with (i * PAGE_SIZE) by (unfold PAGE_SIZE in *; lia).
    rewrite <- bind_assoc. rewrite (bind_ok _ _ _ _ _ E3). fold fl.
    rewrite (bind_ok _ _ _ _ _ (in_user_eq _ _ k2 _ _ _ _ E4)).
    replace (page_containing (page_start alias)) with alias
      by (symmetry; rewrite <- (Z.add_0_r (page_start alias)); by apply page_containing_in).
    rewrite (bind_ok _ _ _ _ _ (in_kernel_eq _ u4 _ _ _ _ _ E5)).
    rewrite (bind_ok _ _ _ _ _ (in_kernel_eq _ u4 _ _ _ _ _ E6)).
    by rewrite (bind_ok _ _ _ _ _ (in_user_eq _ _ k6 _ _ _ _ E7)).
  - intros q Hq. by rewrite Hsame7, Hsame4, Hsame1.
  - apply (same_but_trans alias k k2 k6); [done|done|congruence].
  - rewrite Hfr7. done.
  - by rewrite Hph7, Hph6, Hph4.
  - intros x Hx. rewrite Hph7, Hph6, Hph4. cbn. rewrite Hout by done. congruence.
  - rewrite He7, He6, He4. cbn. congruence.
Qed.

(** ** Loading as a whole *)

(** A page to be mapped: its flags, and its contents if they are given. *)
Record Item := mkItem { it_page : P; it_flags : Z; it_bytes : option (list Z) }.

(** Item [it] is in frame [f]. *)
Definition placed u vm (it : Item) f : Prop :=
  translate u (it_page it) = Mapped f (it_flags it) /\
  match it_bytes it with Some bytes => holds_page (phys vm) f bytes | None => True end.

Definition in_frame (x : Z) f : Prop := start_address f <= x < start_address f + PAGE_SIZE.

(** From one state to another, [items] were placed in the frames [fs]: fresh
    frames, one for each page, and nothing else changed. *)
Record places (owned : gset Z) (items : list Item) (fs : list F) (s s' : T * T * Vm G W) : Prop := {
  pl_placed : Forall2 (placed s'.1.1 s'.2) items fs;
  pl_distinct : NoDup (map frame_number fs);
  pl_fresh f : f ∈ fs -> frame_number f ∉ owned;
  pl_other q : q ∉ map it_page items -> translate s'.1.1 q = translate s.1.1 q;
  pl_kernel q : translate s'.1.2 q = translate s.1.2 q;
  pl_phys x : (forall f, f ∈ fs -> ~ in_frame x f) -> phys s'.2 !! x = phys s.2 !! x;
  pl_spaces : spaces_ok (list_to_set (map frame_number fs) ∪ owned) s'.1.1 s'.1.2 s'.2
}.

(** Addresses and frames for [m] more pages, and then [n] more operations. *)
Record can_load (m n : nat) k vm : Prop := {
  cl_ready : ready (size (table_frames k) + (10 * m + n)) (vm_frames vm);
  cl_eph : 0 <= NEXT_EPH_OFFSET vm /\ NEXT_EPH_OFFSET vm mod PAGE_SIZE = 0 /\
    NEXT_EPH_OFFSET vm + Z.of_nat m * PAGE_SIZE <= 2 ^ 39;
  cl_free j : 0 <= j < Z.of_nat m -> translate k (eph_page (NEXT_EPH_OFFSET vm + j * PAGE_SIZE)) = Unmapped
}.

Lemma in_frame_inj x f g : in_frame x f -> in_frame x g -> frame_number f = frame_number g.
Proof.
  unfold in_frame. destruct (frame_number_start f) as [-> _], (frame_number_start g) as [-> _].
  unfold PAGE_SIZE, FRAME_SIZE. lia.
Qed.

Lemma places_nil owned u k vm : spaces_ok owned u k vm -> places owned [] [] (u, k, vm) (u, k, vm).
Proof.
  intros Hsp. split; try done; [constructor|by intros f ?%not_elem_of_nil|]. cbn. by rewrite (left_id_L ∅ (∪)).
Qed.

Lemma placed_frame u vm it f u' vm' :
  placed u vm it f -> translate u' (it_page it) = translate u (it_page it) ->
  (forall x, in_frame x f -> phys vm' !! x = phys vm !! x) -> placed u' vm' it f.
Proof.
  intros [Ht Hb] Hu Hp. split; [congruence|]. destruct (it_bytes it) as [bytes|]; [|done].
  intros j Hj. rewrite Hp by (unfold in_frame; lia). by apply Hb.
Qed.

Lemma places_app owned items1 items2 fs1 fs2 s1 s2 s3 :
  places owned items1 fs1 s1 s2 -> places (list_to_set (map frame_number fs1) ∪ owned) items2 fs2 s2 s3 ->
  NoDup (map it_page (items1 ++ items2)) -> places owned (items1 ++ items2) (fs1 ++ fs2) s1 s3.
Proof.
  intros [P1 D1 N1 O1 K1 M1 _] [P2 D2 N2 O2 K2 M2 S2] Hnd.
  rewrite map_app, NoDup_app in Hnd. destruct Hnd as (_ & Hdis & _).
  assert (forall f g, f ∈ fs1 -> g ∈ fs2 -> frame_number f <> frame_number g) as Hne.
  { intros f g Hf Hg E. apply (N2 g Hg). rewrite <- E. apply elem_of_union_l, elem_of_list_to_set.
    by apply list_elem_of_fmap_2. }
  split.
  - apply Forall2_app; [|done]. apply Forall2_same_length_lookup_2; [by eapply Forall2_length|].
    intros i it f Hit Hf. apply (placed_frame s2.1.1 s2.2); [by eapply Forall2_lookup_lr| |].
    + apply O2, Hdis. eapply list_elem_of_fmap_2, list_elem_of_lookup_2, Hit.
    + intros x Hx. apply M2. intros g Hg Hxg. apply (Hne f g); [by eapply list_elem_of_lookup_2|done|].
      by apply (in_frame_inj x).
  - rewrite map_app. apply NoDup_app. split_and!; [done| |done].
    intros i (f & -> & Hf)%list_elem_of_fmap_1 (g & E & Hg)%list_elem_of_fmap_1. by apply (Hne f g).
  - intros f [Hf|Hf]%elem_of_app; [by apply N1|]. intros Ho. apply (N2 f Hf). by apply elem_of_union_r.
  - intros q. rewrite map_app, not_elem_of_app. intros [Hq1 Hq2]. by rewrite O2, O1.
  - intros q. by rewrite K2, K1.
  - intros x Hx. rewrite M2, M1; [done|..]; intros f Hf; apply Hx, elem_of_app; auto.
  - by rewrite map_app, list_to_set_app_L, (comm_L (∪) (list_to_set (map frame_number fs1))), <- (assoc_L (∪)).
Qed.

Lemma can_load_eph m n k vm : can_load (S m) n k vm ->
  eph_ok (NEXT_EPH_OFFSET vm) /\ translate k (eph_page (NEXT_EPH_OFFSET vm)) = Unmapped.
Proof.
  intros [_ (He1 & He2 & He3) Hf]. split; [split_and!; [done|done|unfold PAGE_SIZE in *; lia]|].
  rewrite <- (Hf 0) by lia. do 2 f_equal. lia.
Qed.

(** One page of a segment, and one page of the stack. *)
Lemma load_page_places owned m n elf_bytes ph start_page flags page i u k vm :
  header_ok elf_bytes ph -> 0 <= i -> page_start page = page_start start_page + i * PAGE_SIZE ->
  spaces_ok owned u k vm -> can_load (S m) n k vm -> translate u page = Unmapped ->
  exists f u' k' vm',
    load_page elf_bytes ph start_page flags page (u, k, vm) = (Ok (widen_flags ph flags), (u', k', vm')) /\
    places owned [mkItem page (widen_flags ph flags) (Some (page_bytes elf_bytes ph i))] [f] (u, k, vm) (u', k', vm') /\
    can_load m n k' vm'.
Proof.
  intros Hh Hi Hp Hsp Hcl Hu. destruct (can_load_eph _ _ _ _ Hcl) as [He1 He2]. destruct Hcl as [Hr (E1 & E2 & E3) Hf].
  destruct (load_page_step owned (10 * m + n) elf_bytes ph start_page flags page i u k vm)
    as (f & u' & k' & vm' & E & Ht & Hsame & Hk & Hfresh & Hsp' & Hr' & Hb & Hout & He'); try done.
  { eapply ready_mono; [|exact Hr]. lia. }
  exists f, u', k', vm'. split_and!; [done| |].
  - split; cbn.
    + by repeat constructor.
    + apply NoDup_singleton.
    + by intros g ->%list_elem_of_singleton.
    + intros q Hq. apply Hsame. intros ->. apply Hq. by left.
    + done.
    + intros x Hx. apply Hout. specialize (Hx f (list_elem_of_here _ _)). unfold in_frame in Hx. lia.
    + by rewrite (right_id_L ∅ (∪)).
  - split; [done| |].
    + rewrite He'. unfold PAGE_SIZE in *. split_and!; [lia|dlia|lia].
    + intros j Hj. rewrite Hk, He', <- (Hf (j + 1)) by lia. do 2 f_equal. unfold PAGE_SIZE. lia.
Qed.

Lemma stack_page_places owned m n flags page u k vm :
  spaces_ok owned u k vm -> can_load (S m) n k vm -> translate u page = Unmapped ->
  exists f u' vm',
    in_user (create_mapping page (Some flags)) (u, k, vm) = (Ok f, (u', k, vm')) /\
    places owned [mkItem page flags None] [f] (u, k, vm) (u', k, vm') /\ can_load m n k vm'.
Proof.
  intros Hsp [Hr (E1 & E2 & E3) Hf] Hu.
  destruct (user_map_step owned (size (table_frames k) + (10 * m + n)) u k vm page flags Hsp)
    as (f & u' & vm' & E & Ht & Hsame & _ & Hfresh & Hsp' & Hr' & Hph & He'); [|done|].
  { eapply ready_mono; [|exact Hr]. lia. }
  exists f, u', vm'. split_and!; [by apply in_user_eq| |].
  - split; cbn.
    + by repeat constructor.
    + apply NoDup_singleton.
    + by intros g ->%list_elem_of_singleton.
    + intros q Hq. apply Hsame. intros ->. apply Hq. by left.
    + done.
    + by rewrite Hph.
    + by rewrite (right_id_L ∅ (∪)).
  - split; [done| |]; rewrite He'; [unfold PAGE_SIZE in *; lia|]. intros j Hj. apply Hf. lia.
Qed.

(** Widening the flags twice is widening them once. *)
Lemma widen_flags_idem ph flags : widen_flags ph (widen_flags ph flags) = widen_flags ph flags.
Proof.
  unfold widen_flags. destruct (negb _), (Z.land (p_flags ph) PF_X =? 0); try done;
    apply Z.bits_inj'; intros b Hb; rewrite ?Z.lor_spec; by repeat destruct (Z.testbit _ b).
Qed.

(** The pages of a segment, from page number [i] on. *)
Fixpoint segment_items (elf_bytes : list Z) (ph : ProgramHeader) (i : Z) (pages : list P) : list Item :=
  match pages with
  | [] => []
  | page :: pages =>
      mkItem page (widen_flags ph (Z.lor PRESENT USER_ACCESSIBLE)) (Some (page_bytes elf_bytes ph i)) ::
      segment_items elf_bytes ph (i + 1) pages
  end.

Lemma segment_items_pages elf_bytes ph i pages : map it_page (segment_items elf_bytes ph i pages) = pages.
Proof. revert i. induction pages as [|page pages IH]; intros i; [done|]. cbn. by rewrite IH. Qed.

(** Pages that were not placed are mapped as they were. *)
Lemma places_unmapped owned items fs u k vm u' k' vm' (pages : list P) :
  places owned items fs (u, k, vm) (u', k', vm') -> NoDup (map it_page items ++ pages) ->
  Forall (fun page => translate u page = Unmapped) pages ->
  Forall (fun page => translate u' page = Unmapped) pages.
Proof.
  intros [_ _ _ Ho _ _ _] (_ & Hd & _)%NoDup_app Hun. rewrite Forall_forall in Hun |- *. intros q Hq.
  cbn in Ho. rewrite Ho; [by apply Hun|]. intros Hi. by apply (Hd q).
Qed.

Lemma load_pages_places elf_bytes ph start_page :
  header_ok elf_bytes ph ->
  forall pages i flags owned n u k vm, 0 <= i ->
  widen_flags ph flags = widen_flags ph (Z.lor PRESENT USER_ACCESSIBLE) ->
  (forall j page, pages !! j = Some page -> page_start page = page_start start_page + (i + Z.of_nat j) * PAGE_SIZE) ->
  NoDup pages -> Forall (fun page => translate u page = Unmapped) pages ->
  spaces_ok owned u k vm -> can_load (length pages + n) 0 k vm ->
  exists flags' fs u' k' vm',
    for_fold pages flags (load_page elf_bytes ph start_page) (u, k, vm) = (Ok flags', (u', k', vm')) /\
    places owned (segment_items elf_bytes ph i pages) fs (u, k, vm) (u', k', vm') /\ can_load n 0 k' vm'.
Proof.
  intros Hh. induction pages as [|page pages IH]; intros i flags owned n u k vm Hi Hfl Hst Hnd Hun Hsp Hcl.
  { exists flags, [], u, k, vm. split_and!; [done|by apply places_nil|done]. }
  apply Forall_cons in Hun as [Hu Hun]. pose proof Hnd as [Hp Hnd']%NoDup_cons.
  destruct (load_page_places owned (length pages + n) 0 elf_bytes ph start_page flags page i u k vm)
    as (f & u1 & k1 & vm1 & E1 & Hpl1 & Hcl1); try done.
  { rewrite (Hst 0%nat page) by done. f_equal. f_equal. lia. }
  rewrite Hfl in *.
  destruct (IH (i + 1) (widen_flags ph (Z.lor PRESENT USER_ACCESSIBLE))
    (list_to_set (map frame_number [f]) ∪ owned) n u1 k1 vm1)
    as (fl' & fs & u2 & k2 & vm2 & E2 & Hpl2 & Hcl2); [lia|by rewrite widen_flags_idem| |done| |exact (pl_spaces _ _ _ _ _ Hpl1)|done|].
  { intros j q Hq. rewrite (Hst (S j) q) by done. f_equal. f_equal. lia. }
  { by apply (places_unmapped _ _ _ _ _ _ _ _ _ _ Hpl1). }
  exists fl', (f :: fs), u2, k2, vm2. split_and!; [|by eapply (places_app _ [_] _ [f]); [exact Hpl1|exact Hpl2|]; cbn; rewrite segment_items_pages|done].
  cbn [for_fold]. by rewrite (bind_ok _ _ _ _ _ E1).
Qed.

(** The pages of a header, of the stack, and of the whole program. *)
Definition segment_pages (ph : ProgramHeader) : list P :=
  range_inclusive (page_containing (p_vaddr ph)) (page_containing (p_vaddr ph + (p_memsz ph - 1))).
Definition header_items (elf_bytes : list Z) (ph : ProgramHeader) : list Item :=
  if p_type ph =? PT_LOAD then segment_items elf_bytes ph 0 (segment_pages ph) else [].
Definition stack_pages : list P :=
  range_inclusive (page_containing STACK_START) (page_containing (STACK_START + STACK_SIZE)).
Definition stack_items : list Item := map (fun page => mkItem page stack_flags None) stack_pages.
Definition image (elf_bytes : list Z) (headers : list ProgramHeader) : list Item :=
  concat (map (header_items elf_bytes) headers) ++ stack_items.

Lemma range_inclusive_nth p q j page :
  page_start p <= page_start q -> page_start q < 2 ^ 47 -> range_inclusive p q !! j = Some page ->
  page_start page = page_start p + Z.of_nat j * PAGE_SIZE.
Proof.
  intros Hle Hlt Hj. pose proof (range_inclusive_starts p q Hle (or_introl Hlt)) as E.
  apply (f_equal (fun l => l !! j)) in E. rewrite !list_lookup_fmap, Hj in E. cbn in E.
  destruct (range 0 _ !! j) as [x|] eqn:Ex; [|done]. injection E as ->.
  unfold range in Ex. apply lookup_seqZ in Ex as [-> _]. done.
Qed.

Lemma segment_bounds elf_bytes ph : header_ok elf_bytes ph ->
  canonical (p_vaddr ph) /\ canonical (p_vaddr ph + (p_memsz ph - 1)) /\
  page_start (page_containing (p_vaddr ph)) <= page_start (page_containing (p_vaddr ph + (p_memsz ph - 1))) < 2 ^ 47.
Proof.
  intros [_ (Hv & Hm & Hl)]. assert (canonical (p_vaddr ph)) as C1 by (unfold canonical; lia).
  assert (canonical (p_vaddr ph + (p_memsz ph - 1))) as C2 by (unfold canonical; lia).
  split_and!; [done|done|..]; rewrite ?page_containing_start by done; unfold PAGE_SIZE; dlia.
Qed.

Lemma load_segment_places elf_bytes ph owned n u k vm :
  (p_type ph = PT_LOAD -> header_ok elf_bytes ph) ->
  NoDup (map it_page (header_items elf_bytes ph)) ->
  Forall (fun page => translate u page = Unmapped) (map it_page (header_items elf_bytes ph)) ->
  spaces_ok owned u k vm -> can_load (length (header_items elf_bytes ph) + n) 0 k vm ->
  exists fs u' k' vm', load_segment elf_bytes ph (u, k, vm) = (Ok tt, (u', k', vm')) /\
    places owned (header_items elf_bytes ph) fs (u, k, vm) (u', k', vm') /\ can_load n 0 k' vm'.
Proof.
  intros Hh Hnd Hun Hsp Hcl. unfold load_segment, header_items in *. destruct (Z.eqb_spec (p_type ph) PT_LOAD) as [Ht|Ht].
  2: { exists [], u, k, vm. split_and!; [done|by apply places_nil|done]. }
  specialize (Hh Ht). destruct (segment_bounds _ _ Hh) as (C1 & C2 & Hle & Hlt).
  assert (length (segment_items elf_bytes ph 0 (segment_pages ph)) = length (segment_pages ph)) as El.
  { by rewrite <- (length_map it_page), segment_items_pages. }
  rewrite segment_items_pages in Hnd, Hun. rewrite El in Hcl.
  destruct (load_pages_places elf_bytes ph (page_containing (p_vaddr ph)) Hh (segment_pages ph) 0
    (Z.lor PRESENT USER_ACCESSIBLE) owned n u k vm) as (fl & fs & u' & k' & vm' & E & Hpl & Hcl'); try done.
  { intros j page Hj. rewrite Z.add_0_l. by apply (range_inclusive_nth _ (page_containing (p_vaddr ph + (p_memsz ph - 1)))). }
  exists fs, u', k', vm'. split_and!; [|done|done]. cbn [negb].
  rewrite (bind_expect _ (p_vaddr ph)) by by apply VirtAddr_new_canonical.
  pose proof (ho_mem _ _ Hh). rewrite bind_chk by lia. rewrite bind_chk by lia.
  rewrite (bind_expect _ (p_vaddr ph + (p_memsz ph - 1))) by by apply VirtAddr_new_canonical.
  cbn zeta. fold (segment_pages ph). by rewrite (bind_ok _ _ _ _ _ E).
Qed.

(** All headers. *)
Lemma load_headers_places elf_bytes headers : forall owned n u k vm,
  Forall (fun ph => p_type ph = PT_LOAD -> header_ok elf_bytes ph) headers ->
  let items := concat (map (header_items elf_bytes) headers) in
  NoDup (map it_page items) -> Forall (fun page => translate u page = Unmapped) (map it_page items) ->
  spaces_ok owned u k vm -> can_load (length items + n) 0 k vm ->
  exists fs u' k' vm', for_do headers (load_segment elf_bytes) (u, k, vm) = (Ok tt, (u', k', vm')) /\
    places owned items fs (u, k, vm) (u', k', vm') /\ can_load n 0 k' vm'.
Proof.
  induction headers as [|ph headers IH]; intros owned n u k vm Hh items Hnd Hun Hsp Hcl.
  { exists [], u, k, vm. split_and!; [done|by apply places_nil|done]. }
  subst items. cbn [map concat] in *. apply Forall_cons in Hh as [Hh1 Hh].
  set (rest := concat (map (header_items elf_bytes) headers)) in *.
  pose proof Hnd as Hnd0. rewrite map_app in Hnd, Hun. apply Forall_app in Hun as [Hun1 Hun2].
  pose proof Hnd as (Hnd1 & _ & Hnd2)%NoDup_app. rewrite length_app, <- Nat.add_assoc in Hcl.
  destruct (load_segment_places elf_bytes ph owned (length rest + n) u k vm Hh1 Hnd1 Hun1 Hsp Hcl)
    as (fs1 & u1 & k1 & vm1 & E1 & Hpl1 & Hcl1).
  destruct (IH _ n u1 k1 vm1 Hh Hnd2 ltac:(by apply (places_unmapped _ _ _ _ _ _ _ _ _ _ Hpl1))
    (pl_spaces _ _ _ _ _ Hpl1) Hcl1) as (fs2 & u2 & k2 & vm2 & E2 & Hpl2 & Hcl2).
  exists (fs1 ++ fs2), u2, k2, vm2. split_and!; [|by eapply places_app|done].
  cbn [for_do]. by rewrite (bind_ok _ _ _ _ _ E1).
Qed.

(** The stack. *)
Lemma item_pages flags (pages : list P) : map it_page (map (fun page => mkItem page flags None) pages) = pages.
Proof. induction pages as [|page pages IH]; [done|]. cbn. by rewrite IH. Qed.

Lemma map_stack_places : forall (pages : list P) owned n u k vm,
  NoDup pages -> Forall (fun page => translate u page = Unmapped) pages ->
  spaces_ok owned u k vm -> can_load (length pages + n) 0 k vm ->
  exists fs u' vm',
    for_do pages (fun page => let! _ := in_user (create_mapping page (Some stack_flags)) in ret tt) (u, k, vm) =
      (Ok tt, (u', k, vm')) /\
    places owned (map (fun page => mkItem page stack_flags None) pages) fs (u, k, vm) (u', k, vm').
Proof.
  induction pages as [|page pages IH]; intros owned n u k vm Hnd Hun Hsp Hcl.
  { exists [], u, vm. split; [done|by apply places_nil]. }
  apply Forall_cons in Hun as [Hu Hun]. pose proof Hnd as [_ Hnd']%NoDup_cons.
  destruct (stack_page_places owned (length pages + n) 0 stack_flags page u k vm Hsp Hcl Hu)
    as (f & u1 & vm1 & E1 & Hpl1 & Hcl1).
  destruct (IH _ n u1 k vm1 Hnd' ltac:(by apply (places_unmapped _ _ _ _ _ _ _ _ _ _ Hpl1))
    (pl_spaces _ _ _ _ _ Hpl1) Hcl1) as (fs & u2 & vm2 & E2 & Hpl2).
  exists (f :: fs), u2, vm2. split.
  - cbn [for_do]. rewrite bind_assoc, (bind_ok _ _ _ _ _ E1). exact E2.
  - eapply (places_app _ [_] _ [f]); [exact Hpl1|exact Hpl2|].
    exact (eq_ind_r NoDup Hnd (item_pages stack_flags (page :: pages))).
Qed.

(** What the process reads at a virtual address. *)
Definition read_user u vm (vaddr : Z) : option Z :=
  match translate u (page_containing vaddr) with
  | Mapped f _ => phys vm !! (start_address f + vaddr mod PAGE_SIZE)
  | _ => None
  end.

Lemma segment_items_nth elf_bytes ph pages : forall i j page, pages !! j = Some page ->
  segment_items elf_bytes ph i pages !! j =
  Some (mkItem page (widen_flags ph (Z.lor PRESENT USER_ACCESSIBLE)) (Some (page_bytes elf_bytes ph (i + Z.of_nat j)))).
Proof.
  induction pages as [|q pages IH]; intros i [|j] page Hj; [done|done| |].
  - injection Hj as ->. cbn. by rewrite Z.add_0_r.
  - cbn [segment_items lookup list_lookup]. replace (i + Z.of_nat (S j)) with (i + 1 + Z.of_nat j) by lia. by apply IH.
Qed.

Lemma segment_page_exists elf_bytes ph i : header_ok elf_bytes ph -> 0 <= i < p_memsz ph ->
  let base := p_vaddr ph - p_vaddr ph mod PAGE_SIZE in
  segment_pages ph !! Z.to_nat (i / PAGE_SIZE) = Some (page_containing (base + i)).
Proof.
  intros Hh Hi base. destruct (segment_bounds _ _ Hh) as (C1 & C2 & Hle & Hlt). destruct Hh as [_ (Hv & Hm & Hl)].
  assert (canonical (base + i)) as C3 by (unfold base, canonical, PAGE_SIZE; left; dlia).
  pose proof (page_containing_start _ C1) as S1. pose proof (page_containing_start _ C2) as S2.
  pose proof (page_containing_start _ C3) as S3.
  assert (exists page, segment_pages ph !! Z.to_nat (i / PAGE_SIZE) = Some page) as [page Hp].
  { apply lookup_lt_is_Some_2. rewrite <- (length_map page_start). unfold segment_pages.
    rewrite range_inclusive_starts by (done || by left). rewrite length_map, length_range, S1, S2. unfold base, PAGE_SIZE in *. dlia. }
  rewrite Hp. f_equal. apply page_inj. rewrite S3.
  rewrite (range_inclusive_nth _ (page_containing (p_vaddr ph + (p_memsz ph - 1))) _ _ Hle Hlt Hp), S1.
  unfold base, PAGE_SIZE in *. dlia.
Qed.

(** The bytes of a segment, as the process reads them. *)
Lemma placed_read elf_bytes ph items fs owned s u k vm i :
  header_ok elf_bytes ph -> p_type ph = PT_LOAD -> (forall it, it ∈ header_items elf_bytes ph -> it ∈ items) ->
  places owned items fs s (u, k, vm) -> 0 <= i < p_memsz ph ->
  read_user u vm (p_vaddr ph - p_vaddr ph mod PAGE_SIZE + i) =
  Some (if i <? p_filesz ph then default 0 (idx elf_bytes (p_offset ph + i)) else 0).
Proof.
  intros Hh Ht Hin Hpl Hi. pose proof (segment_page_exists _ _ _ Hh Hi) as Hp. cbn zeta in Hp.
  set (a := p_vaddr ph - p_vaddr ph mod PAGE_SIZE + i) in *.
  pose proof (segment_items_nth elf_bytes ph (segment_pages ph) 0 _ _ Hp) as Hit.
  apply list_elem_of_lookup_2 in Hit. unfold header_items in Hin. rewrite Ht in Hin. apply Hin in Hit.
  apply list_elem_of_lookup_1 in Hit as [j Hj].
  destruct (Forall2_lookup_l _ _ _ _ _ (pl_placed _ _ _ _ _ Hpl) Hj) as (f & _ & Htr & Hb). cbn in Htr, Hb.
  unfold read_user. rewrite Htr.
  assert (a mod PAGE_SIZE = i mod PAGE_SIZE) as -> by (unfold a, PAGE_SIZE in *; dlia).
  rewrite Hb by (apply Z.mod_pos_bound; done). rewrite idx_page_bytes by (apply Z.mod_pos_bound; done).
  replace (0 + Z.of_nat (Z.to_nat (i / PAGE_SIZE))) with (i / PAGE_SIZE) by (unfold PAGE_SIZE in *; dlia).
  replace (p_offset ph + i / PAGE_SIZE * PAGE_SIZE + i mod PAGE_SIZE) with (p_offset ph + i) by (unfold PAGE_SIZE in *; dlia).
  by replace (i / PAGE_SIZE * PAGE_SIZE + i mod PAGE_SIZE) with i by (unfold PAGE_SIZE in *; dlia).
Qed.

(** C4: [load_elf] on a program whose pages do not overlap, with frames and
    ephemeral addresses enough: every page of every loadable segment and of the
    stack is mapped to a frame of its own that was free, with the flags of its
    segment; byte [i] of a segment, read at the start of the segment's first page
    plus [i], is byte [i] of its file part or zero beyond it; every other page
    of the process and every page of the kernel translates as before, no frame
    of a page is free or part of a page table, memory outside these frames is
    unchanged; the result is the end of the stack and the entry point. *)
Theorem load_elf_ok (parse : list Z -> option Elf) (elf_bytes : list Z) (elf : Elf) (owned : gset Z)
    (u k : T) (vm : Vm G W) :
  parse elf_bytes = Some elf ->
  Forall (fun ph => p_type ph = PT_LOAD -> header_ok elf_bytes ph) (program_headers elf) ->
  NoDup (map it_page (image elf_bytes (program_headers elf))) ->
  Forall (fun page => translate u page = Unmapped) (map it_page (image elf_bytes (program_headers elf))) ->
  spaces_ok owned u k vm -> can_load (length (image elf_bytes (program_headers elf))) 0 k vm ->
  exists fs u' k' vm',
    load_elf parse elf_bytes (u, k, vm) = (Ok (STACK_START + STACK_SIZE, e_entry elf), (u', k', vm')) /\
    places owned (image elf_bytes (program_headers elf)) fs (u, k, vm) (u', k', vm') /\
    (forall ph i, ph ∈ program_headers elf -> p_type ph = PT_LOAD -> 0 <= i < p_memsz ph ->
      read_user u' vm' (p_vaddr ph - p_vaddr ph mod PAGE_SIZE + i) =
      Some (if i <? p_filesz ph then default 0 (idx elf_bytes (p_offset ph + i)) else 0)).
Proof.
  intros Hparse Hh Hnd Hun Hsp Hcl. unfold image in *. set (items := concat _) in *.
  pose proof Hnd as Hnd0. rewrite map_app in Hnd, Hun. pose proof Hnd as (Hnd1 & _ & Hnd2)%NoDup_app.
  apply Forall_app in Hun as [Hun1 Hun2]. rewrite length_app in Hcl.
  destruct (load_headers_places elf_bytes (program_headers elf) owned (length stack_items) u k vm Hh Hnd1 Hun1 Hsp Hcl)
    as (fs1 & u1 & k1 & vm1 & E1 & Hpl1 & Hcl1).
  pose proof (places_unmapped _ _ _ _ _ _ _ _ _ _ Hpl1 Hnd Hun2) as Hun2'.
  unfold stack_items in Hun2', Hnd2. rewrite item_pages in Hun2', Hnd2.
  destruct (map_stack_places stack_pages _ 0 u1 k1 vm1 Hnd2 Hun2' (pl_spaces _ _ _ _ _ Hpl1))
    as (fs2 & u2 & vm2 & E2 & Hpl2).
  { unfold stack_items in Hcl1. rewrite length_map in Hcl1. by rewrite Nat.add_0_r. }
  assert (places owned (items ++ stack_items) (fs1 ++ fs2) (u, k, vm) (u2, k1, vm2)) as Hpl by by eapply places_app.
  exists (fs1 ++ fs2), u2, k1, vm2. split_and!; [|done|].
  - unfold load_elf. rewrite (bind_expect _ elf) by done. rewrite (bind_ok _ _ _ _ _ E1).
    unfold map_stack. rewrite bind_assoc, (bind_expect _ STACK_START) by (apply VirtAddr_new_canonical; by left).
    rewrite bind_assoc, (bind_expect _ (STACK_START + STACK_SIZE)) by (apply VirtAddr_new_canonical; by left).
    cbn zeta. fold stack_pages. by rewrite !bind_assoc, (bind_ok _ _ _ _ _ E2).
  - intros ph i Hph Ht Hi. apply (placed_read elf_bytes ph (items ++ stack_items) (fs1 ++ fs2) owned (u, k, vm) u2 k1 vm2);
      [by apply (proj1 (Forall_forall _ _) Hh)|done| |done|done].
    intros it Hit. apply elem_of_app. left. apply list_elem_of_In, in_concat. exists (header_items elf_bytes ph).
    split; [|by apply list_elem_of_In]. by apply in_map, list_elem_of_In.
Qed.
End loader_proofs.
