(* ===== verification/FlatMemory.v ===== *)
(** * A small memory system, and examples on it

    Instances of the classes that stand for the [x86_64] crate: pages as page
    numbers, and page tables as a finite map from pages to frames that needs no
    frame for itself.  On it, with the bitmap allocator and the machine of [Tlb],
    the theorems of [Paging] and [Loader] are applied to concrete programs. *)

From S2P Require Import Prelude Apic Tlb Frames FrameSafety FrameStore Paging Loader.

(** ** Pages *)

Definition page_number_ok (i : Z) : Prop := 0 <= i < 2 ^ 35 \/ 2 ^ 52 - 2 ^ 35 <= i < 2 ^ 52.
#[global] Instance page_number_ok_dec i : Decision (page_number_ok i).
Proof. unfold page_number_ok. apply _. Defined.
Definition Page : Type := dsig page_number_ok.

Lemma page_zero_ok : page_number_ok 0.
Proof. by left. Qed.

Definition page_of_address (a : Z) : Page :=
  match decide (page_number_ok (a / PAGE_SIZE)) with
  | left H => dexist (a / PAGE_SIZE) H
  | right _ => dexist 0 page_zero_ok
  end.
Definition is_canonical (a : Z) : bool :=
  ((0 <=? a) && (a <? 2 ^ 47)) || ((2 ^ 64 - 2 ^ 47 <=? a) && (a <? 2 ^ 64)).

#[global] Instance Page_Pages : Pages Page := {
  VirtAddr_new a := if is_canonical a then Some a else None;
  page_containing := page_of_address;
  page_start p := proj1_sig p * PAGE_SIZE;
  range_inclusive p q :=
    map (fun i => page_of_address ((proj1_sig p + i) * PAGE_SIZE)) (range 0 (proj1_sig q - proj1_sig p + 1))
}.

Lemma page_of_address_number a : canonical a -> proj1_sig (page_of_address a) = a / PAGE_SIZE.
Proof.
  intros Hc. unfold page_of_address. destruct (decide _) as [H|H]; [done|]. exfalso. apply H.
  unfold canonical, page_number_ok, PAGE_SIZE in *. dlia.
Qed.

#[global] Instance Page_Laws : PagesLaws Page.
Proof.
  split.
  - intros a Hc. cbn. unfold is_canonical, canonical in *.
    by replace (_ || _) with true by (symmetry; apply orb_true_iff; lia).
  - intros a Hc. cbn. rewrite page_of_address_number by done. unfold PAGE_SIZE. dlia.
  - intros p. cbn. pose proof (proj2_dsig p) as Hp. unfold page_number_ok, canonical, PAGE_SIZE in *. cbn in Hp.
    split; [lia|by rewrite Z.mod_mul].
  - intros p q E. apply dsig_eq. cbn in E. unfold PAGE_SIZE in E. lia.
  - intros p q. cbn. intros Hle Hlt. rewrite map_map.
    replace ((proj1_sig q * PAGE_SIZE - proj1_sig p * PAGE_SIZE) / PAGE_SIZE) with (proj1_sig q - proj1_sig p)
      by (unfold PAGE_SIZE; dlia).
    apply map_ext_in. intros i [Hi1 Hi2]%list_elem_of_In%elem_of_range.
    pose proof (proj2_dsig p) as Hp. pose proof (proj2_dsig q) as Hq. unfold page_number_ok, PAGE_SIZE in *. cbn in Hp, Hq.
    rewrite page_of_address_number by (unfold canonical; lia). unfold PAGE_SIZE. rewrite Z.div_mul by done. lia.
Qed.

#[global] Instance flags_of_x86 : PageTableFlags := {
  PRESENT := 1; WRITABLE := 2; USER_ACCESSIBLE := 4; NO_EXECUTE := 2 ^ 63
}.

(** ** Page tables *)

Inductive flat_error := AlreadyMapped | NotMapped.

Abbreviation Flat := (gmap Z (Frame * Z)).

Definition key (p : Page) : Z := page_start p.
#[global] Arguments key p : simpl never.

Section flat.
Context {G : Type} `{!FrameStore Frame G, !FrameStoreLaws Frame G}.

Definition flat_view (t : Flat) (p : Page) : view Frame :=
  match t !! key p with Some (f, flags) => Mapped f flags | None => Unmapped end.

#[global] Instance Flat_Mapper : Mapper Page Frame G Flat := {
  map_error := flat_error;
  map_to p f flags := fun s =>
    match s.1 !! key p with
    | Some _ => (Err AlreadyMapped, s)
    | None => (Ok tt, (<[key p := (f, flags)]> s.1, s.2))
    end;
  unmap p := fun t =>
    match t !! key p with
    | Some (f, _) => (Ok f, delete (key p) t)
    | None => (Err NotMapped, t)
    end;
  update_flags p flags := fun t =>
    match t !! key p with
    | Some (f, _) => (Ok tt, <[key p := (f, flags)]> t)
    | None => (Err NotMapped, t)
    end;
  clean_up := fun s => (Ok tt, s);
  translate := flat_view;
  table_frames _ := ∅
}.

Lemma flat_other p q : q <> p -> key p <> key q.
Proof. intros Hne E. by apply Hne, page_inj. Qed.

#[global] Instance Flat_Laws : MapperLaws Page Frame G Flat.
Proof.
  split; cbn; unfold flat_view, same_but; cbn; unfold flat_view.
  - intros n t g p f flags Hr Hu. destruct (t !! key p) as [[]|] eqn:E; [done|].
    exists (<[key p := (f, flags)]> t), g. rewrite lookup_insert_eq. split_and!; try done; [|set_solver|lia|by apply (ready_mono n (3 + n)); [lia|]].
    intros q Hq. by rewrite lookup_insert_ne by by apply flat_other.
  - intros t g p f flags Hu. destruct (t !! key p) as [[]|] eqn:E; [by exists AlreadyMapped|done].
  - intros t p f flags Hm. destruct (t !! key p) as [[]|] eqn:E; [|done]. injection Hm as -> ->.
    exists (delete (key p) t). rewrite lookup_delete_eq. split_and!; try done.
    intros q Hq. by rewrite lookup_delete_ne by by apply flat_other.
  - intros t p Hn. destruct (t !! key p) as [[f flags]|] eqn:E; [by specialize (Hn f flags)|by exists NotMapped].
  - intros t p f flags flags' Hm. destruct (t !! key p) as [[]|] eqn:E; [|done]. injection Hm as -> ->.
    exists (<[key p := (f, flags')]> t). rewrite lookup_insert_eq. split_and!; try done.
    intros q Hq. by rewrite lookup_insert_ne by by apply flat_other.
  - intros t p flags' Hn. destruct (t !! key p) as [[f flags]|] eqn:E; [by specialize (Hn f flags)|by exists NotMapped].
  - intros n t g Hr _. exists t, g. split_and!; try done. set_solver.
Qed.
End flat.

(** ** Examples *)

(** 64 frames, all free, in the state [init] leaves its counters in. *)
Definition all_free : BitmapFrameAllocator := mkBitmap 64 128 0 [0] 0 0.

Lemma all_free_set : free_set all_free = list_to_set (range 0 64).
Proof. by vm_compute. Qed.

Lemma all_free_size : size (free_set all_free) = 64%nat.
Proof. by vm_compute. Qed.

Lemma all_free_ok : bm_ok 64 all_free.
Proof.
  split; [split; [done|done|done|by repeat constructor]|done| |done|done].
  rewrite all_free_size. done.
Qed.

#[local] Instance demo_store : FrameStore Frame (option (GlobalFrameAllocator Frame)) := global_store 64.
#[local] Instance demo_store_laws : FrameStoreLaws Frame (option (GlobalFrameAllocator Frame)) :=
  global_store_laws 64.

Definition demo_vm : Vm (option (GlobalFrameAllocator Frame)) Smp :=
  mkVm (Some (Bitmap all_free)) (apic boot_coherence) 0 ∅.

Lemma demo_ready n : (n <= 64)%nat -> ready n (vm_frames demo_vm).
Proof.
  intros Hn. exists 64. pose proof all_free_size as Hs.
  split_and!; [apply all_free_ok|done|rewrite Hs; lia|..]; cbn; lia.
Qed.

Lemma demo_avail : avail (vm_frames demo_vm) = list_to_set (range 0 64).
Proof. exact all_free_set. Qed.

Lemma no_tables (A B C : gset Z) : A = B ∪ (∅ ∖ ∅) -> A = C -> B = C.
Proof. clear. set_solver. Qed.

Definition demo_page : Page := page_containing 0x500000000.

Lemma five : (5 <= 64)%nat.
Proof. lia. Qed.
Lemma demo_slots : slots_ok demo_vm.
Proof. done. Qed.
Lemma flat_empty p : flat_view ∅ p = Unmapped.
Proof. done. Qed.
Lemma demo_disjoint : (∅ : gset Z) ## avail (vm_frames demo_vm).
Proof. apply disjoint_empty_l. Qed.


Lemma update_mapping_cases_witness :
  exists t', update_mapping demo_page frame0 ({[key demo_page := (frame0, 7)]} : Flat, demo_vm) = (Ok tt, (t', demo_vm)) /\
    flat_view t' demo_page = Unmapped.
Proof.
  pose proof (update_mapping_cases (T:=Flat) 0 {[key demo_page := (frame0, 7)]} demo_vm demo_page frame0
    (demo_ready 3 ltac:(lia)) eq_refl) as Hu.
  assert (flat_view {[key demo_page := (frame0, 7)]} demo_page = Mapped frame0 7) as Et.
  { unfold flat_view. by rewrite lookup_singleton_eq. }
  cbn [translate Flat_Mapper] in Hu. rewrite Et, Z.eqb_refl in Hu. destruct Hu as (t' & E & Hm & _). by exists t'.
Defined.

(** A program of one segment: two pages at 4 MiB, of which the file has ten
    bytes, readable and executable. *)
Definition demo_bytes : list Z := [1; 2; 3; 4; 5; 6; 7; 8; 9; 10].
Definition demo_ph : ProgramHeader := mkPh PT_LOAD (Z.lor 4 PF_X) 0 0x400000 10 5000.
Definition demo_elf : Elf := mkElf [demo_ph] 0x400000.

Lemma demo_header_ok : header_ok demo_bytes demo_ph.
Proof. by split; split_and!. Qed.

Lemma demo_page_starts :
  map page_start (map it_page (image (P:=Page) demo_bytes (program_headers demo_elf))) =
  [0x400000; 0x401000; STACK_START; STACK_START + 4096; STACK_START + 8192].
Proof.
  unfold image. cbn [map program_headers demo_elf concat]. rewrite (app_nil_r (header_items _ _)).
  unfold header_items. cbn [p_type demo_ph]. rewrite Z.eqb_refl, !map_app, segment_items_pages.
  unfold stack_items. rewrite item_pages. unfold segment_pages, stack_pages.
  rewrite !range_inclusive_starts by (rewrite !page_containing_start by (by left); (by vm_compute) || (left; by vm_compute)).
  rewrite !page_containing_start by (by left). by vm_compute.
Qed.

Lemma demo_spaces : spaces_ok ∅ (∅ : Flat) ∅ demo_vm.
Proof. split; [exact demo_slots|..]; intros i Hi; by apply not_elem_of_empty in Hi. Qed.

Lemma demo_can_load : can_load 5 0 (∅ : Flat) demo_vm.
Proof.
  split; [|done|by intros j _; apply flat_empty]. apply demo_ready.
  cbn [table_frames Flat_Mapper]. rewrite size_empty. lia.
Qed.

Lemma three_in : 0 <= 3 < p_memsz demo_ph.
Proof. done. Qed.
Lemma page_in : 0 <= 4096 < p_memsz demo_ph.
Proof. done. Qed.
Lemma demo_address_3 : p_vaddr demo_ph - p_vaddr demo_ph mod PAGE_SIZE + 3 = 0x400003.
Proof. done. Qed.
Lemma demo_address_4096 : p_vaddr demo_ph - p_vaddr demo_ph mod PAGE_SIZE + 4096 = 0x401000.
Proof. done. Qed.
Lemma demo_byte_3 : (if 3 <? p_filesz demo_ph then default 0 (idx demo_bytes (p_offset demo_ph + 3)) else 0) = 4.
Proof. done. Qed.
Lemma demo_byte_4096 :
  (if 4096 <? p_filesz demo_ph then default 0 (idx demo_bytes (p_offset demo_ph + 4096)) else 0) = 0.
Proof. done. Qed.

Lemma load_elf_ok_witness :
  exists u k vm,
    load_elf (T:=Flat) (fun _ => Some demo_elf) demo_bytes (∅, ∅, demo_vm) =
      (Ok (STACK_START + STACK_SIZE, 0x400000), (u, k, vm)) /\
    read_user u vm 0x400003 = Some 4 /\ read_user u vm 0x401000 = Some 0.
Proof.
  pose proof demo_page_starts as Hst.
  assert (length (image (P:=Page) demo_bytes (program_headers demo_elf)) = 5%nat) as Hlen.
  { by rewrite <- (length_map it_page), <- (length_map page_start), Hst. }
  destruct (load_elf_ok (T:=Flat) (fun _ => Some demo_elf) demo_bytes demo_elf ∅ ∅ ∅ demo_vm)
    as (fs & u & k & vm & E & _ & Hread); [done| | | | | |].
  - apply Forall_singleton. intros _. exact demo_header_ok.
  - apply (NoDup_fmap_1 page_start). change (page_start <$> ?l) with (map page_start l). rewrite Hst.
    apply (bool_decide_unpack _). by vm_compute.
  - apply Forall_forall. intros q _. exact (flat_empty q).
  - exact demo_spaces.
  - rewrite Hlen. exact demo_can_load.
  - exists u, k, vm. split; [exact E|].
    pose proof (Hread demo_ph 3 (list_elem_of_here _ _) eq_refl three_in) as H3.
    pose proof (Hread demo_ph 4096 (list_elem_of_here _ _) eq_refl page_in) as H4.
    rewrite demo_address_3, demo_byte_3 in H3. rewrite demo_address_4096, demo_byte_4096 in H4. by split.
Defined.
