(* ===== verification/Heap.v ===== *)
(** * The kernel heap, page faults and the interrupt flag
      ([memory/heap.rs], [memory/mod.rs], [interrupts/idt.rs])

    [init_heap] maps the pages of the heap with the boot allocator and then
    replaces it by the bitmap allocator; the page fault handler maps a page of
    a growing stack; [with_interrupts] brackets a closure.  All mappings go
    through [create_mapping] of [Paging.v]. *)

From S2P Require Import Prelude Apic Tlb Frames FrameStore Paging Loader FlatMemory.

Section heap.
Context {P F T W : Type} `{Pages P} `{PhysFrames F} `{PageTableFlags} {G : Type} `{!FrameStore F G}.
Context `{!Mapper P F G T} `{Machine W}.
Abbreviation MT := (M (T * Vm G W) no_error).

(** The range of pages of [init_heap]. *)
Definition heap_pages : MT (list P) :=
  let! heap_start := expect (VirtAddr_new HEAP_START) in
  let! past_end := expect (VirtAddr_new (heap_start + HEAP_SIZE)) in
  let! heap_end := expect (VirtAddr_new (past_end - 1)) in
  ret (range_inclusive (page_containing heap_start) (page_containing heap_end)).

Definition map_pages (pages : list P) : MT unit :=
  for_do pages (fun page => create_mapping page None ;! ret tt).

(** [init_heap]; [switch] is [switch_allocator]. *)
Definition init_heap (switch : M G no_error unit) : MT unit :=
  let! pages := heap_pages in
  map_pages pages ;!
  in_frames switch.

(** [memory::init]: [boot] is the state of [FRAME_ALLOCATOR] with the boot
    allocator, [nx] the update of the [EFER] register. *)
Definition init (boot : G) (nx : W -> W) (switch : M G no_error unit) (cpu_id : Z) : MT unit :=
  if cpu_id =? 0 then
    in_frames (put_state boot) ;!
    in_apic (let! a := get_state in put_state (with_machine a (nx (machine a)))) ;!
    init_heap switch
  else ret tt.

(** [page_fault_handler] on the page tables in [CR3]: [cr2] is the faulting
    address, [stack_pointer] the one of the interrupted code. *)
Definition page_fault_handler (HHDM_OFFSET : Z) (cr2 : option Z) (stack_pointer : Z) : MT unit :=
  let! faulting_address := expect cr2 in
  let! va := expect (VirtAddr_new faulting_address) in
  let page := page_containing va in
  let! low := chk 64 (stack_pointer - 64) in
  (if (low <=? faulting_address) && (faulting_address <? HHDM_OFFSET)
   then create_mapping page None ;! ret tt
   else ret tt) ;!
  panic.
End heap.

(** ** The interrupt flag ([interrupts/idt.rs]) *)

Section interrupts.
Context {S E A : Type} (are_enabled : S -> bool) (set_enabled : bool -> S -> S).

Definition enable : M S E unit := let! s := get_state in put_state (set_enabled true s).
Definition disable : M S E unit := let! s := get_state in put_state (set_enabled false s).

(** [without_interrupts] of the crate disables and enables only if they were
    enabled; [with_interrupts] is the kernel's own. *)
Definition without_interrupts (f : M S E A) : M S E A :=
  let! s := get_state in
  let saved := are_enabled s in
  (if saved then disable else ret tt) ;!
  let! result := f in
  (if saved then enable else ret tt) ;!
  ret result.
Definition with_interrupts (f : M S E A) : M S E A :=
  let! s := get_state in
  let initially_enabled := are_enabled s in
  (if negb initially_enabled then enable else ret tt) ;!
  let! result := f in
  (if negb initially_enabled then disable else ret tt) ;!
  ret result.

(** A closure that leaves the flag as it finds it runs with interrupts enabled
    or disabled, and the flag is as before when it returns. *)
Lemma with_interrupts_restores (f : M S E A) (s s1 : S) (a : A) :
  (forall b x, are_enabled (set_enabled b x) = b) ->
  f (if are_enabled s then s else set_enabled true s) = (Ok a, s1) ->
  are_enabled s1 = true ->
  exists s2, with_interrupts f s = (Ok a, s2) /\ are_enabled s2 = are_enabled s.
Proof.
  intros Hset Hf Hs1. unfold with_interrupts, enable, disable, bind, get_state, put_state, ret.
  destruct (are_enabled s) eqn:Hs; cbn; rewrite Hf; cbn; eexists; (split; [done|]); [done|apply Hset].
Qed.

Lemma without_interrupts_restores (f : M S E A) (s s1 : S) (a : A) :
  (forall b x, are_enabled (set_enabled b x) = b) ->
  f (if are_enabled s then set_enabled false s else s) = (Ok a, s1) ->
  are_enabled s1 = false ->
  exists s2, without_interrupts f s = (Ok a, s2) /\ are_enabled s2 = are_enabled s.
Proof.
  intros Hset Hf Hs1. unfold without_interrupts, enable, disable, bind, get_state, put_state, ret.
  destruct (are_enabled s) eqn:Hs; cbn; rewrite Hf; cbn; eexists; (split; [done|]); [apply Hset|done].
Qed.
End interrupts.

(** ** The heap is mapped *)

Section heap_mapped.
Context {P F G T W : Type} `{PagesLaws P} `{PhysFramesLaws F} `{PageTableFlags} `{!FrameStore F G, !FrameStoreLaws F G}.
Context `{!Mapper P F G T, !MapperLaws P F G T} `{Machine W}.
Implicit Types (vm : Vm G W) (t : T).

Definition heap_flags : Z := Z.lor (Z.lor PRESENT WRITABLE) USER_ACCESSIBLE.

Lemma map_pages_ok n pages t vm :
  NoDup pages -> (forall p, p ∈ pages -> translate t p = Unmapped) ->
  ready (4 * length pages + n) (vm_frames vm) ->
  exists fs t' g', map_pages pages (t, vm) = (Ok tt, (t', with_frames vm g')) /\
    length fs = length pages /\ NoDup (map frame_number fs) /\
    (forall f, f ∈ fs -> frame_number f ∈ avail (vm_frames vm) /\ frame_number f ∉ avail g') /\
    (forall j p, pages !! j = Some p -> exists f, fs !! j = Some f /\ translate t' p = Mapped f heap_flags) /\
    (forall q, q ∉ pages -> translate t' q = translate t q) /\
    avail g' ⊆ avail (vm_frames vm) /\ ready n g'.
Proof.
  revert t vm. induction pages as [|p pages IH]; intros t vm Hnd Hun Hr.
  { exists [], t, (vm_frames vm). split; [by destruct vm|]. split_and!; try done.
    - constructor.
    - intros f []%not_elem_of_nil. }
  apply NoDup_cons in Hnd as [Hp Hnd].
  destruct (create_mapping_step (4 * length pages + n) t vm p None) as
    (f & t1 & g1 & E1 & Hin & Hno & Hm & Hsame & Hsub & _ & _ & _ & Hr1).
  { eapply ready_mono; [|exact Hr]. cbn [length]. lia. }
  { apply Hun. by left. }
  destruct (IH t1 (with_frames vm g1)) as (fs & t' & g' & E2 & Hl & Hnd' & Hfs & Hmap & Hkeep & Hsub' & Hr'); [done| |done|].
  { intros q Hq. rewrite Hsame; [apply Hun; by right|]. by intros ->. }
  exists (f :: fs), t', g'. split.
  { unfold map_pages in *. cbn [for_do]. erewrite (bind_ok _ _ (t, vm)); [exact E2|]. by rewrite (bind_ok _ _ _ _ _ E1). }
  cbn [vm_frames with_frames] in *. split_and!; [cbn; lia| | | | |by etrans|done].
  - cbn. constructor; [|done]. intros (f' & Hf' & Hin')%list_elem_of_fmap. destruct (Hfs f' Hin') as [Hx _]. congruence.
  - intros x [->|Hx]%elem_of_cons; [split; [done|set_solver]|]. destruct (Hfs x Hx). split; [set_solver|done].
  - intros [|j] q; cbn; [|apply Hmap]. intros [= <-]. exists f. split; [done|]. rewrite Hkeep by done. exact Hm.
  - intros q [Hq1 Hq2]%not_elem_of_cons. by rewrite Hkeep, Hsame.
Qed.

(** The pages of the heap: 256 of them, from [HEAP_START]. *)
Definition heap_range : list P :=
  range_inclusive (page_containing HEAP_START) (page_containing (HEAP_START + HEAP_SIZE - 1)).

Lemma heap_canonical : canonical HEAP_START /\ canonical (HEAP_START + HEAP_SIZE) /\ canonical (HEAP_START + HEAP_SIZE - 1).
Proof. unfold canonical, HEAP_START, HEAP_SIZE. lia. Qed.

Lemma heap_range_starts : map page_start heap_range = map (fun i => HEAP_START + i * PAGE_SIZE) (range 0 256).
Proof.
  destruct heap_canonical as (H1' & _ & H3'). unfold heap_range. rewrite range_inclusive_starts;
    rewrite !page_containing_start by done; [done|done|right; done].
Qed.

Lemma heap_range_nodup : NoDup heap_range.
Proof.
  apply (NoDup_fmap_1 page_start). change (page_start <$> heap_range) with (map page_start heap_range).
  rewrite heap_range_starts. apply NoDup_fmap_2; [|apply NoDup_range].
  intros i j. unfold PAGE_SIZE. lia.
Qed.

(** [init_heap] maps each page of the heap to a frame of its own, that was free
    before, and changes no other page; then the allocator is switched. *)
Lemma init_heap_maps (n : nat) t vm (switch : M G no_error unit) :
  (forall p, p ∈ heap_range -> translate t p = Unmapped) ->
  ready (4 * 256 + n) (vm_frames vm) ->
  exists fs t' g', init_heap switch (t, vm) = in_frames switch (t', with_frames vm g') /\
    length fs = 256%nat /\ NoDup (map frame_number fs) /\
    (forall f, f ∈ fs -> frame_number f ∈ avail (vm_frames vm) /\ frame_number f ∉ avail g') /\
    (forall j p, heap_range !! j = Some p -> exists f, fs !! j = Some f /\ translate t' p = Mapped f heap_flags) /\
    (forall q, q ∉ heap_range -> translate t' q = translate t q) /\ ready n g'.
Proof.
  intros Hun Hr. assert (length heap_range = 256%nat) as Hl.
  { rewrite <- (length_map page_start), heap_range_starts, length_map, length_range. done. }
  destruct (map_pages_ok n heap_range t vm heap_range_nodup Hun) as (fs & t' & g' & E1 & Hlf & Hnd & Hfs & Hm & Hk & _ & Hr').
  { by rewrite Hl. }
  exists fs, t', g'. split; [|split; [congruence|done]].
  destruct heap_canonical as (H1' & H2' & H3'). unfold init_heap, heap_pages.
  rewrite (VirtAddr_new_canonical _ H1'). cbn [expect]. rewrite bind_assoc, bind_ret, bind_assoc.
  rewrite (VirtAddr_new_canonical _ H2'). cbn [expect]. rewrite bind_ret, bind_assoc.
  rewrite (VirtAddr_new_canonical _ H3'). cbn [expect]. rewrite !bind_ret. fold heap_range.
  by rewrite (bind_ok _ _ _ _ _ E1).
Qed.
End heap_mapped.
