(* ===== verification/Gdt.v ===== *)
(** * Segments and task states ([interrupts/gdt.rs])

    The descriptor table every core loads, the task state segment of each core
    with the stacks it switches to, and the segment registers.  The table is a
    type of the [x86_64] crate: a class, with what its documentation says of
    [append] as laws. *)

From S2P Require Import Prelude Apic Tlb Frames FrameStore Paging FlatMemory.

Definition DOUBLE_FAULT_IST_INDEX : Z := 0.
Definition IST_STACK_SIZE : Z := 4096 * 4.
Definition RING0_STACK_SIZE : Z := 4096 * 4.

Definition BASE_ENTRIES : Z := 5.
Definition TSS_ENTRIES_PER_CORE : Z := 2.
Definition GDT_ENTRIES : Z := BASE_ENTRIES + TSS_ENTRIES_PER_CORE * MAX_CORES.

(** [TaskStateSegment]: the seven interrupt stacks and the three privilege stacks. *)
Record TaskStateSegment := mkTss {
  interrupt_stack_table : list Z;
  privilege_stack_table : list Z
}.
Definition TaskStateSegment_new : TaskStateSegment := mkTss (vec 0 7) (vec 0 3).

(** [Descriptor]. *)
Inductive Descriptor :=
| kernel_code_segment
| kernel_data_segment
| user_code_segment
| user_data_segment
| tss_segment (tss : TaskStateSegment).

(** [GlobalDescriptorTable<MAX>]; a selector is its 16 bits. *)
Class GlobalDescriptorTable (T : Type) := {
  gdt_empty : Z -> T;
  gdt_append : Descriptor -> M T no_error Z
}.

(** Entries a descriptor takes, and the privilege level of its selector. *)
Definition slots (d : Descriptor) : Z := match d with tss_segment _ => 2 | _ => 1 end.
Definition dpl (d : Descriptor) : Z := match d with user_code_segment | user_data_segment => 3 | _ => 0 end.

(** An empty table has the null descriptor; [append] uses the next entries and
    returns the selector of the first, or panics when there is no room. *)
Class GdtLaws (T : Type) `{GlobalDescriptorTable T} := {
  gdt_used : T -> Z;
  gdt_room : T -> Z;
  gdt_at : T -> Z -> option Descriptor;
  empty_law n : 1 <= n -> gdt_used (gdt_empty n) = 1 /\ gdt_room (gdt_empty n) = n;
  append_law d t : gdt_used t + slots d <= gdt_room t ->
    exists t', gdt_append d t = (Ok (8 * gdt_used t + dpl d), t') /\
      gdt_used t' = gdt_used t + slots d /\ gdt_room t' = gdt_room t /\
      gdt_at t' (gdt_used t) = Some d /\ (forall i, i < gdt_used t -> gdt_at t' i = gdt_at t i);
  append_full d t : gdt_room t < gdt_used t + slots d -> fst (gdt_append d t) = Panic
}.

(** [struct Selectors]. *)
Record Selectors := mkSelectors {
  code_selector : Z;
  data_selector : Z;
  user_code_selector : Z;
  user_data_selector : Z;
  tss_selectors : list Z
}.

(** The segment registers of a core and what it has loaded. *)
Record Segments (T : Type) := mkSegments {
  gdtr : option T;
  CS : Z; DS : Z; ES : Z; SS : Z; FS : Z; GS : Z;
  TR : Z
}.
Arguments mkSegments {T}.
Arguments gdtr {T}.
Arguments CS {T}.
Arguments DS {T}.
Arguments ES {T}.
Arguments SS {T}.
Arguments FS {T}.
Arguments GS {T}.
Arguments TR {T}.

Section gdt.
Context {P T : Type} `{Pages P} `{GlobalDescriptorTable T}.
(** The addresses the linker gives [DF_STACKS] and [PRIV_STACKS]. *)
Context (DF_STACKS PRIV_STACKS : Z).

(** [TSSS]: each core's segment, with the ends of its two stacks. *)
Definition core_tss {S} (i : Z) : M S no_error TaskStateSegment :=
  let! stack_end := expect (VirtAddr_new (DF_STACKS + i * IST_STACK_SIZE + IST_STACK_SIZE)) in
  let! priv_stack_end := expect (VirtAddr_new (PRIV_STACKS + i * RING0_STACK_SIZE + RING0_STACK_SIZE)) in
  ret (mkTss (upd (interrupt_stack_table TaskStateSegment_new) DOUBLE_FAULT_IST_INDEX stack_end)
             (upd (privilege_stack_table TaskStateSegment_new) 0 priv_stack_end)).
Definition TSSS {S} : M S no_error (list TaskStateSegment) :=
  for_fold (range 0 MAX_CORES) [] (fun tsss i => let! tss := core_tss i in ret (tsss ++ [tss])).

(** [GDT]: the table and its selectors. *)
Definition build_gdt : M T no_error Selectors :=
  let! tsss := TSSS in
  let! code_selector := gdt_append kernel_code_segment in
  let! data_selector := gdt_append kernel_data_segment in
  let! user_code_selector := gdt_append user_code_segment in
  let! user_data_selector := gdt_append user_data_segment in
  let! tss_selectors := for_fold (range 0 MAX_CORES) (vec 0 MAX_CORES) (fun tss_selectors i =>
    let! tss := expect (idx tsss i) in
    let! selector := gdt_append (tss_segment tss) in
    ret (upd tss_selectors i selector)) in
  ret (mkSelectors code_selector data_selector user_code_selector user_data_selector tss_selectors).

(** [init] on a core, with the table and selectors built on first use. *)
Definition init (gdt : T) (sel : Selectors) (cpu_id : Z) : M (Segments T) no_error unit :=
  rassert (cpu_id <? MAX_CORES) ;!
  let! tss := expect (idx (tss_selectors sel) cpu_id) in
  put_state (mkSegments (Some gdt) (code_selector sel) (data_selector sel) (data_selector sel)
    (data_selector sel) (data_selector sel) (data_selector sel) tss).
End gdt.

(** ** The layout *)

Section layout.
Context {P T : Type} `{PagesLaws P} `{GdtLaws T}.
Context (DF_STACKS PRIV_STACKS : Z).

Definition a_stack (start i : Z) : Z * Z := (start + i * IST_STACK_SIZE, start + (i + 1) * IST_STACK_SIZE).
Definition expected_tss (i : Z) : TaskStateSegment :=
  mkTss (DF_STACKS + (i + 1) * IST_STACK_SIZE :: vec 0 6) (PRIV_STACKS + (i + 1) * RING0_STACK_SIZE :: vec 0 2).

Definition stacks_canonical : Prop :=
  forall i, 0 <= i < MAX_CORES ->
    canonical (DF_STACKS + (i + 1) * IST_STACK_SIZE) /\ canonical (PRIV_STACKS + (i + 1) * RING0_STACK_SIZE).

Lemma core_tss_eq {S} i (s : S) : stacks_canonical -> 0 <= i < MAX_CORES ->
  core_tss DF_STACKS PRIV_STACKS i s = (Ok (expected_tss i), s).
Proof.
  intros Hc Hi. destruct (Hc i Hi) as [Hd Hp]. unfold core_tss.
  replace (DF_STACKS + i * IST_STACK_SIZE + IST_STACK_SIZE) with (DF_STACKS + (i + 1) * IST_STACK_SIZE) by lia.
  replace (PRIV_STACKS + i * RING0_STACK_SIZE + RING0_STACK_SIZE) with (PRIV_STACKS + (i + 1) * RING0_STACK_SIZE) by lia.
  rewrite (VirtAddr_new_canonical _ Hd), (VirtAddr_new_canonical _ Hp). done.
Qed.

Lemma TSSS_eq {S} (s : S) : stacks_canonical ->
  TSSS DF_STACKS PRIV_STACKS s = (Ok [expected_tss 0; expected_tss 1], s).
Proof.
  intros Hc. unfold TSSS. change (range 0 MAX_CORES) with [0; 1]. cbn [for_fold].
  rewrite (bind_ok _ _ s [expected_tss 0] s); [|by rewrite (bind_ok _ _ _ _ _ (core_tss_eq 0 s Hc ltac:(done)))].
  by rewrite (bind_ok _ _ s [expected_tss 0; expected_tss 1] s);
    [|by rewrite (bind_ok _ _ _ _ _ (core_tss_eq 1 s Hc ltac:(done)))].
Qed.

(** The selectors: index times eight, with the level of user segments. *)
Definition expected_selectors : Selectors := mkSelectors 0x08 0x10 0x1b 0x23 [0x28; 0x38].

(** A table with [n] entries used, and the descriptors in them. *)
Definition filled (t : T) (n : Z) (ds : list (Z * Descriptor)) : Prop :=
  gdt_used t = n /\ gdt_room t = GDT_ENTRIES /\ Forall (fun p => p.1 < n /\ gdt_at t p.1 = Some p.2) ds.

Lemma append_filled t n ds d : filled t n ds -> n + slots d <= GDT_ENTRIES ->
  exists t', gdt_append d t = (Ok (8 * n + dpl d), t') /\ filled t' (n + slots d) ((n, d) :: ds).
Proof.
  intros (Hu & Hr & Hds) Hn. destruct (append_law d t) as (t' & E1 & Hu' & Hr' & Ha & Hk); [lia|].
  rewrite Hu in *. exists t'. split; [done|]. split; [done|]. split; [congruence|].
  assert (0 < slots d) by (destruct d; cbn; lia). constructor; [cbn; split; [lia|done]|].
  eapply Forall_impl; [exact Hds|]. intros [i x] [Hi Hx]. cbn in *. split; [lia|]. by rewrite Hk.
Qed.

Ltac append d :=
  match goal with
  | Hf : filled ?t ?n ?ds |- _ =>
      let t' := fresh "t" in let E1 := fresh "E" in let Hf' := fresh "Hf" in
      destruct (append_filled t n ds d Hf ltac:(done)) as (t' & E1 & Hf'); clear Hf; cbn [slots dpl] in E1, Hf'
  end.

(** What the table holds at the end. *)
Definition expected_entries : list (Z * Descriptor) :=
  [(7, tss_segment (expected_tss 1)); (5, tss_segment (expected_tss 0)); (4, user_data_segment);
   (3, user_code_segment); (2, kernel_data_segment); (1, kernel_code_segment)].

Lemma build_gdt_filled : stacks_canonical ->
  exists t, build_gdt DF_STACKS PRIV_STACKS (gdt_empty GDT_ENTRIES) = (Ok expected_selectors, t) /\
    filled t GDT_ENTRIES expected_entries.
Proof.
  intros Hc. destruct (empty_law GDT_ENTRIES ltac:(done)) as [Hu0 Hr0]. unfold build_gdt.
  rewrite (bind_ok _ _ _ _ _ (TSSS_eq (gdt_empty GDT_ENTRIES) Hc)).
  assert (filled (gdt_empty GDT_ENTRIES) 1 []) as Hf by done.
  append kernel_code_segment. rewrite (bind_ok _ _ _ _ _ E).
  append kernel_data_segment. rewrite (bind_ok _ _ _ _ _ E0).
  append user_code_segment. rewrite (bind_ok _ _ _ _ _ E1).
  append user_data_segment. rewrite (bind_ok _ _ _ _ _ E2).
  append (tss_segment (expected_tss 0)). append (tss_segment (expected_tss 1)).
  change (range 0 MAX_CORES) with [0; 1]. exists t4. split; [|done].
  rewrite (bind_ok _ _ t2 [0x28; 0x38] t4); [done|]. cbn [for_fold].
  rewrite (bind_ok _ _ t2 [0x28; 0] t3).
  2:{ rewrite bind_expect with (a := expected_tss 0) by done. by rewrite (bind_ok _ _ _ _ _ E3). }
  rewrite (bind_ok _ _ t3 [0x28; 0x38] t4); [done|].
  rewrite bind_expect with (a := expected_tss 1) by done. by rewrite (bind_ok _ _ _ _ _ E4).
Qed.

(** The descriptor table: building it does not run out of entries and uses
    all [GDT_ENTRIES] of them; the selectors are those of the descriptors they
    are named after, with privilege level 3 for the user segments; and after
    [init] a core below [MAX_CORES] has the kernel's segments and its own task
    state, whose stacks for double faults and for entering ring 0 do not
    overlap those of another core.  [init] panics on any other core. *)
Theorem gdt_layout (s : Segments T) (cpu_id : Z) :
  stacks_canonical -> 0 <= cpu_id ->
  exists t, build_gdt DF_STACKS PRIV_STACKS (gdt_empty GDT_ENTRIES) = (Ok expected_selectors, t) /\
    gdt_used t = GDT_ENTRIES /\ gdt_room t = GDT_ENTRIES /\
    gdt_at t (user_code_selector expected_selectors / 8) = Some user_code_segment /\
    gdt_at t (user_data_selector expected_selectors / 8) = Some user_data_segment /\
    if decide (cpu_id < MAX_CORES) then
      exists s', init t expected_selectors cpu_id s = (Ok tt, s') /\ gdtr s' = Some t /\
        gdt_at t (CS s' / 8) = Some kernel_code_segment /\ gdt_at t (SS s' / 8) = Some kernel_data_segment /\
        gdt_at t (TR s' / 8) = Some (tss_segment (expected_tss cpu_id)) /\
        (forall start c, start = DF_STACKS \/ start = PRIV_STACKS -> 0 <= c < MAX_CORES -> c <> cpu_id ->
           (a_stack start c).2 <= (a_stack start cpu_id).1 \/ (a_stack start cpu_id).2 <= (a_stack start c).1)
    else init t expected_selectors cpu_id s = (Panic, s).
Proof.
  intros Hc Hcpu. destruct (build_gdt_filled Hc) as (t & E1 & Hu & Hr & Hds). exists t.
  unfold expected_entries in Hds. repeat (apply Forall_cons in Hds as [[_ ?] Hds]). cbn in *.
  split_and!; try done. unfold init. case_decide as Hlt.
  - rewrite bind_assert by lia. assert (cpu_id = 0 \/ cpu_id = 1) as Hcase by (unfold MAX_CORES in Hlt; lia).
    assert (forall start c, start = DF_STACKS \/ start = PRIV_STACKS -> 0 <= c < MAX_CORES -> c <> cpu_id ->
      (a_stack start c).2 <= (a_stack start cpu_id).1 \/ (a_stack start cpu_id).2 <= (a_stack start c).1) as Hst.
    { intros start c _ Hc' Hne. cbn. unfold IST_STACK_SIZE. lia. }
    destruct Hcase as [->| ->]; (eexists; split; [reflexivity|]; cbn; split_and!; done).
  - unfold rassert. by replace (cpu_id <? MAX_CORES) with false by lia.
Qed.
End layout.

(** ** A table as a list *)

(** The entries in order, the upper half of a task state's as [None]. *)
Module ListTable.
Record table := mkTable { room : Z; entries : list (option Descriptor) }.

#[export] Instance ops : GlobalDescriptorTable table := {
  gdt_empty n := mkTable n [None];
  gdt_append d t :=
    if len (entries t) + slots d <=? room t
    then (Ok (8 * len (entries t) + dpl d),
          mkTable (room t) (entries t ++ Some d :: match d with tss_segment _ => [None] | _ => [] end))
    else (Panic, t)
}.

#[export] Instance laws : GdtLaws table.
Proof.
  refine {| gdt_used t := len (entries t); gdt_room := room;
            gdt_at t i := if 0 <=? i then mjoin (idx (entries t) i) else None |}.
  - done.
  - intros d t Hr. cbn. replace (_ <=? _) with true by lia. eexists. split; [done|]. cbn. rewrite len_app.
    pose proof (len_nonneg (entries t)). split; [by destruct d|]. split; [done|].
    replace (0 <=? len (entries t)) with true by lia. split.
    + rewrite idx_app_r, Z.sub_diag by lia. done.
    + intros i Hi. destruct (0 <=? i) eqn:H0; [|done]. by rewrite idx_app_l by lia.
  - intros d t Hr. cbn. by replace (_ <=? _) with false by lia.
Defined.
End ListTable.

Lemma example_stacks : stacks_canonical 0xFFFFFFFF80100000 0xFFFFFFFF80200000.
Proof. intros i Hi. unfold MAX_CORES in Hi. unfold canonical, IST_STACK_SIZE, RING0_STACK_SIZE. split; right; lia. Qed.

Lemma gdt_layout_witness :
  exists t s', init t expected_selectors 1 (mkSegments None 0 0 0 0 0 0 0) = (Ok tt, s') /\
    gdt_at (T:=ListTable.table) (GdtLaws:=ListTable.laws) t (TR s' / 8)
      = Some (tss_segment (expected_tss 0xFFFFFFFF80100000 0xFFFFFFFF80200000 1)).
Proof.
  destruct (gdt_layout (P:=Page) (T:=ListTable.table) (H2:=ListTable.laws) 0xFFFFFFFF80100000 0xFFFFFFFF80200000
    (mkSegments None 0 0 0 0 0 0 0) 1 example_stacks) as (t & _ & _ & _ & _ & _ & s' & E1 & _ & _ & _ & Htr & _).
  - lia.
  - exists t, s'. exact (conj E1 Htr).
Defined.
