(* ===== verification/Interrupts.v ===== *)
(** * Interrupt gates and the start of a core ([interrupts/idt.rs], [interrupts/mod.rs])

    The interrupt descriptor table, the handlers in it, and [interrupts::init],
    which loads segments, gates and the local APIC of a core.  The table is a
    type of the [x86_64] crate: a class, with what its documentation says as
    laws.  The theorem puts [Gdt.v], [ApicTimer.v] and the gates together: what
    an interrupt of each kind runs, on a core that has been initialised. *)

From S2P Require Import Prelude Apic ApicTimer Tlb Frames FrameStore Paging FlatMemory Gdt.

Definition SYSCALL_HANDLER : Z := 0x80.
Definition CPU_FREQUENCY : Z := 100.

(** The vectors of the exceptions with a handler. *)
Definition BREAKPOINT : Z := 3.
Definition DOUBLE_FAULT : Z := 8.
Definition PAGE_FAULT : Z := 14.

Inductive handler :=
| breakpoint_handler
| page_fault_handler
| double_fault_handler
| naked_timer_handler
| naked_syscall_handler
| tlb_shootdown_handler.

(** The bodies of the two handlers that use nothing but their stack frame. *)
Definition breakpoint_handler_body {S} : M S no_error unit := ret tt.
Definition double_fault_handler_body {S} : M S no_error unit := panic.

(** An entry: the handler, the interrupt stack it switches to, and the lowest
    privilege from which an instruction may raise it. *)
Record Gate := mkGate { gate_handler : handler; gate_stack : option Z; gate_privilege : Z }.

Class InterruptDescriptorTable (T : Type) := {
  idt_new : T;
  set_handler_fn : Z -> handler -> M T no_error unit;
  set_stack_index : Z -> Z -> M T no_error unit;
  set_privilege_level : Z -> Z -> M T no_error unit
}.

(** A new table has no handlers; setting one for an exception or for a vector
    from 32 on makes the entry present, for ring 0 and on the current stack. *)
Class IdtLaws (T : Type) `{InterruptDescriptorTable T} := {
  gates : T -> Z -> option Gate;
  new_law v : gates idt_new v = None;
  handler_law v h t : v = BREAKPOINT \/ v = DOUBLE_FAULT \/ v = PAGE_FAULT \/ 32 <= v < 256 -> gates t v = None ->
    exists t', set_handler_fn v h t = (Ok tt, t') /\
      forall q, gates t' q = if q =? v then Some (mkGate h None 0) else gates t q;
  stack_law v i t g : 0 <= i < 7 -> gates t v = Some g ->
    exists t', set_stack_index v i t = (Ok tt, t') /\
      forall q, gates t' q = if q =? v then Some (mkGate (gate_handler g) (Some i) (gate_privilege g)) else gates t q;
  privilege_law v p t g : 0 <= p < 4 -> gates t v = Some g ->
    exists t', set_privilege_level v p t = (Ok tt, t') /\
      forall q, gates t' q = if q =? v then Some (mkGate (gate_handler g) (gate_stack g) p) else gates t q
}.

Section idt.
Context {T : Type} `{InterruptDescriptorTable T}.

(** [IDT]: the table built on first use. *)
Definition IDT : M T no_error unit :=
  set_handler_fn BREAKPOINT breakpoint_handler ;!
  set_handler_fn PAGE_FAULT page_fault_handler ;!
  set_handler_fn DOUBLE_FAULT double_fault_handler ;!
  set_stack_index DOUBLE_FAULT 0 ;!
  set_handler_fn TIMER_VECTOR naked_timer_handler ;!
  set_handler_fn SYSCALL_HANDLER naked_syscall_handler ;!
  set_privilege_level SYSCALL_HANDLER 3 ;!
  set_handler_fn TLB_SHOOTDOWN_VECTOR tlb_shootdown_handler.

(** [init_idt]: [IDT.load()]; the state is the table register of the core. *)
Definition init_idt (idt : T) (_cpu_id : Z) : M (option T) no_error unit := put_state (Some idt).
End idt.

(** What a core has loaded, and the driver of the APICs. *)
Record Core (G T W : Type) := mkCore {
  segments : Segments G;
  idtr : option T;
  apic_driver : Apic W
}.
Arguments mkCore {G T W}.
Arguments segments {G T W}.
Arguments idtr {G T W}.
Arguments apic_driver {G T W}.

Section init.
Context {G T W : Type} `{GlobalDescriptorTable G} `{InterruptDescriptorTable T} `{Machine W}.
Abbreviation MC := (M (Core G T W) no_error).

Definition in_segments {A} (m : M (Segments G) no_error A) : MC A :=
  zoom segments (fun x c => mkCore x (idtr c) (apic_driver c)) m.
Definition in_idtr {A} (m : M (option T) no_error A) : MC A :=
  zoom idtr (fun x c => mkCore (segments c) x (apic_driver c)) m.
Definition in_driver {A} (m : M (Apic W) no_error A) : MC A :=
  zoom apic_driver (fun x c => mkCore (segments c) (idtr c) x) m.

(** [interrupts::init]; [fuel] bounds the calibration of the timer. *)
Definition interrupts_init (fuel : nat) (gdt : G) (sel : Selectors) (idt : T) (cpu_id : Z) : MC unit :=
  in_segments (Gdt.init gdt sel cpu_id) ;!
  in_idtr (init_idt idt cpu_id) ;!
  if cpu_id =? 0 then in_driver (unwrap (bsp_init fuel CPU_FREQUENCY))
  else in_driver (unwrap ap_init).
End init.

(** ** Delivery *)

(** How an interrupt is raised: by the processor or a device, or by an [int]
    instruction at a privilege level. *)
Inductive cause := Raised (v : Z) | Int (v cpl : Z).

Section delivery.
Context {T : Type} `{IdtLaws T}.

(** The processor looks up the entry; an [int] must be allowed by it. *)
Definition delivered (t : T) (c : cause) : option Gate :=
  match c with
  | Raised v => gates t v
  | Int v cpl => match gates t v with
                 | Some g => if cpl <=? gate_privilege g then Some g else None
                 | None => None
                 end
  end.

Definition expected_gate (v : Z) : option Gate :=
  if v =? TLB_SHOOTDOWN_VECTOR then Some (mkGate tlb_shootdown_handler None 0)
  else if v =? SYSCALL_HANDLER then Some (mkGate naked_syscall_handler None 3)
  else if v =? TIMER_VECTOR then Some (mkGate naked_timer_handler None 0)
  else if v =? DOUBLE_FAULT then Some (mkGate double_fault_handler (Some 0) 0)
  else if v =? PAGE_FAULT then Some (mkGate page_fault_handler None 0)
  else if v =? BREAKPOINT then Some (mkGate breakpoint_handler None 0)
  else None.

Lemma int_from_user v g :
  match expected_gate v with
  | Some g' => if 3 <=? gate_privilege g' then Some g' else None
  | None => None
  end = Some g <-> v = SYSCALL_HANDLER /\ g = mkGate naked_syscall_handler None 3.
Proof.
  split; [|by intros [-> ->]]. unfold expected_gate.
  repeat (match goal with |- context [v =? ?x] => destruct (Z.eqb_spec v x) end; cbn; try done).
  by intros [= <-].
Qed.

Lemma present_gates v : is_Some (expected_gate v) <-> v ∈ [3; 8; 14; 32; 33; 128].
Proof.
  rewrite !elem_of_cons, elem_of_nil. unfold expected_gate.
  split; [|by intros [->|[->|[->|[->|[->|[->|[]]]]]]]; eexists].
  intros [g Hg]. revert Hg. unfold TLB_SHOOTDOWN_VECTOR, SYSCALL_HANDLER, TIMER_VECTOR, DOUBLE_FAULT, PAGE_FAULT, BREAKPOINT.
  repeat (case_match; [lia|]). done.
Qed.

Lemma idt_gates : exists t, IDT (T:=T) idt_new = (Ok tt, t) /\ forall v, gates t v = expected_gate v.
Proof.
  destruct (handler_law BREAKPOINT breakpoint_handler idt_new) as (t1 & E1 & H1); [tauto|apply new_law|].
  destruct (handler_law PAGE_FAULT page_fault_handler t1) as (t2 & E2 & H2); [tauto|by rewrite H1, new_law|].
  destruct (handler_law DOUBLE_FAULT double_fault_handler t2) as (t3 & E3 & H3); [tauto|by rewrite H2, H1, new_law|].
  destruct (stack_law DOUBLE_FAULT 0 t3 (mkGate double_fault_handler None 0)) as (t4 & E4 & H4); [lia|by rewrite H3|].
  destruct (handler_law TIMER_VECTOR naked_timer_handler t4) as (t5 & E5 & H5);
    [by right; right; right|by rewrite H4, H3, H2, H1, new_law|].
  destruct (handler_law SYSCALL_HANDLER naked_syscall_handler t5) as (t6 & E6 & H6);
    [by right; right; right|by rewrite H5, H4, H3, H2, H1, new_law|].
  destruct (privilege_law SYSCALL_HANDLER 3 t6 (mkGate naked_syscall_handler None 0)) as (t7 & E7 & H7);
    [lia|by rewrite H6|].
  destruct (handler_law TLB_SHOOTDOWN_VECTOR tlb_shootdown_handler t7) as (t8 & E8 & H8);
    [by right; right; right|by rewrite H7, H6, H5, H4, H3, H2, H1, new_law|].
  exists t8. split.
  - unfold IDT. by rewrite (bind_ok _ _ _ _ _ E1), (bind_ok _ _ _ _ _ E2), (bind_ok _ _ _ _ _ E3),
      (bind_ok _ _ _ _ _ E4), (bind_ok _ _ _ _ _ E5), (bind_ok _ _ _ _ _ E6), (bind_ok _ _ _ _ _ E7).
  - intros v. rewrite H8, H7, H6, H5, H4, H3, H2, H1, new_law. unfold expected_gate. by repeat case_match.
Qed.
End delivery.

Section core.
Context {P G T W : Type} `{PagesLaws P} `{GdtLaws G} `{IdtLaws T} `{ApicLaws W}.
Context (DF_STACKS PRIV_STACKS : Z).
Implicit Types (c : Core G T W).

(** [interrupts::init] on a core: the three parts succeed, one after another. *)
Lemma interrupts_init_eq fuel gdt idt cpu_id c :
  filled gdt GDT_ENTRIES (expected_entries DF_STACKS PRIV_STACKS) -> 0 <= cpu_id < MAX_CORES ->
  has_x2apic (machine (apic_driver c)) = true -> apic_id (regs (machine (apic_driver c))) < MAX_CORES ->
  (40 * pit_reads < fuel)%nat ->
  exists c' count, interrupts_init fuel gdt expected_selectors idt cpu_id c = (Ok tt, c') /\
    idtr c' = Some idt /\
    gdt_at gdt (TR (segments c') / 8) = Some (tss_segment (expected_tss DF_STACKS PRIV_STACKS cpu_id)) /\
    regs (machine (apic_driver c')) = programmed (regs (machine (apic_driver c))) count.
Proof.
  intros (Hu & Hr & Hds) Hcpu Hx Hid Hf. unfold interrupts_init, in_segments.
  assert (exists sg, Gdt.init gdt expected_selectors cpu_id (segments c) = (Ok tt, sg) /\
    gdt_at gdt (TR sg / 8) = Some (tss_segment (expected_tss DF_STACKS PRIV_STACKS cpu_id))) as (sg & E1 & Htr).
  { unfold expected_entries in Hds. repeat (apply Forall_cons in Hds as [[_ ?] Hds]). cbn in *.
    assert (cpu_id = 0 \/ cpu_id = 1) as [->| ->] by (unfold MAX_CORES in Hcpu; lia); eexists; (split; [reflexivity|done]). }
  rewrite (bind_ok _ _ _ _ _ (zoom_ok _ _ _ c _ _ E1)).
  rewrite (bind_ok _ _ _ tt (mkCore sg (Some idt) (apic_driver c))) by done.
  assert (exists s' count, (if cpu_id =? 0 then unwrap (E':=no_error) (bsp_init fuel CPU_FREQUENCY) else unwrap ap_init)
      (apic_driver c) = (Ok tt, s') /\
    regs (machine s') = programmed (regs (machine (apic_driver c))) count) as (s' & n & E2 & HR).
  { unfold unwrap, attempt, bind. destruct (cpu_id =? 0).
    - destruct (bsp_init_ok fuel CPU_FREQUENCY (apic_driver c)) as (t & s' & _ & E2 & _ & _ & _ & HR); [done..|].
      exists s'. eexists. by rewrite E2.
    - destruct (ap_init_ok (apic_driver c)) as (s' & E2 & _ & _ & _ & HR); [done..|]. exists s'. eexists. by rewrite E2. }
  exists (mkCore sg (Some idt) s'), n. split; [|by cbn].
  unfold in_driver. destruct (cpu_id =? 0);
    exact (zoom_ok apic_driver _ _ (mkCore sg (Some idt) (apic_driver c)) _ _ E2).
Qed.

End core.

(** ** A table as a function, and a core *)

Module FunctionTable.
Definition table := Z -> option Gate.
Definition set (v : Z) (g : Gate) (t : table) : table := fun q => if q =? v then Some g else t q.

#[export] Instance ops : InterruptDescriptorTable table := {
  idt_new := fun _ => None;
  set_handler_fn v h t := (Ok tt, set v (mkGate h None 0) t);
  set_stack_index v i t :=
    match t v with
    | Some g => (Ok tt, set v (mkGate (gate_handler g) (Some i) (gate_privilege g)) t)
    | None => (Panic, t)
    end;
  set_privilege_level v p t :=
    match t v with
    | Some g => (Ok tt, set v (mkGate (gate_handler g) (gate_stack g) p) t)
    | None => (Panic, t)
    end
}.

#[export] Instance laws : IdtLaws table.
Proof.
  refine {| gates t := t |}.
  - done.
  - intros v h t _ _. by eexists.
  - intros v i t g _ Hg. cbn. rewrite Hg. by eexists.
  - intros v p t g _ Hg. cbn. rewrite Hg. by eexists.
Defined.
End FunctionTable.

#[local] Existing Instances Processor.machine Processor.laws FunctionTable.ops FunctionTable.laws ListTable.ops ListTable.laws.

