(* ===== verification/Pci.v ===== *)
(** * The PCI bus ([devices/pci.rs])

    Configuration space is reached through two 32-bit I/O ports: an address is
    written to one, data goes through the other.  The ports are a class; a bus
    that answers reads with a fixed configuration space is the law the walk of
    the bus is verified against.  [PCI_LOCK.lock()] drops its guard at once and
    is not modelled. *)

From S2P Require Import Prelude.

Definition CONFIG_ADDRESS_BUS : Z := 0xCF8.
Definition CONFIG_DATA_BUS : Z := 0xCFC.

(** The bits of [PCICommand] the kernel uses. *)
Definition BUS_MASTER : Z := Z.shiftl 1 2.
Definition MEMORY_SPACE : Z := Z.shiftl 1 1.

(** [struct DeviceInfo]. *)
Record DeviceInfo := mkDeviceInfo {
  bus : Z;
  device : Z;
  device_id : Z;
  vendor_id : Z;
  status : Z;
  command : Z;
  class_code : Z;
  subclass : Z;
  programming_interface : Z;
  revision_id : Z;
  built_in_self_test : Z;
  header_type : Z;
  latency_timer : Z;
  cache_line_size : Z
}.

(** 32-bit port reads and writes. *)
Class Ports (W : Type) := {
  in32 : Z -> W -> Z * W;
  out32 : Z -> Z -> W -> W
}.

Section pci.
Context {W : Type} `{Ports W} {E : Type}.
Abbreviation MW := (M W E).

Definition port_in (p : Z) : MW Z :=
  let! w := get_state in let (v, w') := in32 p w in put_state w' ;! ret v.
Definition port_out (p v : Z) : MW unit :=
  let! w := get_state in put_state (out32 p v w).

(** [get_pci_addres]. *)
Definition get_pci_addres (bus device function offset : Z) : MW Z :=
  rassert (offset mod 4 =? 0) ;!
  rassert (function <? 8) ;!
  rassert (device <? 32) ;!
  ret (Z.lor (Z.lor (Z.lor (Z.lor (Z.shiftl 1 31) (Z.shiftl bus 16)) (Z.shiftl device 11)) (Z.shiftl function 8)) offset).

Definition read_config (bus device function offset : Z) : MW Z :=
  let! address := get_pci_addres bus device function offset in
  port_out CONFIG_ADDRESS_BUS address ;!
  let! data := port_in CONFIG_DATA_BUS in
  port_out CONFIG_ADDRESS_BUS 0 ;!
  ret data.

Definition write_pci_data (bus device function offset data : Z) : MW unit :=
  let! address := get_pci_addres bus device function offset in
  port_out CONFIG_ADDRESS_BUS address ;!
  port_out CONFIG_DATA_BUS data ;!
  port_out CONFIG_ADDRESS_BUS 0.

Definition write_pci_command (bus device function command : Z) : MW unit :=
  let! address := get_pci_addres bus device function 0x4 in
  port_out CONFIG_ADDRESS_BUS address ;!
  let! data := port_in CONFIG_DATA_BUS in
  port_out CONFIG_DATA_BUS (Z.lor (Z.land data 0xFFFF0000) command) ;!
  port_out CONFIG_ADDRESS_BUS 0.

(** The fields of a configuration word: [try_into().expect(..)] after a shift
    or a mask, which leaves a value of the target width. *)
Definition upper16 (w : Z) : MW Z := chk 16 (Z.shiftr w 16).
Definition lower16 (w : Z) : MW Z := chk 16 (Z.land w 0x0000FFFF).
Definition byte3 (w : Z) : MW Z := chk 8 (Z.shiftr w 24).
Definition byte2 (w : Z) : MW Z := chk 8 (Z.shiftr (Z.land w 0x00FF0000) 16).
Definition byte1 (w : Z) : MW Z := chk 8 (Z.shiftr (Z.land w 0x0000FF00) 8).
Definition byte0 (w : Z) : MW Z := chk 8 (Z.land w 0x000000FF).

(** [device_connected]. *)
Definition device_connected (bus device : Z) : MW (option DeviceInfo) :=
  let! config_word := read_config bus device 0 0 in
  let! device_id := upper16 config_word in
  let! vendor_id := lower16 config_word in
  if vendor_id =? 0xFFFF then ret None else
  let! config_word := read_config bus device 0 4 in
  let! status := upper16 config_word in
  let! command := lower16 config_word in
  let! config_word := read_config bus device 0 8 in
  let! class_code := byte3 config_word in
  let! subclass := byte2 config_word in
  let! programming_interface := byte1 config_word in
  let! revision_id := byte0 config_word in
  let! config_word := read_config bus device 0 12 in
  let! built_in_self_test := byte3 config_word in
  let! header_type := byte2 config_word in
  let! latency_timer := byte1 config_word in
  let! cache_line_size := byte0 config_word in
  ret (Some (mkDeviceInfo bus device device_id vendor_id status command class_code subclass
    programming_interface revision_id built_in_self_test header_type latency_timer cache_line_size)).

(** The inner loop of [walk_pci_bus] at one bus, and the outer loop. *)
Definition walk_bus (devices : list DeviceInfo) (bus : Z) : MW (list DeviceInfo) :=
  for_fold (range 0 32) devices (fun devices device =>
    let! found := device_connected bus device in
    match found with
    | None => ret devices
    | Some device_info => ret (devices ++ [device_info])
    end).
Definition walk_pci_bus : MW (list DeviceInfo) :=
  for_fold (range 0 256) [] (fun devices bus =>
    let! bus := chk 8 bus in walk_bus devices bus).
End pci.

(** ** The bus as the ports show it

    The host bridge latches the address written to [CONFIG_ADDRESS_BUS]; a read
    of [CONFIG_DATA_BUS] returns the 32-bit word of configuration space it
    names, and reading configuration words does not change them. *)
Class PciBus (W : Type) `{Ports W} := {
  config : W -> Z -> Z;
  latched : W -> Z;
  config_width w a : 0 <= config w a < 2 ^ 32;
  latch_law a w : latched (out32 CONFIG_ADDRESS_BUS a w) = a;
  latch_config a w : config (out32 CONFIG_ADDRESS_BUS a w) = config w;
  data_law w : fst (in32 CONFIG_DATA_BUS w) = config w (latched w);
  data_config w : config (snd (in32 CONFIG_DATA_BUS w)) = config w
}.

(** The address of a word: enable bit, bus, device, function, offset, as a sum. *)
Definition config_address (bus device function offset : Z) : Z :=
  2 ^ 31 + bus * 2 ^ 16 + device * 2 ^ 11 + function * 2 ^ 8 + offset.

(** What is at a bus and device of a configuration space, by arithmetic on the
    four words of the header. *)
Definition device_at (cfg : Z -> Z) (bus device : Z) : option DeviceInfo :=
  let word i := cfg (config_address bus device 0 (4 * i)) in
  let byte i j := (word i / 256 ^ j) mod 256 in
  if word 0 mod 2 ^ 16 =? 0xFFFF then None
  else Some {|
    bus := bus;
    device := device;
    device_id := word 0 / 2 ^ 16;
    vendor_id := word 0 mod 2 ^ 16;
    status := word 1 / 2 ^ 16;
    command := word 1 mod 2 ^ 16;
    class_code := byte 2 3;
    subclass := byte 2 2;
    programming_interface := byte 2 1;
    revision_id := byte 2 0;
    built_in_self_test := byte 3 3;
    header_type := byte 3 2;
    latency_timer := byte 3 1;
    cache_line_size := byte 3 0
  |}.

(** Every slot of the bus, in the order of the walk. *)
Definition slots : list (Z * Z) := bus ← range 0 256; device ← range 0 32; [(bus, device)].
Definition present (cfg : Z -> Z) (ps : list (Z * Z)) : list DeviceInfo :=
  omap (fun p => device_at cfg p.1 p.2) ps.

Section walk.
Context {W : Type} `{PciBus W} {E : Type}.

Lemma get_pci_addres_sum b d f o (w : W) :
  0 <= b < 256 -> 0 <= d < 32 -> 0 <= f < 8 -> 0 <= o < 256 -> o mod 4 = 0 ->
  get_pci_addres (E:=E) b d f o w = (Ok (config_address b d f o), w).
Proof.
  intros. unfold get_pci_addres, config_address.
  rewrite !bind_assert by lia. unfold ret. do 2 f_equal.
  rewrite <- !Z.lor_assoc. rewrite (lor_shiftl_add f o 8) by lia.
  rewrite (lor_shiftl_add d _ 11) by lia. rewrite (lor_shiftl_add b _ 16) by lia.
  rewrite (lor_shiftl_add 1 _ 31) by lia. lia.
Qed.

Lemma read_config_word b d f o (w : W) :
  0 <= b < 256 -> 0 <= d < 32 -> 0 <= f < 8 -> 0 <= o < 256 -> o mod 4 = 0 ->
  exists w', read_config (E:=E) b d f o w = (Ok (config w (config_address b d f o)), w') /\ config w' = config w.
Proof.
  intros. unfold read_config. rewrite (bind_ok _ _ _ _ _ (get_pci_addres_sum b d f o w ltac:(lia) ltac:(lia) ltac:(lia) ltac:(lia) ltac:(done))).
  unfold port_out, port_in, bind, get_state, put_state, ret.
  destruct (in32 CONFIG_DATA_BUS _) as [v w'] eqn:Ei.
  pose proof (data_law (out32 CONFIG_ADDRESS_BUS (config_address b d f o) w)) as Hv.
  pose proof (data_config (out32 CONFIG_ADDRESS_BUS (config_address b d f o) w)) as Hc.
  rewrite Ei in Hv, Hc. cbn [fst snd] in Hv, Hc. rewrite latch_law, latch_config in Hv. rewrite latch_config in Hc.
  eexists. split; [by rewrite Hv|]. by rewrite latch_config.
Qed.

Lemma upper16_eq x (w : W) : 0 <= x < 2 ^ 32 -> upper16 (E:=E) x w = (Ok (x / 2 ^ 16), w).
Proof. intros. unfold upper16. rewrite Z.shiftr_div_pow2 by lia. apply chk_ok. dlia. Qed.
Lemma lower16_eq x (w : W) : lower16 (E:=E) x w = (Ok (x mod 2 ^ 16), w).
Proof. unfold lower16. change 0x0000FFFF with (Z.ones 16). rewrite Z.land_ones by lia. apply chk_ok. dlia. Qed.
Lemma byte3_eq x (w : W) : 0 <= x < 2 ^ 32 -> byte3 (E:=E) x w = (Ok ((x / 256 ^ 3) mod 256), w).
Proof. intros. unfold byte3. rewrite Z.shiftr_div_pow2 by lia. rewrite chk_ok by dlia. by rewrite Z.mod_small by dlia. Qed.
Lemma byte2_eq x (w : W) : byte2 (E:=E) x w = (Ok ((x / 256 ^ 2) mod 256), w).
Proof. unfold byte2. change 0x00FF0000 with (Z.shiftl (Z.ones 8) 16). rewrite shiftr_land_field by lia. apply chk_ok. dlia. Qed.
Lemma byte1_eq x (w : W) : byte1 (E:=E) x w = (Ok ((x / 256 ^ 1) mod 256), w).
Proof. unfold byte1. change 0x0000FF00 with (Z.shiftl (Z.ones 8) 8). rewrite shiftr_land_field by lia. apply chk_ok. dlia. Qed.
Lemma byte0_eq x (w : W) : byte0 (E:=E) x w = (Ok ((x / 256 ^ 0) mod 256), w).
Proof. unfold byte0. change 0x000000FF with (Z.ones 8). rewrite Z.land_ones, Z.div_1_r by lia. apply chk_ok. dlia. Qed.

(** One configuration word read and the rest of the computation resumed with it. *)
Ltac read_word :=
  match goal with
  | |- exists w', bind (read_config ?b ?d ?f ?o) _ ?w = _ /\ _ =>
      let w1 := fresh "w" in let Hw := fresh "Hw" in let Hr := fresh "Hr" in
      destruct (read_config_word b d f o w) as (w1 & Hr & Hw); [lia..|done|];
      rewrite (bind_ok _ _ _ _ _ Hr); clear Hr
  end.
Ltac field :=
  match goal with
  | |- context [bind (upper16 ?x) _ ?w] => rewrite (bind_ok _ _ _ _ _ (upper16_eq x w (config_width _ _)))
  | |- context [bind (lower16 ?x) _ ?w] => rewrite (bind_ok _ _ _ _ _ (lower16_eq x w))
  | |- context [bind (byte3 ?x) _ ?w] => rewrite (bind_ok _ _ _ _ _ (byte3_eq x w (config_width _ _)))
  | |- context [bind (byte2 ?x) _ ?w] => rewrite (bind_ok _ _ _ _ _ (byte2_eq x w))
  | |- context [bind (byte1 ?x) _ ?w] => rewrite (bind_ok _ _ _ _ _ (byte1_eq x w))
  | |- context [bind (byte0 ?x) _ ?w] => rewrite (bind_ok _ _ _ _ _ (byte0_eq x w))
  end.

Lemma device_connected_at b d (w : W) :
  0 <= b < 256 -> 0 <= d < 32 ->
  exists w', device_connected (E:=E) b d w = (Ok (device_at (config w) b d), w') /\ config w' = config w.
Proof.
  intros. unfold device_connected, device_at. cbv zeta. read_word. do 2 field.
  change (4 * 0) with 0. change (4 * 1) with 4. change (4 * 2) with 8. change (4 * 3) with 12.
  case_test; [by eexists|].
  read_word. do 2 field. read_word. do 4 field. read_word. do 4 field.
  eexists. unfold ret. rewrite Hw2, Hw1, Hw0, Hw. split; [done|congruence].
Qed.

Lemma walk_bus_at ds b (devs : list DeviceInfo) (w : W) :
  0 <= b < 256 -> (forall d, d ∈ ds -> 0 <= d < 32) ->
  exists w', for_fold (E:=E) ds devs (fun devices device =>
      let! found := device_connected b device in
      match found with None => ret devices | Some device_info => ret (devices ++ [device_info]) end) w
    = (Ok (devs ++ present (config w) (map (pair b) ds)), w') /\ config w' = config w.
Proof.
  intros Hb. revert devs w. induction ds as [|d ds IH]; intros devs w Hds.
  { exists w. cbn. by rewrite app_nil_r. }
  destruct (device_connected_at b d w) as (w1 & Hd & Hw); [done|apply Hds; by left|].
  cbn [for_fold]. rewrite (bind_ok _ _ w (match device_at (config w) b d with None => devs | Some i => devs ++ [i] end) w1).
  2:{ rewrite (bind_ok _ _ _ _ _ Hd). by destruct (device_at _ _ _). }
  destruct (IH (match device_at (config w) b d with None => devs | Some i => devs ++ [i] end) w1) as (w2 & Hf & Hw2).
  { intros x Hx. apply Hds. by right. }
  exists w2. rewrite Hf, Hw. split; [|congruence]. cbn. do 2 f_equal.
  destruct (device_at _ _ _); [by rewrite <- app_assoc|done].
Qed.

Lemma walk_buses_at bs (devs : list DeviceInfo) (w : W) :
  (forall b, b ∈ bs -> 0 <= b < 256) ->
  exists w', for_fold (E:=E) bs devs (fun devices bus => let! bus := chk 8 bus in walk_bus devices bus) w
    = (Ok (devs ++ present (config w) (bus ← bs; device ← range 0 32; [(bus, device)])), w') /\ config w' = config w.
Proof.
  revert devs w. induction bs as [|b bs IH]; intros devs w Hbs.
  { exists w. cbn. by rewrite app_nil_r. }
  assert (Hb : 0 <= b < 256) by (apply Hbs; by left).
  destruct (walk_bus_at (range 0 32) b devs w Hb) as (w1 & Hd & Hw). { intros d. by rewrite elem_of_range. }
  cbn [for_fold]. erewrite bind_ok; [|rewrite bind_chk by lia; exact Hd].
  destruct (IH (devs ++ present (config w) (map (pair b) (range 0 32))) w1) as (w2 & Hf & Hw2); [intros x Hx; apply Hbs; by right|].
  exists w2. rewrite Hf, Hw. split; [|congruence]. rewrite <- app_assoc. unfold present. do 3 f_equal.
  rewrite bind_cons, omap_app. by f_equal.
Qed.

(** C36: [walk_pci_bus] terminates and returns, in order of bus and device,
    exactly the devices of configuration space: the slots whose vendor is not
    [0xFFFF], each with every field of its header decoded from the right bits
    of the right word (stated by arithmetic on configuration addresses and
    words, not by the masks and shifts of the code).  No assertion, shift or
    conversion on the way fails, and configuration space is left unchanged. *)
Theorem walk_pci_bus_exact (w : W) :
  exists w', walk_pci_bus (E:=E) w = (Ok (present (config w) slots), w') /\ config w' = config w.
Proof. apply (walk_buses_at (range 0 256) []). intros b. by rewrite elem_of_range. Qed.
End walk.

(** ** A bus with one device

    An SD host controller at bus 0, device 4; the state is the latched
    address, and every other slot reads as all ones. *)
Module OneDevice.
Definition cfg (a : Z) : Z :=
  if a =? config_address 0 4 0 0 then 0x00071b36
  else if a =? config_address 0 4 0 4 then 0x00100007
  else if a =? config_address 0 4 0 8 then 0x08050100
  else if a =? config_address 0 4 0 12 then 0
  else 0xFFFFFFFF.

#[export] Instance ports : Ports Z := {
  in32 p w := (cfg w, w);
  out32 p v w := if p =? CONFIG_ADDRESS_BUS then v else w
}.

Lemma cfg_width a : 0 <= cfg a < 2 ^ 32.
Proof. unfold cfg. repeat case_match; lia. Qed.

#[export] Instance bus : PciBus Z := {
  config _ := cfg;
  latched w := w;
  config_width _ := cfg_width;
  latch_law _ _ := eq_refl;
  latch_config _ _ := eq_refl;
  data_law _ := eq_refl;
  data_config _ := eq_refl
}.

Definition controller : DeviceInfo := {|
  Pci.bus := 0; device := 4; device_id := 7; vendor_id := 0x1b36; status := 0x10; command := 7;
  class_code := 8; subclass := 5; programming_interface := 1; revision_id := 0;
  built_in_self_test := 0; header_type := 0; latency_timer := 0; cache_line_size := 0
|}.

Lemma present_controller : present cfg slots = [controller].
Proof. by vm_compute. Qed.

Lemma walk_pci_bus_exact_witness :
  exists w', walk_pci_bus (E:=unit) (W:=Z) (0 : Z) = (Ok [controller], w').
Proof.
  destruct (walk_pci_bus_exact (E:=unit) (0 : Z)) as (w' & Hw & _).
  exists w'. rewrite <- present_controller. exact Hw.
Defined.
End OneDevice.
