(* ===== verification/SdCard.v ===== *)
(** * The SD card driver ([devices/sd_card.rs], [devices/mod.rs])

    The driver talks to the host controller through volatile reads and writes
    of memory-mapped registers, which are a class here.  Everything it does is
    translated: finding the controller on the PCI bus, mapping its registers,
    resetting and identifying the card, and the two commands that move a block.
    [SDCardInfo] is a [BlockDevice]; [SdHost.v] verifies it as one. *)

From S2P Require Import Prelude BlockDev Pci Apic Tlb Frames FrameStore Paging.

(** [struct SDCardInfoInternal], [struct SDCardInfo]. *)
Record SDCardInfoInternal := mkInternal {
  capabilities : Z;
  base_address_register : Z
}.
Record SDCardInfo := mkSDCardInfo {
  internal_info : SDCardInfoInternal;
  sd_block_size : Z;
  sd_total_blocks : Z;
  reletave_card_address : Z
}.

Inductive SDCardError :=
| CommandInhibited
| CommandStoppedDueToError
| SDTimeout
| FrequencyUnableToBeSet
| VoltageUnableToBeSet
| GenericSDError.

Inductive SDCommandResponse :=
| NoResponse
| Response32Bits (r : Z)
| Response128Bits (r : Z).

Inductive SDResponseTypes := R0 | R2 | R1 | R1b | R3 | R4 | R5 | R5b | R6 | R7.

(** The flags of the registers the driver uses. *)
Definition ReadToCard : Z := Z.shiftl 1 4.
Definition Voltage1_8Support : Z := Z.shiftl 1 26.
Definition Voltage3_0Support : Z := Z.shiftl 1 25.
Definition Voltage3_3Support : Z := Z.shiftl 1 24.
Definition CommandNotIssuedError : Z := Z.shiftl 1 27.
Definition BufferReadEnable : Z := Z.shiftl 1 11.
Definition BufferWriteEnable : Z := Z.shiftl 1 10.
Definition CommandInhibitData : Z := Z.shiftl 1 1.
Definition CommandInhibitCmd : Z := 1.
Definition DataPresentSelect : Z := Z.shiftl 1 5.
Definition CommandIndexCheckEnable : Z := Z.shiftl 1 4.
Definition CommandCRCCheckEnable : Z := Z.shiftl 1 3.

(** [a.intersects(b)] and [a.contains(b)] of [bitflags]. *)
Definition intersects (a b : Z) : bool := negb (Z.land a b =? 0).
Definition contains (a b : Z) : bool := Z.land a b =? b.

Definition SD_CLASS_CODE : Z := 0x8.
Definition SD_SUB_CLASS : Z := 0x5.
Definition SD_NO_DMA_INTERFACE : Z := 0x0.
Definition SD_DMA_INTERFACE : Z := 0x1.
Definition MAX_ITERATIONS : nat := 1000.
Definition SD_BLOCK_SIZE : Z := 512.

(** [read_volatile] and [write_volatile] of [width] bits at an address.  A
    32-bit word of the data port is transmuted from and to bytes and nothing
    else: it is given as its four bytes in memory order. *)
Class Mmio (W : Type) := {
  mmio_read : Z -> Z -> W -> Z * W;
  mmio_write : Z -> Z -> Z -> W -> W;
  mmio_read_bytes : Z -> W -> list Z * W;
  mmio_write_bytes : Z -> list Z -> W -> W
}.

(** [find_sd_card]. *)
Definition find_sd_card (devices : list DeviceInfo) : option DeviceInfo :=
  List.find (fun device =>
    (class_code device =? SD_CLASS_CODE) && (subclass device =? SD_SUB_CLASS) &&
    ((programming_interface device =? SD_DMA_INTERFACE)
     || (programming_interface device =? SD_NO_DMA_INTERFACE))) devices.

(** The first [n] 32-bit words of an array of bytes. *)
Fixpoint words (n : nat) (data : list Z) : list (list Z) :=
  match n with
  | O => []
  | S n' => take 4 data :: words n' (drop 4 data)
  end.

(** A loop of at most [n] iterations that breaks when [m] holds: whether it did. *)
Fixpoint poll {S E} (n : nat) (m : M S E bool) : M S E bool :=
  match n with
  | O => ret false
  | Datatypes.S n' => let! b := m in if b then ret true else poll n' m
  end.

Section driver.
Context {W : Type} `{Mmio W}.
Abbreviation MS := (M W SDCardError).

(** A register: the address [base_address_register + off] is a checked [u64]. *)
Definition reg_read (sd_card : SDCardInfoInternal) (width off : Z) : MS Z :=
  let! addr := chk 64 (base_address_register sd_card + off) in
  let! w := get_state in
  let (v, w') := mmio_read width addr w in
  put_state w' ;! ret v.
Definition reg_write (sd_card : SDCardInfoInternal) (width off v : Z) : MS unit :=
  let! addr := chk 64 (base_address_register sd_card + off) in
  let! w := get_state in
  put_state (mmio_write width addr v w).
Definition port_read_word (sd_card : SDCardInfoInternal) (off : Z) : MS (list Z) :=
  let! addr := chk 64 (base_address_register sd_card + off) in
  let! w := get_state in
  let (v, w') := mmio_read_bytes addr w in
  put_state w' ;! ret v.
Definition port_write_word (sd_card : SDCardInfoInternal) (off : Z) (v : list Z) : MS unit :=
  let! addr := chk 64 (base_address_register sd_card + off) in
  let! w := get_state in
  put_state (mmio_write_bytes addr v w).

Definition check_no_errors (sd_card : SDCardInfoInternal) : MS unit :=
  let! error_state := reg_read sd_card 16 0x32 in
  if negb (error_state =? 0) then err GenericSDError else ret tt.

Definition sending_command_valid (sd_card : SDCardInfoInternal) : MS unit :=
  check_no_errors sd_card ;!
  let! present_state := reg_read sd_card 32 0x24 in
  let inhibited_state := Z.lor CommandInhibitCmd CommandInhibitData in
  if intersects inhibited_state present_state then err CommandInhibited
  else if contains CommandNotIssuedError present_state then err CommandStoppedDueToError
  else ret tt.

Definition determine_sd_card_response (sd_card : SDCardInfoInternal) (respone_type : SDResponseTypes)
  : MS SDCommandResponse :=
  match respone_type with
  | R1b | R1 | R3 | R4 | R5b | R5 | R6 =>
      let! response := reg_read sd_card 32 0x10 in
      ret (Response32Bits response)
  | R2 =>
      let! r0 := reg_read sd_card 32 0x10 in
      let! r1 := reg_read sd_card 32 0x14 in
      let! r2 := reg_read sd_card 32 0x18 in
      let! r3 := reg_read sd_card 32 0x1C in
      let response := Z.lor (Z.lor (Z.lor r0 (wrap 128 (Z.shiftl r1 32))) (wrap 128 (Z.shiftl r2 64)))
                            (wrap 128 (Z.shiftl r3 96)) in
      ret (Response128Bits (wrap 128 (Z.shiftl response 8)))
  | _ => ret NoResponse
  end.

(** The command register's value: index, response length, checks. *)
Definition command_word (command_idx : Z) (respone_type : SDResponseTypes) (flags : Z) : Z :=
  let command := wrap 16 (Z.shiftl command_idx 8) in
  match respone_type with
  | R2 => Z.lor (Z.lor command 1) (Z.lor flags CommandCRCCheckEnable)
  | R3 | R4 => Z.lor (Z.lor command 2) flags
  | R1 | R5 | R7 | R6 =>
      Z.lor (Z.lor command 2) (Z.lor flags (Z.lor CommandIndexCheckEnable CommandCRCCheckEnable))
  | R1b | R5b =>
      Z.lor (Z.lor command 3) (Z.lor flags (Z.lor CommandIndexCheckEnable CommandCRCCheckEnable))
  | _ => Z.lor command flags
  end.

Definition send_sd_command (sd_card : SDCardInfoInternal) (command_idx : Z)
  (respone_type : SDResponseTypes) (flags : Z) : MS SDCommandResponse :=
  rassert (command_idx <? 64) ;!
  sending_command_valid sd_card ;!
  let command := command_word command_idx respone_type flags in
  sending_command_valid sd_card ;!
  reg_write sd_card 16 0xE command ;!
  check_no_errors sd_card ;!
  let! done := poll MAX_ITERATIONS
    (let! command_done := reg_read sd_card 16 0x30 in ret (Z.land command_done 1 =? 1)) in
  if done then
    reg_write sd_card 16 0x30 1 ;!
    determine_sd_card_response sd_card respone_type
  else
    check_no_errors sd_card ;!
    err SDTimeout.

Definition software_reset_sd_card (sd_card : SDCardInfoInternal) : MS unit :=
  reg_write sd_card 8 0x2f 1 ;!
  let! finished := poll MAX_ITERATIONS
    (let! reset_taken := reg_read sd_card 8 0x2f in ret (Z.land reset_taken 1 =? 0)) in
  if finished then ret tt else err SDTimeout.

Definition enable_sd_card_interrupts (sd_card : SDCardInfoInternal) : MS unit :=
  reg_write sd_card 16 0x34 0x1FF ;!
  sending_command_valid sd_card ;!
  reg_write sd_card 16 0x36 0x0FB ;!
  sending_command_valid sd_card ;!
  reg_write sd_card 16 0x38 0x1FF ;!
  sending_command_valid sd_card ;!
  reg_write sd_card 16 0x3A 0x0FB ;!
  sending_command_valid sd_card.

Definition power_on_sd_card (sd_card : SDCardInfoInternal) : MS unit :=
  reg_write sd_card 8 0x29 0 ;!
  let! power_control :=
    if intersects Voltage3_3Support (capabilities sd_card) then ret (Z.shiftl 7 1)
    else if intersects Voltage1_8Support (capabilities sd_card) then ret (Z.shiftl 5 1)
    else if intersects Voltage3_0Support (capabilities sd_card) then ret (Z.shiftl 6 1)
    else err VoltageUnableToBeSet in
  reg_write sd_card 8 0x29 power_control ;!
  reg_write sd_card 8 0x29 (Z.lor power_control 1).

Definition set_sd_clock (sd_card : SDCardInfoInternal) : MS unit :=
  let! clock_ctrl_reg := reg_read sd_card 16 0x2c in
  let clock_ctrl_reg := Z.land clock_ctrl_reg 0xFFFE in
  reg_write sd_card 16 0x2c clock_ctrl_reg ;!
  let clock_ctrl_reg := Z.lor (Z.land clock_ctrl_reg 0x00FF) (Z.shiftl 0x80 8) in
  reg_write sd_card 16 0x2c clock_ctrl_reg ;!
  let clock_ctrl_reg := Z.lor clock_ctrl_reg 1 in
  reg_write sd_card 16 0x2c clock_ctrl_reg ;!
  let! finished := poll MAX_ITERATIONS
    (let! clock_taken := reg_read sd_card 16 0x2c in ret (negb (Z.land clock_taken 2 =? 0))) in
  if negb finished then err SDTimeout
  else reg_write sd_card 16 0x2c (Z.lor clock_ctrl_reg (Z.shiftl 3 1)).

Definition enable_timeouts (sd_card : SDCardInfoInternal) : MS unit :=
  reg_write sd_card 8 0x2e 14 ;!
  sending_command_valid sd_card.

Definition get_full_sd_card_info (sd_card : SDCardInfoInternal) (rca csd : Z) : MS SDCardInfo :=
  let! csd_structre := chk 32 (Z.shiftr csd 126) in
  rassert (csd_structre =? 1) ;!
  let! c_size := chk 32 (Z.land (Z.shiftr csd 48) 0xFFFFFF) in
  let! total_blocks := chk 32 (c_size + 1) in
  ret (mkSDCardInfo sd_card SD_BLOCK_SIZE total_blocks rca).

(** An argument register write followed by a command. *)
Definition send_with_argument (sd_card : SDCardInfoInternal) (argument command_idx : Z)
  (respone_type : SDResponseTypes) : MS SDCommandResponse :=
  reg_write sd_card 32 0x8 argument ;!
  send_sd_command sd_card command_idx respone_type 0.

Definition send_sd_reset_commands (sd_card : SDCardInfoInternal) : MS SDCardInfo :=
  send_with_argument sd_card 0 0 R0 ;!
  send_with_argument sd_card 0x1aa 8 R7 ;!
  send_with_argument sd_card 0 55 R1 ;!
  let! acmd_response_enum := send_sd_command sd_card 41 R3 0 in
  match acmd_response_enum with
  | Response32Bits acmd_response =>
      send_with_argument sd_card 0 0 R0 ;!
      send_with_argument sd_card 0x1aa 8 R7 ;!
      send_with_argument sd_card 0 55 R1 ;!
      let new_acmd_response := Z.lor (Z.land acmd_response 0xFF) (Z.shiftl 1 22) in
      send_with_argument sd_card new_acmd_response 41 R3 ;!
      ret tt
  | _ => panic
  end ;!
  send_with_argument sd_card 0 2 R2 ;!
  let! rca_enum := send_with_argument sd_card 0 3 R6 in
  match rca_enum with
  | Response32Bits rca =>
      let! csd_enum := send_with_argument sd_card rca 9 R2 in
      let! result :=
        match csd_enum with
        | Response128Bits csd =>
            let! actual_info := get_full_sd_card_info sd_card rca csd in ret (Some actual_info)
        | _ => ret None
        end in
      send_with_argument sd_card rca 13 R1 ;!
      send_with_argument sd_card rca 7 R1b ;!
      ok_or result GenericSDError
  | _ => panic
  end.

Definition reset_sd_card (sd_card : SDCardInfoInternal) : MS SDCardInfo :=
  software_reset_sd_card sd_card ;!
  enable_sd_card_interrupts sd_card ;!
  power_on_sd_card sd_card ;!
  set_sd_clock sd_card ;!
  enable_timeouts sd_card ;!
  send_sd_reset_commands sd_card.

Definition read_sd_card (sd_card : SDCardInfo) (block : Z) : MS (list Z) :=
  let internal_info := internal_info sd_card in
  reg_write internal_info 16 0x4 0x200 ;!
  reg_write internal_info 16 0x6 1 ;!
  sending_command_valid internal_info ;!
  let! argument := chk 32 (block * SD_BLOCK_SIZE) in
  reg_write internal_info 32 0x8 argument ;!
  reg_write internal_info 16 0xC ReadToCard ;!
  send_sd_command internal_info 17 R1 DataPresentSelect ;!
  let! finished := poll MAX_ITERATIONS
    (let! present_state := reg_read internal_info 32 0x24 in
     ret (intersects BufferReadEnable present_state)) in
  if negb finished then err SDTimeout else
  let! data := for_fold (range 0 128) [] (fun data _ =>
    let! item := port_read_word internal_info 0x20 in ret (data ++ [item])) in
  ret (concat data).

Definition write_sd_card (sd_card : SDCardInfo) (block : Z) (data : list Z) : MS unit :=
  let internal_info := internal_info sd_card in
  reg_write internal_info 16 0x4 0x200 ;!
  reg_write internal_info 16 0x6 1 ;!
  sending_command_valid internal_info ;!
  let! argument := chk 32 (block * SD_BLOCK_SIZE) in
  reg_write internal_info 32 0x8 argument ;!
  reg_write internal_info 16 0xC 0 ;!
  send_sd_command internal_info 24 R1 DataPresentSelect ;!
  let! finished := poll MAX_ITERATIONS
    (let! present_state := reg_read internal_info 32 0x24 in
     ret (intersects BufferWriteEnable present_state)) in
  if negb finished then
    let! _ := reg_read internal_info 32 0x24 in err SDTimeout
  else for_do (words 128 data) (fun item => port_write_word internal_info 0x20 item).
End driver.

(** ** The card as a block device *)

(** [SDCardInfo] with the machine its registers belong to. *)
Record SdDevice (W : Type) := mkSd { sd_info : SDCardInfo; sd_machine : W }.
Arguments mkSd {W}.
Arguments sd_info {W}.
Arguments sd_machine {W}.

Section block_device.
Context {W : Type} `{Mmio W}.

Definition on_card {A} (m : SDCardInfo -> M W SDCardError A) : M (SdDevice W) FsError A :=
  let! self := get_state in
  map_err (fun _ => IOError)
    (zoom sd_machine (fun w (d : SdDevice W) => mkSd (sd_info d) w) (m (sd_info self))).

Definition sd_read_block (block_num : Z) (buf : list Z) : M (SdDevice W) FsError (list Z) :=
  let! self := get_state in
  if sd_total_blocks (sd_info self) <? block_num then err IOError else
  let! block := chk 32 block_num in
  let! data := on_card (fun info => read_sd_card info block) in
  rassert (len buf =? len data) ;!
  ret data.

Definition sd_write_block (block_num : Z) (buf : list Z) : M (SdDevice W) FsError unit :=
  let! self := get_state in
  if sd_total_blocks (sd_info self) <? block_num then err IOError else
  rassert (512 =? len buf) ;!
  let! block := chk 32 block_num in
  on_card (fun info => write_sd_card info block buf).

#[export] Instance SdDevice_BlockDevice : BlockDevice (SdDevice W) := {
  read_block := sd_read_block;
  write_block := sd_write_block;
  block_size _ := SD_BLOCK_SIZE;
  total_blocks d := sd_total_blocks (sd_info d)
}.
End block_device.

(** ** Finding and mapping the controller *)

(** What [OffsetPageTable::translate] says of an address, and the size of the
    page it is mapped by. *)
Inductive PageSize := Size4KiB | Size2MiB | Size1GiB.
Definition page_bytes (s : PageSize) : Z :=
  match s with Size4KiB => 2 ^ 12 | Size2MiB => 2 ^ 21 | Size1GiB => 2 ^ 30 end.
Inductive TranslateResult :=
| TMapped (frame : PageSize) (flags : Z)
| InvalidFrameAddress
| NotMapped.

(** The parts of [OffsetPageTable] that only the driver uses: the offset of the
    direct map, translation with huge pages, and [update_flags] of the page of
    a size that contains an address. *)
Class OffsetPageTable (T : Type) := {
  NO_CACHE : Z;
  phys_offset : T -> Z;
  translate_address : T -> Z -> TranslateResult;
  update_flags_sized : PageSize -> Z -> Z -> M T unit unit
}.

Section setup.
Context {P F G T W : Type} `{Pages P} `{PhysFrames F} `{PageTableFlags} `{FrameStore F G}.
Context `{Mapper P F G T} `{Machine W} `{OffsetPageTable T} `{Ports W} `{Mmio W}.

(** The statics and page tables: [SD_CARD] beside the memory system. *)
Abbreviation state := (option SDCardInfo * (T * Vm G W))%type.
Abbreviation MD := (M state SDCardError).

Definition in_machine {A} (m : M W SDCardError A) : MD A :=
  zoom (fun s : state => machine (vm_apic s.2.2))
       (fun w s => (s.1, (s.2.1, with_apic s.2.2 (with_machine (vm_apic s.2.2) w)))) m.
Definition in_vm {A} (m : M (T * Vm G W) no_error A) : MD A :=
  unwrap (zoom snd (fun v (s : state) => (s.1, v)) m).

(** [update_flags] of the page that contains [addr], and its [flush]. *)
Definition make_uncached (size : PageSize) (addr flags : Z) : MD unit :=
  map_err (fun _ => GenericSDError)
    (zoom (fun s : state => s.2.1) (fun t s => (s.1, (t, s.2.2)))
      (update_flags_sized size addr (Z.lor (Z.lor flags NO_CACHE) WRITABLE))) ;!
  in_vm (in_apic (flush_page (addr - addr mod page_bytes size))).

Definition initalize_sd_card (sd_card : DeviceInfo) : MD unit :=
  let cmd := Z.ldiff (command sd_card) MEMORY_SPACE in
  in_machine (write_pci_command (bus sd_card) (device sd_card) 0 cmd) ;!
  let! base := in_machine (read_config (bus sd_card) (device sd_card) 0 0x10) in
  let bar_address := Z.land base 0xFFFFFF00 in
  let! s := get_state in
  let! offset_bar := chk 64 (bar_address + phys_offset s.2.1) in
  let! va := expect (VirtAddr_new offset_bar) in
  let! offset_bar :=
    match translate_address s.2.1 va with
    | TMapped size flags => make_uncached size va flags ;! ret offset_bar
    | InvalidFrameAddress => panic
    | NotMapped =>
        let! bar_frame := expect (containing_address bar_address) in
        in_vm (map_kernel_frame bar_frame (Z.lor (Z.lor PRESENT NO_CACHE) WRITABLE))
    end in
  in_machine (write_pci_command (bus sd_card) (device sd_card) 0
    (Z.lor (Z.lor (command sd_card) MEMORY_SPACE) BUS_MASTER)) ;!
  let! capablities := in_machine (reg_read (mkInternal 0 offset_bar) 64 0x40) in
  let! new_info := in_machine (reset_sd_card (mkInternal capablities offset_bar)) in
  let! s := get_state in
  put_state (Some new_info, s.2).

(** [devices::init]: the frame buffer of the boot loader (its address and
    pitch), the walk of the bus, the card. *)
Definition draw_test_pattern (framebuffer : Z * Z) : MD unit :=
  for_do (range 0 100) (fun i =>
    let! row := chk 64 (i * framebuffer.2) in
    let! col := chk 64 (i * 4) in
    let! pixel_offset := chk 64 (row + col) in
    let! w := in_machine get_state in
    in_machine (put_state (mmio_write 32 (framebuffer.1 + pixel_offset) 0xFFFFFFFF w))).

Definition init (framebuffer : option (Z * Z)) (cpu_id : Z) : MD unit :=
  if cpu_id =? 0 then
    match framebuffer with
    | Some fb => draw_test_pattern fb
    | None => ret tt
    end ;!
    let! devices := in_machine walk_pci_bus in
    let! sd_card_device := expect (find_sd_card devices) in
    unwrap (initalize_sd_card sd_card_device)
  else ret tt.
End setup.

(** ** Whatever the hardware does

    No assumption on the registers but that a word of the data port has four
    bytes: every wait of the driver is bounded, and every failure is a value. *)

Class MmioWords (W : Type) `{Mmio W} := {
  word_bytes a w : length (fst (mmio_read_bytes a w)) = 4%nat
}.

Section any_hardware.
Context {W : Type} `{MmioWords W}.

(** [m] returns an error, or a value that satisfies [Q]; it does not panic. *)
Definition settles {E A} (m : M W E A) (Q : A -> Prop) : Prop :=
  forall w, match fst (m w) with Ok a => Q a | Err _ => True | _ => False end.

Lemma settles_bind {E A B} (m : M W E A) (k : A -> M W E B) Q :
  settles m (fun a => settles (k a) Q) -> settles (bind m k) Q.
Proof. intros Hm w. specialize (Hm w). unfold bind. destruct (m w) as [[a| | |] w']; [apply Hm|done..]. Qed.
Lemma settles_ret {E A} (a : A) (Q : A -> Prop) : Q a -> settles (E:=E) (ret a) Q.
Proof. by intros ? w. Qed.
Lemma settles_err {E A} (e : E) (Q : A -> Prop) : settles (err e) Q.
Proof. by intros w. Qed.
Lemma settles_assert {E A} b (k : unit -> M W E A) Q : b = true -> settles (k tt) Q -> settles (bind (rassert b) k) Q.
Proof. intros Hb Hk w. rewrite bind_assert by done. apply Hk. Qed.
Lemma settles_chk {E A} n x (k : Z -> M W E A) Q : 0 <= x < 2 ^ n -> settles (k x) Q -> settles (bind (chk n x) k) Q.
Proof. intros Hx Hk w. rewrite bind_chk by done. apply Hk. Qed.
Lemma settles_mono {E A} (m : M W E A) (Q Q' : A -> Prop) :
  settles m Q -> (forall a, Q a -> Q' a) -> settles m Q'.
Proof. intros Hm HQ w. specialize (Hm w). destruct (m w) as [[]]; cbn in *; auto. Qed.
Lemma settles_poll {E} n (m : M W E bool) : settles m (fun _ => True) -> settles (poll n m) (fun _ => True).
Proof.
  intros Hm. induction n; cbn; [by apply settles_ret|]. apply settles_bind.
  eapply settles_mono; [exact Hm|]. intros [] _; [by apply settles_ret|done].
Qed.

Variable i : SDCardInfoInternal.
Hypothesis Hi : 0 <= base_address_register i /\ base_address_register i + 256 <= 2 ^ 64.

Lemma settles_reg_read n o : 0 <= o < 256 -> settles (reg_read (W:=W) i n o) (fun _ => True).
Proof.
  intros Ho w. unfold reg_read. rewrite bind_chk by lia. cbn. by destruct (mmio_read _ _ _).
Qed.
Lemma settles_reg_write n o v : 0 <= o < 256 -> settles (reg_write (W:=W) i n o v) (fun _ => True).
Proof. intros Ho w. unfold reg_write. by rewrite bind_chk by lia. Qed.
Lemma settles_port_read o : 0 <= o < 256 -> settles (port_read_word (W:=W) i o) (fun v => length v = 4%nat).
Proof.
  intros Ho w. unfold port_read_word. rewrite bind_chk by lia. cbn.
  pose proof (word_bytes (base_address_register i + o) w). by destruct (mmio_read_bytes _ _).
Qed.
Lemma settles_port_write o v : 0 <= o < 256 -> settles (port_write_word (W:=W) i o v) (fun _ => True).
Proof. intros Ho w. unfold port_write_word. by rewrite bind_chk by lia. Qed.

Ltac settle :=
  cbv zeta;
  lazymatch goal with
  | |- settles (bind _ _) _ => apply settles_bind
  | |- settles (ret _) _ => apply settles_ret
  | |- settles (err _) _ => apply settles_err
  | |- settles (poll _ _) (fun _ => True) => apply settles_poll
  | |- settles (poll _ _) _ => eapply settles_mono; [apply settles_poll|intros ? _]
  | |- settles (reg_read _ _ _) _ => eapply settles_mono; [apply settles_reg_read; lia|intros ? _]
  | |- settles (reg_write _ _ _ _) _ => eapply settles_mono; [apply settles_reg_write; lia|intros ? _]
  | |- settles (if ?b then _ else _) _ => destruct b
  | |- settles (match ?x with _ => _ end) _ => destruct x
  | |- True => exact I
  end.

Lemma settles_check : settles (check_no_errors (W:=W) i) (fun _ => True).
Proof. unfold check_no_errors. repeat settle. Qed.
Lemma settles_valid : settles (sending_command_valid (W:=W) i) (fun _ => True).
Proof.
  unfold sending_command_valid. settle. eapply settles_mono; [apply settles_check|intros ? _]. repeat settle.
Qed.
Lemma settles_send c t f : c < 64 -> settles (send_sd_command (W:=W) i c t f) (fun _ => True).
Proof.
  intros Hc. apply settles_assert; [lia|]. do 2 (settle; eapply settles_mono; [apply settles_valid|intros ? _]). do 2 settle.
  settle. eapply settles_mono; [apply settles_check|intros ? _]. settle. settle; [repeat settle|].
  settle; [unfold determine_sd_card_response; repeat settle|].
  settle. eapply settles_mono; [apply settles_check|intros ? _]. settle.
Qed.

(** What precedes the data of a transfer. *)
Lemma settles_setup {A} b mode c (k : M W SDCardError A) Q :
  0 <= b -> b * 512 < 2 ^ 32 -> c < 64 -> settles k Q ->
  settles (reg_write i 16 0x4 0x200 ;! reg_write i 16 0x6 1 ;! sending_command_valid i ;!
    let! argument := chk 32 (b * SD_BLOCK_SIZE) in
    reg_write i 32 0x8 argument ;! reg_write i 16 0xC mode ;!
    send_sd_command i c R1 DataPresentSelect ;! k) Q.
Proof.
  intros Hb Hb' Hc Hk. do 5 settle. eapply settles_mono; [apply settles_valid|intros ? _].
  apply settles_chk; [unfold SD_BLOCK_SIZE; lia|].
  do 5 settle. eapply settles_mono; [apply settles_send; lia|]. done.
Qed.

Lemma settles_words l acc :
  settles (for_fold l acc (fun data (_ : Z) => let! item := port_read_word (W:=W) i 0x20 in ret (data ++ [item])))
    (fun data => length (concat data) = length (concat acc) + 4 * length l)%nat.
Proof.
  revert acc. induction l as [|x l IH]; intros acc; cbn [for_fold]; [apply settles_ret; cbn; lia|].
  do 2 settle. eapply settles_mono; [apply settles_port_read; lia|]. intros v Hv. settle.
  eapply settles_mono; [apply IH|]. cbn beta. intros data Hd. rewrite Hd.
  rewrite concat_app, length_app. cbn [concat length]. rewrite app_nil_r. cbn beta in Hv. lia.
Qed.

Lemma settles_read info b : internal_info info = i -> 0 <= b -> b * 512 < 2 ^ 32 ->
  settles (read_sd_card (W:=W) info b) (fun data => length data = 512%nat).
Proof.
  intros Hin Hb Hb'. unfold read_sd_card. rewrite Hin. cbv zeta. apply settles_setup; [done..|].
  settle. settle; [repeat settle|]. settle; [settle|]. settle.
  eapply settles_mono; [apply settles_words|]. cbn beta. intros data Hd. settle. by rewrite Hd, length_range.
Qed.
Lemma settles_write info b data : internal_info info = i -> 0 <= b -> b * 512 < 2 ^ 32 ->
  settles (write_sd_card (W:=W) info b data) (fun _ => True).
Proof.
  intros Hin Hb Hb'. unfold write_sd_card. rewrite Hin. cbv zeta. apply settles_setup; [done..|].
  settle. settle; [repeat settle|]. settle; [repeat settle|].
  induction (words 128 data); cbn [for_do]; [by settle|]. settle.
  eapply settles_mono; [apply settles_port_write; lia|intros ? _]. done.
Qed.
End any_hardware.

Lemma on_card_settles {W} `{Mmio W} {A} (m : SDCardInfo -> M W SDCardError A) (Q : A -> Prop) d :
  settles (m (sd_info d)) Q ->
  (exists a w', on_card m d = (Ok a, mkSd (sd_info d) w') /\ Q a) \/
  (exists w', on_card m d = (Err IOError, mkSd (sd_info d) w')).
Proof.
  intros Hm. specialize (Hm (sd_machine d)). unfold on_card, map_err, attempt, zoom, bind, get_state.
  destruct (m (sd_info d) (sd_machine d)) as [[a|e| |] w']; cbn in *; [left|right|done..]; by repeat eexists.
Qed.

(** C37: Whatever the controller and the card do, a block access returns: with
    512 bytes, or done, or with [IOError].  It does not panic and does not
    wait for ever, for any block number (those above the size are refused), as
    long as the size the card reported is below [2^23] blocks, so that the byte
    address of a block fits the 32-bit argument register. *)
Theorem sd_access_returns {W : Type} `{MmioWords W} (d : SdDevice W) (n : Z) (buf : list Z) :
  let base := base_address_register (internal_info (sd_info d)) in
  0 <= base -> base + 256 <= 2 ^ 64 -> 0 <= n -> total_blocks d < 2 ^ 23 -> len buf = 512 ->
  (exists d', (exists data, read_block n buf d = (Ok data, d') /\ len data = 512) \/
              read_block n buf d = (Err IOError, d')) /\
  (exists d', write_block n buf d = (Ok tt, d') \/ write_block n buf d = (Err IOError, d')).
Proof.
  intros base Hb0 Hb1 Hn Htb Hbuf. cbn [read_block write_block total_blocks SdDevice_BlockDevice] in Htb |- *. unfold sd_read_block, sd_write_block. rewrite !bind_get.
  destruct (sd_total_blocks (sd_info d) <? n) eqn:Hlt; [split; exists d; by right|].
  rewrite (bind_assert (512 =? len buf)) by lia. rewrite !bind_chk by lia. split.
  - destruct (on_card_settles (fun info => read_sd_card info n) (fun data => length data = 512%nat) d)
      as [(data & w' & E1 & Hl)|(w' & E1)].
    + apply (settles_read _ ltac:(done)); [done|done|lia].
    + exists (mkSd (sd_info d) w'). left. exists data. rewrite (bind_ok _ _ _ _ _ E1).
      rewrite bind_assert by (unfold len in *; lia). split; [done|]. unfold len. lia.
    + exists (mkSd (sd_info d) w'). right. by rewrite (bind_err _ _ _ _ _ E1).
  - destruct (on_card_settles (fun info => write_sd_card info n buf) (fun _ => True) d)
      as [(u & w' & E1 & _)|(w' & E1)].
    + apply (settles_write _ ltac:(done)); [done|done|lia].
    + exists (mkSd (sd_info d) w'). left. by destruct u.
    + exists (mkSd (sd_info d) w'). by right.
Qed.

Lemma land_bit p k : 0 <= k -> Z.land (Z.shiftl 1 k) p = if Z.testbit p k then Z.shiftl 1 k else 0.
Proof.
  intros Hk. apply Z.bits_inj'. intros n Hn. rewrite Z.land_spec, Z.shiftl_1_l, Z.pow2_bits_eqb by lia.
  destruct (Z.eqb_spec k n) as [->|Hne].
  - destruct (Z.testbit p n); [by rewrite Z.pow2_bits_true|by rewrite Z.bits_0].
  - destruct (Z.testbit p k); [by rewrite Z.pow2_bits_false|by rewrite Z.bits_0].
Qed.

Lemma contains_bit p k : 0 <= k -> contains (Z.shiftl 1 k) p = bool_decide (p = 0 \/ p = 2 ^ k).
Proof.
  intros Hk. unfold contains. rewrite land_bit, Z.shiftl_1_l by lia.
  destruct (Z.testbit p k) eqn:Hb; case_bool_decide as Hd; try lia.
  - destruct Hd as [->|]; [by rewrite Z.bits_0 in Hb|lia].
  - destruct Hd as [->| ->]; [lia|by rewrite Z.pow2_bits_true in Hb].
Qed.

(** What [sending_command_valid] decides, for every value of the error and
    present-state registers.  The test for a command that was not issued is
    the wrong way round: it holds when the present state is nothing but bit 27,
    or is zero, so with a card inserted a command that was not issued is not
    reported, and a controller that reads as zero is. *)
Theorem sending_command_valid_cases {W : Type} `{Mmio W} (i : SDCardInfoInternal) (w w1 w2 : W) (e p : Z) :
  let base := base_address_register i in
  0 <= base -> base + 256 <= 2 ^ 64 -> 0 <= p < 2 ^ 32 ->
  mmio_read 16 (base + 0x32) w = (e, w1) -> mmio_read 32 (base + 0x24) w1 = (p, w2) ->
  sending_command_valid i w =
    if decide (e <> 0) then (Err GenericSDError, w1)
    else if decide (p mod 4 <> 0) then (Err CommandInhibited, w2)
    else if decide (p = 0 \/ p = 2 ^ 27) then (Err CommandStoppedDueToError, w2)
    else (Ok tt, w2).
Proof.
  intros base Hb0 Hb1 Hp E1 E2. unfold sending_command_valid.
  assert (Hr1 : reg_read i 16 0x32 w = (Ok e, w1)).
  { unfold reg_read. rewrite bind_chk by lia. unfold bind, get_state. fold base. by rewrite E1. }
  assert (Hr2 : reg_read i 32 0x24 w1 = (Ok p, w2)).
  { unfold reg_read. rewrite bind_chk by lia. unfold bind, get_state. fold base. by rewrite E2. }
  unfold check_no_errors. rewrite bind_assoc, (bind_ok _ _ _ _ _ Hr1).
  destruct (decide (e <> 0)); [by replace (e =? 0) with false by lia|].
  replace (e =? 0) with true by lia. cbn [negb]. rewrite bind_ret, (bind_ok _ _ _ _ _ Hr2).
  unfold intersects. cbv zeta.
  change (Z.lor CommandInhibitCmd CommandInhibitData) with (Z.ones 2). rewrite (Z.land_comm (Z.ones 2)), Z.land_ones by lia.
  change (2 ^ 2) with 4. destruct (decide (p mod 4 <> 0)); [by replace (p mod 4 =? 0) with false by lia|].
  replace (p mod 4 =? 0) with true by lia. cbn [negb].
  unfold CommandNotIssuedError. rewrite contains_bit by lia. by case_bool_decide; case_decide.
Qed.

(** A controller whose registers never change: a card is inserted and the last
    command was not issued. *)
Module Stuck.
#[export] Instance mmio : Mmio unit := {
  mmio_read width a w := (if a =? 0x1024 then 2 ^ 27 + 2 ^ 16 else 0, w);
  mmio_write _ _ _ w := w;
  mmio_read_bytes _ w := ([0; 0; 0; 0], w);
  mmio_write_bytes _ _ w := w
}.
#[export] Instance mmio_words : MmioWords unit := { word_bytes _ _ := eq_refl }.
Definition internal : SDCardInfoInternal := mkInternal 0 0x1000.
Definition device : SdDevice unit := mkSd (mkSDCardInfo internal 512 4 0) tt.
End Stuck.

Lemma sd_access_returns_witness :
  exists d', (exists data, read_block (BlockDevice:=SdDevice_BlockDevice (H:=Stuck.mmio)) 3 (vec 0 512) Stuck.device = (Ok data, d') /\ len data = 512) \/
             read_block (BlockDevice:=SdDevice_BlockDevice (H:=Stuck.mmio)) 3 (vec 0 512) Stuck.device = (Err IOError, d').
Proof.
  apply (sd_access_returns (H0:=Stuck.mmio_words) Stuck.device 3 (vec 0 512)); cbn; lia || reflexivity.
Defined.

Lemma sending_command_valid_cases_witness :
  sending_command_valid (H:=Stuck.mmio) Stuck.internal tt = (Ok tt, tt).
Proof.
  rewrite (sending_command_valid_cases (H:=Stuck.mmio) Stuck.internal tt tt tt 0 (2 ^ 27 + 2 ^ 16));
    cbn; lia || reflexivity.
Defined.
