(* ===== verification/SdHost.v ===== *)
(** * The SD card against its host controller

    [Host] is a host controller with a card, as far as the driver of [SdCard.v]
    can tell them: the registers it uses, the phases of a transfer, the
    selection of the card, and delays counted in polls.  A machine is such a
    controller ([SdHost]) when its register accesses simulate those of [Host].
    The driver is run on [Host] and the results are carried over by the
    simulation: the card, once reset, is a lawful block device.

    Two assumptions of the driver are part of [Host] because the driver relies
    on them: the card takes byte addresses, and it has programmed a written
    block by the time the last word of it is transferred. *)

From S2P Require Import Prelude BlockDev SdCard.

(** ** The controller *)

Inductive phase :=
| Idle
| Reading (ws : list (list Z))
| Writing (n : Z) (got : list Z).

(** What does not change: the capabilities, the responses of the card to a
    command and argument (128 bits, as the response registers show them), and
    how many polls each operation takes. *)
Record Card := mkCard {
  caps : Z;
  respond : Z -> Z -> Z;
  reset_delay : nat;
  clock_delay : nat;
  cmd_delay : nat;
  buf_delay : nat
}.

(** [waits]: polls until the reset, the clock or the buffer is ready;
    [pending]: polls until the command in progress completes. *)
Record Host := mkHost {
  card : Card;
  blocks : list (list Z);
  regs : gmap Z Z;
  waits : nat;
  pending : option nat;
  resp : Z;
  ph : phase;
  selected : bool
}.

Definition reg (o : Z) (h : Host) : Z := default 0 (regs h !! o).
Definition set_reg (o v : Z) (h : Host) : Host :=
  mkHost (card h) (blocks h) (<[o := v]> (regs h)) (waits h) (pending h) (resp h) (ph h) (selected h).
Definition set_waits (n : nat) (h : Host) : Host :=
  mkHost (card h) (blocks h) (regs h) n (pending h) (resp h) (ph h) (selected h).
Definition set_pending (p : option nat) (h : Host) : Host :=
  mkHost (card h) (blocks h) (regs h) (waits h) p (resp h) (ph h) (selected h).
Definition set_phase (p : phase) (h : Host) : Host :=
  mkHost (card h) (blocks h) (regs h) (waits h) (pending h) (resp h) p (selected h).
Definition set_blocks (b : list (list Z)) (h : Host) : Host :=
  mkHost (card h) b (regs h) (waits h) (pending h) (resp h) (ph h) (selected h).

Definition tick (h : Host) : Host := set_waits (pred (waits h)) h.

(** Present state: a card is inserted, stable and writable and its lines are
    high; inhibited while a command or a transfer is in progress. *)
Definition CARD_PRESENT : Z := 0x01FF0000.
Definition present (h : Host) : Z :=
  Z.lor CARD_PRESENT
    (Z.lor (match pending h with None => 0 | Some _ => 1 end)
       match ph h, waits h with
       | Idle, _ => 0
       | Reading _, O => Z.lor 2 (2 ^ 11)
       | Writing _ _, O => Z.lor 2 (2 ^ 10)
       | _, _ => 2
       end).

Definition host_read (off : Z) (h : Host) : Z * Host :=
  if off =? 0x24 then (present h, tick h)
  else if off =? 0x2f then (match waits h with O => 0 | _ => 1 end, tick h)
  else if off =? 0x2c then
    (if Z.testbit (reg 0x2c h) 0
     then match waits h with O => Z.lor (reg 0x2c h) 2 | _ => reg 0x2c h end
     else reg 0x2c h, tick h)
  else if off =? 0x30 then
    match pending h with
    | Some O => (1, h)
    | Some (S n) => (0, set_pending (Some n) h)
    | None => (0, h)
    end
  else if off =? 0x32 then (0, h)
  else if off =? 0x40 then (caps (card h), h)
  else if (0x10 <=? off) && (off <? 0x20) then ((resp h / 2 ^ (8 * (off - 0x10))) mod 2 ^ 32, h)
  else (reg off h, h).

(** A card answers when it has power and a clock. *)
Definition powered (h : Host) : bool := Z.testbit (reg 0x29 h) 0 && Z.testbit (reg 0x2c h) 2.

(** The transfer a command starts: one block of 512 bytes, in the direction the
    transfer mode says, at the byte address in the argument register. *)
Definition transfer (v : Z) (h : Host) : phase :=
  let arg := reg 0x8 h in
  if selected h && Z.testbit v 5 && (reg 0x4 h =? 512) && (reg 0x6 h =? 1) && (arg mod 512 =? 0) then
    if (v / 256 =? 17) && Z.testbit (reg 0xC h) 4 then
      match idx (blocks h) (arg / 512) with Some b => Reading (words 128 b) | None => Idle end
    else if (v / 256 =? 24) && negb (Z.testbit (reg 0xC h) 4) && (arg / 512 <? len (blocks h)) then
      Writing (arg / 512) []
    else Idle
  else Idle.

(** Command 7 selects the card whose address it carries; command 0 resets it. *)
Definition select (v : Z) (h : Host) : bool :=
  if v / 256 =? 0 then false
  else if v / 256 =? 7 then reg 0x8 h / 2 ^ 16 =? (respond (card h) 3 0 mod 2 ^ 32) / 2 ^ 16
  else selected h.

Definition issue (v : Z) (h : Host) : Host :=
  if powered h then
    mkHost (card h) (blocks h) (regs h)
      (match transfer v h with Idle => waits h | _ => buf_delay (card h) end)
      (Some (cmd_delay (card h))) (respond (card h) (v / 256) (reg 0x8 h)) (transfer v h) (select v h)
  else h.

Definition host_write (off v : Z) (h : Host) : Host :=
  if off =? 0xE then issue v h
  else if off =? 0x2f then
    if Z.testbit v 0
    then mkHost (card h) (blocks h) ∅ (reset_delay (card h)) None 0 Idle false
    else h
  else if off =? 0x2c then
    set_reg off v
      (if Z.testbit v 0 && negb (Z.testbit (reg 0x2c h) 0) then set_waits (clock_delay (card h)) h else h)
  else if off =? 0x30 then
    if Z.testbit v 0 then set_pending None h else h
  else set_reg off v h.

(** The data port: the next word of the block while the buffer is ready. *)
Definition port_read (h : Host) : list Z * Host :=
  match ph h, waits h with
  | Reading (w :: ws), O => (w, set_phase (match ws with [] => Idle | _ => Reading ws end) h)
  | _, _ => ([0; 0; 0; 0], h)
  end.
Definition port_write (w : list Z) (h : Host) : Host :=
  match ph h, waits h with
  | Writing n got, O =>
      if len (got ++ w) =? 512 then set_phase Idle (set_blocks (upd (blocks h) n (got ++ w)) h)
      else set_phase (Writing n (got ++ w)) h
  | _, _ => h
  end.

Definition host_read_bytes (off : Z) (h : Host) : list Z * Host :=
  if off =? 0x20 then port_read h else ([0; 0; 0; 0], h).
Definition host_write_bytes (off : Z) (v : list Z) (h : Host) : Host :=
  if off =? 0x20 then port_write v h else h.

(** The registers start at [base]. *)
Definition host_mmio (base : Z) : Mmio Host := {|
  mmio_read _ a h := host_read (a - base) h;
  mmio_write _ a v h := host_write (a - base) v h;
  mmio_read_bytes a h := host_read_bytes (a - base) h;
  mmio_write_bytes a v h := host_write_bytes (a - base) v h
|}.

(** A machine that has such a controller at [base]. *)
Class SdHost (W : Type) (base : Z) `{Mmio W} := {
  host : W -> Host;
  read_law width off w : 0 <= off < 256 ->
    exists w', mmio_read width (base + off) w = (fst (host_read off (host w)), w') /\
               host w' = snd (host_read off (host w));
  write_law width off v w : 0 <= off < 256 ->
    host (mmio_write width (base + off) v w) = host_write off v (host w);
  read_bytes_law off w : 0 <= off < 256 ->
    exists w', mmio_read_bytes (base + off) w = (fst (host_read_bytes off (host w)), w') /\
               host w' = snd (host_read_bytes off (host w));
  write_bytes_law off v w : 0 <= off < 256 ->
    host (mmio_write_bytes (base + off) v w) = host_write_bytes off v (host w)
}.

(** ** Simulation *)

Section simulation.
Context {W : Type} {base : Z} `{SdHost W base}.

(** [m] on the machine does what [m'] does on the controller it has. *)
Definition runs {E A} (m : M W E A) (m' : M Host E A) : Prop :=
  forall w, exists w', m w = (fst (m' (host w)), w') /\ host w' = snd (m' (host w)).

Lemma runs_bind {E A B} (m : M W E A) m' (k : A -> M W E B) k' :
  runs m m' -> (forall a, runs (k a) (k' a)) -> runs (bind m k) (bind m' k').
Proof.
  intros Hm Hk w. destruct (Hm w) as (w1 & E1 & H1). unfold bind. rewrite E1.
  destruct (m' (host w)) as [[a| | |] h1]; cbn in *; [|by eexists..].
  destruct (Hk a w1) as (w2 & E2 & H2). subst h1. by exists w2.
Qed.
Lemma runs_ret {E A} (a : A) : runs (E:=E) (ret a) (ret a).
Proof. intros w. by exists w. Qed.
Lemma runs_err {E A} (e : E) : runs (A:=A) (err e) (err e).
Proof. intros w. by exists w. Qed.
Lemma runs_panic {E A} : runs (E:=E) (A:=A) panic panic.
Proof. intros w. by exists w. Qed.
Lemma runs_chk {E} n x : runs (E:=E) (chk n x) (chk n x).
Proof. unfold chk. destruct (fits n x); [apply runs_ret|apply runs_panic]. Qed.
Lemma runs_assert {E} b : runs (E:=E) (rassert b) (rassert b).
Proof. destruct b; [apply runs_ret|apply runs_panic]. Qed.
Lemma runs_ok_or {E A} (o : option A) (e : E) : runs (ok_or o e) (ok_or o e).
Proof. destruct o; [apply runs_ret|apply runs_err]. Qed.
Lemma runs_poll {E} n (m : M W E bool) m' : runs m m' -> runs (poll n m) (poll n m').
Proof.
  intros Hm. induction n; cbn; [apply runs_ret|]. apply runs_bind; [done|].
  intros []; [apply runs_ret|done].
Qed.
Lemma runs_for_fold {E I A} (l : list I) (a : A) (k : A -> I -> M W E A) k' :
  (forall a i, runs (k a i) (k' a i)) -> runs (for_fold l a k) (for_fold l a k').
Proof. intros Hk. revert a. induction l; intros x; cbn; [apply runs_ret|]. by apply runs_bind. Qed.
Lemma runs_for_do {E I} (l : list I) (k : I -> M W E unit) k' :
  (forall i, runs (k i) (k' i)) -> runs (for_do l k) (for_do l k').
Proof. intros Hk. induction l; cbn; [apply runs_ret|]. by apply runs_bind. Qed.

(** The driver: each function runs as the same function on the controller. *)
Variable i : SDCardInfoInternal.
Hypothesis Hi : base_address_register i = base.
#[local] Instance HM : Mmio Host := host_mmio base.

Lemma runs_reg_read width off : 0 <= off < 256 ->
  runs (reg_read (W:=W) i width off) (reg_read (W:=Host) i width off).
Proof.
  intros Ho w. unfold reg_read, chk, bind, get_state, put_state, ret. rewrite Hi.
  destruct (fits 64 (base + off)); [|by eexists]. destruct (read_law width off w Ho) as (w' & Er & Hr).
  cbn. rewrite Er, Z.add_simpl_l. destruct (host_read off (host w)). by exists w'.
Qed.
Lemma runs_reg_write width off v : 0 <= off < 256 ->
  runs (reg_write (W:=W) i width off v) (reg_write (W:=Host) i width off v).
Proof.
  intros Ho w. unfold reg_write, chk, bind, get_state, put_state, ret. rewrite Hi.
  destruct (fits 64 (base + off)); [|by eexists]. eexists. split; [done|].
  cbn. by rewrite write_law, Z.add_simpl_l.
Qed.
Lemma runs_port_read off : 0 <= off < 256 ->
  runs (port_read_word (W:=W) i off) (port_read_word (W:=Host) i off).
Proof.
  intros Ho w. unfold port_read_word, chk, bind, get_state, put_state, ret. rewrite Hi.
  destruct (fits 64 (base + off)); [|by eexists]. destruct (read_bytes_law off w Ho) as (w' & Er & Hr).
  cbn. rewrite Er, Z.add_simpl_l. destruct (host_read_bytes off (host w)). by exists w'.
Qed.
Lemma runs_port_write off v : 0 <= off < 256 ->
  runs (port_write_word (W:=W) i off v) (port_write_word (W:=Host) i off v).
Proof.
  intros Ho w. unfold port_write_word, chk, bind, get_state, put_state, ret. rewrite Hi.
  destruct (fits 64 (base + off)); [|by eexists]. eexists. split; [done|].
  cbn. by rewrite write_bytes_law, Z.add_simpl_l.
Qed.

Ltac runs_step :=
  cbv zeta;
  lazymatch goal with
  | |- runs (bind _ _) _ => apply runs_bind; [|intros ?]
  | |- runs (ret _) _ => apply runs_ret
  | |- runs (err _) _ => apply runs_err
  | |- runs panic _ => apply runs_panic
  | |- runs (chk _ _) _ => apply runs_chk
  | |- runs (rassert _) _ => apply runs_assert
  | |- runs (ok_or _ _) _ => apply runs_ok_or
  | |- runs (poll _ _) _ => apply runs_poll
  | |- runs (for_fold _ _ _) _ => apply runs_for_fold; intros ? ?
  | |- runs (for_do _ _) _ => apply runs_for_do; intros ?
  | |- runs (reg_read _ _ _) _ => apply runs_reg_read; lia
  | |- runs (reg_write _ _ _ _) _ => apply runs_reg_write; lia
  | |- runs (port_read_word _ _) _ => apply runs_port_read; lia
  | |- runs (port_write_word _ _ _) _ => apply runs_port_write; lia
  | |- runs (if ?b then _ else _) _ => destruct b
  | |- runs (match ?x with _ => _ end) _ => destruct x
  end.
Ltac runs_auto := repeat runs_step; eauto with runs nocore.
Create HintDb runs.

Lemma runs_check : runs (check_no_errors (W:=W) i) (check_no_errors (W:=Host) i).
Proof. unfold check_no_errors. runs_auto. Qed.
Hint Resolve runs_check : runs.
Lemma runs_valid : runs (sending_command_valid (W:=W) i) (sending_command_valid (W:=Host) i).
Proof. unfold sending_command_valid. runs_auto. Qed.
Hint Resolve runs_valid : runs.
Lemma runs_response t : runs (determine_sd_card_response (W:=W) i t) (determine_sd_card_response (W:=Host) i t).
Proof. unfold determine_sd_card_response. runs_auto. Qed.
Hint Resolve runs_response : runs.
Lemma runs_send c t f : runs (send_sd_command (W:=W) i c t f) (send_sd_command (W:=Host) i c t f).
Proof. unfold send_sd_command. runs_auto. Qed.
Hint Resolve runs_send : runs.
Lemma runs_send_with a c t : runs (send_with_argument (W:=W) i a c t) (send_with_argument (W:=Host) i a c t).
Proof. unfold send_with_argument. runs_auto. Qed.
Hint Resolve runs_send_with : runs.
Lemma runs_info r c : runs (get_full_sd_card_info (W:=W) i r c) (get_full_sd_card_info (W:=Host) i r c).
Proof. unfold get_full_sd_card_info. runs_auto. Qed.
Hint Resolve runs_info : runs.
Lemma runs_reset_commands : runs (send_sd_reset_commands (W:=W) i) (send_sd_reset_commands (W:=Host) i).
Proof. unfold send_sd_reset_commands. runs_auto. Qed.
Hint Resolve runs_reset_commands : runs.
Lemma runs_reset : runs (reset_sd_card (W:=W) i) (reset_sd_card (W:=Host) i).
Proof.
  unfold reset_sd_card, software_reset_sd_card, enable_sd_card_interrupts, power_on_sd_card,
    set_sd_clock, enable_timeouts. runs_auto.
Qed.

Lemma runs_read info b : internal_info info = i ->
  runs (read_sd_card (W:=W) info b) (read_sd_card (W:=Host) info b).
Proof. intros Hin. unfold read_sd_card. rewrite Hin. runs_auto. Qed.
Lemma runs_write info b d : internal_info info = i ->
  runs (write_sd_card (W:=W) info b d) (write_sd_card (W:=Host) info b d).
Proof. intros Hin. unfold write_sd_card. rewrite Hin. runs_auto. Qed.
End simulation.

(** ** The driver on the controller *)

(** A countdown is polled to its end within as many iterations as it counts. *)
Lemma poll_countdown {S E} (f : nat -> S) (m : M S E bool) k n :
  m (f O) = (Ok true, f O) -> (forall j, m (f (Datatypes.S j)) = (Ok false, f j)) -> (k < n)%nat ->
  poll n m (f k) = (Ok true, f O).
Proof.
  intros H0 HS. revert k. induction n as [|n IH]; intros k Hk; [lia|].
  destruct k as [|k]; cbn [poll].
  - by rewrite (bind_ok _ _ _ _ _ H0).
  - rewrite (bind_ok _ _ _ _ _ (HS k)). apply IH. lia.
Qed.

Lemma concat_words n (d : list Z) : length d = (4 * n)%nat -> concat (words n d) = d.
Proof.
  revert d. induction n as [|n IH]; intros d Hd; cbn [words concat].
  - by destruct d.
  - rewrite IH; [apply take_drop|]. rewrite length_drop. lia.
Qed.
Lemma length_words n d : length (words n d) = n.
Proof. revert d. induction n; intros; cbn; congruence. Qed.
Lemma words_len n d : length d = (4 * n)%nat -> Forall (fun w => length w = 4%nat) (words n d).
Proof.
  revert d. induction n as [|n IH]; intros d Hd; cbn [words]; constructor.
  - rewrite length_take. lia.
  - apply IH. rewrite length_drop. lia.
Qed.

Definition delays_ok (c : Card) : Prop :=
  (reset_delay c < MAX_ITERATIONS)%nat /\ (clock_delay c < MAX_ITERATIONS)%nat /\
  (cmd_delay c < MAX_ITERATIONS)%nat /\ (buf_delay c < MAX_ITERATIONS)%nat.

Definition idle (h : Host) : Prop := pending h = None /\ ph h = Idle.

(** Between two transfers of a card that is set up. *)
Definition ready (h : Host) : Prop :=
  idle h /\ powered h = true /\ selected h = true /\ delays_ok (card h).

(** What the driver makes of a response. *)
Definition reply (t : SDResponseTypes) (r : Z) : SDCommandResponse :=
  match t with
  | R0 | R7 => NoResponse
  | R2 => Response128Bits ((r mod 2 ^ 128 * 2 ^ 8) mod 2 ^ 128)
  | _ => Response32Bits (r mod 2 ^ 32)
  end.

Section on_host.
Variable base : Z.
Hypothesis Hbase : 0 <= base /\ base + 256 <= 2 ^ 64.
#[local] Instance HB : Mmio Host := host_mmio base.
Variable i : SDCardInfoInternal.
Hypothesis Hi : base_address_register i = base.

Lemma host_reg_read width off h : 0 <= off < 256 ->
  reg_read (W:=Host) i width off h = (Ok (fst (host_read off h)), snd (host_read off h)).
Proof.
  intros Ho. unfold reg_read. rewrite bind_chk by lia. cbn. rewrite Hi, Z.add_simpl_l.
  by destruct (host_read off h).
Qed.
Lemma host_reg_write width off v h : 0 <= off < 256 ->
  reg_write (W:=Host) i width off v h = (Ok tt, host_write off v h).
Proof. intros Ho. unfold reg_write. rewrite bind_chk by lia. cbn. by rewrite Hi, Z.add_simpl_l. Qed.
Lemma host_port_read h : port_read_word (W:=Host) i 0x20 h = (Ok (fst (port_read h)), snd (port_read h)).
Proof.
  unfold port_read_word. rewrite bind_chk by lia. cbn. rewrite Hi, Z.add_simpl_l. cbn.
  by destruct (port_read h).
Qed.
Lemma host_port_write v h : port_write_word (W:=Host) i 0x20 v h = (Ok tt, port_write v h).
Proof. unfold port_write_word. rewrite bind_chk by lia. cbn. by rewrite Hi, Z.add_simpl_l. Qed.

(** One register access of a computation. *)
Ltac access :=
  lazymatch goal with
  | |- context [bind (reg_write i ?n ?o ?v) _ ?h] =>
      rewrite (bind_ok _ _ _ _ _ (host_reg_write n o v h ltac:(lia)))
  | |- context [bind (reg_read i ?n ?o) _ ?h] =>
      rewrite (bind_ok _ _ _ _ _ (host_reg_read n o h ltac:(lia)))
  end.

Lemma valid_idle h : idle h -> sending_command_valid (W:=Host) i h = (Ok tt, tick h).
Proof.
  intros [Hp Hph]. unfold sending_command_valid, check_no_errors.
  rewrite (bind_ok _ _ h tt h).
  2:{ access. done. }
  access. cbn [host_read Z.eqb Pos.eqb fst snd]. unfold present. rewrite Hp, Hph. done.
Qed.

Lemma response_words r :
  Z.lor (Z.lor (Z.lor (r mod 2 ^ 32) (wrap 128 (Z.shiftl ((r / 2 ^ 32) mod 2 ^ 32) 32)))
    (wrap 128 (Z.shiftl ((r / 2 ^ 64) mod 2 ^ 32) 64))) (wrap 128 (Z.shiftl ((r / 2 ^ 96) mod 2 ^ 32) 96))
  = r mod 2 ^ 128.
Proof.
  assert (Hw : forall x k, 0 <= k <= 96 -> wrap 128 (Z.shiftl ((r / x) mod 2 ^ 32) k) = Z.shiftl ((r / x) mod 2 ^ 32) k).
  { intros x k Hk. apply wrap_small. rewrite Z.shiftl_mul_pow2 by lia.
    pose proof (Z.mod_pos_bound (r / x) (2 ^ 32) ltac:(lia)). split; [nia|].
    apply Z.lt_le_trans with (2 ^ 32 * 2 ^ k); [nia|]. rewrite <- Z.pow_add_r by lia. apply Z.pow_le_mono_r; lia. }
  rewrite !Hw by lia. rewrite (Z.lor_comm (r mod _)).
  rewrite (lor_shiftl_add _ _ 32) by dlia. rewrite (Z.lor_comm (_ + _)).
  rewrite (lor_shiftl_add _ _ 64) by dlia. rewrite (Z.lor_comm (_ + _)).
  rewrite (lor_shiftl_add _ _ 96) by dlia. dlia.
Qed.

Lemma host_response t h :
  determine_sd_card_response (W:=Host) i t h = (Ok (reply t (resp h)), h).
Proof.
  destruct t; unfold determine_sd_card_response; repeat access; try done;
    cbn [host_read Z.eqb Pos.eqb fst snd Z.leb Z.ltb Z.compare Pos.compare Pos.compare_cont andb]; unfold ret, reply.
  all: try (change (8 * (16 - 16)) with 0; by rewrite Z.pow_0_r, Z.div_1_r).
  change (8 * (16 - 16)) with 0. change (8 * (20 - 16)) with 32.
  change (8 * (24 - 16)) with 64. change (8 * (28 - 16)) with 96.
  rewrite Z.pow_0_r, Z.div_1_r, response_words. unfold wrap. by rewrite Z.shiftl_mul_pow2 by lia.
Qed.

Lemma send_idle c t f h : 0 <= c < 64 -> idle h -> powered h = true -> delays_ok (card h) ->
  send_sd_command (W:=Host) i c t f h =
    (Ok (reply t (respond (card h) (command_word c t f / 256) (reg 0x8 h))),
     set_pending None (issue (command_word c t f) (tick (tick h)))).
Proof.
  intros Hc Hid Hpow (_ & _ & Hd & _). unfold send_sd_command. rewrite bind_assert by lia.
  rewrite (bind_ok _ _ _ _ _ (valid_idle h Hid)). cbv zeta.
  rewrite (bind_ok _ _ _ _ _ (valid_idle (tick h) Hid)). access.
  change (host_write 0xE ?v ?x) with (issue v x).
  set (v := command_word c t f).
  set (h1 := issue v (tick (tick h))).
  assert (Hp1 : pending h1 = Some (cmd_delay (card h))) by (unfold h1, issue; change (powered (tick (tick h))) with (powered h); by rewrite Hpow).
  assert (Hr1 : resp h1 = respond (card h) (v / 256) (reg 8 h)) by (unfold h1, issue; change (powered (tick (tick h))) with (powered h); by rewrite Hpow).
  rewrite (bind_ok _ _ h1 tt h1) by (unfold check_no_errors; access; done).
  rewrite (bind_ok _ _ h1 true (set_pending (Some O) h1)).
  2:{ replace h1 with (set_pending (Some (cmd_delay (card h))) h1) at 1
        by (rewrite <- Hp1; by destruct h1).
      apply (poll_countdown (fun k => set_pending (Some k) h1)); [..|done].
      - access. done.
      - intros j. access. done. }
  access. change (host_write 0x30 1 (set_pending (Some 0%nat) h1)) with (set_pending None h1).
  rewrite host_response. cbn. by rewrite Hr1.
Qed.

(** The words of a block, through the data port. *)
Lemma host_read_words ws l acc h :
  length l = length ws -> ws <> [] -> waits h = O -> ph h = Reading ws ->
  for_fold l acc (fun data (_ : Z) => let! item := port_read_word (W:=Host) i 0x20 in ret (data ++ [item])) h
    = (Ok (acc ++ ws), set_phase Idle h).
Proof.
  revert l acc h. induction ws as [|w ws IH]; intros l acc h Hl Hne Hw Hp; [done|].
  destruct l as [|x l]; [done|]. cbn [for_fold].
  rewrite (bind_ok _ _ h (acc ++ [w]) (set_phase (match ws with [] => Idle | _ => Reading ws end) h)).
  2:{ rewrite (bind_ok _ _ _ _ _ (host_port_read h)). unfold port_read. by rewrite Hp, Hw. }
  destruct ws as [|w' ws].
  - by destruct l.
  - rewrite IH; [|by injection Hl|done..]. by rewrite <- app_assoc.
Qed.
Lemma host_write_words ws n got h :
  waits h = O -> ph h = Writing n got -> ws <> [] -> Forall (fun w => length w = 4%nat) ws ->
  (length got + 4 * length ws = 512)%nat ->
  for_do ws (fun item => port_write_word (W:=Host) i 0x20 item) h
    = (Ok tt, set_phase Idle (set_blocks (upd (blocks h) n (got ++ concat ws)) h)).
Proof.
  revert got h. induction ws as [|w ws IH]; intros got h Hw Hp Hne Hf Hl; [done|].
  apply Forall_cons in Hf as [H4 Hf]. cbn [for_do]. rewrite (bind_ok _ _ _ _ _ (host_port_write w h)).
  unfold port_write. rewrite Hp, Hw. cbn [length] in Hl.
  destruct ws as [|w' ws].
  - replace (len (got ++ w) =? 512) with true by (unfold len; rewrite length_app; cbn in Hl; lia).
    cbn. by rewrite app_nil_r.
  - replace (len (got ++ w) =? 512) with false by (unfold len; rewrite length_app; cbn in Hl; lia).
    rewrite (IH (got ++ w)); [|done..|rewrite length_app; lia]. cbn. by rewrite <- app_assoc.
Qed.

(** The registers of a transfer, set before its command. *)
Definition programmed (arg mode : Z) (h : Host) : Host :=
  set_reg 0xC mode (set_reg 0x8 arg (tick (set_reg 0x6 1 (set_reg 0x4 0x200 h)))).

Lemma reg_set_eq o v h : reg o (set_reg o v h) = v.
Proof. unfold reg, set_reg. cbn. by rewrite lookup_insert_eq. Qed.
Lemma reg_set_ne o o' v h : o <> o' -> reg o' (set_reg o v h) = reg o' h.
Proof. intros. unfold reg, set_reg. cbn. by rewrite lookup_insert_ne. Qed.

Lemma reg_tick o h : reg o (tick h) = reg o h.
Proof. done. Qed.
Lemma reg_write_ne o o' v h : existsb (Z.eqb o) [0xE; 0x2f; 0x2c; 0x30] = false -> o <> o' -> reg o' (host_write o v h) = reg o' h.
Proof.
  cbn [existsb]. rewrite !orb_false_iff. intros (E1 & E2 & E3 & E4 & _) ?. unfold host_write.
  rewrite E1, E2, E3, E4. by apply reg_set_ne.
Qed.

(** The value of a register after writes and ticks. *)
Ltac regs :=
  repeat first [rewrite reg_tick | rewrite reg_set_eq | rewrite reg_set_ne by done | rewrite reg_write_ne by done].

Lemma programmed_regs arg mode h :
  reg 0x4 (programmed arg mode h) = 512 /\ reg 0x6 (programmed arg mode h) = 1 /\
  reg 0x8 (programmed arg mode h) = arg /\ reg 0xC (programmed arg mode h) = mode /\
  powered (programmed arg mode h) = powered h.
Proof.
  unfold programmed, powered. repeat split; by regs.
Qed.

(** Waiting for the buffer. *)
Lemma poll_buffer flag h :
  (buf_delay (card h) < MAX_ITERATIONS)%nat -> waits h = buf_delay (card h) ->
  intersects flag (present (set_waits O h)) = true ->
  (forall j, intersects flag (present (set_waits (S j) h)) = false) ->
  poll MAX_ITERATIONS
    (let! present_state := reg_read (W:=Host) i 32 0x24 in ret (intersects flag present_state)) h
    = (Ok true, set_waits O h).
Proof.
  intros Hd Hw H0 HS. replace h with (set_waits (buf_delay (card h)) h) at 1 by (rewrite <- Hw; by destruct h).
  apply (poll_countdown (fun k => set_waits k h)); [..|done].
  - access. unfold ret. cbn [host_read Z.eqb Pos.eqb fst snd]. by rewrite H0.
  - intros j. access. unfold ret. cbn [host_read Z.eqb Pos.eqb fst snd]. by rewrite HS.
Qed.

(** A transfer command: completed, with the transfer it starts in progress. *)
Lemma transfer_command c arg mode h p :
  c = 17 \/ c = 24 -> ready h -> p <> Idle ->
  transfer (command_word c R1 DataPresentSelect) (programmed arg mode h) = p ->
  exists h', send_sd_command (W:=Host) i c R1 DataPresentSelect (programmed arg mode h)
      = (Ok (reply R1 (respond (card h) c arg)), h') /\
    ph h' = p /\ waits h' = buf_delay (card h) /\ pending h' = None /\ blocks h' = blocks h /\
    card h' = card h /\ powered h' = true /\ selected h' = true.
Proof.
  intros Hc (Hid & Hpow & Hsel & Hd) Hp Ht.
  destruct (programmed_regs arg mode h) as (_ & _ & H8 & _ & Hpw).
  rewrite send_idle; [|lia|done|congruence|done].
  assert (Hi' : command_word c R1 DataPresentSelect / 256 = c) by (by destruct Hc; subst c).
  eexists. split; [by rewrite Hi', H8|]. set (hp := programmed arg mode h) in *.
  unfold issue. change (powered (tick (tick hp))) with (powered hp). rewrite Hpw, Hpow.
  change (transfer ?v (tick (tick hp))) with (transfer v hp). rewrite Ht.
  change (powered _) with (powered hp). cbn [ph waits pending blocks card selected set_pending]. repeat split; [by destruct p|congruence|].
  unfold select. rewrite Hi'. replace (c =? 0) with false by lia. by replace (c =? 7) with false by lia.
Qed.

Lemma transfer_setup {A} (info : SDCardInfo) b mode (k : M Host SDCardError A) h :
  internal_info info = i -> idle h -> 0 <= b -> b * 512 < 2 ^ 32 ->
  bind (reg_write (W:=Host) i 16 0x4 0x200) (fun _ => bind (reg_write i 16 0x6 1) (fun _ =>
    bind (sending_command_valid i) (fun _ => bind (chk 32 (b * SD_BLOCK_SIZE)) (fun a =>
      bind (reg_write i 32 0x8 a) (fun _ => bind (reg_write i 16 0xC mode) (fun _ => k)))))) h
  = k (programmed (b * 512) mode h).
Proof.
  intros Hin Hid Hb Hb'. do 2 access. rewrite (bind_ok _ _ _ _ _ (valid_idle (host_write 0x6 1 (host_write 0x4 0x200 h)) Hid)).
  rewrite bind_chk by (unfold SD_BLOCK_SIZE; lia). by do 2 access.
Qed.

Lemma read_on_host info b blk h :
  internal_info info = i -> ready h -> 0 <= b -> b * 512 < 2 ^ 32 ->
  idx (blocks h) b = Some blk -> len blk = 512 ->
  exists h', read_sd_card (W:=Host) info b h = (Ok blk, h') /\ ready h' /\ blocks h' = blocks h /\ card h' = card h.
Proof.
  intros Hin Hr Hb Hb' Hblk Hlen. unfold read_sd_card. rewrite Hin. cbv zeta.
  rewrite (transfer_setup info) by (done || apply Hr).
  destruct (programmed_regs (b * 512) ReadToCard h) as (H4 & H6 & H8 & HC & _).
  destruct (transfer_command 17 (b * 512) ReadToCard h (Reading (words 128 blk))) as
    (h1 & E1 & Hp1 & Hw1 & Hn1 & Hb1 & Hc1 & Hpw1 & Hs1); [by left|done|done|..].
  { unfold transfer. rewrite H4, H6, H8, HC. change (selected (programmed _ _ h)) with (selected h).
    destruct Hr as (_ & _ & -> & _). rewrite Z.mod_mul, Z.div_mul by lia. cbn. by rewrite Hblk. }
  rewrite (bind_ok _ _ _ _ _ E1). destruct Hr as (_ & _ & _ & Hd).
  erewrite (bind_ok _ _ h1); [|apply poll_buffer].
  2: rewrite Hc1; apply Hd. 2: congruence.
  2,3: intros; unfold present; cbn [ph pending waits set_waits]; rewrite Hp1, Hn1; done.
  cbn [negb]. erewrite bind_ok; [|apply (host_read_words (words 128 blk))].
  2: by rewrite length_range, length_words. 2,3: done. 2: done.
  unfold ret. rewrite app_nil_l, concat_words by (unfold len in Hlen; lia).
  eexists. split; [done|]. unfold ready, idle. cbn. change (powered _) with (powered h1).
  rewrite Hc1. done.
Qed.

Lemma write_on_host info b data h :
  internal_info info = i -> ready h -> 0 <= b < len (blocks h) -> b * 512 < 2 ^ 32 -> len data = 512 ->
  exists h', write_sd_card (W:=Host) info b data h = (Ok tt, h') /\ ready h' /\
    blocks h' = upd (blocks h) b data /\ card h' = card h.
Proof.
  intros Hin Hr Hb Hb' Hlen. unfold write_sd_card. rewrite Hin. cbv zeta.
  rewrite (transfer_setup info) by (done || lia || apply Hr).
  destruct (programmed_regs (b * 512) 0 h) as (H4 & H6 & H8 & HC & _).
  destruct (transfer_command 24 (b * 512) 0 h (Writing b [])) as
    (h1 & E1 & Hp1 & Hw1 & Hn1 & Hb1 & Hc1 & Hpw1 & Hs1); [by right|done|done|..].
  { unfold transfer. rewrite H4, H6, H8, HC. change (selected (programmed _ _ h)) with (selected h).
    destruct Hr as (_ & _ & -> & _). rewrite Z.mod_mul, Z.div_mul by lia. cbn.
    change (blocks (programmed _ _ h)) with (blocks h). by replace (b <? len (blocks h)) with true by lia. }
  rewrite (bind_ok _ _ _ _ _ E1). destruct Hr as (_ & _ & _ & Hd).
  erewrite (bind_ok _ _ h1); [|apply poll_buffer].
  2: rewrite Hc1; apply Hd. 2: congruence.
  2,3: intros; unfold present; cbn [ph pending waits set_waits]; rewrite Hp1, Hn1; done.
  cbn [negb]. unfold len in Hlen.
  rewrite (host_write_words _ b []); [|done|done|done|apply words_len; lia|rewrite length_words; cbn; lia].
  rewrite app_nil_l, concat_words by lia. eexists. split; [done|].
  unfold ready, idle. cbn. change (powered _) with (powered h1). rewrite Hc1, Hb1. done.
Qed.

(** *** Reset and identification *)

(** The controller is set up and between commands. *)
Definition up (c : Card) (bl : list (list Z)) (h : Host) : Prop :=
  idle h /\ powered h = true /\ card h = c /\ blocks h = bl.

Lemma command_word_fields c t : 0 <= c < 64 ->
  command_word c t 0 / 256 = c /\ Z.testbit (command_word c t 0) 5 = false.
Proof.
  intros Hc. assert (Hw : wrap 16 (Z.shiftl c 8) = Z.shiftl c 8).
  { apply wrap_small. rewrite Z.shiftl_mul_pow2 by lia. lia. }
  assert (Hl : forall x, 0 <= x < 32 -> Z.lor (Z.shiftl c 8) x / 256 = c /\ Z.testbit (Z.lor (Z.shiftl c 8) x) 5 = false).
  { intros x Hx. rewrite Z.lor_spec, Z.shiftl_spec_low, (testbit_above x 5) by lia.
    rewrite lor_shiftl_add by lia. split; [dlia|done]. }
  unfold command_word. rewrite Hw. destruct t; rewrite <- ?Z.lor_assoc; by apply Hl.
Qed.

Lemma plain_command a c t cd bl h : 0 <= c < 64 -> delays_ok cd -> up cd bl h ->
  exists h', send_with_argument (W:=Host) i a c t h = (Ok (reply t (respond cd c a)), h') /\ up cd bl h' /\
    reg 0x8 h' = a /\
    (c = 7 -> selected h' = (a / 2 ^ 16 =? (respond cd 3 0 mod 2 ^ 32) / 2 ^ 16)).
Proof.
  intros Hc Hd (Hid & Hpow & Hcd & Hbl). unfold send_with_argument. access.
  change (host_write 0x8 a h) with (set_reg 0x8 a h). set (h1 := set_reg 0x8 a h).
  assert (Hpow1 : powered h1 = true) by (unfold powered, h1; by rewrite !reg_set_ne).
  assert (H8 : reg 0x8 h1 = a) by apply reg_set_eq.
  destruct (command_word_fields c t Hc) as [Hdiv Hbit].
  rewrite send_idle; [|done|done|done|cbn; by rewrite Hcd].
  eexists. split; [rewrite Hdiv, H8; cbn; by rewrite Hcd|].
  unfold issue. change (powered (tick (tick h1))) with (powered h1). rewrite Hpow1.
  assert (Ht : transfer (command_word c t 0) (tick (tick h1)) = Idle).
  { unfold transfer. by rewrite Hbit, andb_false_r. }
  rewrite Ht. split; [|split; [done|]].
  - unfold up, idle. change (powered _) with (powered h1). done.
  - intros Hc7. cbn [selected set_pending]. unfold select. rewrite Hdiv.
    change (reg 0x8 (tick (tick h1))) with (reg 0x8 h1). rewrite H8. subst c. cbn. by rewrite Hcd.
Qed.

(** [ACMD41] without a write of its argument: the one of command 55 stands. *)
Lemma inquiry cd bl h : delays_ok cd -> up cd bl h ->
  exists h', send_sd_command (W:=Host) i 41 R3 0 h = (Ok (reply R3 (respond cd 41 (reg 0x8 h))), h') /\ up cd bl h'.
Proof.
  intros Hd (Hid & Hpow & Hcd & Hbl). destruct (command_word_fields 41 R3 ltac:(lia)) as [Hdiv Hbit].
  rewrite send_idle; [|done|done|done|by rewrite Hcd]. eexists. split; [by rewrite Hdiv, Hcd|].
  unfold issue. change (powered (tick (tick h))) with (powered h). rewrite Hpow.
  assert (Ht : transfer (command_word 41 R3 0) (tick (tick h)) = Idle).
  { unfold transfer. by rewrite Hbit, andb_false_r. }
  rewrite Ht. unfold up, idle. change (powered _) with (powered h). done.
Qed.

(** What identification makes of the card: its address from command 3, its
    size from the register of command 9. *)
Definition card_rca (c : Card) : Z := respond c 3 0 mod 2 ^ 32.
Definition card_csd (c : Card) : Z := (respond c 9 (card_rca c) mod 2 ^ 128 * 2 ^ 8) mod 2 ^ 128.
Definition csd_size (csd : Z) : Z := (csd / 2 ^ 48) mod 2 ^ 24 + 1.
Definition card_info (c : Card) : SDCardInfo :=
  mkSDCardInfo i 512 (csd_size (card_csd c)) (card_rca c).

Lemma card_csd_range c : 0 <= card_csd c < 2 ^ 128.
Proof. apply Z.mod_pos_bound. lia. Qed.

Lemma full_info rca csd (h : Host) : 0 <= csd < 2 ^ 128 -> csd / 2 ^ 126 = 1 ->
  get_full_sd_card_info (W:=Host) i rca csd h = (Ok (mkSDCardInfo i 512 (csd_size csd) rca), h).
Proof.
  intros Hc Hs. unfold get_full_sd_card_info. rewrite !Z.shiftr_div_pow2 by lia. rewrite Hs.
  rewrite bind_chk by lia. rewrite bind_assert by done. change 0xFFFFFF with (Z.ones 24).
  rewrite Z.land_ones by lia. pose proof (Z.mod_pos_bound (csd / 2 ^ 48) (2 ^ 24) ltac:(lia)).
  rewrite bind_chk by lia. by rewrite bind_chk by lia.
Qed.

Ltac plain :=
  match goal with
  | Hu : up ?cd ?bl ?h |- context [bind (send_with_argument i ?a ?c ?t) _ ?h] =>
      let h' := fresh "h" in let Hr := fresh "Hr" in let Hu' := fresh "Hu" in let H8 := fresh "H8" in let Hs := fresh "Hs" in
      destruct (plain_command a c t cd bl h ltac:(lia) ltac:(done) Hu) as (h' & Hr & Hu' & H8 & Hs);
      rewrite (bind_ok _ _ _ _ _ Hr); clear Hr Hu
  end.

Lemma reset_commands_on_host cd bl h :
  delays_ok cd -> up cd bl h -> card_csd cd / 2 ^ 126 = 1 ->
  exists h', send_sd_reset_commands (W:=Host) i h = (Ok (card_info cd), h') /\ up cd bl h' /\ selected h' = true.
Proof.
  intros Hd Hu Hcsd. unfold send_sd_reset_commands. do 3 plain.
  match goal with Hx : up cd bl ?x |- _ => destruct (inquiry cd bl x Hd Hx) as (h' & E' & Hu'); clear Hx end.
  rewrite (bind_ok _ _ _ _ _ E'). cbn [reply].
  rewrite bind_assoc. plain. rewrite bind_assoc. plain. rewrite bind_assoc. plain. rewrite bind_assoc. plain.
  rewrite bind_ret. do 2 plain. cbn [reply]. fold (card_rca cd). plain. cbn [reply]. fold (card_csd cd).
  rewrite bind_assoc.
  match goal with Hx : up cd bl ?x |- _ =>
    rewrite (bind_ok _ _ _ _ _ (full_info (card_rca cd) (card_csd cd) x (card_csd_range cd) Hcsd)) end.
  rewrite bind_ret. do 2 plain. eexists. split; [done|]. split; [done|].
  match goal with Hx : 7 = 7 -> _ |- _ => rewrite Hx by done end. apply Z.eqb_refl.
Qed.

Lemma software_reset_on_host h : delays_ok (card h) ->
  software_reset_sd_card (W:=Host) i h = (Ok tt, mkHost (card h) (blocks h) ∅ 0 None 0 Idle false).
Proof.
  intros (Hd & _). unfold software_reset_sd_card. access.
  change (host_write 0x2f 1 h) with (mkHost (card h) (blocks h) ∅ (reset_delay (card h)) None 0 Idle false).
  rewrite (bind_ok _ _ _ true (mkHost (card h) (blocks h) ∅ 0 None 0 Idle false)); [done|].
  apply (poll_countdown (fun k => mkHost (card h) (blocks h) ∅ k None 0 Idle false)); [..|done].
  - access. done.
  - intros j. access. done.
Qed.

(** Set-up writes that a command check follows. *)
Lemma write_and_check n o v {A} (k : M Host SDCardError A) h :
  0 <= o < 256 -> idle (host_write o v h) ->
  bind (reg_write (W:=Host) i n o v) (fun _ => bind (sending_command_valid i) (fun _ => k)) h
    = k (tick (host_write o v h)).
Proof. intros Ho Hid. access. by rewrite (bind_ok _ _ _ _ _ (valid_idle _ Hid)). Qed.

Lemma interrupts_on_host h : idle h -> reg 0x2c h = 0 ->
  exists h', enable_sd_card_interrupts (W:=Host) i h = (Ok tt, h') /\
    idle h' /\ reg 0x2c h' = 0 /\ card h' = card h /\ blocks h' = blocks h.
Proof.
  intros Hid Hck. unfold enable_sd_card_interrupts. rewrite !write_and_check by done. access.
  rewrite valid_idle by done. eexists. split; [done|]. split; [done|].
  split; [|done]. by regs.
Qed.

Definition some_voltage (c : Z) : bool :=
  intersects Voltage3_3Support c || intersects Voltage1_8Support c || intersects Voltage3_0Support c.

Lemma power_on_host h : some_voltage (capabilities i) = true -> idle h -> reg 0x2c h = 0 ->
  exists h', power_on_sd_card (W:=Host) i h = (Ok tt, h') /\
    idle h' /\ reg 0x2c h' = 0 /\ Z.testbit (reg 0x29 h') 0 = true /\ card h' = card h /\ blocks h' = blocks h.
Proof.
  intros Hv Hid Hck. unfold power_on_sd_card, some_voltage in *. access.
  assert (Hpc : exists pc, (if intersects Voltage3_3Support (capabilities i) then ret (Z.shiftl 7 1)
    else if intersects Voltage1_8Support (capabilities i) then ret (Z.shiftl 5 1)
    else if intersects Voltage3_0Support (capabilities i) then ret (Z.shiftl 6 1)
    else @err Host SDCardError Z VoltageUnableToBeSet) (host_write 0x29 0 h) = (Ok pc, host_write 0x29 0 h)).
  { repeat case_match; first [by exists (Z.shiftl 7 1) | by exists (Z.shiftl 5 1) | by exists (Z.shiftl 6 1)]. }
  destruct Hpc as [pc Hpc]. rewrite (bind_ok _ _ _ _ _ Hpc). access. rewrite host_reg_write by lia.
  eexists. split; [done|]. split; [done|].
  split; [by regs|]. split; [|done].
  match goal with |- context [host_write 0x29 ?v ?x] => change (host_write 0x29 v x) with (set_reg 0x29 v x) end.
  by rewrite reg_set_eq, Z.lor_spec, orb_true_r.
Qed.

Lemma clock_on_host h : delays_ok (card h) -> idle h -> reg 0x2c h = 0 -> Z.testbit (reg 0x29 h) 0 = true ->
  exists h', set_sd_clock (W:=Host) i h = (Ok tt, h') /\ up (card h) (blocks h) h'.
Proof.
  intros (_ & Hd & _) Hid Hck Hpw. unfold set_sd_clock. access.
  assert (Hr : host_read 0x2c h = (0, tick h)) by (cbn [host_read Z.eqb Pos.eqb]; by rewrite Hck).
  rewrite Hr. cbn [fst snd]. cbv zeta. do 3 access.
  change (Z.land 0 0xFFFE) with 0. change (Z.lor (Z.land 0 0xFF) (Z.shiftl 128 8)) with 0x8000.
  change (Z.lor 0x8000 1) with 0x8001. change (Z.lor 0x8001 (Z.shiftl 3 1)) with 0x8007.
  change (host_write 0x2c 0 (tick h)) with (set_reg 0x2c 0 (tick h)).
  change (host_write 0x2c 0x8000 ?x) with (set_reg 0x2c 0x8000 x).
  set (h1 := set_reg 0x2c 0x8000 (set_reg 0x2c 0 (tick h))).
  assert (Hw : host_write 0x2c 0x8001 h1 = set_waits (clock_delay (card h)) (set_reg 0x2c 0x8001 h1)).
  { unfold host_write. cbn [Z.eqb Pos.eqb]. assert (Hck1 : reg 0x2c h1 = 0x8000) by apply reg_set_eq. by rewrite Hck1. }
  rewrite Hw. set (h2 := set_reg 0x2c 0x8001 h1).
  assert (H2 : forall k, reg 0x2c (set_waits k h2) = 0x8001) by (intros; apply reg_set_eq).
  rewrite (bind_ok _ _ _ true (set_waits O h2)).
  2:{ apply (poll_countdown (fun k => set_waits k h2)); [..|done].
      - access. cbn [host_read Z.eqb Pos.eqb fst snd]. rewrite H2. done.
      - intros j. access. cbn [host_read Z.eqb Pos.eqb fst snd]. rewrite H2. done. }
  cbn [negb]. rewrite host_reg_write by lia. eexists. split; [done|].
  assert (Hf : host_write 0x2c 0x8007 (set_waits 0 h2) = set_reg 0x2c 0x8007 (set_waits 0 h2)).
  { unfold host_write. cbn [Z.eqb Pos.eqb]. by rewrite H2. }
  rewrite Hf. split; [done|]. split; [|done]. unfold powered. rewrite reg_set_eq, reg_set_ne by done.
  change (reg 0x29 (set_waits 0 h2)) with (reg 0x29 h2). unfold h2, h1. rewrite !reg_set_ne by done.
  change (reg 0x29 (tick h)) with (reg 0x29 h). by rewrite Hpw.
Qed.

Lemma reset_on_host h :
  delays_ok (card h) -> some_voltage (capabilities i) = true -> card_csd (card h) / 2 ^ 126 = 1 ->
  exists h', reset_sd_card (W:=Host) i h = (Ok (card_info (card h)), h') /\ ready h' /\
    blocks h' = blocks h /\ card h' = card h.
Proof.
  intros Hd Hv Hcsd. unfold reset_sd_card.
  rewrite (bind_ok _ _ _ _ _ (software_reset_on_host h Hd)).
  set (h0 := mkHost _ _ _ _ _ _ _ _).
  destruct (interrupts_on_host h0) as (h1 & E1 & Hi1 & Hck1 & Hc1 & Hb1); [done..|]. rewrite (bind_ok _ _ _ _ _ E1).
  destruct (power_on_host h1 Hv Hi1 Hck1) as (h2 & E2 & Hi2 & Hck2 & Hp2 & Hc2 & Hb2). rewrite (bind_ok _ _ _ _ _ E2).
  destruct (clock_on_host h2) as (h3 & E3 & Hu3); [by rewrite Hc2, Hc1|done..|]. rewrite (bind_ok _ _ _ _ _ E3).
  destruct Hu3 as (Hid & Hpow & Hc & Hb).
  rewrite (bind_ok _ _ h3 tt (tick (set_reg 0x2e 14 h3))).
  2:{ unfold enable_timeouts. access. by rewrite valid_idle. }
  destruct (reset_commands_on_host (card h) (blocks h) (tick (set_reg 0x2e 14 h3))) as (h4 & E4 & (Hi4 & Hp4 & Hc4 & Hb4) & Hs4); [done| |done|].
  { split; [done|]. split; [|cbn; rewrite Hc, Hb, Hc2, Hb2, Hc1, Hb1; done].
    unfold powered. change (reg ?o (tick ?x)) with (reg o x). by rewrite !reg_set_ne. }
  exists h4. split; [done|]. split; [|done]. by rewrite <- Hc4 in Hd.
Qed.
End on_host.

(** ** The card is a lawful block device *)

Section lawful.
Context {W : Type} {base : Z} `{SdHost W base}.
#[local] Instance HL : Mmio Host := host_mmio base.

Definition base_ok : Prop := 0 <= base /\ base + 256 <= 2 ^ 64.

(** The device as the driver sees it: registers at [base], a controller between
    transfers, at most as many blocks as the card has, all byte addresses of
    32 bits. *)
Definition sd_ok (d : SdDevice W) : Prop :=
  base_ok /\ base_address_register (internal_info (sd_info d)) = base /\ ready (host (sd_machine d)) /\
  0 <= sd_total_blocks (sd_info d) <= len (blocks (host (sd_machine d))) /\
  sd_total_blocks (sd_info d) * 512 <= 2 ^ 32 /\
  Forall sector_ok (blocks (host (sd_machine d))).
Definition sd_disk (d : SdDevice W) : list (list Z) :=
  take (Z.to_nat (sd_total_blocks (sd_info d))) (blocks (host (sd_machine d))).

Lemma idx_sd_disk d n : 0 <= n < sd_total_blocks (sd_info d) ->
  idx (sd_disk d) n = idx (blocks (host (sd_machine d))) n.
Proof. intros Hn. unfold idx, sd_disk. rewrite lookup_take. case_decide; [done|lia]. Qed.
Lemma len_sd_disk d : sd_ok d -> len (sd_disk d) = sd_total_blocks (sd_info d).
Proof. intros (_ & _ & _ & Hb & _). unfold len, sd_disk in *. rewrite length_take. lia. Qed.

Lemma on_card_ok {A} (m : SDCardInfo -> M W SDCardError A) d a w' :
  m (sd_info d) (sd_machine d) = (Ok a, w') -> on_card m d = (Ok a, mkSd (sd_info d) w').
Proof. intros E1. unfold on_card, map_err, attempt, zoom, bind, get_state. by rewrite E1. Qed.

Lemma sd_read_ok d n buf b :
  sd_ok d -> 0 <= n -> len buf = SECTOR_SIZE -> idx (sd_disk d) n = Some b ->
  exists d', read_block n buf d = (Ok b, d') /\ sd_ok d' /\ sd_disk d' = sd_disk d.
Proof.
  intros Hok Hn Hbuf Hb. pose proof (idx_Some_lt _ _ _ Hn Hb) as Hlt. rewrite len_sd_disk in Hlt by done.
  rewrite idx_sd_disk in Hb by done. destruct Hok as (Hbase & Hi & Hr & Htb & H32 & Hs).
  assert (Hlb : len b = 512) by (exact (Forall_lookup_1 _ _ _ _ Hs Hb)).
  destruct (read_on_host base Hbase _ Hi (sd_info d) n b (host (sd_machine d))) as (h' & Er & Hr' & Hb' & Hc'); [done|done|done|lia|done|done|].
  destruct (runs_read _ Hi (sd_info d) n eq_refl (sd_machine d)) as (w' & Ew & Hw').
  unfold HM in Ew, Hw'; unfold HB in Er; rewrite Er in Ew, Hw'; cbn in Ew, Hw'.
  exists (mkSd (sd_info d) w'). cbn [read_block SdDevice_BlockDevice]. unfold sd_read_block. rewrite bind_get.
  replace (sd_total_blocks (sd_info d) <? n) with false by lia. rewrite bind_chk by lia.
  rewrite (bind_ok _ _ _ _ _ (on_card_ok _ d b w' Ew)). rewrite bind_assert by (rewrite Hbuf, Hlb; done).
  split; [done|]. unfold sd_ok, sd_disk. cbn. rewrite Hw', Hb'. done.
Qed.

Lemma sd_write_ok d n buf :
  sd_ok d -> 0 <= n < len (sd_disk d) -> len buf = SECTOR_SIZE ->
  exists d', write_block n buf d = (Ok tt, d') /\ sd_ok d' /\ sd_disk d' = upd (sd_disk d) n buf.
Proof.
  intros Hok Hn Hbuf. rewrite len_sd_disk in Hn by done. destruct Hok as (Hbase & Hi & Hr & Htb & H32 & Hs).
  destruct (write_on_host base Hbase _ Hi (sd_info d) n buf (host (sd_machine d))) as (h' & Er & Hr' & Hb' & Hc'); [done|done|lia|lia|done|].
  destruct (runs_write _ Hi (sd_info d) n buf eq_refl (sd_machine d)) as (w' & Ew & Hw').
  unfold HM in Ew, Hw'; unfold HB in Er; rewrite Er in Ew, Hw'; cbn in Ew, Hw'.
  exists (mkSd (sd_info d) w'). cbn [write_block SdDevice_BlockDevice]. unfold sd_write_block. rewrite bind_get.
  replace (sd_total_blocks (sd_info d) <? n) with false by lia. rewrite bind_assert by (rewrite Hbuf; done).
  rewrite bind_chk by lia. split; [exact (on_card_ok _ d tt w' Ew)|].
  unfold sd_ok, sd_disk. cbn. rewrite Hw', Hb'. split.
  - split; [done|]. split; [done|]. split; [done|]. rewrite len_upd. split; [done|]. split; [done|].
    by apply Forall_insert.
  - unfold upd. rewrite take_insert_lt by lia. done.
Qed.

#[global] Instance SdDevice_Laws : BlockDeviceLaws (SdDevice W).
Proof.
  refine {| disk := sd_disk; dev_ok := sd_ok |}.
  - done.
  - intros d Hok. by rewrite len_sd_disk.
  - intros d (_ & _ & _ & _ & _ & Hs). by apply Forall_take.
  - exact sd_read_ok.
  - exact sd_write_ok.
Defined.

(** Resetting the controller from any state leaves a device that is lawful. *)
Lemma reset_lawful i (w : W) : let c := card (host w) in
  base_ok -> base_address_register i = base -> delays_ok c -> some_voltage (capabilities i) = true ->
  card_csd c / 2 ^ 126 = 1 -> csd_size (card_csd c) <= len (blocks (host w)) ->
  csd_size (card_csd c) <= 2 ^ 23 -> Forall sector_ok (blocks (host w)) ->
  exists w', reset_sd_card i w = (Ok (card_info i c), w') /\ sd_ok (mkSd (card_info i c) w') /\
    sd_disk (mkSd (card_info i c) w') = take (Z.to_nat (csd_size (card_csd c))) (blocks (host w)).
Proof.
  intros c Hbase Hi Hd Hv Hcsd Hcap H23 Hs.
  destruct (reset_on_host base Hbase i Hi (host w) Hd Hv Hcsd) as (h' & Er & Hr & Hb & Hc).
  destruct (runs_reset i Hi w) as (w' & Ew & Hw').
  unfold HM in Ew, Hw'; unfold HB in Er; rewrite Er in Ew, Hw'; cbn in Ew, Hw'.
  exists w'. split; [done|]. unfold sd_ok, sd_disk. cbn [sd_info sd_machine card_info sd_total_blocks internal_info].
  rewrite Hw', Hb. split; [|done]. split; [done|]. split; [done|]. split; [done|]. split; [|split; [lia|done]].
  split; [|done]. unfold csd_size. pose proof (Z.mod_pos_bound (card_csd c / 2 ^ 48) (2 ^ 24) ltac:(lia)). lia.
Qed.
End lawful.

(** ** Requests to a disk *)

Inductive request :=
| ReadReq (n : Z)
| WriteReq (n : Z) (data : list Z).

(** Requests served by a device, with the blocks read. *)
Definition serve {D} `{BlockDevice D} (r : request) : M D FsError (list (list Z)) :=
  match r with
  | ReadReq n => let! b := read_block n (vec 0 512) in ret [b]
  | WriteReq n data => write_block n data ;! ret []
  end.
Definition serve_all {D} `{BlockDevice D} (rs : list request) : M D FsError (list (list Z)) :=
  for_fold rs [] (fun acc r => let! out := serve r in ret (acc ++ out)).

(** The same requests against an array of sectors; [None] out of its range. *)
Definition disk_serve (r : request) (dk : list (list Z)) : option (list (list Z) * list (list Z)) :=
  match r with
  | ReadReq n => if 0 <=? n then b ← idx dk n; Some ([b], dk) else None
  | WriteReq n data =>
      if (0 <=? n) && (n <? len dk) && (len data =? 512) then Some ([], upd dk n data) else None
  end.
Fixpoint disk_serve_all (rs : list request) (dk : list (list Z)) : option (list (list Z) * list (list Z)) :=
  match rs with
  | [] => Some ([], dk)
  | r :: rs' =>
      p ← disk_serve r dk;
      q ← disk_serve_all rs' p.2;
      Some (p.1 ++ q.1, q.2)
  end.

Section requests.
Context {D : Type} `{BlockDeviceLaws D}.

Lemma serve_refines r (d : D) out dk :
  dev_ok d -> disk_serve r (disk d) = Some (out, dk) ->
  exists d', serve r d = (Ok out, d') /\ dev_ok d' /\ disk d' = dk.
Proof.
  intros Hok. destruct r as [n|n data]; cbn [disk_serve serve].
  - destruct (0 <=? n) eqn:Hn; [|done]. destruct (idx (disk d) n) as [b|] eqn:Hb; [|done].
    intros [= <- <-]. destruct (dev_read d n (vec 0 512) b) as (d' & Er & Hok' & Hd'); [done|lia|done|done|].
    exists d'. by rewrite (bind_ok _ _ _ _ _ Er).
  - destruct (_ && _) eqn:Hc; [|done]. intros [= <- <-].
    destruct (dev_write d n data) as (d' & Er & Hok' & Hd'); [done|lia|unfold SECTOR_SIZE; lia|].
    exists d'. by rewrite (bind_ok _ _ _ _ _ Er).
Qed.

Lemma serve_fold_refines rs acc (d : D) outs dk :
  dev_ok d -> disk_serve_all rs (disk d) = Some (outs, dk) ->
  exists d', for_fold rs acc (fun acc r => let! out := serve r in ret (acc ++ out)) d = (Ok (acc ++ outs), d') /\
    dev_ok d' /\ disk d' = dk.
Proof.
  revert acc d outs. induction rs as [|r rs IH]; intros acc d outs Hok Hs.
  { cbn in Hs. injection Hs as <- <-. exists d. by rewrite app_nil_r. }
  cbn in Hs. destruct (disk_serve r (disk d)) as [[o1 dk1]|] eqn:E1; [|done]. cbn in Hs.
  destruct (disk_serve_all rs dk1) as [[o2 dk2]|] eqn:E2; [|done]. injection Hs as <- <-.
  destruct (serve_refines r d o1 dk1 Hok E1) as (d1 & Er & Hok1 & Hd1).
  destruct (IH (acc ++ o1) d1 o2) as (d' & Ef & Hok' & Hd'); [done|by rewrite Hd1|].
  exists d'. cbn [for_fold]. rewrite (bind_ok _ _ d (acc ++ o1) d1) by (by rewrite (bind_ok _ _ _ _ _ Er)).
  rewrite Ef. cbn. by rewrite app_assoc.
Qed.
End requests.

(** A controller and card the driver supports: registers at [base], operations
    done within [MAX_ITERATIONS] polls, a supported voltage, a register of
    command 9 in the format the driver reads, sectors of 512 bytes, and a size
    that is within the card and within 4 GiB. *)
Definition supported (base : Z) (i : SDCardInfoInternal) (h : Host) : Prop :=
  (0 <= base /\ base + 256 <= 2 ^ 64) /\ base_address_register i = base /\ delays_ok (card h) /\
  some_voltage (capabilities i) = true /\ card_csd (card h) / 2 ^ 126 = 1 /\
  csd_size (card_csd (card h)) <= len (blocks h) /\ csd_size (card_csd (card h)) <= 2 ^ 23 /\
  Forall sector_ok (blocks h).


(** A controller at [0x1000] with a card of two sectors, as its own machine. *)
Module TwoSectors.
#[export] Instance mmio : Mmio Host := host_mmio 0x1000.
#[export] Instance sd_host : SdHost Host 0x1000.
Proof.
  refine {| host := fun h => h |}; intros; cbn; rewrite Z.add_simpl_l; try done.
  - destruct (host_read off w). by eexists.
  - destruct (host_read_bytes off w). by eexists.
Defined.

Definition a_card : Card := {|
  caps := 2 ^ 24;
  respond c _ := if c =? 3 then 0x12340000 else if c =? 9 then 2 ^ 118 + 2 ^ 40 else 0x900;
  reset_delay := 2; clock_delay := 1; cmd_delay := 3; buf_delay := 5
|}.
Definition a_host : Host := mkHost a_card [vec 1 512; vec 2 512] ∅ 7 (Some 1%nat) 0 (Writing 0 []) true.
Definition internal : SDCardInfoInternal := mkInternal (2 ^ 24) 0x1000.

Lemma a_host_supported : supported 0x1000 internal a_host.
Proof.
  unfold supported, delays_ok, a_host. cbn [card blocks].
  repeat split; try done; try (cbn; lia); try (vm_compute; congruence); try (apply Nat.ltb_lt; vm_compute; done).
  repeat constructor.
Qed.
End TwoSectors.

