(* ===== verification/Events.v ===== *)
(** * The event system ([events/mod.rs], [events/event_runner.rs], [events/event.rs])

    Every core runs the futures given to it: [EVENT_RUNNERS] maps the core to
    its runner, which has one queue of events per priority, a queue of events
    that were woken, the set of the events still to be finished, the event that
    is being polled and a clock that counts polls.

    Events are shared ([Arc<Event>]), and so is the rewake queue of a runner,
    which every event of the runner holds: both live in stores of the state and
    are passed around as handles.  The futures are a parameter: polling one
    yields its next state, whether it is ready, and the calls it made into this
    module (wakers it woke, events it scheduled).  Each operation runs to its
    end without being interleaved with another core's; the spin locks that
    protect the queues are in [KernelLocks.v]. *)

From S2P Require Import Prelude.

Definition NUM_EVENT_PRIORITIES : nat := 4.
Definition PRIORITY_INC_DELAY : Z := 5.

(** [struct Event]; an [EventId] is its number. *)
Record Event (Fut : Type) := mkEvent {
  eid : Z;
  pid : Z;
  future : Fut;
  rewake_queue : nat;
  priority : nat;
  scheduled_clock : Z
}.
Arguments mkEvent {Fut}.
Arguments eid {Fut}.
Arguments pid {Fut}.
Arguments future {Fut}.
Arguments rewake_queue {Fut}.
Arguments priority {Fut}.
Arguments scheduled_clock {Fut}.

Definition set_future {Fut} (e : Event Fut) (f : Fut) : Event Fut :=
  mkEvent (eid e) (pid e) f (rewake_queue e) (priority e) (scheduled_clock e).
Definition set_schedule {Fut} (e : Event Fut) (p : nat) (c : Z) : Event Fut :=
  mkEvent (eid e) (pid e) (future e) (rewake_queue e) p c.

(** [struct EventRunner]. *)
Record EventRunner := mkRunner {
  event_queues : list (list nat);
  runner_rewake_queue : nat;
  pending_events : gset Z;
  current_event : option nat;
  clock : Z
}.

Definition set_queues (r : EventRunner) (qs : list (list nat)) : EventRunner :=
  mkRunner qs (runner_rewake_queue r) (pending_events r) (current_event r) (clock r).
Definition set_pending (r : EventRunner) (p : gset Z) : EventRunner :=
  mkRunner (event_queues r) (runner_rewake_queue r) p (current_event r) (clock r).
Definition set_current (r : EventRunner) (c : option nat) : EventRunner :=
  mkRunner (event_queues r) (runner_rewake_queue r) (pending_events r) c (clock r).
Definition set_clock (r : EventRunner) (c : Z) : EventRunner :=
  mkRunner (event_queues r) (runner_rewake_queue r) (pending_events r) (current_event r) c.

(** The state of the module: its two statics and the shared objects. *)
Record Sys (Fut : Type) := mkSys {
  NEXT_ID : Z;
  EVENT_RUNNERS : gmap Z EventRunner;
  events : list (Event Fut);
  rewakes : list (list nat)
}.
Arguments mkSys {Fut}.
Arguments NEXT_ID {Fut}.
Arguments EVENT_RUNNERS {Fut}.
Arguments events {Fut}.
Arguments rewakes {Fut}.

(** What a future does to this module while it is polled. *)
Inductive effect (Fut : Type) :=
| Wake (arc : nat)
| ScheduleKernel (cpuid : Z) (f : Fut) (priority_level : nat)
| ScheduleProcess (cpuid : Z) (f : Fut) (process : Z).
Arguments Wake {Fut}.
Arguments ScheduleKernel {Fut}.
Arguments ScheduleProcess {Fut}.

(** [poll f w]: the future after [poll] with the waker of event [w], whether it
    is [Poll::Ready], and its calls into this module in order. *)
Class Future (Fut : Type) := poll : Fut -> nat -> Fut * bool * list (effect Fut).

(** [EventInfo]. *)
Record EventInfo := mkEventInfo { info_priority : nat; info_pid : Z }.

(** What one turn of [run_loop] did: nothing is pending, the event taken was
    finished before, or the event was polled (and was ready or not). *)
Inductive turn :=
| Idle
| Skipped (arc : nat)
| Polled (arc : nat) (ready : bool).

(** ** Operations *)

Section events.
Context {Fut : Type} `{Future Fut}.
Abbreviation MS := (M (Sys Fut) no_error).

Definition with_runner (s : Sys Fut) (cpuid : Z) (r : EventRunner) : Sys Fut :=
  mkSys (NEXT_ID s) (<[cpuid := r]> (EVENT_RUNNERS s)) (events s) (rewakes s).
Definition with_event (s : Sys Fut) (arc : nat) (e : Event Fut) : Sys Fut :=
  mkSys (NEXT_ID s) (EVENT_RUNNERS s) (<[arc := e]> (events s)) (rewakes s).
Definition with_rewake (s : Sys Fut) (h : nat) (q : list nat) : Sys Fut :=
  mkSys (NEXT_ID s) (EVENT_RUNNERS s) (events s) (<[h := q]> (rewakes s)).

(** The runner of a core ([.get(&cpuid).expect(..)]) and the shared objects. *)
Definition runner (cpuid : Z) : MS EventRunner :=
  let! s := get_state in expect (EVENT_RUNNERS s !! cpuid).
Definition put_runner (cpuid : Z) (r : EventRunner) : MS unit :=
  let! s := get_state in put_state (with_runner s cpuid r).
Definition event (arc : nat) : MS (Event Fut) :=
  let! s := get_state in expect (events s !! arc).
Definition put_event (arc : nat) (e : Event Fut) : MS unit :=
  let! s := get_state in put_state (with_event s arc e).
Definition rewake (h : nat) : MS (list nat) :=
  let! s := get_state in expect (rewakes s !! h).
Definition put_rewake (h : nat) (q : list nat) : MS unit :=
  let! s := get_state in put_state (with_rewake s h q).

(** [EventId::init]: [NEXT_ID.fetch_add(1)], which wraps around. *)
Definition EventId_init : MS Z :=
  let! s := get_state in
  put_state (mkSys (wrap 64 (NEXT_ID s + 1)) (EVENT_RUNNERS s) (events s) (rewakes s)) ;!
  ret (NEXT_ID s).

(** [Event::init]. *)
Definition Event_init (f : Fut) (rewake_queue priority : nat) (pid scheduled_clock : Z) : MS (Event Fut) :=
  let! eid := EventId_init in
  ret (mkEvent eid pid f rewake_queue priority scheduled_clock).

(** [Arc::new(event)], [Arc::new(RwLock::new(VecDeque::new()))]. *)
Definition arc_new (e : Event Fut) : MS nat :=
  let! s := get_state in
  put_state (mkSys (NEXT_ID s) (EVENT_RUNNERS s) (events s ++ [e]) (rewakes s)) ;!
  ret (length (events s)).
Definition queue_new : MS nat :=
  let! s := get_state in
  put_state (mkSys (NEXT_ID s) (EVENT_RUNNERS s) (events s) (rewakes s ++ [[]])) ;!
  ret (length (rewakes s)).

(** [Event::wake_by_ref]. *)
Definition wake_by_ref (arc : nat) : MS unit :=
  let! e := event arc in
  let! q := rewake (rewake_queue e) in
  put_rewake (rewake_queue e) (q ++ [arc]).

(** [EventRunner::init]. *)
Definition EventRunner_init : MS EventRunner :=
  let! h := queue_new in
  ret (mkRunner (replicate NUM_EVENT_PRIORITIES []) h ∅ None 0).

(** [have_pending_events], which is true when there are none, and [contains_event]. *)
Definition have_pending_events (self : EventRunner) : bool := bool_decide (pending_events self = ∅).
Definition contains_event (self : EventRunner) (eid : Z) : bool :=
  bool_decide (eid ∈ pending_events self).
Definition current_running_event (self : EventRunner) : option nat := current_event self.

(** [try_pop], [enqueue] and [front_clock] on a queue. *)
Definition try_pop (q : list nat) : option nat * list nat :=
  match q with [] => (None, []) | a :: q' => (Some a, q') end.
Definition enqueue (q : list nat) (arc : nat) : list nat := q ++ [arc].
Definition front_clock (q : list nat) : MS (option Z) :=
  match q with
  | [] => ret None
  | a :: _ => let! e := event a in ret (Some (scheduled_clock e))
  end.

(** [schedule] on the runner of [cpuid]. *)
Definition schedule (cpuid : Z) (f : Fut) (priority_level : nat) (pid : Z) : MS unit :=
  let! self := runner cpuid in
  if (NUM_EVENT_PRIORITIES <=? priority_level)%nat then panic else
  let! ev := Event_init f (runner_rewake_queue self) priority_level pid (clock self) in
  let! arc := arc_new ev in
  let! q := expect (event_queues self !! priority_level) in
  put_runner cpuid
    (set_pending (set_queues self (<[priority_level := enqueue q arc]> (event_queues self)))
                 ({[eid ev]} ∪ pending_events self)).

(** [schedule_kernel], [schedule_process]. *)
Definition schedule_kernel (cpuid : Z) (f : Fut) (priority_level : nat) : MS unit :=
  schedule cpuid f priority_level 0.
Definition schedule_process (cpuid : Z) (f : Fut) (pid : Z) : MS unit :=
  schedule cpuid f (NUM_EVENT_PRIORITIES - 1)%nat pid.

(** [register_event_runner]: a runner registered before is replaced. *)
Definition register_event_runner (cpuid : Z) : MS unit :=
  let! r := EventRunner_init in
  put_runner cpuid r.

(** [current_running_event_pid], [.._priority], [.._info]. *)
Definition current_running_event_pid (cpuid : Z) : MS Z :=
  let! self := runner cpuid in
  match current_running_event self with
  | Some arc => let! e := event arc in ret (pid e)
  | None => ret 0
  end.
Definition current_running_event_priority (cpuid : Z) : MS nat :=
  let! self := runner cpuid in
  match current_running_event self with
  | Some arc => let! e := event arc in ret (priority e)
  | None => ret (NUM_EVENT_PRIORITIES - 1)%nat
  end.
Definition current_running_event_info (cpuid : Z) : MS EventInfo :=
  let! self := runner cpuid in
  match current_running_event self with
  | Some arc => let! e := event arc in ret (mkEventInfo (priority e) (pid e))
  | None => ret (mkEventInfo (NUM_EVENT_PRIORITIES - 1) 0)
  end.

(** The body of the loop of [reprioritize]: the front event of queue [i] moves
    one queue up when it was scheduled [PRIORITY_INC_DELAY] polls ago. *)
Definition promote (cpuid : Z) (i : nat) : MS unit :=
  let! self := runner cpuid in
  let! q := expect (event_queues self !! i) in
  let! scheduled := front_clock q in
  match scheduled with
  | None => ret tt
  | Some event_scheduled_at =>
      let! due := chk 64 (event_scheduled_at + PRIORITY_INC_DELAY) in
      if due <=? clock self then
        match try_pop q with
        | (Some arc, q') =>
            let qs := <[i := q']> (event_queues self) in
            let! above := expect (qs !! (i - 1)%nat) in
            put_runner cpuid (set_queues self (<[(i - 1)%nat := enqueue above arc]> qs)) ;!
            let! e := event arc in
            put_event arc (set_schedule e (i - 1)%nat (clock self))
        | (None, _) => ret tt
        end
      else ret tt
  end.
Definition reprioritize (cpuid : Z) : MS unit :=
  for_do (seq 1 (NUM_EVENT_PRIORITIES - 1)) (promote cpuid).

(** [next_event]. *)
Definition pop_queue (cpuid : Z) (i : nat) : MS (option nat) :=
  let! self := runner cpuid in
  let! q := expect (event_queues self !! i) in
  let (arc, q') := try_pop q in
  put_runner cpuid (set_queues self (<[i := q']> (event_queues self))) ;!
  ret arc.
Definition next_event (cpuid : Z) : MS (option nat) :=
  let! self := runner cpuid in
  let! q := rewake (runner_rewake_queue self) in
  match try_pop q with
  | (Some arc, q') => put_rewake (runner_rewake_queue self) q' ;! ret (Some arc)
  | (None, _) =>
      reprioritize cpuid ;!
      for_each (seq 0 NUM_EVENT_PRIORITIES) (pop_queue cpuid)
  end.

Definition run_effect (x : effect Fut) : MS unit :=
  match x with
  | Wake arc => wake_by_ref arc
  | ScheduleKernel cpuid f priority_level => schedule_kernel cpuid f priority_level
  | ScheduleProcess cpuid f process => schedule_process cpuid f process
  end.

(** The polling of an event that is still pending, in the body of [run_loop]. *)
Definition poll_event (cpuid : Z) (arc : nat) : MS bool :=
  let! self := runner cpuid in
  let! now := chk 64 (clock self + 1) in
  put_runner cpuid (set_clock self now) ;!
  let! e := event arc in
  let '(f, ready, effects) := poll (future e) arc in
  put_event arc (set_future e f) ;!
  for_do effects run_effect ;!
  let! e := event arc in
  let! self := runner cpuid in
  (if negb ready then
     let! q := expect (event_queues self !! priority e) in
     put_runner cpuid
       (set_queues self (<[priority e := enqueue q arc]> (event_queues self)))
   else put_runner cpuid (set_pending self (pending_events self ∖ {[eid e]}))) ;!
  ret ready.

(** The end of the body, [self.current_event = None]. *)
Definition finish_turn (cpuid : Z) (t : turn) : MS turn :=
  let! self := runner cpuid in
  put_runner cpuid (set_current self None) ;!
  ret t.

(** The body of the inner loop of [run_loop]; [Idle] is its [break]. *)
Definition run_turn (cpuid : Z) : MS turn :=
  let! self := runner cpuid in
  if have_pending_events self then ret Idle else
  let! current := next_event cpuid in
  let! self := runner cpuid in
  put_runner cpuid (set_current self current) ;!
  let! arc := expect current in
  let! e := event arc in
  let! t :=
    (if contains_event self (eid e) then
       let! ready := poll_event cpuid arc in ret (Polled arc ready)
     else ret (Skipped arc)) in
  finish_turn cpuid t.

(** [run_loop]: the inner loop runs until nothing is pending, then the core
    halts until an interrupt, whose handler may wake and schedule events. *)
Fixpoint run_until_idle (fuel : nat) (cpuid : Z) : MS unit :=
  match fuel with
  | O => diverge
  | S fuel =>
      let! t := run_turn cpuid in
      match t with
      | Idle => ret tt
      | _ => run_until_idle fuel cpuid
      end
  end.
Definition run_loop (fuel : nat) (cpuid : Z) (interrupts : list (list (effect Fut))) : MS unit :=
  let! _ := runner cpuid in
  for_do interrupts (fun calls => run_until_idle fuel cpuid ;! for_do calls run_effect).

(** ** The module as a transition system *)

Inductive action :=
| Turn (cpuid : Z)
| Call (x : effect Fut)
| Register (cpuid : Z).

Definition exec (a : action) : MS turn :=
  match a with
  | Turn cpuid => run_turn cpuid
  | Call x => run_effect x ;! ret Idle
  | Register cpuid => register_event_runner cpuid ;! ret Idle
  end.

Definition boot : Sys Fut := mkSys 0 ∅ [] [].

(** [runs s ts s']: some sequence of actions takes [s] to [s'], each of them
    returning, and [ts] is what they did. *)
Inductive runs (s : Sys Fut) : list turn -> Sys Fut -> Prop :=
| runs_nil : runs s [] s
| runs_snoc ts s1 a t s2 : runs s ts s1 -> exec a s1 = (Ok t, s2) -> runs s (ts ++ [t]) s2.

(** Running a given list of actions. *)
Fixpoint trace (xs : list action) : MS (list turn) :=
  match xs with
  | [] => ret []
  | x :: xs => let! t := exec x in let! ts := trace xs in ret (t :: ts)
  end.

Lemma trace_runs xs s0 ts0 s ts s' :
  runs s0 ts0 s -> trace xs s = (Ok ts, s') -> runs s0 (ts0 ++ ts) s'.
Proof.
  revert ts0 s ts. induction xs as [|x xs IH]; intros ts0 s ts Hr Ht; cbn in Ht.
  - injection Ht as <- <-. by rewrite app_nil_r.
  - apply bind_ok_inv in Ht as (t & s1 & Hx & Ht).
    apply bind_ok_inv in Ht as (ts' & s2 & Ht & [= <- <-]).
    rewrite cons_middle, app_assoc. eapply IH; [|done]. by econstructor.
Qed.

(** ** Invariant *)

(** Events waiting in the priority queues of a runner, or being polled. *)
Definition queued (r : EventRunner) : list nat := concat (event_queues r).
Definition held (r : EventRunner) : list nat := option_list (current_event r) ++ queued r.

(** [a] is an event of the runner [r]: it holds the rewake queue of [r]. *)
Definition mine (s : Sys Fut) (r : EventRunner) (a : nat) : Prop :=
  exists e, events s !! a = Some e /\ rewake_queue e = runner_rewake_queue r.

Record runner_ok (s : Sys Fut) (r : EventRunner) : Prop := {
  ro_len : length (event_queues r) = NUM_EVENT_PRIORITIES;
  ro_mine : forall a, a ∈ held r -> mine s r a;
  ro_pending : forall p, p ∈ pending_events r ->
    exists a e, a ∈ held r /\ events s !! a = Some e /\ eid e = p;
  ro_rewake : is_Some (rewakes s !! runner_rewake_queue r);
  ro_clock : 0 <= clock r
}.

Record event_ok (s : Sys Fut) (e : Event Fut) : Prop := {
  eo_priority : (priority e < NUM_EVENT_PRIORITIES)%nat;
  eo_rewake : is_Some (rewakes s !! rewake_queue e);
  eo_clock : 0 <= scheduled_clock e;
  eo_clock_le : forall c r, EVENT_RUNNERS s !! c = Some r ->
    rewake_queue e = runner_rewake_queue r -> scheduled_clock e <= clock r
}.

Record sys_ok (s : Sys Fut) : Prop := {
  so_runners : forall c r, EVENT_RUNNERS s !! c = Some r -> runner_ok s r;
  so_events : forall a e, events s !! a = Some e -> event_ok s e;
  so_rewakes : forall h q a, rewakes s !! h = Some q -> a ∈ q ->
    exists e, events s !! a = Some e /\ rewake_queue e = h;
  so_inj : forall c c' r r', EVENT_RUNNERS s !! c = Some r -> EVENT_RUNNERS s !! c' = Some r' ->
    runner_rewake_queue r = runner_rewake_queue r' -> c = c';
  so_next_id : NEXT_ID s = wrap 64 (len (events s));
  so_ids : forall a e, events s !! a = Some e -> eid e = wrap 64 (Z.of_nat a)
}.

(** Between turns no event is being polled. *)
Definition resting (s : Sys Fut) : Prop :=
  forall c r, EVENT_RUNNERS s !! c = Some r -> current_event r = None.
End events.
