(* ===== verification/EventSafety.v ===== *)
(** * Safety of the event system

    The invariant [sys_ok] of [Events] holds in every state the event system
    reaches, whatever the futures do; under it the run loop never finds its
    queues empty while an event is pending, and an event whose future was ready
    is never polled again. *)

From S2P Require Import Prelude Events.

(** ** Queues *)

Section queues.
Context {A : Type}.
Implicit Types (qs : list (list A)) (q : list A).

Lemma concat_split_at qs i q q' :
  qs !! i = Some q ->
  exists rest, concat qs ≡ₚ q ++ rest /\ concat (<[i := q']> qs) ≡ₚ q' ++ rest.
Proof.
  intros Hi. exists (concat (take i qs) ++ concat (drop (S i) qs)).
  assert (i < length qs)%nat by (eapply lookup_lt_Some; eauto).
  rewrite insert_take_drop by done. rewrite <- (take_drop_middle _ _ _ Hi) at 1.
  rewrite !concat_app. cbn. by rewrite !(Permutation_app_comm (concat (take i qs))), <- !app_assoc,
    !(Permutation_app_comm (concat (drop (S i) qs))).
Qed.

(** Popping the front of a queue, pushing at the back of one. *)
Lemma concat_pop qs i a q :
  qs !! i = Some (a :: q) -> concat qs ≡ₚ a :: concat (<[i := q]> qs).
Proof. intros Hi. by destruct (concat_split_at _ _ _ q Hi) as (rest & -> & ->). Qed.

Lemma concat_push qs i a q :
  qs !! i = Some q -> concat (<[i := q ++ [a]]> qs) ≡ₚ a :: concat qs.
Proof.
  intros Hi. destruct (concat_split_at _ _ _ (q ++ [a]) Hi) as (rest & -> & ->).
  by rewrite <- Permutation_middle, (app_nil_r q).
Qed.
End queues.

(** ** Evolution of the state *)

Section evolution.
Context {Fut : Type} `{Future Fut}.
Implicit Types (s : Sys Fut) (r : EventRunner) (e : Event Fut).

(** Events keep their identity; what becomes pending is new. *)
Record evolves s s' : Prop := {
  ev_events : forall a e, events s !! a = Some e -> exists e', events s' !! a = Some e' /\
    eid e' = eid e /\ rewake_queue e' = rewake_queue e /\ pid e' = pid e;
  ev_pending : forall c r' p, EVENT_RUNNERS s' !! c = Some r' -> p ∈ pending_events r' ->
    (exists r, EVENT_RUNNERS s !! c = Some r /\ p ∈ pending_events r) \/
    (exists n, (length (events s) <= n < length (events s'))%nat /\ p = wrap 64 (Z.of_nat n))
}.

(** Runners stay, with their rewake queue and the event being polled. *)
Record keeps s s' : Prop := {
  kp_runner : forall c r, EVENT_RUNNERS s !! c = Some r -> exists r', EVENT_RUNNERS s' !! c = Some r' /\
    runner_rewake_queue r' = runner_rewake_queue r /\ current_event r' = current_event r;
  kp_none : forall c, EVENT_RUNNERS s !! c = None -> EVENT_RUNNERS s' !! c = None
}.

Definition grows s s' : Prop := evolves s s' /\ keeps s s'.

Lemma evolves_length s s' : evolves s s' -> (length (events s) <= length (events s'))%nat.
Proof.
  intros [He _]. destruct (decide (length (events s) = 0%nat)); [lia|].
  destruct (lookup_lt_is_Some_2 (events s) (length (events s) - 1)) as [e Hl]; [lia|].
  destruct (He _ _ Hl) as (e' & Hl' & _). apply lookup_lt_Some in Hl'. lia.
Qed.

#[global] Instance evolves_preorder : PreOrder evolves.
Proof.
  split.
  - intros s. split; [naive_solver|]. intros c r' p ? ?. left. by exists r'.
  - intros s1 s2 s3 H12 H23. split.
    + intros a e (e2 & H2 & ? & ? & ?)%(ev_events _ _ H12).
      apply (ev_events _ _ H23) in H2 as (e3 & ? & ? & ? & ?). exists e3. split_and!; congruence.
    + intros c r' p Hr Hp.
      pose proof (evolves_length _ _ H12). pose proof (evolves_length _ _ H23).
      destruct (ev_pending _ _ H23 _ _ _ Hr Hp) as [(r2 & Hr2 & Hp2)|(n & ? & ->)].
      * destruct (ev_pending _ _ H12 _ _ _ Hr2 Hp2) as [?|(n & ? & ->)]; [by left|].
        right. exists n. split; [lia|done].
      * right. exists n. split; [lia|done].
Qed.

#[global] Instance keeps_preorder : PreOrder keeps.
Proof.
  split.
  - intros s. split; [|done]. intros c r Hr. by exists r.
  - intros s1 s2 s3 [H12 N12] [H23 N23]. split; [|auto]. intros c r (r2 & Hr2 & ? & ?)%H12.
    apply H23 in Hr2 as (r3 & ? & ? & ?). exists r3. split_and!; congruence.
Qed.

#[global] Instance grows_preorder : PreOrder grows.
Proof.
  split; [by intros s|]. intros s1 s2 s3 [? ?] [? ?]. by split; etrans.
Qed.

(** Replacing a runner, an event, a rewake queue. *)
Lemma evolves_runner s c r r' :
  EVENT_RUNNERS s !! c = Some r -> pending_events r' ⊆ pending_events r ->
  evolves s (with_runner s c r').
Proof.
  intros Hr Hp. split; [naive_solver|]. cbn. intros c' r1 p.
  rewrite lookup_insert_Some. intros [[<- <-]|[? ?]] ?; left; set_solver.
Qed.

Lemma grows_runner s c r r' :
  EVENT_RUNNERS s !! c = Some r -> pending_events r' ⊆ pending_events r ->
  runner_rewake_queue r' = runner_rewake_queue r -> current_event r' = current_event r ->
  grows s (with_runner s c r').
Proof.
  intros Hr Hp Hq Hc. split; [by eapply evolves_runner|]. split; cbn.
  - intros c' r1 Hr1. destruct (decide (c' = c)) as [->|].
    + simplify_map_eq. eauto.
    + rewrite lookup_insert_ne by done. eauto.
  - intros c' Hn. rewrite lookup_insert_ne; [done|]. intros ->. congruence.
Qed.

Lemma grows_event s a e e' :
  events s !! a = Some e -> eid e' = eid e -> rewake_queue e' = rewake_queue e ->
  pid e' = pid e -> grows s (with_event s a e').
Proof.
  intros He ? ? ?. split; [split|].
  - intros b e1 Hb. cbn. destruct (decide (b = a)) as [->|].
    + exists e'. rewrite list_lookup_insert_eq by (by eapply lookup_lt_Some). naive_solver.
    + rewrite list_lookup_insert_ne by done. eauto.
  - intros c r' p ? ?. left. eauto.
  - split; cbn; eauto.
Qed.

Lemma grows_rewake s h q : grows s (with_rewake s h q).
Proof. split; [split|split]; cbn; [naive_solver| |eauto|eauto]. intros c r' p ??. left. eauto. Qed.
End evolution.

(** ** The invariant under each kind of update *)

Section invariant.
Context {Fut : Type} `{Future Fut}.
Implicit Types (s : Sys Fut) (r : EventRunner) (e : Event Fut).

(** The part of [evolves] a runner depends on. *)
Definition same_ids s s' : Prop :=
  forall a e, events s !! a = Some e -> exists e', events s' !! a = Some e' /\
    eid e' = eid e /\ rewake_queue e' = rewake_queue e /\ pid e' = pid e.

Lemma same_ids_refl s s' : events s' = events s -> same_ids s s'.
Proof. intros Hs a e He. exists e. by rewrite Hs. Qed.

Lemma mine_evolves s s' r r' a :
  same_ids s s' -> runner_rewake_queue r' = runner_rewake_queue r -> mine s r a -> mine s' r' a.
Proof. intros Hg Hr (e & (e' & ? & ? & ? & ?)%Hg & Hq). exists e'. split; congruence. Qed.

Lemma runner_ok_evolves s s' r :
  same_ids s s' -> (forall h, is_Some (rewakes s !! h) -> is_Some (rewakes s' !! h)) ->
  runner_ok s r -> runner_ok s' r.
Proof.
  intros Hg Hw [Hl Hm Hp Hr Hc]. split; [done| | |by apply Hw|done].
  - intros a ?. eapply mine_evolves; eauto.
  - intros p (a & e & ? & (e' & ? & ? & ?)%Hg & ?)%Hp. exists a, e'. split_and!; [done|done|congruence].
Qed.

Lemma sys_ok_runner s c r r' :
  sys_ok s -> EVENT_RUNNERS s !! c = Some r -> runner_rewake_queue r' = runner_rewake_queue r ->
  clock r <= clock r' -> runner_ok s r' -> sys_ok (with_runner s c r').
Proof.
  intros [Hru He Hw Hi Hn Hid] Hr Hq Hc Hok. split; cbn; [| |done| |done|done].
  - intros c1 r1 Hr1. eapply (runner_ok_evolves s); [by apply same_ids_refl|done|].
    apply lookup_insert_Some in Hr1 as [[<- <-]|[? ?]]; eauto.
  - intros a e Ha. destruct (He _ _ Ha) as [? ? ? Hle]. split; [done..|]. cbn.
    intros c1 r1 [[<- <-]|[? ?]]%lookup_insert_Some ?; [|eauto].
    etrans; [eapply Hle; [done|congruence]|done].
  - intros c1 c2 r1 r2 [[<- <-]|[? ?]]%lookup_insert_Some [[<- <-]|[? ?]]%lookup_insert_Some ?;
      [done|eapply Hi; eauto; congruence..].
Qed.

Lemma sys_ok_event s a e e' :
  sys_ok s -> events s !! a = Some e -> eid e' = eid e -> rewake_queue e' = rewake_queue e ->
  pid e' = pid e -> event_ok s e' -> sys_ok (with_event s a e').
Proof.
  intros Hs He Hi Hq Hp Hok.
  destruct (grows_event s a e e' He Hi Hq Hp) as [[Hg _] _].
  destruct Hs as [Hru Hev Hw Hinj Hn Hid]. split; cbn; [| | |done| |].
  - intros c r Hr. eapply (runner_ok_evolves s); [done|done|eauto].
  - intros b e1 [(<- & <- & _)|[? Hb]]%list_lookup_insert_Some; [by destruct Hok|].
    by destruct (Hev _ _ Hb).
  - intros h q b Hh Hb. destruct (Hw _ _ _ Hh Hb) as (e1 & (e2 & ? & ? & ? & ?)%Hg & ?).
    exists e2. split; [done|congruence].
  - unfold len. by rewrite length_insert.
  - intros b e1 [(<- & <- & _)|[? Hb]]%list_lookup_insert_Some; [|by apply Hid].
    rewrite Hi. by apply Hid.
Qed.

Lemma sys_ok_rewake s h q' :
  sys_ok s -> is_Some (rewakes s !! h) ->
  (forall a, a ∈ q' -> exists e, events s !! a = Some e /\ rewake_queue e = h) ->
  sys_ok (with_rewake s h q').
Proof.
  intros [Hru Hev Hw Hinj Hn Hid] Hh Hq.
  assert (forall x, is_Some (rewakes s !! x) -> is_Some (<[h := q']> (rewakes s) !! x)) as Hmono.
  { intros x. rewrite !lookup_lt_is_Some, length_insert. done. }
  split; cbn; [| | |done|done|done].
  - intros c r Hr. eapply (runner_ok_evolves s); [by apply same_ids_refl|done|eauto].
  - intros a e [? ? ? ?]%Hev. split; cbn; auto.
  - intros x q a [(<- & <- & _)|[? Hx]]%list_lookup_insert_Some Ha; eauto.
Qed.

(** ** Parts of a runner *)

Lemma runner_ok_queues s r qs :
  runner_ok s r -> length qs = length (event_queues r) -> concat qs ≡ₚ queued r ->
  runner_ok s (set_queues r qs).
Proof.
  intros [Hl Hm Hp Hr Hc] Hlen Hqs.
  assert (forall a, a ∈ held (set_queues r qs) <-> a ∈ held r) as Hheld.
  { intros a. unfold held. cbn. unfold queued at 1. cbn. rewrite !elem_of_app, Hqs. done. }
  split; cbn; [congruence| | |done|done].
  - intros a ?%Hheld. by apply Hm.
  - intros p (a & e & ?%Hheld & ?)%Hp. eauto.
Qed.

Lemma runner_ok_clock s r c : runner_ok s r -> 0 <= c -> runner_ok s (set_clock r c).
Proof. intros [? ? ? ? ?] ?. by split. Qed.

Lemma runner_ok_push s r i q a :
  runner_ok s r -> event_queues r !! i = Some q -> mine s r a ->
  runner_ok s (set_queues r (<[i := enqueue q a]> (event_queues r))).
Proof.
  intros [Hl Hm Hp Hr Hc] Hq Ha. unfold enqueue.
  assert (forall b, b ∈ held (set_queues r (<[i := q ++ [a]]> (event_queues r))) <->
    b = a \/ b ∈ held r) as Hheld.
  { intros b. unfold held, queued. cbn. rewrite !elem_of_app, concat_push by done. set_solver. }
  split; cbn; [by rewrite length_insert| | |done|done].
  - intros b [->|?]%Hheld; [done|]. by apply Hm.
  - intros p (b & e & ? & ?)%Hp. exists b, e. split; [|done]. apply Hheld. auto.
Qed.

Lemma runner_ok_done s r p :
  runner_ok s r -> runner_ok s (set_pending r (pending_events r ∖ {[p]})).
Proof. intros [? ? Hp ? ?]. split; cbn; [done|done| |done|done]. intros p' [? _]%elem_of_difference. by apply Hp. Qed.

(** The event that was polled is let go of: it waits in a queue or is finished. *)
Lemma runner_ok_release s r a :
  runner_ok s r -> current_event r = Some a ->
  (a ∈ queued r \/ forall e, events s !! a = Some e -> eid e ∉ pending_events r) ->
  runner_ok s (set_current r None).
Proof.
  intros [Hl Hm Hp Hr Hc] Hcur Ha. split; cbn; [done| | |done|done].
  - intros b ?. apply Hm. unfold held in *. rewrite Hcur. set_solver.
  - intros p Hpp. destruct (Hp _ Hpp) as (b & e & Hb & He & <-). unfold held in *.
    rewrite Hcur in Hb. cbn in Hb. apply elem_of_cons in Hb as [->|]; [|by exists b, e].
    destruct Ha as [?|Hn]; [by exists a, e|]. by destruct (Hn _ He).
Qed.

(** The event popped from a queue becomes the current one. *)
Lemma runner_ok_take s r i a q :
  runner_ok s r -> current_event r = None -> event_queues r !! i = Some (a :: q) ->
  runner_ok s (set_current (set_queues r (<[i := q]> (event_queues r))) (Some a)).
Proof.
  intros [Hl Hm Hp Hr Hc] Hcur Hq.
  assert (forall b, b ∈ held (set_current (set_queues r (<[i := q]> (event_queues r))) (Some a)) <->
    b ∈ held r) as Hheld.
  { intros b. unfold held, queued. rewrite Hcur. cbn. by rewrite (concat_pop (event_queues r) i a q). }
  split; cbn; [by rewrite length_insert| | |done|done].
  - intros b ?%Hheld. by apply Hm.
  - intros p (b & e & ?%Hheld & ?)%Hp. eauto.
Qed.

Lemma runner_ok_current s r a :
  runner_ok s r -> current_event r = None -> mine s r a -> runner_ok s (set_current r (Some a)).
Proof.
  intros [Hl Hm Hp Hr Hc] Hcur Ha. split; cbn; [done| | |done|done].
  - unfold held in *. rewrite Hcur in Hm. cbn in *. intros b [->|?]%elem_of_cons; [done|]. by apply Hm.
  - intros p (b & e & Hb & ?)%Hp. exists b, e. split; [|done]. unfold held in *.
    rewrite Hcur in Hb. cbn in *. set_solver.
Qed.
End invariant.

(** ** The operations *)

Section operations.
Context {Fut : Type} `{Future Fut}.
Implicit Types (s : Sys Fut) (r : EventRunner) (e : Event Fut).

Lemma wp_runner c (Q : EventRunner -> Sys Fut -> Prop) (X : Prop) s :
  (forall r, EVENT_RUNNERS s !! c = Some r -> Q r s) -> (EVENT_RUNNERS s !! c = None -> X) ->
  wp (runner c) Q X s.
Proof. intros HQ HX. unfold runner. repeat wp_step; auto. Qed.

Lemma wp_event a (Q : Event Fut -> Sys Fut -> Prop) (X : Prop) s :
  (forall e, events s !! a = Some e -> Q e s) -> (events s !! a = None -> X) ->
  wp (event a) Q X s.
Proof. intros HQ HX. unfold event. repeat wp_step; auto. Qed.

Lemma wp_rewake h (Q : list nat -> Sys Fut -> Prop) (X : Prop) s :
  (forall q, rewakes s !! h = Some q -> Q q s) -> (rewakes s !! h = None -> X) ->
  wp (rewake h) Q X s.
Proof. intros HQ HX. unfold rewake. repeat wp_step; auto. Qed.

Lemma wp_put_runner c r (Q : unit -> Sys Fut -> Prop) X s :
  Q tt (with_runner s c r) -> wp (put_runner c r) Q X s.
Proof. done. Qed.
Lemma wp_put_event a e (Q : unit -> Sys Fut -> Prop) X s :
  Q tt (with_event s a e) -> wp (put_event a e) Q X s.
Proof. done. Qed.
Lemma wp_put_rewake h q (Q : unit -> Sys Fut -> Prop) X s :
  Q tt (with_rewake s h q) -> wp (put_rewake h q) Q X s.
Proof. done. Qed.

(** A call of a future that the module accepts. *)
Definition valid_effect s (x : effect Fut) : Prop :=
  match x with
  | Wake a => is_Some (events s !! a)
  | ScheduleKernel c _ p => is_Some (EVENT_RUNNERS s !! c) /\ (p < NUM_EVENT_PRIORITIES)%nat
  | ScheduleProcess c _ _ => is_Some (EVENT_RUNNERS s !! c)
  end.

Lemma valid_effect_grows s s' x : grows s s' -> valid_effect s x -> valid_effect s' x.
Proof.
  intros [[He _] [Hr _]].
  assert (forall c, is_Some (EVENT_RUNNERS s !! c) -> is_Some (EVENT_RUNNERS s' !! c)) as Hc.
  { intros c [r (r' & -> & _)%Hr]. done. }
  destruct x; cbn; [|naive_solver..]. intros [e (e' & -> & _)%He]. done.
Qed.

Lemma wake_by_ref_spec a s :
  sys_ok s -> wp (wake_by_ref a) (fun _ s' => sys_ok s' /\ grows s s') (~ is_Some (events s !! a)) s.
Proof.
  intros Hs. unfold wake_by_ref. wp_step. apply wp_event; [|by intros ->; intros []%is_Some_None].
  intros e He. wp_step. apply wp_rewake.
  - intros q Hq. apply wp_put_rewake. split; [|apply grows_rewake].
    apply sys_ok_rewake; [done|eauto|]. intros b [Hb| ->%list_elem_of_singleton]%elem_of_app; [|eauto].
    by eapply so_rewakes.
  - intros Hn. destruct (eo_rewake _ _ (so_events _ Hs _ _ He)) as [? Hq]. congruence.
Qed.

(** The state after [schedule], where [q] is the queue of priority [p]. *)
Definition new_event s r (f : Fut) p process : Event Fut :=
  mkEvent (NEXT_ID s) process f (runner_rewake_queue r) p (clock r).
Definition with_new_event s e : Sys Fut :=
  mkSys (wrap 64 (NEXT_ID s + 1)) (EVENT_RUNNERS s) (events s ++ [e]) (rewakes s).
Definition with_scheduled s r p q : EventRunner :=
  set_pending (set_queues r (<[p := enqueue q (length (events s))]> (event_queues r)))
              ({[NEXT_ID s]} ∪ pending_events r).

Lemma schedule_eq s c r f p process q :
  EVENT_RUNNERS s !! c = Some r -> event_queues r !! p = Some q ->
  (p < NUM_EVENT_PRIORITIES)%nat ->
  schedule c f p process s =
    (Ok tt, with_runner (with_new_event s (new_event s r f p process)) c (with_scheduled s r p q)).
Proof.
  intros Hr Hq Hp%Nat.leb_gt. unfold schedule, runner, bind, get_state. rewrite Hr. cbn [expect ret].
  rewrite Hp. cbn. by rewrite Hq.
Qed.

Lemma sys_ok_new_event s c r f p process :
  sys_ok s -> EVENT_RUNNERS s !! c = Some r -> (p < NUM_EVENT_PRIORITIES)%nat ->
  sys_ok (with_new_event s (new_event s r f p process)).
Proof.
  intros [Hru Hev Hw Hinj Hn Hid] Hr Hp.
  assert (same_ids s (with_new_event s (new_event s r f p process))) as Hs.
  { intros a e He. exists e. cbn. by rewrite (lookup_app_l_Some _ _ _ _ He). }
  split; cbn; [| | |done| |].
  - intros c1 r1 ?. eapply (runner_ok_evolves s); eauto.
  - intros a e [[_ Ha]|[Ha <-]]%lookup_snoc_Some; [by destruct (Hev _ _ Ha)|].
    destruct (Hru _ _ Hr). split; cbn; [done|done|done|]. intros c1 r1 Hr1 Hq.
    by rewrite <- (Hinj _ _ _ _ Hr Hr1 Hq), Hr in Hr1; simplify_eq.
  - intros h q a Hh Ha. destruct (Hw _ _ _ Hh Ha) as (e & (e' & ? & ? & ? & ?)%Hs & ?).
    exists e'. split; [done|congruence].
  - rewrite Hn, len_app. unfold wrap. cbn. by rewrite Zplus_mod_idemp_l.
  - intros a e [[_ Ha]|[-> <-]]%lookup_snoc_Some; [by apply Hid|]. cbn. by rewrite Hn.
Qed.

Lemma schedule_spec c f p process s :
  sys_ok s -> wp (schedule c f p process) (fun _ s' => sys_ok s' /\ grows s s')
    (~ (is_Some (EVENT_RUNNERS s !! c) /\ (p < NUM_EVENT_PRIORITIES)%nat)) s.
Proof.
  intros Hs. destruct (EVENT_RUNNERS s !! c) as [r|] eqn:Hr;
    [|unfold wp, schedule, runner, bind, get_state; rewrite Hr; cbn; by intros [[]%is_Some_None _]].
  destruct (decide (p < NUM_EVENT_PRIORITIES)%nat) as [Hp|Hp]; cycle 1.
  { assert ((NUM_EVENT_PRIORITIES <=? p)%nat = true) as Hp' by (apply Nat.leb_le; lia).
    unfold wp, schedule, runner, bind, get_state. rewrite Hr. cbn [expect ret]. rewrite Hp'.
    cbn [panic]. by intros [_ ?]. }
  pose proof (so_runners _ Hs _ _ Hr) as Hrok.
  destruct (lookup_lt_is_Some_2 (event_queues r) p) as [q Hq]; [by rewrite (ro_len _ _ Hrok)|].
  unfold wp. rewrite (schedule_eq s c r f p process q) by done.
  pose proof (sys_ok_new_event s c r f p process Hs Hr Hp) as Hs'. split.
  - eapply sys_ok_runner; [done|done|done|cbn; lia|].
    apply (so_runners _ Hs') in Hr as Hrok'.
    pose proof (runner_ok_push _ r p q (length (events s)) Hrok' Hq) as [Hl Hm Hpe Hre Hc].
    { exists (new_event s r f p process). cbn. by rewrite lookup_app_r, Nat.sub_diag. }
    split; [done|done| |done|done]. cbn. intros p0 [->%elem_of_singleton|Hp0]%elem_of_union;
      [|by apply Hpe].
    exists (length (events s)), (new_event s r f p process). cbn. rewrite lookup_app_r, Nat.sub_diag by done.
    split; [|done]. unfold held, queued. cbn. unfold enqueue. rewrite concat_push by done. set_solver.
  - split; [split|]; cbn.
    + intros a e He. exists e. by rewrite (lookup_app_l_Some _ _ _ _ He).
    + intros c1 r1 p0 [[<- <-]|[? ?]]%lookup_insert_Some; [|eauto]. cbn.
      intros [->%elem_of_singleton|?]%elem_of_union; [|eauto]. right. exists (length (events s)).
      rewrite length_app. cbn. split; [lia|]. apply (so_next_id _ Hs).
    + destruct (grows_runner s c r (set_pending r (pending_events r)) Hr) as [_ [Hk Hn]]; [done..|].
      split; intros c1; cbn in *; specialize (Hk c1); specialize (Hn c1);
        destruct (decide (c1 = c)) as [->|]; try (rewrite lookup_insert_ne in * by done; eauto);
        rewrite lookup_insert_eq in *; [|congruence]. intros r1 ?. simplify_eq. eauto.
Qed.

Lemma run_effect_spec x s :
  sys_ok s -> wp (run_effect x) (fun _ s' => sys_ok s' /\ grows s s') (~ valid_effect s x) s.
Proof.
  intros Hs. destruct x as [a|c f p|c f process]; cbn.
  - by apply wake_by_ref_spec.
  - by apply schedule_spec.
  - eapply wp_mono; [by apply schedule_spec|done|].
    intros Hn Hc. apply Hn. split; [done|]. unfold NUM_EVENT_PRIORITIES. lia.
Qed.

Lemma run_effects_spec xs s :
  sys_ok s -> wp (for_do xs run_effect) (fun _ s' => sys_ok s' /\ grows s s')
    (~ Forall (valid_effect s) xs) s.
Proof.
  revert s. induction xs as [|x xs IH]; intros s Hs; [by split|]. cbn. wp_step.
  eapply wp_mono; [by apply run_effect_spec| |]; cbn.
  - intros [] s' [Hs' Hg]. eapply wp_mono; [by apply IH| |]; cbn.
    + intros [] s2 [? ?]. split; [done|]. by etrans.
    + intros Hn. rewrite Forall_cons. intros [_ Hx]. apply Hn.
      eapply Forall_impl; [done|]. intros y. by apply valid_effect_grows.
  - intros Hn. rewrite Forall_cons. naive_solver.
Qed.

Lemma register_spec c s :
  sys_ok s -> wp (register_event_runner c) (fun _ s' => sys_ok s' /\ evolves s s' /\
    forall c' r', EVENT_RUNNERS s' !! c' = Some r' -> current_event r' = None \/
      EVENT_RUNNERS s !! c' = Some r') False s.
Proof.
  intros [Hru Hev Hw Hinj Hn Hid]. unfold register_event_runner, EventRunner_init, queue_new.
  repeat wp_step. apply wp_put_runner. split_and!.
  - assert (forall h, is_Some (rewakes s !! h) -> is_Some ((rewakes s ++ [[]]) !! h)) as Hmono.
    { intros h [q Hq]. by rewrite (lookup_app_l_Some _ _ _ _ Hq). }
    assert (forall c1 r1, EVENT_RUNNERS s !! c1 = Some r1 ->
      runner_rewake_queue r1 <> length (rewakes s)) as Hne.
    { intros c1 r1 [? ? ? Hre%lookup_lt_is_Some ?]%Hru. lia. }
    split; cbn; [| | | |done|done].
    + intros c1 r1 [[<- <-]|[? ?]]%lookup_insert_Some.
      * split; cbn; [done|by intros a ?%elem_of_nil|by intros p ?%elem_of_empty| |done].
        by rewrite lookup_app_r, Nat.sub_diag.
      * eapply (runner_ok_evolves s); [by apply same_ids_refl|done|eauto].
    + intros a e Ha. destruct (Hev _ _ Ha) as [? Hre ? ?]. split; cbn; [done|by apply Hmono|done|].
      intros c1 r1 [[<- <-]|[? ?]]%lookup_insert_Some Hq; [|eauto]. cbn in Hq.
      rewrite lookup_lt_is_Some in Hre. lia.
    + intros h q a Hh Ha. apply lookup_snoc_Some in Hh as [[? ?]|[-> <-]]; [eauto|].
      by apply elem_of_nil in Ha.
    + intros c1 c2 r1 r2 [[<- <-]|[? H1]]%lookup_insert_Some [[<- <-]|[? H2]]%lookup_insert_Some;
        cbn; [done|intros Hq|intros Hq|by eauto].
      * by destruct (Hne _ _ H2).
      * by destruct (Hne _ _ H1).
  - split; cbn; [naive_solver|]. intros c1 r1 p [[<- <-]|[? ?]]%lookup_insert_Some ?; [set_solver|eauto].
  - cbn. intros c1 r1 [[<- <-]|[? ?]]%lookup_insert_Some; auto.
Qed.
End operations.

(** ** A turn of the run loop *)

Section turns.
Context {Fut : Type} `{Future Fut}.
Implicit Types (s : Sys Fut) (r : EventRunner) (e : Event Fut).

(** What reordering the queues of core [c] leaves alone. *)
Record reordered c s s' : Prop := {
  re_grows : grows s s';
  re_future : forall a e', events s' !! a = Some e' ->
    exists e, events s !! a = Some e /\ future e = future e';
  re_runner : forall r, EVENT_RUNNERS s !! c = Some r -> exists r', EVENT_RUNNERS s' !! c = Some r' /\
    pending_events r' = pending_events r /\ clock r' = clock r /\ queued r' ≡ₚ queued r
}.

#[global] Instance reordered_preorder c : PreOrder (reordered c).
Proof.
  split.
  - intros s. split; [done|eauto|eauto].
  - intros s1 s2 s3 [G1 F1 R1] [G2 F2 R2]. split; [by etrans| |].
    + intros a e' (e2 & (e1 & ? & ?)%F1 & ?)%F2. exists e1. split; congruence.
    + intros r (r2 & (r3 & ? & ? & ? & ?)%R2 & ? & ? & ?)%R1. exists r3.
      split_and!; [done|congruence|congruence|by etrans].
Qed.

(** The clock of core [c] is far from overflow. *)
Definition clock_fits c s : Prop :=
  exists r, EVENT_RUNNERS s !! c = Some r /\ clock r + PRIORITY_INC_DELAY < 2 ^ 64.

Lemma promote_step s c r i a q above e :
  sys_ok s -> EVENT_RUNNERS s !! c = Some r -> event_queues r !! S i = Some (a :: q) ->
  <[S i := q]> (event_queues r) !! i = Some above -> events s !! a = Some e -> 
  (i < NUM_EVENT_PRIORITIES)%nat ->
  let r' := set_queues r (<[i := enqueue above a]> (<[S i := q]> (event_queues r))) in
  let s' := with_event (with_runner s c r') a (set_schedule e i (clock r)) in
  sys_ok s' /\ reordered c s s'.
Proof.
  intros Hs Hr Hq Hab He Hi r' s'.
  assert (queued r' ≡ₚ queued r) as Hperm.
  { unfold queued, r'. cbn. unfold enqueue. rewrite concat_push by done. by rewrite <- concat_pop. }
  assert (sys_ok (with_runner s c r')) as Hs1.
  { eapply sys_ok_runner; [done|done|done|cbn; lia|].
    apply runner_ok_queues; [by eapply so_runners|by rewrite !length_insert|exact Hperm]. }
  destruct (so_events _ Hs _ _ He) as [? ? ? Hle].
  destruct (so_runners _ Hs _ _ Hr) as [? Hm _ _ Hc].
  assert (mine s r a) as (e1 & He1 & Hrw).
  { apply Hm. unfold held. rewrite elem_of_app. right. unfold queued.
    rewrite (concat_pop _ _ _ _ Hq). set_solver. }
  rewrite He in He1. injection He1 as <-. split; [|split].
  - eapply sys_ok_event; [done|done|done..|]. split; cbn; [done|done|done|].
    intros c1 r1 [[<- <-]|[? ?]]%lookup_insert_Some Hqq; [done|].
    assert (c = c1) by (eapply (so_inj _ Hs); eauto; congruence). done.
  - etrans; [by eapply (grows_runner s c r r')|]. by eapply grows_event.
  - cbn. intros b e' [(<- & <- & _)|[? ?]]%list_lookup_insert_Some; eauto.
  - intros r0 Hr0. exists r'. cbn. rewrite lookup_insert_eq. simplify_eq. by split_and!.
Qed.

(** Queue [i + 1] is empty or its front event is not due yet. *)
Definition not_due c i s : Prop :=
  exists r q, EVENT_RUNNERS s !! c = Some r /\ event_queues r !! S i = Some q /\
    forall a q', q = a :: q' -> exists e, events s !! a = Some e /\
      clock r < scheduled_clock e + PRIORITY_INC_DELAY.

(** The front event [a] of queue [i + 1] is due and moves to queue [i]. *)
Definition promoted c i a s s' : Prop :=
  exists r q above e, EVENT_RUNNERS s !! c = Some r /\
    event_queues r !! S i = Some (a :: q) /\ event_queues r !! i = Some above /\
    events s !! a = Some e /\ scheduled_clock e + PRIORITY_INC_DELAY <= clock r /\
    s' = with_event
      (with_runner s c (set_queues r (<[i := above ++ [a]]> (<[S i := q]> (event_queues r)))))
      a (set_schedule e i (clock r)).

Lemma promote_exact c i s :
  sys_ok s -> (S i < NUM_EVENT_PRIORITIES)%nat ->
  wp (promote c (S i)) (fun _ s' => (s' = s /\ not_due c i s) \/ exists a, promoted c i a s s')
    (~ clock_fits c s) s.
Proof.
  intros Hs Hi. unfold promote. wp_step. apply wp_runner; [|by intros Hn (r & ? & _); congruence].
  intros r Hr. wp_step. pose proof (so_runners _ Hs _ _ Hr) as Hrok.
  apply wp_expect; cycle 1.
  { intros Hn%lookup_ge_None. rewrite (ro_len _ _ Hrok) in Hn. lia. }
  intros q Hq. wp_step. destruct q as [|a q].
  { repeat wp_step. left. split; [done|]. exists r, []. by split_and!. }
  assert (mine s r a) as (e & He & Hrw).
  { apply (ro_mine _ _ Hrok). unfold held, queued. rewrite (concat_pop _ _ _ _ Hq). set_solver. }
  cbn [front_clock]. wp_step. apply wp_event; [|intros Hn; congruence].
  intros e' He'. assert (e' = e) as -> by congruence. wp_step. wp_step.
  destruct (so_events _ Hs _ _ He) as [? ? Hpos Hle]. specialize (Hle _ _ Hr Hrw).
  apply wp_chk; cycle 1.
  { intros Hn (r0 & ? & ?). apply Hn. unfold PRIORITY_INC_DELAY in *. simplify_eq. lia. }
  intros _. case_test; cycle 1.
  { apply wp_ret. left. split; [done|]. exists r, (a :: q). split_and!; [done|done|].
    intros a' q' [= <- <-]. exists e. split; [done|lia]. }
  cbn [try_pop]. replace (S i - 1)%nat with i by lia. rewrite list_lookup_insert_ne by lia.
  wp_step. apply wp_expect; cycle 1.
  { intros Hn%lookup_ge_None. rewrite (ro_len _ _ Hrok) in Hn. lia. }
  intros above Hab. wp_step. apply wp_put_runner. wp_step. apply wp_event; [|cbn; congruence].
  intros e1 He1. cbn in He1. assert (e1 = e) as -> by congruence. apply wp_put_event.
  right. exists a, r, q, above, e. split_and!; [done..|lia|done].
Qed.

Lemma promoted_queued c i a s s' r :
  promoted c i a s s' -> EVENT_RUNNERS s !! c = Some r -> exists r',
    EVENT_RUNNERS s' !! c = Some r' /\ queued r' ≡ₚ queued r /\
    pending_events r' = pending_events r /\ clock r' = clock r /\
    runner_rewake_queue r' = runner_rewake_queue r /\ current_event r' = current_event r.
Proof.
  intros (r0 & q & above & e & ? & Hq & Hab & _ & _ & ->) Hr. simplify_eq.
  eexists. cbn. rewrite lookup_insert_eq. split_and!; [done| |done..].
  unfold queued. cbn. rewrite concat_push by (by rewrite list_lookup_insert_ne by lia).
  by rewrite <- concat_pop.
Qed.

Lemma promoted_ok c i a s s' :
  sys_ok s -> (i < NUM_EVENT_PRIORITIES)%nat -> promoted c i a s s' -> sys_ok s' /\ reordered c s s'.
Proof.
  intros Hs Hi (r & q & above & e & Hr & Hq & Hab & He & _ & ->).
  eapply (promote_step s c r i a q above e); eauto. by rewrite list_lookup_insert_ne by lia.
Qed.

Lemma promote_spec c i s :
  sys_ok s -> (S i < NUM_EVENT_PRIORITIES)%nat ->
  wp (promote c (S i)) (fun _ s' => sys_ok s' /\ reordered c s s') (~ clock_fits c s) s.
Proof.
  intros Hs Hi. eapply wp_mono; [by apply promote_exact| |done]. cbn.
  intros _ s' [[-> _]|[a Hp]]; [done|]. eapply (promoted_ok c i); [done|lia|done].
Qed.

Lemma reprioritize_spec c s :
  sys_ok s -> wp (reprioritize c) (fun _ s' => sys_ok s' /\ reordered c s s') (~ clock_fits c s) s.
Proof.
  intros Hs. apply (wp_for_do _ _ (fun s' => sys_ok s' /\ reordered c s s')); [|done].
  intros i s1 Hi%elem_of_seq [Hs1 Hre]. destruct i as [|i]; [lia|].
  eapply wp_mono; [apply promote_spec; [done|unfold NUM_EVENT_PRIORITIES in *; lia]| |]; cbn.
  - intros _ s2 [? ?]. split; [done|by etrans].
  - intros Hn (r & Hr & ?). apply Hn. destruct (re_runner _ _ _ Hre _ Hr) as (r' & ? & ? & Hc & ?).
    exists r'. by rewrite Hc.
Qed.

Lemma with_runner_id s c r : EVENT_RUNNERS s !! c = Some r -> with_runner s c r = s.
Proof. intros Hr. unfold with_runner. rewrite insert_id by done. by destruct s. Qed.

Lemma set_queues_id r i q : event_queues r !! i = Some q -> set_queues r (<[i := q]> (event_queues r)) = r.
Proof. intros Hq. unfold set_queues. rewrite list_insert_id by done. by destruct r. Qed.

Lemma pop_queue_eq s c r i q :
  EVENT_RUNNERS s !! c = Some r -> event_queues r !! i = Some q ->
  pop_queue c i s = (Ok (head q), with_runner s c (set_queues r (<[i := tail q]> (event_queues r)))).
Proof.
  intros Hr Hq. unfold pop_queue, runner, bind, get_state. rewrite Hr. cbn. rewrite Hq. cbn.
  by destruct q.
Qed.

(** The search for the first queue that is not empty. *)
Definition first_queued r a r' : Prop :=
  exists i q, event_queues r !! i = Some (a :: q) /\
    (forall j, (j < i)%nat -> event_queues r !! j = Some []) /\
    r' = set_queues r (<[i := q]> (event_queues r)).

Lemma pop_first_eq n k s c r :
  EVENT_RUNNERS s !! c = Some r -> length (event_queues r) = (k + n)%nat ->
  (forall j, (j < k)%nat -> event_queues r !! j = Some []) ->
  (exists a r', first_queued r a r' /\
     for_each (seq k n) (pop_queue c) s = (Ok (Some a), with_runner s c r')) \/
  (queued r = [] /\ for_each (seq k n) (pop_queue c) s = (Ok None, s)).
Proof.
  intros Hr. revert k. induction n as [|n IH]; intros k Hlen Hk; cbn.
  - right. split; [|done]. unfold queued. apply concat_nil_Forall, Forall_lookup.
    intros i q Hq. assert (i < k)%nat by (apply lookup_lt_Some in Hq; lia).
    rewrite Hk in Hq by done. congruence.
  - destruct (lookup_lt_is_Some_2 (event_queues r) k) as [q Hq]; [lia|].
    unfold bind. rewrite (pop_queue_eq s c r k q) by done. destruct q as [|a q]; cbn.
    + rewrite set_queues_id, with_runner_id by done. apply IH; [lia|].
      intros j Hj. destruct (decide (j = k)) as [->|]; [done|]. apply Hk. lia.
    + left. exists a. eexists. split; [|done]. exists k, q. split_and!; eauto.
Qed.

(** The outcome of [next_event]: making it the current event restores the
    invariant; there is none only if nothing is queued. *)
Definition taken c s s' (oa : option nat) : Prop :=
  exists s1 r1 r', sys_ok s1 /\ reordered c s s1 /\ EVENT_RUNNERS s1 !! c = Some r1 /\
    EVENT_RUNNERS s' !! c = Some r' /\ events s' = events s1 /\
    pending_events r' = pending_events r1 /\ clock r' = clock r1 /\
    grows s1 s' /\ sys_ok (with_runner s' c (set_current r' oa)) /\
    (oa = None -> held r1 = []).

Lemma next_event_spec c s r :
  sys_ok s -> EVENT_RUNNERS s !! c = Some r -> current_event r = None ->
  wp (next_event c) (fun oa s' => taken c s s' oa) (~ clock_fits c s) s.
Proof.
  intros Hs Hr Hcur. unfold next_event. wp_step. apply wp_runner; [|congruence].
  intros r0 Hr0. assert (r0 = r) as -> by congruence. clear Hr0.
  pose proof (so_runners _ Hs _ _ Hr) as Hrok. destruct (ro_rewake _ _ Hrok) as [q Hq].
  wp_step. apply wp_rewake; [|congruence].
  intros q0 Hq0. assert (q0 = q) as -> by congruence. clear Hq0. destruct q as [|a q]; cbn [try_pop].
  - wp_step. eapply wp_mono; [by apply reprioritize_spec| |done]. intros [] s1 [Hs1 Hre].
    destruct (re_runner _ _ _ Hre _ Hr) as (r1 & Hr1 & _).
    assert (current_event r1 = None) as Hcur1.
    { destruct (kp_runner _ _ (proj2 (re_grows _ _ _ Hre)) _ _ Hr) as (? & ? & ? & ?). congruence. }
    pose proof (so_runners _ Hs1 _ _ Hr1) as Hrok1. unfold wp.
    destruct (pop_first_eq NUM_EVENT_PRIORITIES 0 s1 c r1) as [(a & r' & Hf & ->)|[Hn ->]];
      [done|apply (ro_len _ _ Hrok1)|lia| |].
    + destruct Hf as (i & q' & Hi & _ & ->). eexists s1, r1, _.
      split_and!; [done|done|done|cbn; by rewrite lookup_insert_eq|done|done|done| | |done].
      * by eapply grows_runner.
      * unfold with_runner. cbn. rewrite insert_insert_eq.
        eapply (sys_ok_runner s1 c r1); [done|done|done|cbn; lia|]. by apply runner_ok_take.
    + exists s1, r1, r1. split_and!; [done..| |].
      * eapply (sys_ok_runner s1 c r1); [done|done|done|cbn; lia|].
        destruct r1. cbn in *. by subst.
      * intros _. unfold held. by rewrite Hcur1, Hn.
  - wp_step. apply wp_put_rewake. apply wp_ret. exists s, r, r.
    assert (exists e, events s !! a = Some e /\ rewake_queue e = runner_rewake_queue r) as Ha.
    { eapply (so_rewakes _ Hs); [done|set_solver]. }
    split_and!; [done|done|done|done|done|done|done|apply grows_rewake| |done].
    eapply sys_ok_runner; [|done|done|cbn; lia|].
    + apply sys_ok_rewake; [done|eauto|]. intros b Hb. eapply (so_rewakes _ Hs); [done|set_solver].
    + apply runner_ok_current; [|done|done].
      eapply (so_runners (with_rewake s (runner_rewake_queue r) q)); [|done].
      apply sys_ok_rewake; [done|eauto|]. intros b Hb. eapply (so_rewakes _ Hs); [done|set_solver].
Qed.

Lemma grows_current s c r oa :
  EVENT_RUNNERS s !! c = Some r -> evolves s (with_runner s c (set_current r oa)).
Proof. intros Hr. by eapply evolves_runner. Qed.

(** What polling [a], the current event of core [c], achieves. *)
Definition polled c a e s (ready : bool) s' : Prop :=
  sys_ok s' /\ grows s s' /\ exists r', EVENT_RUNNERS s' !! c = Some r' /\
    (a ∈ queued r' \/ eid e ∉ pending_events r') /\
    (ready = true -> eid e ∉ pending_events r').

Lemma poll_event_spec c a s r e :
  sys_ok s -> EVENT_RUNNERS s !! c = Some r -> current_event r = Some a -> events s !! a = Some e ->
  wp (poll_event c a) (polled c a e s)
    (~ (clock_fits c s /\ Forall (valid_effect s) (poll (future e) a).2)) s.
Proof.
  intros Hs Hr Hcur He. unfold poll_event. wp_step. apply wp_runner; [|congruence].
  intros r0 Hr0. assert (r0 = r) as -> by congruence. clear Hr0.
  pose proof (so_runners _ Hs _ _ Hr) as Hrok. wp_step. apply wp_chk; cycle 1.
  { intros Hn [(r0 & Hr0 & Hlt) _]. unfold PRIORITY_INC_DELAY in *. simplify_eq.
    destruct Hrok. lia. }
  intros Hfit. wp_step. apply wp_put_runner. wp_step. apply wp_event; [|cbn; congruence].
  intros e0 He0. cbn in He0. assert (e0 = e) as -> by congruence. clear He0.
  destruct (poll (future e) a) as [[f ready] xs] eqn:Hpoll. cbn [snd].
  wp_step. apply wp_put_event. set (s1 := with_event _ _ _).
  assert (sys_ok s1) as Hs1.
  { eapply sys_ok_event; [|done|done|done|done|].
    - eapply sys_ok_runner; [done|done|done|cbn; lia|]. apply runner_ok_clock; [done|lia].
    - destruct (so_events _ Hs _ _ He) as [? ? ? Hle]. split; cbn; [done|done|done|].
      intros c1 r1 [[<- <-]|[? ?]]%lookup_insert_Some ?; [cbn|by eauto].
      specialize (Hle _ _ Hr H0). lia. }
  assert (grows s s1) as Hg1.
  { etrans; [by eapply (grows_runner s c r (set_clock r (clock r + 1)))|]. by eapply grows_event. }
  wp_step. eapply wp_mono; [by apply run_effects_spec| |]; cycle 1.
  { intros Hn [_ Hv]. apply Hn. eapply Forall_impl; [exact Hv|]. intros x.
    by apply valid_effect_grows. }
  intros [] s2 [Hs2 Hg2]. assert (grows s s2) as Hg by (by etrans).
  destruct (ev_events _ _ (proj1 Hg) _ _ He) as (e2 & He2 & Hid2 & Hrw2 & _).
  destruct (kp_runner _ _ (proj2 Hg) _ _ Hr) as (r2 & Hr2 & Hq2 & Hcur2).
  pose proof (so_runners _ Hs2 _ _ Hr2) as Hrok2.
  wp_step. apply wp_event; [|congruence]. intros e3 He3. assert (e3 = e2) as -> by congruence.
  wp_step. apply wp_runner; [|congruence]. intros r3 Hr3. assert (r3 = r2) as -> by congruence.
  assert (mine s2 r2 a) as Hmine.
  { apply (ro_mine _ _ Hrok2). unfold held. rewrite Hcur2, Hcur. set_solver. }
  wp_step. destruct ready; cbn [negb].
  - apply wp_put_runner, wp_ret. split_and!.
    + eapply sys_ok_runner; [done|done|done|cbn; lia|]. by apply runner_ok_done.
    + etrans; [done|]. eapply grows_runner; [done|cbn; set_solver|done|done].
    + eexists. cbn. rewrite lookup_insert_eq. split; [done|]. cbn. rewrite Hid2. set_solver.
  - wp_step. apply wp_expect; cycle 1.
    { intros Hn%lookup_ge_None. rewrite (ro_len _ _ Hrok2) in Hn.
      destruct (so_events _ Hs2 _ _ He2). lia. }
    intros q Hq. apply wp_put_runner, wp_ret. split_and!.
    + eapply sys_ok_runner; [done|done|done|cbn; lia|]. by apply runner_ok_push.
    + etrans; [done|]. by eapply grows_runner.
    + eexists. cbn. rewrite lookup_insert_eq. split; [done|]. split; [|done]. left.
      unfold queued. cbn. unfold enqueue. rewrite concat_push by done. set_solver.
Qed.

(** ** The turn *)

Definition turn_fits c s : Prop :=
  clock_fits c s /\ forall a e, events s !! a = Some e -> Forall (valid_effect s) (poll (future e) a).2.

(** What a turn of core [c] reports. *)
Definition turn_of c s (t : turn) s' : Prop :=
  match t with
  | Idle => s' = s /\ exists r, EVENT_RUNNERS s !! c = Some r /\ pending_events r = ∅
  | Skipped a => exists r e, EVENT_RUNNERS s !! c = Some r /\ events s !! a = Some e /\
      eid e ∉ pending_events r
  | Polled a ready => exists r e r', EVENT_RUNNERS s !! c = Some r /\ events s !! a = Some e /\
      rewake_queue e = runner_rewake_queue r /\ eid e ∈ pending_events r /\
      EVENT_RUNNERS s' !! c = Some r' /\
      (ready = true -> eid e ∉ pending_events r')
  end.

Lemma with_runner_twice s c r r' : with_runner (with_runner s c r) c r' = with_runner s c r'.
Proof. unfold with_runner. cbn. by rewrite insert_insert_eq. Qed.

(** Resting but for core [c]. *)
Definition resting_but c s : Prop :=
  forall c' r, c' <> c -> EVENT_RUNNERS s !! c' = Some r -> current_event r = None.

Lemma resting_but_keeps c s s' : resting_but c s -> keeps s s' -> resting_but c s'.
Proof.
  intros Hrest [Hk Hn] c' r' Hne Hr'. destruct (EVENT_RUNNERS s !! c') as [r|] eqn:Hr.
  - destruct (Hk _ _ Hr) as (r1 & ? & ? & ?). rewrite Hr' in *. simplify_eq.
    etrans; [done|]. by eapply Hrest.
  - rewrite (Hn _ Hr) in Hr'. congruence.
Qed.

Lemma resting_but_with c s r : resting_but c s -> resting_but c (with_runner s c r).
Proof. intros Hrest c' r' ?. cbn. rewrite lookup_insert_ne by done. by apply Hrest. Qed.

Lemma resting_release c s r : resting_but c s -> resting (with_runner s c (set_current r None)).
Proof. intros Hrest c1 r1. cbn. intros [[<- <-]|[? Hr1]]%lookup_insert_Some; [done|]. by eapply Hrest. Qed.

Lemma valid_effect_with c s r x : valid_effect s x -> valid_effect (with_runner s c r) x.
Proof.
  assert (forall c', is_Some (EVENT_RUNNERS s !! c') ->
    is_Some (<[c := r]> (EVENT_RUNNERS s) !! c')) as Hmono.
  { intros c'. rewrite lookup_insert_is_Some'. auto. }
  destruct x; cbn; naive_solver.
Qed.

(** The states around [next_event] in a turn. *)
Lemma taken_facts c s s' oa r :
  taken c s s' oa -> EVENT_RUNNERS s !! c = Some r -> pending_events r <> ∅ ->
  exists a r' e e', oa = Some a /\ EVENT_RUNNERS s' !! c = Some r' /\
    pending_events r' = pending_events r /\ clock r' = clock r /\
    sys_ok (with_runner s' c (set_current r' (Some a))) /\ grows s s' /\
    events s !! a = Some e /\ events s' !! a = Some e' /\ future e' = future e /\ eid e' = eid e /\
    rewake_queue e = runner_rewake_queue r.
Proof.
  intros (s1 & r1 & r' & Hs1 & Hre & Hr1 & Hr' & Hev & Hp & Hc & Hg & Hs2 & Hnone) Hr Hne.
  destruct (re_runner _ _ _ Hre _ Hr) as (r1' & Hr1' & Hp1 & Hc1 & _). simplify_eq.
  assert (grows s s') as Hg' by (etrans; [apply Hre|done]).
  destruct oa as [a|]; cycle 1.
  { destruct (set_choose_L _ Hne) as [p Hpp]. rewrite <- Hp1 in Hpp.
    destruct (ro_pending _ _ (so_runners _ Hs1 _ _ Hr1) _ Hpp) as (a & e & Ha & _).
    rewrite Hnone in Ha by done. by apply elem_of_nil in Ha. }
  assert (mine (with_runner s' c (set_current r' (Some a))) (set_current r' (Some a)) a)
    as (e' & He' & Hq).
  { apply ro_mine; [|unfold held; set_solver]. eapply so_runners; [done|].
    cbn. by rewrite lookup_insert_eq. }
  cbn in He', Hq. pose proof He' as He1. rewrite Hev in He1.
  destruct (re_future _ _ _ Hre _ _ He1) as (e & He & Hf).
  destruct (ev_events _ _ (proj1 Hg') _ _ He) as (e2 & ? & Hid & Hrw & _).
  destruct (kp_runner _ _ (proj2 Hg') _ _ Hr) as (r2 & ? & Hrr & _).
  simplify_eq. exists a, r', e, e'. split_and!; [done|done|congruence|congruence|done|done|done|done|done|done|congruence].
Qed.

Lemma finish_turn_spec c t a s0 s r e :
  sys_ok s -> evolves s0 s -> resting_but c s -> EVENT_RUNNERS s !! c = Some r ->
  current_event r = Some a -> events s !! a = Some e ->
  (a ∈ queued r \/ eid e ∉ pending_events r) ->
  wp (finish_turn c t) (fun t' s' => t' = t /\ sys_ok s' /\ resting s' /\ evolves s0 s' /\
    EVENT_RUNNERS s' !! c = Some (set_current r None)) False s.
Proof.
  intros Hs Hev Hrest Hr Hcur He Hrel. unfold finish_turn. wp_step.
  apply wp_runner; [|congruence]. intros r0 Hr0. assert (r0 = r) as -> by congruence.
  wp_step. apply wp_put_runner, wp_ret. split_and!; [done| | | |cbn; by rewrite lookup_insert_eq].
  - eapply sys_ok_runner; [done|done|done|cbn; lia|].
    eapply runner_ok_release; [by eapply so_runners|done|]. destruct Hrel; [by left|right].
    intros e0 He0. by simplify_eq.
  - by apply resting_release.
  - etrans; [exact Hev|]. by eapply evolves_runner.
Qed.

(** The turn after its event was taken. *)
Lemma turn_tail_spec c s s2 r r' a e e' :
  sys_ok s2 -> evolves s s2 -> resting_but c s2 ->
  EVENT_RUNNERS s !! c = Some r -> events s !! a = Some e -> rewake_queue e = runner_rewake_queue r ->
  EVENT_RUNNERS s2 !! c = Some (set_current r' (Some a)) -> events s2 !! a = Some e' ->
  pending_events r' = pending_events r -> eid e' = eid e ->
  wp (let! t := (if contains_event r' (eid e')
                 then let! ready := poll_event c a in ret (Polled a ready)
                 else ret (Skipped a)) in
      finish_turn c t)
    (fun t s' => sys_ok s' /\ resting s' /\ evolves s s' /\ turn_of c s t s')
    (~ (clock_fits c s2 /\ Forall (valid_effect s2) (poll (future e') a).2)) s2.
Proof.
  intros Hs2 Hev2 Hrest2 Hr He Hrw Hr2 He' Hp Hid. wp_step.
  unfold contains_event. case_bool_decide as Hin.
  - wp_step. eapply wp_mono; [by eapply poll_event_spec| |done].
    intros ready s3 (Hs3 & Hg3 & r3 & Hr3 & Hrel & Hready). apply wp_ret.
    destruct (kp_runner _ _ (proj2 Hg3) _ _ Hr2) as (r3' & ? & Hq3 & Hcur3). simplify_eq.
    destruct (ev_events _ _ (proj1 Hg3) _ _ He') as (e3 & He3 & Hid3 & _).
    eapply wp_mono; [eapply (finish_turn_spec c _ a s s3 r3 e3)| |done].
    + done.
    + etrans; [done|apply Hg3].
    + eapply resting_but_keeps; [done|apply Hg3].
    + done.
    + done.
    + done.
    + by rewrite Hid3.
    + intros t s4 (-> & ? & ? & ? & Hr4). split_and!; [done..|].
      exists r, e, (set_current r3 None).
      split_and!; [done|done|done|by rewrite <- Hp, <- Hid|done|]. rewrite <- Hid. exact Hready.
  - apply wp_ret.
    eapply wp_mono; [eapply (finish_turn_spec c _ a s s2 _ e'); eauto| |done].
    intros t s4 (-> & ? & ? & ? & Hr4). split_and!; [done..|].
    exists r, e. split_and!; [done|done|]. by rewrite <- Hp, <- Hid.
Qed.

Lemma run_turn_spec c s :
  sys_ok s -> resting s ->
  wp (run_turn c) (fun t s' => sys_ok s' /\ resting s' /\ evolves s s' /\ turn_of c s t s')
    (~ turn_fits c s) s.
Proof.
  intros Hs Hrest. unfold run_turn. wp_step.
  apply wp_runner; [|by intros Hn [(r & ? & _) _]; congruence]. intros r Hr.
  unfold have_pending_events. case_bool_decide as Hpend.
  { apply wp_ret. split_and!; [done|done|done|]. cbn. eauto. }
  wp_step. eapply wp_mono; [eapply next_event_spec; eauto| |by intros Hn [? _]].
  intros oa s' Htk. destruct (taken_facts _ _ _ _ _ Htk Hr Hpend)
    as (a & r' & e & e' & -> & Hr' & Hp & Hc & Hs2 & Hg & He & He' & Hf & Hid & Hrw). clear Htk.
  wp_step. apply wp_runner; [|congruence]. intros r0 Hr0. assert (r0 = r') as -> by congruence.
  wp_step. apply wp_put_runner. wp_step. apply wp_expect; [|done].
  intros a0 [= <-]. wp_step. apply wp_event; [|cbn; congruence].
  intros e0 He0. cbn in He0. assert (e0 = e') as -> by congruence. clear He0 Hr0.
  eapply wp_mono; [eapply (turn_tail_spec c s); eauto|done|].
  - etrans; [apply Hg|]. by eapply evolves_runner.
  - apply resting_but_with. eapply resting_but_keeps; [|apply Hg]. intros c1 r1 _. apply Hrest.
  - cbn. by rewrite lookup_insert_eq.
  - intros Hn [(r0 & ? & Hlt) Hv]. apply Hn. split.
    + eexists. cbn. rewrite lookup_insert_eq. split; [done|]. cbn. simplify_eq. lia.
    + rewrite Hf. eapply Forall_impl; [by eapply Hv|]. intros x Hx.
      by eapply valid_effect_with, valid_effect_grows.
Qed.

(** ** Every action *)

Lemma boot_ok : sys_ok (Fut:=Fut) boot /\ resting (Fut:=Fut) boot.
Proof. split; [split|]; cbn; try done; intros *; rewrite ?lookup_empty, ?lookup_nil; done. Qed.

Lemma exec_spec x s t s' :
  sys_ok s -> resting s -> exec x s = (Ok t, s') ->
  sys_ok s' /\ resting s' /\ evolves s s' /\ (t = Idle \/ exists c, turn_of c s t s').
Proof.
  intros Hs Hrest He. destruct x as [c|x|c]; cbn [exec] in He.
  - pose proof (run_turn_spec c s Hs Hrest) as Hw.
    destruct (wp_ok _ _ _ _ _ _ Hw He) as (? & ? & ? & ?). eauto 10.
  - apply bind_ok_inv in He as ([] & s1 & He & [= <- <-]).
    destruct (wp_ok _ _ _ _ _ _ (run_effect_spec x s Hs) He) as [? [Hev Hk]].
    split_and!; [done| |done|by left]. intros c' r' Hr'.
    destruct (EVENT_RUNNERS s !! c') as [r|] eqn:Hr; cycle 1.
    { rewrite (kp_none _ _ Hk _ Hr) in Hr'. done. }
    destruct (kp_runner _ _ Hk _ _ Hr) as (? & ? & ? & Hcur). simplify_eq. rewrite Hcur. eauto.
  - apply bind_ok_inv in He as ([] & s1 & He & [= <- <-]).
    destruct (wp_ok _ _ _ _ _ _ (register_spec c s Hs) He) as (? & ? & Hc).
    split_and!; [done| |done|by left]. intros c' r' [?|?]%Hc; eauto.
Qed.

Lemma runs_ok ts s : runs boot ts s -> sys_ok s /\ resting s.
Proof.
  induction 1 as [|ts s1 x t s2 _ [Hs Hr] He]; [apply boot_ok|].
  by destruct (exec_spec _ _ _ _ Hs Hr He) as (? & ? & _).
Qed.
End turns.

(** ** Theorems *)

Section theorems.
Context {Fut : Type} `{Future Fut}.
Implicit Types (s : Sys Fut) (e : Event Fut).

(** C16: in every state the event system reaches from boot, whatever the futures
    do when they are polled and however the cores' turns, wake-ups, schedulings
    and registrations are interleaved, the invariant holds: each runner has its
    four queues, queues only hold events that exist and belong to the runner,
    every pending event waits in one of the queues of its runner, no priority
    or clock is out of range, and no event is left as current between turns. *)
Theorem event_invariant (ts : list turn) (s : Sys Fut) :
  runs boot ts s -> sys_ok s /\ resting s.
Proof. apply runs_ok. Qed.

(** C29: a turn of the run loop of a registered core never panics, as long as
    the clock is not within [PRIORITY_INC_DELAY] of overflow and the futures
    only wake events that exist and schedule with a valid priority on a
    registered core.  In particular the [expect] that reports pending events
    with empty queues cannot fail; and the turn is idle only if no event of the
    core is pending, and polls an event only if it is pending. *)
Theorem run_turn_total (ts : list turn) (s : Sys Fut) (cpuid : Z) :
  runs boot ts s -> turn_fits cpuid s ->
  exists t s', run_turn cpuid s = (Ok t, s') /\ turn_of cpuid s t s' /\ sys_ok s'.
Proof.
  intros [Hs Hr]%runs_ok Hfit.
  destruct (wp_total _ _ _ _ (run_turn_spec cpuid s Hs Hr)) as (t & s' & ? & ? & _ & _ & ?); [tauto|].
  eauto.
Qed.

(** An event whose future was ready is pending nowhere. *)
Definition finished (s : Sys Fut) (a : nat) : Prop :=
  exists e, events s !! a = Some e /\
    forall c r, EVENT_RUNNERS s !! c = Some r -> eid e ∉ pending_events r.

Lemma wrap_inj_events n m : 0 <= n < 2 ^ 64 -> 0 <= m < 2 ^ 64 -> wrap 64 n = wrap 64 m -> n = m.
Proof. intros. by rewrite !wrap_small in * by done. Qed.

Lemma finished_evolves s s' a :
  sys_ok s -> evolves s s' -> len (events s') <= 2 ^ 64 -> finished s a -> finished s' a.
Proof.
  intros Hs Hev Hlen (e & He & Hn). pose proof (evolves_length _ _ Hev).
  destruct (ev_events _ _ Hev _ _ He) as (e' & He' & Hid & _). exists e'. split; [done|].
  intros c r Hr Hp. rewrite Hid in Hp.
  destruct (ev_pending _ _ Hev _ _ _ Hr Hp) as [(r0 & ? & ?)|(n & Hn' & Heq)]; [by eapply Hn|].
  rewrite (so_ids _ Hs _ _ He) in Heq. apply lookup_lt_Some in He. unfold len in Hlen.
  apply wrap_inj_events in Heq; lia.
Qed.

(** In a small enough system the owner of a pending identifier is unique. *)
Lemma pending_owner s a e c r c' r' :
  sys_ok s -> len (events s) <= 2 ^ 64 -> events s !! a = Some e ->
  EVENT_RUNNERS s !! c = Some r -> rewake_queue e = runner_rewake_queue r ->
  EVENT_RUNNERS s !! c' = Some r' -> eid e ∈ pending_events r' -> c' = c.
Proof.
  intros Hs Hlen He Hr Hq Hr' Hp. pose proof (so_runners _ Hs _ _ Hr') as Hok.
  destruct (ro_pending _ _ Hok _ Hp) as (b & e1 & Hb & He1 & Hid).
  rewrite (so_ids _ Hs _ _ He), (so_ids _ Hs _ _ He1) in Hid.
  apply lookup_lt_Some in He as Hla. apply lookup_lt_Some in He1 as Hlb. unfold len in Hlen.
  apply wrap_inj_events in Hid; [|lia..]. assert (b = a) as -> by lia.
  destruct (ro_mine _ _ Hok _ Hb) as (e2 & ? & ?). simplify_eq.
  eapply (so_inj _ Hs); eauto. congruence.
Qed.

Lemma ready_finishes s c a s' :
  sys_ok s -> evolves s s' -> len (events s') <= 2 ^ 64 ->
  turn_of c s (Polled a true) s' -> finished s' a.
Proof.
  intros Hs Hev Hlen (r & e & r' & Hr & He & Hq & Hin & Hr' & Hnot).
  pose proof (evolves_length _ _ Hev). unfold len in Hlen.
  destruct (ev_events _ _ Hev _ _ He) as (e' & He' & Hid & _). exists e'. split; [done|].
  intros c1 r1 Hr1 Hp. rewrite Hid in Hp.
  destruct (ev_pending _ _ Hev _ _ _ Hr1 Hp) as [(r0 & Hr0 & Hp0)|(n & Hn & Heq)].
  - assert (c1 = c) as -> by (eapply (pending_owner s); eauto; unfold len; lia).
    simplify_eq. by apply Hnot.
  - rewrite (so_ids _ Hs _ _ He) in Heq. apply lookup_lt_Some in He.
    apply wrap_inj_events in Heq; lia.
Qed.

Lemma polled_not_finished s c a ready s' : turn_of c s (Polled a ready) s' -> ~ finished s a.
Proof. intros (r & e & r' & Hr & He & _ & Hin & _) (e0 & He0 & Hn). simplify_eq. by eapply Hn. Qed.

Lemma runs_finished ts s :
  runs boot ts s -> len (events s) <= 2 ^ 64 ->
  (forall a, Polled a true ∈ ts -> finished s a) /\
  (forall ts1 a ts2 b, ts = ts1 ++ Polled a true :: ts2 -> Polled a b ∉ ts2).
Proof.
  induction 1 as [|ts s1 x t s2 Hrun IH Hx]; intros Hlen.
  { split; [by intros a ?%elem_of_nil|]. by intros []. }
  destruct (runs_ok _ _ Hrun) as [Hs Hrest].
  destruct (exec_spec _ _ _ _ Hs Hrest Hx) as (Hs2 & _ & Hev & Ht).
  destruct IH as [IHf IHn]; [apply evolves_length in Hev; unfold len in *; lia|].
  assert (forall a b, t = Polled a b -> exists c, turn_of c s1 t s2) as Hpoll.
  { intros a b ->. by destruct Ht. }
  split.
  - intros a [Ha|<-%list_elem_of_singleton]%elem_of_app; [by apply (finished_evolves s1 s2); auto|].
    destruct (Hpoll _ _ eq_refl) as [c Hc]. by apply (ready_finishes s1 c).
  - intros ts1 a ts2 b Heq. destruct ts2 as [|u ts2 _] using rev_ind; [apply not_elem_of_nil|].
    rewrite app_comm_cons, app_assoc in Heq. apply app_inj_tail in Heq as [Heq <-].
    intros [Hb|Hb%list_elem_of_singleton]%elem_of_app; [by eapply IHn|]. subst t.
    destruct (Hpoll _ _ eq_refl) as [c Hc]. apply (polled_not_finished _ _ _ _ _ Hc), IHf. subst ts. set_solver.
Qed.

(** C30: once the future of an event was ready, the event is never polled again,
    however often it is woken afterwards and on whatever core: [poll] is not
    called on a completed future.  (Identifiers are unique for the first
    [2^64] events.) *)
Theorem never_polled_after_ready (ts1 ts2 : list turn) (a : nat) (ready : bool) (s : Sys Fut) :
  runs boot (ts1 ++ Polled a true :: ts2) s -> len (events s) <= 2 ^ 64 ->
  Polled a ready ∉ ts2.
Proof. intros Hr Hlen. by eapply (runs_finished _ _ Hr Hlen). Qed.
End theorems.

(** ** A future that counts down *)

#[global] Instance countdown : Future nat := fun n _ =>
  match n with O => (O, true, []) | S m => (m, false, []) end.

Definition demo_actions : list (action (Fut := nat)) :=
  [Register 0; Call (ScheduleKernel 0 0%nat 1); Call (ScheduleProcess 0 1%nat 7); Turn 0;
   Call (Wake 0); Turn 0; Turn 0].
Definition demo_turns : list turn := [Idle; Idle; Idle; Polled 0 true; Idle; Skipped 0; Polled 1 false].
Definition demo_sys : Sys nat := (trace demo_actions boot).2.

Lemma demo_trace : trace demo_actions boot = (Ok demo_turns, demo_sys).
Proof. vm_compute. reflexivity. Qed.

Lemma demo_runs : runs boot demo_turns demo_sys.
Proof. exact (trace_runs _ _ [] _ _ _ (runs_nil boot) demo_trace). Qed.

Lemma demo_fits : turn_fits 0 demo_sys.
Proof.
  split; [eexists; split; [vm_compute; reflexivity|vm_compute; reflexivity]|].
  intros a e _. destruct (future e); apply Forall_nil_2.
Qed.

Lemma event_invariant_witness : sys_ok demo_sys /\ resting demo_sys.
Proof. exact (event_invariant _ _ demo_runs). Defined.

Lemma run_turn_total_witness :
  exists t s', run_turn 0 demo_sys = (Ok t, s') /\ turn_of 0 demo_sys t s' /\ sys_ok s'.
Proof. exact (run_turn_total _ _ _ demo_runs demo_fits). Defined.

Lemma never_polled_after_ready_witness :
  len (events demo_sys) <= 2 ^ 64 /\ Polled 0 false ∉ [Idle; Skipped 0; Polled 1 false].
Proof.
  assert (len (events demo_sys) <= 2 ^ 64) as Hlen by (vm_compute; discriminate).
  split; [exact Hlen|].
  exact (never_polled_after_ready [Idle; Idle; Idle] [Idle; Skipped 0; Polled 1 false] 0 false
    demo_sys demo_runs Hlen).
Defined.
