(* ===== verification/EventLive.v ===== *)
(** * Progress of the event system

    The order in which events are taken, and how long one waits: when the
    futures neither wake nor schedule events, aging brings every queued event to
    the front of the queues within a bound; a future that wakes itself while it
    is polled starves every other event of its core. *)

From S2P Require Import Prelude Events EventSafety.

Section equations.
Context {Fut : Type} `{Future Fut}.
Implicit Types (s : Sys Fut) (r : EventRunner) (e : Event Fut).

Lemma runner_eq {A} s c r (k : EventRunner -> M (Sys Fut) no_error A) :
  EVENT_RUNNERS s !! c = Some r -> bind (runner c) k s = k r s.
Proof. intros Hr. unfold runner, bind, get_state. by rewrite Hr. Qed.
Lemma event_eq {A} s a e (k : Event Fut -> M (Sys Fut) no_error A) :
  events s !! a = Some e -> bind (event a) k s = k e s.
Proof. intros He. unfold event, bind, get_state. by rewrite He. Qed.
Lemma rewake_eq {A} s h q (k : list nat -> M (Sys Fut) no_error A) :
  rewakes s !! h = Some q -> bind (rewake h) k s = k q s.
Proof. intros Hq. unfold rewake, bind, get_state. by rewrite Hq. Qed.
Lemma put_runner_eq {A} s c r (k : unit -> M (Sys Fut) no_error A) :
  bind (put_runner c r) k s = k tt (with_runner s c r).
Proof. done. Qed.
Lemma put_event_eq {A} s a e (k : unit -> M (Sys Fut) no_error A) :
  bind (put_event a e) k s = k tt (with_event s a e).
Proof. done. Qed.

(** Polling, given what the calls of the future do. *)
Lemma poll_event_eq c s r a e f ready xs s2 e2 r2 q :
  EVENT_RUNNERS s !! c = Some r -> events s !! a = Some e -> poll (future e) a = (f, ready, xs) ->
  0 <= clock r + 1 < 2 ^ 64 ->
  for_do xs run_effect
    (with_event (with_runner s c (set_clock r (clock r + 1))) a (set_future e f)) = (Ok tt, s2) ->
  events s2 !! a = Some e2 -> EVENT_RUNNERS s2 !! c = Some r2 ->
  event_queues r2 !! priority e2 = Some q ->
  poll_event c a s = (Ok ready, with_runner s2 c
    (if ready then set_pending r2 (pending_events r2 ∖ {[eid e2]})
     else set_queues r2 (<[priority e2 := q ++ [a]]> (event_queues r2)))).
Proof.
  intros Hr He Hpoll Hclk Hxs He2 Hr2 Hq. unfold poll_event.
  rewrite (runner_eq _ _ _ _ Hr), bind_chk, put_runner_eq by done.
  rewrite (event_eq _ _ e) by done. rewrite Hpoll, put_event_eq, (bind_ok _ _ _ _ _ Hxs).
  rewrite (event_eq _ _ _ _ He2), (runner_eq _ _ _ _ Hr2). destruct ready; cbn [negb].
  - by rewrite put_runner_eq.
  - by rewrite bind_assoc, (bind_expect _ q), put_runner_eq.
Qed.

(** Polling a future that makes no calls. *)
Lemma poll_event_quiet c s r a e f ready q :
  EVENT_RUNNERS s !! c = Some r -> events s !! a = Some e -> poll (future e) a = (f, ready, []) ->
  0 <= clock r + 1 < 2 ^ 64 -> event_queues r !! priority e = Some q ->
  poll_event c a s = (Ok ready, with_runner (with_event s a (set_future e f)) c
    (if ready then set_pending (set_clock r (clock r + 1)) (pending_events r ∖ {[eid e]})
     else set_queues (set_clock r (clock r + 1)) (<[priority e := q ++ [a]]> (event_queues r)))).
Proof.
  intros Hr He Hpoll Hclk Hq.
  rewrite (poll_event_eq c s r a e f ready [] _ (set_future e f) (set_clock r (clock r + 1)) q
    Hr He Hpoll Hclk eq_refl); [|..|done].
  - unfold with_runner, with_event. cbn. by rewrite insert_insert_eq.
  - cbn. apply list_lookup_insert_eq. by eapply lookup_lt_Some.
  - cbn. by rewrite lookup_insert_eq.
Qed.
End equations.

(** ** Waiting *)

Section waiting.
Context {Fut : Type} `{Future Fut}.
Context (c : Z).
Context (T : nat).
Implicit Types (s : Sys Fut) (r : EventRunner) (e : Event Fut).

(** Nobody has been woken: the queued events are the pending ones, each is
    queued once, in the queue of its priority. *)
Record tidy s r : Prop := {
  td_ok : sys_ok s;
  td_rest : resting s;
  td_runner : EVENT_RUNNERS s !! c = Some r;
  td_rewake : rewakes s !! runner_rewake_queue r = Some [];
  td_small : len (events s) <= 2 ^ 64;
  td_nodup : forall i q, event_queues r !! i = Some q -> NoDup q;
  td_queued : forall i q a, event_queues r !! i = Some q -> a ∈ q ->
    exists e, events s !! a = Some e /\ priority e = i /\ eid e ∈ pending_events r;
  td_count : (length (queued r) <= T)%nat
}.

(** Event [a] is at position [k] of queue [i], and it and those before it are
    due in [d] polls. *)
Definition waits s r a (i k d : nat) : Prop :=
  exists q, event_queues r !! i = Some q /\ q !! k = Some a /\
    forall j b e, (j <= k)%nat -> q !! j = Some b -> events s !! b = Some e ->
      scheduled_clock e + PRIORITY_INC_DELAY <= clock r + Z.of_nat d.

(** The turns it may have to wait. *)
Definition rank (i k d : nat) : nat :=
  match i with O => k | S _ => i * (T + 6) + k + d end.

Lemma queue_length r i q : event_queues r !! i = Some q -> (length q <= length (queued r))%nat.
Proof.
  intros Hq. unfold queued. rewrite <- (take_drop_middle _ _ _ Hq), concat_app. cbn.
  rewrite !length_app. lia.
Qed.

Lemma waits_any s r a i q :
  sys_ok s -> EVENT_RUNNERS s !! c = Some r -> event_queues r !! i = Some q -> a ∈ q ->
  exists k, waits s r a i k 5 /\ (k < length q)%nat.
Proof.
  intros Hs Hr Hq [k Hk]%list_elem_of_lookup_1. exists k.
  split; [|by eapply lookup_lt_Some]. exists q. split_and!; [done|done|].
  intros j b e _ Hj He. unfold PRIORITY_INC_DELAY.
  destruct (so_runners _ Hs _ _ Hr) as [_ Hm _ _ _].
  destruct (Hm b) as (e' & ? & Hrw).
  { unfold held, queued. rewrite elem_of_app. right. apply list_elem_of_In, in_concat.
    exists q. rewrite <- !list_elem_of_In. split; by eapply list_elem_of_lookup_2. }
  simplify_eq. destruct (so_events _ Hs _ _ He) as [_ _ _ Hle]. specialize (Hle _ _ Hr Hrw). lia.
Qed.

(** The queue an event is in is unique. *)
Lemma tidy_unique s r i j q q' a :
  tidy s r -> event_queues r !! i = Some q -> event_queues r !! j = Some q' ->
  a ∈ q -> a ∈ q' -> i = j.
Proof.
  intros Ht Hi Hj Ha Ha'.
  destruct (td_queued _ _ Ht _ _ _ Hi Ha) as (e & ? & ? & _).
  destruct (td_queued _ _ Ht _ _ _ Hj Ha') as (e' & ? & ? & _). congruence.
Qed.

(** The queues after the front event [b] of queue [j + 1] has moved up. *)
Lemma moved_queues (qs : list (list nat)) j b q above i q' :
  qs !! S j = Some (b :: q) -> qs !! j = Some above ->
  <[j := above ++ [b]]> (<[S j := q]> qs) !! i = Some q' ->
  (i = j /\ q' = above ++ [b]) \/ (i = S j /\ q' = q) \/ (i <> j /\ i <> S j /\ qs !! i = Some q').
Proof.
  intros Hq Ha. rewrite list_lookup_insert_Some, list_lookup_insert_Some, length_insert.
  intros [(-> & -> & _)|[? [(-> & -> & _)|[? ?]]]]; auto.
Qed.

Lemma promoted_tidy j b s s' r :
  tidy s r -> (S j < NUM_EVENT_PRIORITIES)%nat -> promoted c j b s s' ->
  exists q above e, let r' := set_queues r (<[j := above ++ [b]]> (<[S j := q]> (event_queues r))) in
    event_queues r !! S j = Some (b :: q) /\ event_queues r !! j = Some above /\
    events s !! b = Some e /\ scheduled_clock e + PRIORITY_INC_DELAY <= clock r /\
    events s' = <[b := set_schedule e j (clock r)]> (events s) /\ tidy s' r'.
Proof.
  intros Ht Hj Hpr. pose proof Ht as [Hs Hrest Hr Hw Hsm Hnd Hqd Hcnt].
  destruct (promoted_ok c j b s s' Hs) as [Hs' Hre]; [lia|done|].
  destruct (promoted_queued _ _ _ _ _ _ Hpr Hr) as (r1 & Hr1 & Hperm & _).
  destruct Hpr as (r0 & q & above & e & Hr0 & Hq & Hab & He & Hdue & ->).
  assert (r0 = r) as -> by congruence. clear Hr0.
  cbn in Hr1. rewrite lookup_insert_eq in Hr1. injection Hr1 as <-.
  exists q, above, e. split_and!; [done..|].
  assert ((b ∉ q) /\ (b ∉ above)) as [Hbq Hba].
  { split; [by apply Hnd in Hq as [? _]%NoDup_cons|]. intros Hb.
    assert (S j = j) by (eapply (tidy_unique s r); eauto; set_solver). lia. }
  split; cbn; [done| |by rewrite lookup_insert_eq|done|unfold len in *; by rewrite length_insert| | |].
  - intros c' r'. cbn. intros [[<- <-]|[? ?]]%lookup_insert_Some; [by eapply (Hrest c r)|eauto].
  - intros i q' [[-> ->]|[[-> ->]|(? & ? & Hi)]]%(moved_queues _ j b q above); [|by apply Hnd in Hq as [_ ?]%NoDup_cons|eauto|done|done].
    apply NoDup_app. split_and!; [eauto|set_solver|apply NoDup_singleton].
  - intros i q' a Hi Ha. destruct (decide (a = b)) as [->|Hne].
    + exists (set_schedule e j (clock r)).
      rewrite list_lookup_insert_eq by (by eapply lookup_lt_Some).
      assert (eid e ∈ pending_events r) as Hp.
      { destruct (Hqd _ _ b Hq) as (e0 & ? & _ & ?); [set_solver|]. by simplify_eq. }
      destruct (moved_queues _ _ _ _ _ _ _ Hq Hab Hi) as [[-> ->]|[[-> ->]|(? & ? & Hi')]]; [done|done|].
      assert (i = S j) by (eapply (tidy_unique s r); eauto; set_solver). done.
    + rewrite list_lookup_insert_ne by done.
      destruct (moved_queues _ _ _ _ _ _ _ Hq Hab Hi) as [[-> ->]|[[-> ->]|(? & ? & Hi')]];
        [eapply (Hqd j above)|eapply (Hqd (S j) (b :: q))|eapply Hqd]; eauto; set_solver.
  - by rewrite Hperm.
Qed.

(** A position is kept by any change after it that leaves the events up to it alone. *)
Lemma waits_prefix s s' r r' a i k i' k' d q q' o :
  event_queues r !! i = Some q -> event_queues r' !! i' = Some q' -> clock r <= clock r' ->
  q' !! k' = Some a -> (forall j, (j <= k')%nat -> q' !! j = q !! (o + j)%nat) -> (o + k' = k)%nat ->
  (forall j b, (j <= k')%nat -> q' !! j = Some b -> events s' !! b = events s !! b) ->
  waits s r a i k d -> waits s' r' a i' k' d.
Proof.
  intros Hq Hq' Hc Ha Hpre Hk Hev (q0 & Hq0 & _ & Hdue). assert (q0 = q) as -> by congruence.
  exists q'. split_and!; [done|done|]. intros j b e Hj Hb He.
  rewrite (Hev j b) in He by done. rewrite Hpre in Hb by done.
  specialize (Hdue (o + j)%nat b e ltac:(lia) Hb He). lia.
Qed.

Lemma promoted_waits j b s s' r a i k d :
  tidy s r -> (S j < NUM_EVENT_PRIORITIES)%nat -> promoted c j b s s' -> waits s r a i k d ->
  exists r', tidy s' r' /\ clock r' = clock r /\
    ((waits s' r' a i k d /\ i <> S j) \/
     exists i' k' d', waits s' r' a i' k' d' /\ (rank i' k' d' < rank i k d)%nat).
Proof.
  intros Ht Hj Hpr Hw. destruct (promoted_tidy _ _ _ _ _ Ht Hj Hpr)
    as (q & above & e & Hq & Hab & He & Hdue & Hev & Ht'). cbv zeta in Ht'.
  set (r' := set_queues _ _) in Ht'. exists r'. split_and!; [done|done|].
  assert (forall l x, l <> S j -> event_queues r !! l = Some x -> b ∉ x) as Hfree.
  { intros l x Hl Hx Hb. apply Hl. eapply (tidy_unique s r); eauto. set_solver. }
  assert (forall y, y <> b -> events s' !! y = events s !! y) as Hsame.
  { intros y Hy. rewrite Hev. by rewrite list_lookup_insert_ne by done. }
  assert (event_queues r' !! S j = Some q) as HqS.
  { cbn. rewrite list_lookup_insert_ne by lia. apply list_lookup_insert_eq. by eapply lookup_lt_Some. }
  assert (event_queues r' !! j = Some (above ++ [b])) as Hqj.
  { cbn. apply list_lookup_insert_eq. rewrite length_insert. by eapply lookup_lt_Some. }
  pose proof Hw as (q0 & Hq0 & Ha & _). destruct (decide (i = S j)) as [->|Hi].
  - right. assert (q0 = b :: q) as -> by congruence. destruct k as [|k].
    + injection Ha as ->. destruct (waits_any s' r' a j (above ++ [a])) as (k' & Hw' & Hk');
        [apply Ht'|apply Ht'|done|set_solver|]. exists j, k', 5%nat. split; [done|].
      pose proof (queue_length _ _ _ Hqj). pose proof (td_count _ _ Ht'). unfold rank. destruct j; lia.
    + exists (S j), k, d. split; [|unfold rank; lia].
      eapply (waits_prefix s s' r r' a (S j) (S k) (S j) k d (b :: q) q 1); eauto; [done|].
      intros j0 y _ Hy. apply Hsame. intros ->. apply (td_nodup _ _ Ht), NoDup_cons in Hq as [Hn _].
      apply Hn. by eapply list_elem_of_lookup_2.
  - left. split; [|done]. destruct (decide (i = j)) as [->|].
    + assert (q0 = above) as -> by congruence. pose proof (lookup_lt_Some _ _ _ Ha) as Hlt.
      eapply (waits_prefix s s' r r' a j k j k d above (above ++ [b]) 0); eauto; [done|..].
      * by rewrite lookup_app_l.
      * intros j0 ?. apply lookup_app_l. lia.
      * intros j0 y ?. rewrite lookup_app_l by lia. intros Hy. apply Hsame. intros ->.
        apply (Hfree j above Hi Hab). by eapply list_elem_of_lookup_2.
    + eapply (waits_prefix s s' r r' a i k i k d q0 q0 0); eauto; [|done|].
      * cbn. by rewrite !list_lookup_insert_ne by lia.
      * intros j0 y _ Hy. apply Hsame. intros ->. apply (Hfree i q0 Hi Hq0).
        by eapply list_elem_of_lookup_2.
Qed.

(** The front event is not due, so one that waits behind it has to wait a poll. *)
Lemma not_due_waits j s r a k d :
  EVENT_RUNNERS s !! c = Some r -> not_due c j s -> waits s r a (S j) k d -> (0 < d)%nat.
Proof.
  intros Hr (r0 & q & Hr0 & Hq & Hnd) (q0 & Hq0 & Hk & Hdue). assert (r0 = r) as -> by congruence. assert (q0 = q) as -> by congruence.
  destruct q as [|b q]; [done|]. destruct (Hnd _ _ eq_refl) as (e & He & Hlt).
  specialize (Hdue 0%nat b e ltac:(lia) eq_refl He). lia.
Qed.

(** Either [a] has moved on, or it waits as before. *)
Definition advanced n s r a : Prop :=
  exists i k d, waits s r a i k d /\ (rank i k d < n)%nat.

Lemma promote_live j s r a i k d (P : Prop) :
  tidy s r -> (S j < NUM_EVENT_PRIORITIES)%nat -> clock r + PRIORITY_INC_DELAY < 2 ^ 64 ->
  advanced (rank i k d) s r a \/ (waits s r a i k d /\ P) ->
  exists s' r', promote c (S j) s = (Ok tt, s') /\ tidy s' r' /\ clock r' = clock r /\
    (advanced (rank i k d) s' r' a \/ (waits s' r' a i k d /\ P /\ (i = S j -> (0 < d)%nat))).
Proof.
  intros Ht Hj Hc Hw. pose proof (td_runner _ _ Ht) as Hr.
  destruct (wp_total _ _ _ _ (promote_exact c j s (td_ok _ _ Ht) Hj)) as ([] & s' & Heq & Hcase).
  { intros Hn. apply Hn. by exists r. }
  exists s'. destruct Hcase as [[-> Hnd]|[b Hpr]].
  - exists r. split_and!; [done|done|done|]. destruct Hw as [?|[Hw ?]]; [by left|right].
    split_and!; [done|done|]. intros ->. by eapply not_due_waits.
  - destruct Hw as [(i' & k' & d' & Hw & Hlt)|[Hw HP]].
    + destruct (promoted_waits _ _ _ _ _ _ _ _ _ Ht Hj Hpr Hw) as (r' & ? & ? & Hadv).
      exists r'. split_and!; [done|done|done|]. left.
      destruct Hadv as [[? _]|(i2 & k2 & d2 & ? & ?)]; [exists i', k', d'|exists i2, k2, d2];
        split; [done|done|done|lia].
    + destruct (promoted_waits _ _ _ _ _ _ _ _ _ Ht Hj Hpr Hw) as (r' & ? & ? & Hadv).
      exists r'. split_and!; [done|done|done|]. destruct Hadv as [[? ?]|?]; [right|by left].
      by split_and!.
Qed.

Lemma reprioritize_live s r a i k d :
  tidy s r -> clock r + PRIORITY_INC_DELAY < 2 ^ 64 -> waits s r a i k d ->
  exists s' r', reprioritize c s = (Ok tt, s') /\ tidy s' r' /\ clock r' = clock r /\
    (advanced (rank i k d) s' r' a \/ (waits s' r' a i k d /\ (i = 0%nat \/ (0 < d)%nat))).
Proof.
  intros Ht Hc Hw.
  destruct (promote_live 0 s r a i k d True) as (s1 & r1 & E1 & T1 & C1 & W1);
    [done|unfold NUM_EVENT_PRIORITIES; lia|done|by right|].
  destruct (promote_live 1 s1 r1 a i k d (i = 1%nat -> (0 < d)%nat)) as (s2 & r2 & E2 & T2 & C2 & W2);
    [done|unfold NUM_EVENT_PRIORITIES; lia|congruence|by destruct W1 as [?|(? & ? & ?)]; auto|].
  destruct (promote_live 2 s2 r2 a i k d ((i = 1%nat -> (0 < d)%nat) /\ (i = 2%nat -> (0 < d)%nat)))
    as (s3 & r3 & E3 & T3 & C3 & W3);
    [done|unfold NUM_EVENT_PRIORITIES; lia|congruence|by destruct W2 as [?|(? & ? & ?)]; auto|].
  exists s3, r3. split_and!; [|done|congruence|].
  - unfold reprioritize. cbn [NUM_EVENT_PRIORITIES seq Nat.sub for_do].
    by rewrite (bind_ok _ _ _ _ _ E1), (bind_ok _ _ _ _ _ E2), (bind_ok _ _ _ _ _ E3).
  - destruct W3 as [?|(Hw3 & [H1 H2] & H3)]; [by left|right]. split; [done|].
    destruct (decide (i = 0%nat)); [by left|right].
    assert (i < NUM_EVENT_PRIORITIES)%nat as Hi.
    { destruct Hw as (q & Hq & _). apply lookup_lt_Some in Hq.
      by rewrite (ro_len _ _ (so_runners _ (td_ok _ _ Ht) _ _ (td_runner _ _ Ht))) in Hq. }
    unfold NUM_EVENT_PRIORITIES in Hi. destruct i as [|[|[|[|]]]]; auto; lia.
Qed.

(** ** A quiet turn *)

(** The runner after [b], the front of queue [i], was polled. *)
Definition after_poll r i (b : nat) q (p : Z) (ready : bool) : EventRunner :=
  mkRunner (<[i := if ready then q else q ++ [b]]> (event_queues r)) (runner_rewake_queue r)
    (if ready then pending_events r ∖ {[p]} else pending_events r) None (clock r + 1).

Lemma run_turn_quiet_eq s r s1 r1 i b q e f ready :
  tidy s r -> pending_events r <> ∅ -> reprioritize c s = (Ok tt, s1) -> tidy s1 r1 ->
  0 <= clock r1 + 1 < 2 ^ 64 ->
  event_queues r1 !! i = Some (b :: q) -> (forall j, (j < i)%nat -> event_queues r1 !! j = Some []) ->
  events s1 !! b = Some e -> poll (future e) b = (f, ready, []) ->
  run_turn c s = (Ok (Polled b ready),
    with_runner (with_event s1 b (set_future e f)) c (after_poll r1 i b q (eid e) ready)).
Proof.
  intros Ht Hp Hre Ht1 Hclk Hq Hlow He Hpoll. unfold run_turn.
  rewrite (runner_eq _ _ _ _ (td_runner _ _ Ht)). unfold have_pending_events.
  rewrite bool_decide_eq_false_2 by done.
  assert (next_event c s = (Ok (Some b), with_runner s1 c (set_queues r1 (<[i := q]> (event_queues r1))))) as Hn.
  { unfold next_event. rewrite (runner_eq _ _ _ _ (td_runner _ _ Ht)).
    rewrite (rewake_eq _ _ _ _ (td_rewake _ _ Ht)). cbn [try_pop]. rewrite (bind_ok _ _ _ _ _ Hre).
    pose proof (ro_len _ _ (so_runners _ (td_ok _ _ Ht1) _ _ (td_runner _ _ Ht1))) as Hlen.
    destruct (pop_first_eq NUM_EVENT_PRIORITIES 0 s1 c r1)
      as [(a & r' & (i' & q' & Hi' & Hlow' & ->) & ->)|[Hnil _]];
      [apply Ht1|done|lia| |].
    - assert (i' = i) as ->.
      { destruct (decide (i' < i)%nat) as [Hlt|]; [rewrite (Hlow _ Hlt) in Hi'; done|].
        destruct (decide (i < i')%nat) as [Hlt|]; [rewrite (Hlow' _ Hlt) in Hq; done|lia]. }
      by simplify_eq.
    - apply queue_length in Hq. rewrite Hnil in Hq. cbn in Hq. lia. }
  rewrite (bind_ok _ _ _ _ _ Hn). set (r2 := set_queues _ _). set (s2 := with_runner s1 c r2).
  destruct (td_queued _ _ Ht1 _ _ b Hq) as (e0 & He0 & Hprio & Hpend); [set_solver|].
  assert (e0 = e) as -> by congruence.
  rewrite (runner_eq _ _ r2) by (cbn; by rewrite lookup_insert_eq).
  rewrite put_runner_eq, (bind_expect _ b), (event_eq _ _ e) by done.
  unfold contains_event. rewrite bool_decide_eq_true_2 by done. rewrite bind_assoc.
  erewrite (bind_ok (poll_event c b)); cycle 1.
  { eapply (poll_event_quiet c _ (set_current r2 (Some b)) b e f ready q); [|done|done|done|].
    - cbn. by rewrite lookup_insert_eq.
    - cbn. rewrite Hprio. apply list_lookup_insert_eq. by eapply lookup_lt_Some. }
  rewrite bind_ret. unfold finish_turn. erewrite runner_eq by (cbn; by rewrite lookup_insert_eq).
  rewrite put_runner_eq. unfold ret, s2. f_equal. unfold with_runner, with_event. cbn.
  f_equal. repeat rewrite insert_insert_eq. f_equal. unfold after_poll, set_current.
  destruct ready; cbn; [done|]. by rewrite Hprio, list_insert_insert_eq.
Qed.

Lemma after_poll_queue r i b q p ready j x :
  event_queues r !! i = Some (b :: q) ->
  event_queues (after_poll r i b q p ready) !! j = Some x ->
  (j = i /\ x = if ready then q else q ++ [b]) \/ (j <> i /\ event_queues r !! j = Some x).
Proof.
  intros Hq. cbn. rewrite list_lookup_insert_Some. intros [(-> & <- & _)|[? ?]]; auto.
Qed.

Lemma after_poll_tidy s r i b q e f ready s' :
  tidy s r -> event_queues r !! i = Some (b :: q) -> events s !! b = Some e ->
  s' = with_runner (with_event s b (set_future e f)) c (after_poll r i b q (eid e) ready) ->
  sys_ok s' -> resting s' -> tidy s' (after_poll r i b q (eid e) ready).
Proof.
  intros Ht Hq He -> Hs' Hrest'. pose proof Ht as [Hs Hrest Hr Hw Hsm Hnd Hqd Hcnt].
  pose proof (Hnd _ _ Hq) as [Hbq Hndq]%NoDup_cons.
  split; [done|done|cbn; by rewrite lookup_insert_eq|done|cbn; unfold len in *; by rewrite length_insert| | |].
  - intros j x [[-> ->]|[? ?]]%(after_poll_queue r); [|eauto|done]. destruct ready; [done|].
    apply NoDup_app. split_and!; [done|set_solver|apply NoDup_singleton].
  - intros j x a Hj Ha. cbn -[after_poll]. destruct (decide (a = b)) as [->|Hne].
    + exists (set_future e f). rewrite list_lookup_insert_eq by (by eapply lookup_lt_Some).
      destruct (Hqd _ _ b Hq) as (e0 & ? & ? & ?); [set_solver|]. simplify_eq.
      destruct (after_poll_queue _ _ _ _ _ _ _ _ Hq Hj) as [[-> ->]|[Hji Hj']].
      * by destruct ready.
      * destruct Hji. eapply (tidy_unique s r); eauto. set_solver.
    + rewrite list_lookup_insert_ne by done.
      assert (exists x', event_queues r !! j = Some x' /\ a ∈ x') as (x' & Hx' & Ha').
      { destruct (after_poll_queue _ _ _ _ _ _ _ _ Hq Hj) as [[-> ->]|[Hji Hj']]; [|eauto].
        exists (b :: q). split; [done|]. destruct ready; set_solver. }
      destruct (Hqd _ _ _ Hx' Ha') as (e1 & He1 & ? & ?). exists e1. split_and!; [done|done|].
      destruct ready; cbn; [|done]. apply elem_of_difference. split; [done|].
      rewrite elem_of_singleton. intros Heq. apply Hne.
      rewrite (so_ids _ Hs _ _ He), (so_ids _ Hs _ _ He1) in Heq.
      apply lookup_lt_Some in He, He1. unfold len in Hsm. apply wrap_inj_events in Heq; lia.
  - unfold queued in *. cbn. rewrite (concat_pop _ _ _ _ Hq) in Hcnt. destruct ready.
    + cbn in Hcnt. lia.
    + rewrite <- (list_insert_insert_eq (event_queues r) i (q ++ [b]) q), concat_push; [done|].
      apply list_lookup_insert_eq. by eapply lookup_lt_Some.
Qed.

Lemma after_poll_waits s r i b q e f ready s' a i' k' d' :
  tidy s r -> event_queues r !! i = Some (b :: q) ->
  (forall j, (j < i)%nat -> event_queues r !! j = Some []) -> events s !! b = Some e ->
  s' = with_runner (with_event s b (set_future e f)) c (after_poll r i b q (eid e) ready) ->
  waits s r a i' k' d' ->
  b = a \/ exists i2 k2 d2, waits s' (after_poll r i b q (eid e) ready) a i2 k2 d2 /\
    (rank i2 k2 d2 <= rank i' k' d')%nat /\
    (i' = 0%nat \/ (0 < d')%nat -> (rank i2 k2 d2 < rank i' k' d')%nat).
Proof.
  intros Ht Hq Hlow He -> Hw. set (r' := after_poll _ _ _ _ _ _).
  pose proof (td_nodup _ _ Ht _ _ Hq) as [Hbq _]%NoDup_cons.
  pose proof Hw as (q0 & Hq0 & Hk & Hdue). destruct (decide (i' = i)) as [->|Hne].
  - assert (q0 = b :: q) as -> by congruence. destruct k' as [|k]; [left; by injection Hk|].
    right. exists i, k, d'. split; [|unfold rank; destruct i; lia].
    pose proof (lookup_lt_Some _ _ _ Hk) as Hlt. cbn in Hk, Hlt.
    assert (forall j, (j <= k)%nat -> (if ready then q else q ++ [b]) !! j = q !! j) as Hpre.
    { intros j ?. destruct ready; [done|]. apply lookup_app_l. lia. }
    eapply (waits_prefix s _ r r' a i (S k) i k d' (b :: q) (if ready then q else q ++ [b]) 1);
      [done| |cbn; lia| | |done| |done].
    + cbn. apply list_lookup_insert_eq. by eapply lookup_lt_Some.
    + by rewrite Hpre.
    + intros j ?. rewrite Hpre by done. done.
    + intros j y ? Hy. rewrite Hpre in Hy by done. cbn. rewrite list_lookup_insert_ne; [done|].
      intros ->. apply Hbq. by eapply list_elem_of_lookup_2.
  - right. assert (i < i')%nat as Hlt.
    { destruct (decide (i' < i)%nat) as [Hlt|]; [|lia]. rewrite (Hlow _ Hlt) in Hq0.
      injection Hq0 as <-. done. }
    exists i', k', (d' - 1)%nat. split; [|unfold rank; destruct i'; lia].
    exists q0. split_and!; [cbn; by rewrite list_lookup_insert_ne|done|].
    intros j y e1 Hj Hy. cbn. intros [(<- & <- & _)|[? He1]]%list_lookup_insert_Some.
    + destruct Hne. eapply (tidy_unique s r); eauto; [by eapply list_elem_of_lookup_2|set_solver].
    + specialize (Hdue _ _ _ Hj Hy He1). lia.
Qed.

(** The futures make no calls. *)
Context (quiet : forall (f : Fut) w, (poll f w).2 = []).

Lemma quiet_turn s r a i k d :
  tidy s r -> clock r + PRIORITY_INC_DELAY < 2 ^ 64 -> waits s r a i k d ->
  exists s1 r1 j b q e f ready,
    reprioritize c s = (Ok tt, s1) /\ tidy s1 r1 /\ clock r1 = clock r /\
    (advanced (rank i k d) s1 r1 a \/ (waits s1 r1 a i k d /\ (i = 0%nat \/ (0 < d)%nat))) /\
    event_queues r1 !! j = Some (b :: q) /\
    (forall l, (l < j)%nat -> event_queues r1 !! l = Some []) /\
    events s1 !! b = Some e /\ poll (future e) b = (f, ready, []) /\
    let r' := after_poll r1 j b q (eid e) ready in
    let s' := with_runner (with_event s1 b (set_future e f)) c r' in
    run_turn c s = (Ok (Polled b ready), s') /\ tidy s' r'.
Proof.
  intros Ht Hc Hw. destruct (reprioritize_live _ _ _ _ _ _ Ht Hc Hw) as (s1 & r1 & Hre & Ht1 & Hc1 & Hw1).
  pose proof (so_runners _ (td_ok _ _ Ht1) _ _ (td_runner _ _ Ht1)) as Hrok1.
  assert (pending_events r <> ∅) as Hp.
  { destruct Hw as (q & Hq & Ha & _). destruct (td_queued _ _ Ht _ _ a Hq) as (e & _ & _ & ?);
      [by eapply list_elem_of_lookup_2|set_solver]. }
  destruct (pop_first_eq NUM_EVENT_PRIORITIES 0 s1 c r1)
    as [(b & ? & (j & q & Hq & Hlow & _) & _)|[Hnil _]]; [apply Ht1|apply Hrok1|lia| |]; cycle 1.
  { assert (exists i0 k0 d0, waits s1 r1 a i0 k0 d0) as (i0 & k0 & d0 & q & Hq & Hk & _).
    { destruct Hw1 as [(i0 & k0 & d0 & ? & _)|[? _]]; eauto. }
    apply queue_length in Hq. rewrite Hnil in Hq. apply lookup_lt_Some in Hk. cbn in Hq. lia. }
  destruct (td_queued _ _ Ht1 _ _ b Hq) as (e & He & _ & _); [set_solver|].
  destruct (poll (future e) b) as [[f ready] xs] eqn:Hpoll.
  assert (xs = []) as -> by (by rewrite <- (quiet (future e) b), Hpoll).
  assert (0 <= clock r1 + 1 < 2 ^ 64) as Hclk.
  { pose proof (ro_clock _ _ Hrok1). unfold PRIORITY_INC_DELAY in *. lia. }
  pose proof (run_turn_quiet_eq s r s1 r1 j b q e f ready Ht Hp Hre Ht1 Hclk Hq Hlow He Hpoll) as Hturn.
  pose proof (wp_ok _ _ _ _ _ _ (run_turn_spec c s (td_ok _ _ Ht) (td_rest _ _ Ht)) Hturn)
    as (Hs' & Hrest' & _).
  exists s1, r1, j, b, q, e, f, ready. split_and!; [done..|]. split; [done|].
  by eapply (after_poll_tidy s1 r1 j b q e f ready).
Qed.

Lemma turn_live s r a i k d :
  tidy s r -> clock r + PRIORITY_INC_DELAY < 2 ^ 64 -> waits s r a i k d ->
  exists b ready s' r', run_turn c s = (Ok (Polled b ready), s') /\ tidy s' r' /\
    clock r' = clock r + 1 /\ (b = a \/ advanced (rank i k d) s' r' a).
Proof.
  intros Ht Hc Hw. destruct (quiet_turn _ _ _ _ _ _ Ht Hc Hw)
    as (s1 & r1 & j & b & q & e & f & ready & _ & Ht1 & Hc1 & Hw1 & Hq & Hlow & He & _ & Hturn & Ht').
  exists b, ready. eexists _, _. split_and!; [exact Hturn|exact Ht'|cbn; lia|].
  destruct Hw1 as [(i1 & k1 & d1 & Hw1 & Hlt)|[Hw1 Hd]];
    destruct (after_poll_waits s1 r1 j b q e f ready _ _ _ _ _ Ht1 Hq Hlow He eq_refl Hw1)
      as [?|(i2 & k2 & d2 & ? & ? & ?)]; auto; right; exists i2, k2, d2; (split; [done|]); auto; lia.
Qed.

Lemma waits_polled n s r a i k d :
  tidy s r -> waits s r a i k d -> (rank i k d < n)%nat ->
  clock r + PRIORITY_INC_DELAY + Z.of_nat n < 2 ^ 64 ->
  exists m ts ready s', (m < n)%nat /\
    trace (replicate (S m) (Turn c)) s = (Ok (ts ++ [Polled a ready]), s').
Proof.
  revert s r i k d. induction n as [|n IH]; intros s r i k d Ht Hw Hlt Hc; [lia|].
  destruct (turn_live s r a i k d Ht) as (b & ready & s' & r' & Hturn & Ht' & Hc' & Hcase); [lia|done|].
  destruct Hcase as [->|(i' & k' & d' & Hw' & Hlt')].
  - exists 0%nat, [], ready, s'. split; [lia|]. cbn [replicate trace exec].
    by rewrite (bind_ok _ _ _ _ _ Hturn).
  - destruct (IH s' r' i' k' d') as (m & ts & ready' & s2 & Hm & Htr); [done|done|lia|lia|].
    exists (S m), (Polled b ready :: ts), ready', s2. split; [lia|].
    cbn [replicate]. cbn [trace exec]. rewrite (bind_ok _ _ _ _ _ Hturn).
    cbn [replicate trace exec] in Htr. by rewrite (bind_ok _ _ _ _ _ Htr).
Qed.
End waiting.

(** ** Finite futures *)

Section finite.
Context {Fut : Type} `{Future Fut}.
Context (c : Z).
Context (quiet : forall (f : Fut) w, (poll f w).2 = []).
Context (work : Fut -> nat).
Context (works : forall f w, (poll f w).1.2 = false -> (work (poll f w).1.1 < work f)%nat).

(** The polls the queued events may still need. *)
Definition need (s : Sys Fut) (a : nat) : nat :=
  match events s !! a with Some e => S (work (future e)) | None => 0 end.
Definition load (s : Sys Fut) (r : EventRunner) : nat := sum_list_with (need s) (queued r).

Lemma sum_list_with_perm {A} (f : A -> nat) l l' :
  l ≡ₚ l' -> sum_list_with f l = sum_list_with f l'.
Proof. induction 1; cbn; lia. Qed.

Lemma sum_list_with_ext {A} (f g : A -> nat) l :
  (forall x, x ∈ l -> f x = g x) -> sum_list_with f l = sum_list_with g l.
Proof.
  induction l as [|x l IH]; cbn; intros Hx; [done|].
  rewrite Hx by set_solver. rewrite IH; [done|]. set_solver.
Qed.

Lemma need_reordered s s' a : reordered c s s' -> is_Some (events s !! a) -> need s' a = need s a.
Proof.
  intros Hre [e He]. destruct (ev_events _ _ (proj1 (re_grows _ _ _ Hre)) _ _ He) as (e' & He' & _).
  destruct (re_future _ _ _ Hre _ _ He') as (e0 & ? & Hf). unfold need.
  rewrite He', He. simplify_eq. by rewrite Hf.
Qed.

Lemma after_poll_load T s r j b q e f ready :
  tidy c T s r -> event_queues r !! j = Some (b :: q) -> events s !! b = Some e ->
  poll (future e) b = (f, ready, []) ->
  (load (with_runner (with_event s b (set_future e f)) c (after_poll r j b q (eid e) ready))
        (after_poll r j b q (eid e) ready) < load s r)%nat.
Proof.
  intros Ht Hq He Hpoll. set (s' := with_runner _ _ _). unfold load.
  rewrite (sum_list_with_perm _ _ _ (concat_pop _ _ _ _ Hq)). cbn [sum_list_with].
  assert (b ∉ concat (<[j := q]> (event_queues r))) as Hb.
  { intros (x & Hx%list_elem_of_In & Hbx%list_elem_of_In)%list_elem_of_In%in_concat.
    apply list_elem_of_lookup_1 in Hx as [l Hx].
    pose proof (td_nodup _ _ _ _ Ht _ _ Hq) as [Hn _]%NoDup_cons.
    apply list_lookup_insert_Some in Hx as [(-> & -> & _)|[Hne Hx]]; [done|].
    apply Hne. apply (tidy_unique c T s r j l (b :: q) x b); [done|done|done|set_solver|done]. }
  assert (sum_list_with (need s') (concat (<[j := q]> (event_queues r))) =
    sum_list_with (need s) (concat (<[j := q]> (event_queues r)))) as Hsame.
  { apply sum_list_with_ext. intros x Hx. unfold need. cbn. rewrite list_lookup_insert_ne; [done|].
    by intros ->. }
  assert (need s b = S (work (future e))) as Hn by (unfold need; by rewrite He).
  unfold queued. cbn. destruct ready; [lia|].
  rewrite <- (list_insert_insert_eq (event_queues r) j (q ++ [b]) q).
  rewrite (sum_list_with_perm _ _ _ (concat_push _ j b q
    ltac:(apply list_lookup_insert_eq; by eapply lookup_lt_Some))). cbn [sum_list_with].
  assert (need s' b = S (work f)) as Hn'.
  { unfold need. cbn. by rewrite list_lookup_insert_eq by (by eapply lookup_lt_Some). }
  pose proof (works (future e) b) as Hw. rewrite Hpoll in Hw. specialize (Hw eq_refl). cbn in Hw. lia.
Qed.

Lemma turn_load T s r :
  tidy c T s r -> clock r + PRIORITY_INC_DELAY < 2 ^ 64 -> queued r <> [] ->
  exists b ready s' r', run_turn c s = (Ok (Polled b ready), s') /\ tidy c T s' r' /\
    clock r' = clock r + 1 /\ (load s' r' < load s r)%nat.
Proof.
  intros Ht Hc Hne. pose proof (td_runner _ _ _ _ Ht) as Hr.
  destruct (pop_first_eq NUM_EVENT_PRIORITIES 0 s c r) as [(a & ? & (i & q & Hq & _) & _)|[Hnil _]];
    [done|apply (so_runners _ (td_ok _ _ _ _ Ht) _ _ Hr)|lia| |done].
  destruct (waits_any c s r a i (a :: q)) as (k & Hw & _); [apply Ht|done|done|set_solver|].
  destruct (quiet_turn c T quiet s r a i k 5 Ht Hc Hw)
    as (s1 & r1 & j & b & q1 & e & f & ready & Hre & Ht1 & Hc1 & _ & Hq1 & Hlow & He & Hpoll & Hturn & Ht').
  exists b, ready. eexists _, _. split_and!; [exact Hturn|exact Ht'|cbn; lia|].
  pose proof (wp_ok _ _ _ _ _ _ (reprioritize_spec c s (td_ok _ _ _ _ Ht)) Hre) as [_ Hreo].
  destruct (re_runner _ _ _ Hreo _ Hr) as (r1' & Hr1 & _ & _ & Hperm).
  assert (r1' = r1) as -> by (pose proof (td_runner _ _ _ _ Ht1); congruence).
  assert (load s r = load s1 r1) as ->.
  { unfold load. rewrite (sum_list_with_perm _ _ _ Hperm). apply sum_list_with_ext.
    intros y Hy. symmetry. apply (need_reordered s s1); [done|].
    destruct (so_runners _ (td_ok _ _ _ _ Ht) _ _ Hr) as [_ Hm _ _ _].
    destruct (Hm y) as (ey & -> & _); [unfold held; set_solver|done]. }
  eapply after_poll_load; eauto.
Qed.

Lemma run_until_idle_ends T n s r :
  tidy c T s r -> (load s r < n)%nat -> clock r + PRIORITY_INC_DELAY + Z.of_nat n < 2 ^ 64 ->
  exists s' r', run_until_idle n c s = (Ok tt, s') /\ EVENT_RUNNERS s' !! c = Some r' /\
    pending_events r' = ∅.
Proof.
  revert s r. induction n as [|n IH]; intros s r Ht Hl Hc; [lia|]. cbn [run_until_idle].
  destruct (decide (queued r = [])) as [Hnil|Hne].
  - assert (pending_events r = ∅) as Hp.
    { apply elem_of_equiv_empty_L. intros p Hp. pose proof (td_runner _ _ _ _ Ht) as Hr.
      destruct (ro_pending _ _ (so_runners _ (td_ok _ _ _ _ Ht) _ _ Hr) _ Hp) as (a & e & Ha & _).
      unfold held in Ha. rewrite (td_rest _ _ _ _ Ht _ _ Hr), Hnil in Ha. by apply elem_of_nil in Ha. }
    exists s, r. split_and!; [|apply Ht|done]. rewrite (bind_ok _ _ _ Idle s); [done|].
    unfold run_turn. rewrite (runner_eq _ _ _ _ (td_runner _ _ _ _ Ht)). unfold have_pending_events.
    by rewrite bool_decide_eq_true_2.
  - destruct (turn_load T s r Ht) as (b & ready & s' & r' & Hturn & Ht' & Hc' & Hlt); [lia|done|].
    rewrite (bind_ok _ _ _ _ _ Hturn). apply (IH s' r' Ht'); lia.
Qed.
End finite.

(** ** Theorems *)

(** C6: no starvation.  When the futures neither wake nor schedule events and
    nobody has been woken, every queued event is polled within
    [4 * (T + 6)] turns of its core, where [T] is the number of queued events:
    aging moves it up a queue at least every [T + 5] turns, whatever its priority
    and whatever the other events do. *)
Theorem bounded_waiting {Fut : Type} `{Future Fut} (cpuid : Z) (s : Sys Fut) (r : EventRunner) (a : nat) :
  (forall (f : Fut) w, (poll f w).2 = []) ->
  tidy cpuid (length (queued r)) s r -> a ∈ queued r ->
  clock r + PRIORITY_INC_DELAY + 4 * (len (queued r) + 6) < 2 ^ 64 ->
  exists n ts ready s', (n < 4 * (length (queued r) + 6))%nat /\
    trace (replicate (S n) (Turn cpuid)) s = (Ok (ts ++ [Polled a ready]), s').
Proof.
  intros Hquiet Ht Ha Hc. pose proof (so_runners _ (td_ok _ _ _ _ Ht) _ _ (td_runner _ _ _ _ Ht)) as Hrok.
  apply list_elem_of_In, in_concat in Ha as (q & Hq%list_elem_of_In & Ha%list_elem_of_In).
  apply list_elem_of_lookup_1 in Hq as [i Hq].
  destruct (waits_any cpuid s r a i q) as (k & Hw & Hk); [apply Ht|apply Ht|done|done|].
  apply (waits_polled cpuid _ Hquiet _ s r a i k 5 Ht Hw).
  - apply queue_length in Hq as Hl. apply lookup_lt_Some in Hq. rewrite (ro_len _ _ Hrok) in Hq.
    unfold NUM_EVENT_PRIORITIES in Hq. unfold rank. destruct i as [|[|[|[|]]]]; lia.
  - unfold len in Hc. lia.
Qed.

(** A core whose futures are finite becomes idle.  When the futures neither
    wake nor schedule events and [work] bounds the polls a future still needs,
    the inner loop of [run_loop] ends, with nothing pending, after at most as
    many turns as the queued futures need polls. *)
Theorem run_until_idle_terminates {Fut : Type} `{Future Fut} (work : Fut -> nat) (cpuid : Z)
    (T : nat) (s : Sys Fut) (r : EventRunner) :
  (forall (f : Fut) w, (poll f w).2 = []) ->
  (forall f w, (poll f w).1.2 = false -> (work (poll f w).1.1 < work f)%nat) ->
  tidy cpuid T s r -> clock r + PRIORITY_INC_DELAY + Z.of_nat (S (load work s r)) < 2 ^ 64 ->
  exists s' r', run_until_idle (S (load work s r)) cpuid s = (Ok tt, s') /\
    EVENT_RUNNERS s' !! cpuid = Some r' /\ pending_events r' = ∅.
Proof. intros Hq Hw Ht Hc. apply (run_until_idle_ends cpuid Hq work Hw T _ s r Ht); lia. Qed.

(** the order of events.  The next event is the one woken first, if any was
    woken; otherwise the queues are aged and the front of the first queue that
    is not empty is taken, and none is taken only if all are empty. *)
Theorem next_event_order {Fut : Type} `{Future Fut} (cpuid : Z) (ts : list turn) (s : Sys Fut)
    (r : EventRunner) :
  runs boot ts s -> EVENT_RUNNERS s !! cpuid = Some r -> clock_fits cpuid s ->
  exists woken, rewakes s !! runner_rewake_queue r = Some woken /\
  match woken with
  | a :: rest => next_event cpuid s = (Ok (Some a), with_rewake s (runner_rewake_queue r) rest)
  | [] => exists s1 r1, reprioritize cpuid s = (Ok tt, s1) /\ EVENT_RUNNERS s1 !! cpuid = Some r1 /\
      queued r1 ≡ₚ queued r /\
      ((queued r = [] /\ next_event cpuid s = (Ok None, s1)) \/
       exists i a q, event_queues r1 !! i = Some (a :: q) /\
         (forall j, (j < i)%nat -> event_queues r1 !! j = Some []) /\
         next_event cpuid s =
           (Ok (Some a), with_runner s1 cpuid (set_queues r1 (<[i := q]> (event_queues r1)))))
  end.
Proof.
  intros [Hs _]%runs_ok Hr Hfit. destruct (ro_rewake _ _ (so_runners _ Hs _ _ Hr)) as [woken Hw].
  exists woken. split; [done|]. destruct woken as [|a rest]; cycle 1.
  { unfold next_event. by rewrite (runner_eq _ _ _ _ Hr), (rewake_eq _ _ _ _ Hw). }
  destruct (wp_total _ _ _ _ (reprioritize_spec cpuid s Hs)) as ([] & s1 & Hre & Hs1 & Hreo); [tauto|].
  destruct (re_runner _ _ _ Hreo _ Hr) as (r1 & Hr1 & _ & _ & Hperm). exists s1, r1.
  split_and!; [done|done|done|].
  assert (next_event cpuid s = for_each (seq 0 NUM_EVENT_PRIORITIES) (pop_queue cpuid) s1) as ->.
  { unfold next_event. rewrite (runner_eq _ _ _ _ Hr), (rewake_eq _ _ _ _ Hw). cbn [try_pop].
    by rewrite (bind_ok _ _ _ _ _ Hre). }
  destruct (pop_first_eq NUM_EVENT_PRIORITIES 0 s1 cpuid r1)
    as [(a & ? & (i & q & ? & ? & ->) & ->)|[Hnil ->]];
    [done|apply (ro_len _ _ (so_runners _ Hs1 _ _ Hr1))|lia|right; eauto 10|left].
  split; [|done]. apply Permutation_nil_r. by rewrite <- Hperm, Hnil.
Qed.

(** ** A future that wakes itself *)

Section self_waking.
Context {Fut : Type} `{Future Fut}.

(** The runner after [n] turns that polled [a], of priority [p], and nothing else. *)
Definition hogged (r : EventRunner) (p a n : nat) : EventRunner :=
  mkRunner (alter (fun q => q ++ replicate n a) p (event_queues r)) (runner_rewake_queue r)
    (pending_events r) None (clock r + Z.of_nat n).

(** Event [a] of core [c] has been woken, and wakes itself whenever it is polled. *)
Record hogs (c : Z) (s : Sys Fut) (r : EventRunner) (a : nat) (e : Event Fut) : Prop := {
  hog_runner : EVENT_RUNNERS s !! c = Some r;
  hog_rest : current_event r = None;
  hog_rewake : rewakes s !! runner_rewake_queue r = Some [a];
  hog_event : events s !! a = Some e;
  hog_mine : rewake_queue e = runner_rewake_queue r;
  hog_pending : eid e ∈ pending_events r;
  hog_priority : (priority e < length (event_queues r))%nat;
  hog_polls : poll (future e) a = (future e, false, [Wake a])
}.

Lemma alter_as_insert {A} (f : A -> A) i (l : list A) x : l !! i = Some x -> alter f i l = <[i := f x]> l.
Proof.
  intros Hx. apply list_eq. intros j. destruct (decide (j = i)) as [->|].
  - rewrite list_lookup_alter_eq, Hx, list_lookup_insert_eq; [done|]. by eapply lookup_lt_Some.
  - by rewrite list_lookup_alter_ne, list_lookup_insert_ne.
Qed.

Lemma hog_poll c s r a e q :
  EVENT_RUNNERS s !! c = Some r -> rewakes s !! runner_rewake_queue r = Some [] ->
  events s !! a = Some e -> rewake_queue e = runner_rewake_queue r ->
  poll (future e) a = (future e, false, [Wake a]) -> 0 <= clock r + 1 < 2 ^ 64 ->
  event_queues r !! priority e = Some q ->
  poll_event c a s = (Ok false, with_rewake (with_runner s c
    (set_queues (set_clock r (clock r + 1)) (<[priority e := q ++ [a]]> (event_queues r))))
    (runner_rewake_queue r) [a]).
Proof.
  intros Hr Hw He Hm Hpoll Hc Hq.
  assert (set_future e (future e) = e) as Hse by (by destruct e).
  assert (with_event (with_runner s c (set_clock r (clock r + 1))) a (set_future e (future e)) =
    with_runner s c (set_clock r (clock r + 1))) as Hs.
  { rewrite Hse. unfold with_event, with_runner. cbn. by rewrite list_insert_id. }
  rewrite (poll_event_eq c s r a e (future e) false [Wake a]
    (with_rewake (with_runner s c (set_clock r (clock r + 1))) (runner_rewake_queue r) [a])
    e (set_clock r (clock r + 1)) q Hr He Hpoll Hc); [|rewrite Hs; clear Hs|done| |done].
  - unfold with_rewake, with_runner. cbn. by rewrite insert_insert_eq.
  - cbn [for_do run_effect]. rewrite (bind_ok _ _ _ tt
      (with_rewake (with_runner s c (set_clock r (clock r + 1))) (runner_rewake_queue r) [a])); [done|].
    unfold wake_by_ref. rewrite (event_eq _ _ e) by done. rewrite Hm, (rewake_eq _ _ []) by done. done.
  - cbn. by rewrite lookup_insert_eq.
Qed.

Lemma hog_turn c s r a e :
  hogs c s r a e -> 0 <= clock r + 1 < 2 ^ 64 ->
  run_turn c s = (Ok (Polled a false), with_runner s c (hogged r (priority e) a 1)).
Proof.
  intros [Hr Hrest Hw He Hm Hp Hprio Hpoll] Hc. unfold run_turn.
  destruct (lookup_lt_is_Some_2 _ _ Hprio) as [q Hq].
  rewrite (runner_eq _ _ _ _ Hr). unfold have_pending_events.
  rewrite bool_decide_eq_false_2 by set_solver.
  rewrite (bind_ok _ _ _ (Some a) (with_rewake s (runner_rewake_queue r) [])); cycle 1.
  { unfold next_event. by rewrite (runner_eq _ _ _ _ Hr), (rewake_eq _ _ _ _ Hw). }
  rewrite (runner_eq _ _ r), put_runner_eq, (bind_expect _ a), (event_eq _ _ e) by done.
  unfold contains_event. rewrite bool_decide_eq_true_2, bind_assoc by done.
  rewrite (bind_ok _ _ _ _ _ (hog_poll c
    (with_runner (with_rewake s (runner_rewake_queue r) []) c (set_current r (Some a)))
    (set_current r (Some a)) a e q
    ltac:(cbn; by rewrite lookup_insert_eq)
    ltac:(cbn; rewrite list_lookup_insert_eq by (by eapply lookup_lt_Some); done)
    He Hm Hpoll Hc Hq)).
  rewrite bind_ret. unfold finish_turn. erewrite runner_eq by (cbn; by rewrite lookup_insert_eq).
  rewrite put_runner_eq. unfold ret. f_equal. unfold with_runner, with_rewake. cbn.
  rewrite list_insert_insert_eq, (list_insert_id (rewakes s)) by done. f_equal.
  repeat rewrite insert_insert_eq. f_equal. unfold hogged, set_current. cbn.
  by rewrite (alter_as_insert _ _ _ _ Hq).
Qed.

Lemma hogs_again c s r a e :
  hogs c s r a e -> hogs c (with_runner s c (hogged r (priority e) a 1)) (hogged r (priority e) a 1) a e.
Proof.
  intros [Hr Hrest Hw He Hm Hp Hprio Hpoll].
  split; cbn; [by rewrite lookup_insert_eq|done..|by rewrite length_alter|done].
Qed.

Lemma hogged_more r p a n : hogged (hogged r p a 1) p a n = hogged r p a (S n).
Proof.
  unfold hogged. cbn -[Z.of_nat]. f_equal; [|lia].
  apply list_eq. intros i. destruct (decide (i = p)) as [->|].
  - rewrite !list_lookup_alter_eq. destruct (event_queues r !! p); [|done]. cbn. by rewrite <- app_assoc.
  - by rewrite !list_lookup_alter_ne.
Qed.
End self_waking.

(** a future that wakes itself while it is polled starves its core: once
    such an event has been woken, every turn polls it and nothing else, whatever
    else is queued and whatever the priorities, and each turn leaves one more
    copy of the event in its priority queue. *)
Theorem self_waking_starves {Fut : Type} `{Future Fut} (cpuid : Z) (s : Sys Fut) (r : EventRunner)
    (a : nat) (e : Event Fut) (n : nat) :
  hogs cpuid s r a e -> 0 <= clock r -> clock r + Z.of_nat n < 2 ^ 64 ->
  trace (replicate n (Turn cpuid)) s =
    (Ok (replicate n (Polled a false)), with_runner s cpuid (hogged r (priority e) a n)).
Proof.
  revert s r. induction n as [|n IH]; intros s r Hh H0 Hc.
  - cbn. unfold ret. f_equal. rewrite <- (with_runner_id s cpuid r) at 1 by apply Hh. f_equal.
    destruct Hh as [_ Hrest _ _ _ _ Hp _]. apply lookup_lt_is_Some_2 in Hp as [q Hq].
    unfold hogged. rewrite (alter_as_insert _ _ _ _ Hq), app_nil_r, list_insert_id by done.
    rewrite Z.add_0_r. destruct r. cbn in *. by subst.
  - cbn [replicate trace exec]. rewrite (bind_ok _ _ _ _ _ (hog_turn _ _ _ _ _ Hh ltac:(lia))).
    rewrite (bind_ok _ _ _ _ _ (IH _ _ (hogs_again _ _ _ _ _ Hh) ltac:(cbn; lia) ltac:(cbn -[Z.of_nat]; lia))).
    by rewrite with_runner_twice, hogged_more.
Qed.

(** ** Runs of concrete futures *)

Definition live_actions : list (action (Fut := nat)) :=
  [Register 0; Call (ScheduleKernel 0 3%nat 1); Call (ScheduleProcess 0 2%nat 7)].
Definition live_sys : Sys nat := (trace live_actions boot).2.
Definition live_runner : EventRunner := mkRunner [[]; [0%nat]; []; [1%nat]] 0 {[0; 1]} None 0.

Lemma live_runs : runs boot [Idle; Idle; Idle] live_sys.
Proof. refine (trace_runs live_actions _ [] _ _ _ (runs_nil boot) _). vm_compute. reflexivity. Qed.

Lemma live_tidy : tidy 0 2 live_sys live_runner.
Proof.
  destruct (runs_ok _ _ live_runs) as [Hs Hrest].
  split; [done|done|vm_compute; reflexivity|vm_compute; reflexivity|vm_compute; discriminate|..|vm_compute; lia].
  - intros [|[|[|[|i]]]] q; cbn; intros [= <-]; repeat constructor; set_solver.
  - intros [|[|[|[|i]]]] q a; cbn; intros [= <-]; rewrite ?list_elem_of_singleton, ?elem_of_nil;
      [done|intros ->|done|intros ->]; (eexists; split; [vm_compute; reflexivity|split; [done|set_solver]]).
Qed.

Lemma bounded_waiting_witness :
  exists n ts ready s', (n < 32)%nat /\
    trace (replicate (S n) (Turn 0)) live_sys = (Ok (ts ++ [Polled 1 ready]), s').
Proof.
  apply (bounded_waiting 0 live_sys live_runner 1).
  - intros [|f] w; reflexivity.
  - exact live_tidy.
  - cbn. set_solver.
  - vm_compute. reflexivity.
Defined.

Lemma run_until_idle_terminates_witness :
  exists s' r', run_until_idle (S (load (fun n => n) live_sys live_runner)) 0 live_sys = (Ok tt, s') /\
    EVENT_RUNNERS s' !! 0 = Some r' /\ pending_events r' = ∅.
Proof.
  apply (run_until_idle_terminates (fun n => n) 0 2 live_sys live_runner).
  - intros [|f] w; reflexivity.
  - intros [|f] w; [discriminate|]. cbn. lia.
  - exact live_tidy.
  - vm_compute. reflexivity.
Defined.

Definition demo_runner : EventRunner := default (mkRunner [] 0 ∅ None 0) (EVENT_RUNNERS demo_sys !! 0).

Lemma next_event_order_witness :
  exists woken, rewakes demo_sys !! runner_rewake_queue demo_runner = Some woken.
Proof.
  destruct (next_event_order 0 demo_turns demo_sys demo_runner demo_runs) as (woken & Hw & _);
    [vm_compute; reflexivity|exact (proj1 demo_fits)|exact (ex_intro _ woken Hw)].
Defined.

(** [None] wakes itself and never ends; [Some n] wakes itself once when [n] is
    odd, and counts down by two. *)
#[local] Instance spinner : Future (option nat) := fun f w =>
  match f with
  | None => (None, false, [Wake w])
  | Some n => if Nat.odd n then (Some (n - 1)%nat, false, [Wake w])
              else (Some (n - 2)%nat, (n <=? 2)%nat, [])
  end.

Definition hog_actions : list (action (Fut := option nat)) :=
  [Register 0; Call (ScheduleKernel 0 None 3); Call (ScheduleKernel 0 (Some 8%nat) 0); Call (Wake 0)].
Definition hog_sys : Sys (option nat) := (trace hog_actions boot).2.
Definition hog_of_sys : Event (option nat) := mkEvent 0 0 None 0 3 0.
Definition hog_runner0 : EventRunner := mkRunner [[1%nat]; []; []; [0%nat]] 0 {[0; 1]} None 0.

Lemma self_waking_starves_witness :
  trace (replicate 100 (Turn 0)) hog_sys =
    (Ok (replicate 100 (Polled 0 false)), with_runner hog_sys 0 (hogged hog_runner0 3 0 100)).
Proof.
  apply (self_waking_starves 0 hog_sys hog_runner0 0 hog_of_sys 100); [|done|done].
  split; [vm_compute; reflexivity|done|vm_compute; reflexivity|vm_compute; reflexivity|done|set_solver
    |cbn; lia|done].
Defined.

(** Two events: one that never ends, at the highest priority, and one at the
    lowest that wakes itself in its first poll. *)
Definition twice_actions (n : nat) : list (action (Fut := option nat)) :=
  [Register 0; Call (ScheduleKernel 0 (Some 101%nat) 3); Call (Wake 0);
   Call (ScheduleKernel 0 (Some 200%nat) 0)] ++ replicate n (Turn 0).
Definition priority_after (n : nat) : option nat :=
  priority <$> events (trace (twice_actions n) boot).2 !! 0%nat.

(** an event that is woken while it waits is queued twice, and aging then
    treats its copies as two events with one priority: it was raised to the
    highest priority, and the promotion of its stale copy sets it back to 2. *)
Theorem stale_copy_demotes : priority_after 20 = Some 0%nat /\ priority_after 21 = Some 2%nat.
Proof. split; vm_compute; reflexivity. Qed.
