(* ===== verification/Futures.v ===== *)
(** * The demonstration futures ([events/futures.rs])

    [RandomFuture] tosses a coin on every poll, and [rand_delay] awaits one.
    The generator of the [rand] crate is a parameter.  [print_nums_after_rand_delay]
    joins two delays with a combinator of the [futures] crate and prints their
    results; it is not modelled. *)

From S2P Require Import Prelude Events.

Section futures.
(** A generator [R], seeded by [seed_from_u64]; [gen_bool] draws with a
    probability (an [f64]). *)
Context {R Prob Fut : Type} (seed_from_u64 : Z -> R) (gen_bool : Prob -> R -> bool * R) (four_tenths : Prob).

Record RandomFuture := mkRandom { prob : Prob; rng : R; waker : option nat }.

Definition RandomFuture_new (prob : Prob) (seed : Z) : RandomFuture := mkRandom prob (seed_from_u64 seed) None.

(** [poll] with the waker of event [cx]: the future, whether it is ready, and
    the wakers it wakes. *)
Definition RandomFuture_poll (self : RandomFuture) (cx : nat) : RandomFuture * bool * list (effect Fut) :=
  let (res, rng) := gen_bool (prob self) (rng self) in
  if res then
    (mkRandom (prob self) rng (waker self), true,
     match waker self with Some w => [Wake w] | None => [] end)
  else (mkRandom (prob self) rng (Some cx), false, []).

(** [rand_delay] before its first poll, at its [await], and after its end,
    where polling it again panics. *)
Inductive RandDelay :=
| Unresumed (seed : Z)
| Suspended (seed : Z) (foo : RandomFuture)
| Returned.
Definition rand_delay_await (seed : Z) (foo : RandomFuture) (cx : nat)
    : option (RandDelay * option Z * list (effect Fut)) :=
  let '(foo, ready, effects) := RandomFuture_poll foo cx in
  if ready then Some (Returned, Some seed, effects) else Some (Suspended seed foo, None, effects).
Definition rand_delay (self : RandDelay) (cx : nat) : option (RandDelay * option Z * list (effect Fut)) :=
  match self with
  | Unresumed seed => rand_delay_await seed (RandomFuture_new four_tenths seed) cx
  | Suspended seed foo => rand_delay_await seed foo cx
  | Returned => None
  end.

(** ** How often it is polled *)

(** The [k]-th draw of a generator, and the generator after [k] draws. *)
Fixpoint after_draws (p : Prob) (k : nat) (r : R) : R :=
  match k with O => r | S k => after_draws p k (gen_bool p r).2 end.
Definition draw (p : Prob) (k : nat) (r : R) : bool := (gen_bool p (after_draws p k r)).1.

(** A delay polled [k] times; what it woke and what it returned last. *)
Fixpoint polls (k : nat) (cx : nat) (self : RandDelay) : option (RandDelay * option Z * list (effect Fut)) :=
  match k with
  | O => Some (self, None, [])
  | S k =>
      match polls k cx self with
      | Some (self, None, effects) =>
          match rand_delay self cx with
          | Some (self, v, effects') => Some (self, v, effects ++ effects')
          | None => None
          end
      | r => r
      end
  end.

Definition suspended_after (seed : Z) (k cx : nat) : RandDelay :=
  Suspended seed (mkRandom four_tenths (after_draws four_tenths k (seed_from_u64 seed)) (Some cx)).

Lemma after_draws_S p k r : after_draws p (S k) r = (gen_bool p (after_draws p k r)).2.
Proof. revert r. induction k as [|k IH]; intros r; [done|]. exact (IH _). Qed.

Lemma polls_pending seed cx k :
  (forall j, (j < S k)%nat -> draw four_tenths j (seed_from_u64 seed) = false) ->
  polls (S k) cx (Unresumed seed) = Some (suspended_after seed (S k) cx, None, []).
Proof.
  unfold draw, suspended_after. induction k as [|k IH]; intros Hd.
  - pose proof (Hd 0%nat ltac:(lia)) as H0. cbn in H0 |- *.
    unfold rand_delay_await, RandomFuture_poll, RandomFuture_new. cbn.
    destruct (gen_bool four_tenths (seed_from_u64 seed)) as [b r] eqn:E. cbn in *. by subst b.
  - change (polls (S (S k)) cx (Unresumed seed)) with
      (match polls (S k) cx (Unresumed seed) with
       | Some (self, None, effects) =>
           match rand_delay self cx with Some (self, v, effects') => Some (self, v, effects ++ effects') | None => None end
       | r => r end).
    rewrite IH by (intros; apply Hd; lia). pose proof (Hd (S k) ltac:(lia)) as H0. rewrite (after_draws_S _ (S k)).
    cbn [rand_delay]. unfold rand_delay_await, RandomFuture_poll. cbn [prob rng waker].
    destruct (gen_bool four_tenths (after_draws four_tenths (S k) (seed_from_u64 seed))) as [b r]. cbn in *. by subst b.
Qed.

(** [rand_delay] returns its seed at exactly the first poll whose draw
    succeeds.  Until then it is pending and wakes nobody, so it relies on being
    polled again unasked; the poll that makes it ready wakes the event it was
    polled for before, which by then is finished. *)
Theorem rand_delay_polls (seed : Z) (cx k : nat) :
  (forall j, (j < k)%nat -> draw four_tenths j (seed_from_u64 seed) = false) ->
  draw four_tenths k (seed_from_u64 seed) = true ->
  (forall j, (0 < j <= k)%nat -> polls j cx (Unresumed seed) = Some (suspended_after seed j cx, None, [])) /\
  polls (S k) cx (Unresumed seed) = Some (Returned, Some seed, match k with O => [] | _ => [Wake cx] end).
Proof.
  intros Hd Hk. split.
  { intros [|j] Hj; [lia|]. apply polls_pending. intros. apply Hd. lia. }
  destruct k as [|k].
  - unfold draw in Hk. cbn in Hk |- *. unfold rand_delay_await, RandomFuture_poll, RandomFuture_new. cbn.
    destruct (gen_bool four_tenths (seed_from_u64 seed)) as [b r]. cbn in *. by subst b.
  - cbn [polls]. pose proof (polls_pending seed cx k Hd) as Hp. cbn [polls] in Hp. rewrite Hp.
    unfold suspended_after, draw in *. cbn [rand_delay]. unfold rand_delay_await, RandomFuture_poll. cbn [prob rng waker].
    destruct (gen_bool four_tenths (after_draws four_tenths (S k) (seed_from_u64 seed))) as [b r]. cbn in Hk. by subst b.
Qed.
End futures.

(** A generator that counts: every third draw succeeds. *)
Definition count_draw (_ : unit) (r : Z) : bool * Z := (r mod 3 =? 2, r + 1).

Lemma rand_delay_polls_witness :
  polls (Fut:=unit) (fun seed => seed) count_draw tt 3 7 (Unresumed 9) = Some (Returned, Some 9, [Wake 7]).
Proof.
  destruct (rand_delay_polls (Fut:=unit) (fun seed => seed) count_draw tt 9 7 2) as [_ H].
  - intros [|[|j]] Hj; [reflexivity|reflexivity|lia].
  - reflexivity.
  - exact H.
Defined.
