(* ===== verification/Locks.v ===== *)
(** * Spin locks and interrupts

    The locks of the kernel are those of the [spin] crate: a core that does not
    get one spins, with whatever it holds.  Guards are dropped at the end of a
    scope.  An interrupt runs its handler on the stack of the code it
    interrupts, which keeps its guards meanwhile.  This file has a machine for
    code of which only guards, interrupt flags and requests for interrupts are
    left, a checker for a locking discipline, and the proof that code that
    passes the checker is never locked out.  [KernelLocks.v] has the kernel's
    code in this form. *)

From S2P Require Import Prelude.

(** [RwLock::read] and [RwLock::write]; a [Mutex] is always locked to write. *)
Inductive access := Read | Write.
#[export] Instance access_eq_dec : EqDecision access.
Proof. solve_decision. Defined.

(** Code over locks [L]; [K] is what the handlers distinguish of the code they
    interrupt.  [Work] touches no lock; [Choice] and [Loop] stand for any
    condition; [Guard] is the scope of a guard, [Unlock] its drop at the end. *)
Inductive code (L K : Type) :=
| Work
| Seq (a b : code L K)
| Choice (a b : code L K)
| Loop (a : code L K)
| Guard (l : L) (m : access) (a : code L K)
| Unlock (l : L) (m : access)
| SetIf (on : bool)
| Without (a : code L K)
| Current (k : K)
| Send (d : nat).
Arguments Work {L K}.
Arguments Seq {L K} a b.
Arguments Choice {L K} a b.
Arguments Loop {L K} a.
Arguments Guard {L K} l m a.
Arguments Unlock {L K} l m.
Arguments SetIf {L K} on.
Arguments Without {L K} a.
Arguments Current {L K} k.
Arguments Send {L K} d.

Declare Scope code_scope.
Delimit Scope code_scope with code.
Bind Scope code_scope with code.
Notation "a ;; b" := (Seq a b) : code_scope.
Infix "<|>" := Choice (at level 62, right associativity) : code_scope.

(** A core: what it has left to do, its interrupt flag, the context its
    handlers see, whether an interrupt was requested of it by another core, and
    the guards it holds, innermost first. *)
Record core (L K : Type) := mkCore {
  cont : list (code L K);
  iflag : bool;
  cur : K;
  requested : bool;
  held : list (L * access)
}.
Arguments mkCore {L K}.
Arguments cont {L K}.
Arguments iflag {L K}.
Arguments cur {L K}.
Arguments requested {L K}.
Arguments held {L K}.

(** What happens next: a core goes on, one way or the other where it has a
    choice; its timer fires; it takes the interrupt that was requested. *)
Inductive action := Advance (c : nat) (b : bool) | Timer (c : nat) | Interrupt (c : nat).

Section machine.
Context {L K : Type} `{EqDecision L}.
Context (timer : nat -> K -> code L K) (handler : nat -> K -> code L K).
Implicit Types (s : list (core L K)) (x y : core L K) (a : code L K) (l : L) (m : access).

Definition compatible l m (g : L * access) : bool :=
  negb (bool_decide (l = g.1)) || (bool_decide (m = Read) && bool_decide (g.2 = Read)).
Definition acquirable s l m : bool := forallb (fun x => forallb (compatible l m) (held x)) s.

Fixpoint drop_guard (g : L * access) (h : list (L * access)) : list (L * access) :=
  match h with
  | [] => []
  | g' :: h => if bool_decide (g = g') then h else g' :: drop_guard g h
  end.

Definition with_cont x k := mkCore k (iflag x) (cur x) (requested x) (held x).
Definition request x := mkCore (cont x) (iflag x) (cur x) true (held x).

(** The next state of a core that goes on, if it can. *)
Definition advance_core s x (b : bool) : option (core L K) :=
  match cont x with
  | [] => None
  | a :: k =>
      match a with
      | Work | Send _ => Some (with_cont x k)
      | Seq a1 a2 => Some (with_cont x (a1 :: a2 :: k))
      | Choice a1 a2 => Some (with_cont x ((if b then a1 else a2) :: k))
      | Loop a1 => Some (with_cont x (if b then a1 :: a :: k else k))
      | Guard l m a1 =>
          if acquirable s l m
          then Some (mkCore (a1 :: Unlock l m :: k) (iflag x) (cur x) (requested x) ((l, m) :: held x))
          else None
      | Unlock l m => Some (mkCore k (iflag x) (cur x) (requested x) (drop_guard (l, m) (held x)))
      | SetIf on => Some (mkCore k on (cur x) (requested x) (held x))
      | Without a1 => Some (mkCore (a1 :: SetIf (iflag x) :: k) false (cur x) (requested x) (held x))
      | Current k' => Some (mkCore k (iflag x) k' (requested x) (held x))
      end
  end.

(** Requesting an interrupt changes the state of the other core. *)
Definition send_from x s : list (core L K) :=
  match cont x with
  | Send d :: _ => alter request d s
  | _ => s
  end.

Definition advance s (c : nat) (b : bool) : option (list (core L K)) :=
  match s !! c with
  | Some x => match advance_core s x b with
              | Some x' => Some (send_from x (<[c := x']> s))
              | None => None
              end
  | None => None
  end.

(** An interrupt gate clears the flag; [iretq] sets it again. *)
Definition enter x a (r : bool) : core L K :=
  mkCore (a :: SetIf true :: cont x) false (cur x) r (held x).

Definition step (act : action) s : option (list (core L K)) :=
  match act with
  | Advance c b => advance s c b
  | Timer c =>
      match s !! c with
      | Some x => if iflag x then Some (<[c := enter x (timer c (cur x)) (requested x)]> s) else None
      | None => None
      end
  | Interrupt c =>
      match s !! c with
      | Some x => if iflag x && requested x then Some (<[c := enter x (handler c (cur x)) false]> s) else None
      | None => None
      end
  end.

Fixpoint run (acts : list action) s : option (list (core L K)) :=
  match acts with
  | [] => Some s
  | act :: acts => match step act s with Some s' => run acts s' | None => None end
  end.

(** A core that will never go on, whatever happens. *)
Definition locked_out (c : nat) s : Prop :=
  forall acts s' b, run acts s = Some s' -> advance s' c b = None.

(** A core that can still go on. *)
Definition can_go_on (c : nat) s : Prop :=
  exists acts s' b s'', run acts s = Some s' /\ advance s' c b = Some s''.
End machine.

(** ** Mutual exclusion *)

Section any_code.
Context {L K : Type} `{EqDecision L} (timer handler : nat -> K -> code L K).
Implicit Types (s : list (core L K)) (l : L) (h : list (L * access)).

(** The guards of all cores: a lock that is locked to write has no other. *)
Definition guards s : list (L * access) := concat (map held s).
Definition excluded h : Prop := forall l m h', h ≡ₚ (l, Write) :: h' -> (l, m) ∉ h'.

Lemma excluded_submseteq h h' : h' ⊆+ h -> excluded h -> excluded h'.
Proof.
  intros [k Hk]%submseteq_Permutation He l m h0 Hh Hin. eapply (He l m (h0 ++ k)); [|apply elem_of_app; by left].
  by rewrite Hk, Hh.
Qed.

Lemma excluded_cons g h :
  (forall e, e ∈ h -> compatible g.1 g.2 e = true) -> excluded h -> excluded (g :: h).
Proof.
  intros Hg He l m h' Hh Hin. destruct g as [lg mg].
  assert (forall m' e, (l, m') = (lg, mg) -> e ∈ h -> e.1 = l -> m' = Write \/ e.2 = Write -> False) as Hno.
  { intros m' [l' m''] Eg Hx El Hw. injection Eg as <- <-. cbn in El. subst l'. pose proof (Hg _ Hx) as Hc.
    unfold compatible in Hc. cbn in *. rewrite bool_decide_eq_true_2 in Hc by done.
    destruct Hw as [E|E]; rewrite E in Hc; cbn in Hc; [done|]. by rewrite andb_false_r in Hc. }
  assert ((l, Write) ∈ (lg, mg) :: h) as [E|Hl]%elem_of_cons by (rewrite Hh; by left).
  - rewrite <- E in Hh. apply Permutation_cons_inv in Hh. rewrite <- Hh in Hin.
    apply (Hno Write (l, m) E Hin); eauto.
  - apply elem_of_Permutation in Hl as [h0 Hh0]. rewrite Hh0, Permutation_swap in Hh.
    apply Permutation_cons_inv in Hh. rewrite <- Hh in Hin. apply elem_of_cons in Hin as [E|Hin].
    + apply (Hno m (l, Write) E); [rewrite Hh0; by left|eauto..].
    + by apply (He l m h0).
Qed.

Lemma guards_insert s c x :
  s !! c = Some x -> exists rest, guards s ≡ₚ held x ++ rest /\ forall x', guards (<[c := x']> s) ≡ₚ held x' ++ rest.
Proof.
  revert c. induction s as [|y s IH]; intros [|c] Hc; try done.
  - injection Hc as ->. by exists (guards s).
  - destruct (IH c Hc) as (rest & Hr & Hr'). exists (held y ++ rest). split; [|intros x'].
    + change (guards (y :: s)) with (held y ++ guards s). rewrite Hr. by rewrite !app_assoc, (Permutation_app_comm (held y)).
    + change (guards (<[S c := x']> (y :: s))) with (held y ++ guards (<[c := x']> s)). rewrite Hr'.
      by rewrite !app_assoc, (Permutation_app_comm (held y)).
Qed.

Lemma guards_alter s d : guards (alter request d s) = guards s.
Proof.
  revert d. induction s as [|y s IH]; intros [|d]; try done.
  change (held y ++ guards (alter request d s) = held y ++ guards s). by rewrite IH.
Qed.

Lemma drop_guard_submseteq g h : drop_guard g h ⊆+ h.
Proof.
  induction h as [|e h IH]; cbn; [done|]. case_bool_decide; [by apply submseteq_cons|by apply submseteq_skip].
Qed.

(** The guards a core holds after it went on: fewer, or one more that goes with
    all others. *)
Lemma advance_core_held s x b x' :
  advance_core s x b = Some x' ->
  held x' ⊆+ held x \/ exists l m, held x' = (l, m) :: held x /\ acquirable s l m = true.
Proof.
  unfold advance_core. destruct (cont x) as [|a r]; [done|].
  destruct a; try (intros [= <-]; by left).
  - destruct (acquirable s l m) eqn:E; [|done]. intros [= <-]. right. by exists l, m.
  - intros [= <-]. left. apply drop_guard_submseteq.
Qed.

Lemma step_excluded act s s' :
  step timer handler act s = Some s' -> excluded (guards s) -> excluded (guards s').
Proof.
  intros Hst He. destruct act as [c b|c|c]; cbn in Hst.
  - unfold advance in Hst. destruct (s !! c) as [x|] eqn:Ex; [|done].
    destruct (advance_core s x b) as [x'|] eqn:Ea; [|done]. injection Hst as <-.
    assert (excluded (guards (<[c := x']> s))) as He'.
    2: { unfold send_from. destruct (cont x) as [|[] ?]; try done. by rewrite guards_alter. }
    destruct (guards_insert s c x Ex) as (rest & Hr & Hr').
    destruct (advance_core_held _ _ _ _ Ea) as [Hsub|(l & m & Eh & Hacq)].
    + eapply excluded_submseteq; [|exact He]. rewrite Hr, Hr'. by apply submseteq_app.
    + eapply (excluded_submseteq ((l, m) :: guards s)); [by rewrite Hr', Eh, Hr|]. apply excluded_cons; [|done].
      intros e Hin. apply list_elem_of_In, in_concat in Hin as (h & (y & <- & Hy)%in_map_iff & Hin).
      unfold acquirable in Hacq. rewrite forallb_forall in Hacq. specialize (Hacq y Hy).
      rewrite forallb_forall in Hacq. by apply Hacq.
  - destruct (s !! c) as [x|] eqn:Ex; [|done]. destruct (iflag x); [|done]. injection Hst as <-.
    destruct (guards_insert s c x Ex) as (rest & Hr & Hr'). eapply excluded_submseteq; [|exact He]. by rewrite Hr, Hr'.
  - destruct (s !! c) as [x|] eqn:Ex; [|done]. destruct (iflag x && requested x); [|done]. injection Hst as <-.
    destruct (guards_insert s c x Ex) as (rest & Hr & Hr'). eapply excluded_submseteq; [|exact He]. by rewrite Hr, Hr'.
Qed.

(** Whatever code the cores run, a write guard excludes every other guard of
    its lock. *)
Lemma run_excluded acts s s' :
  run timer handler acts s = Some s' -> excluded (guards s) -> excluded (guards s').
Proof.
  revert s. induction acts as [|act acts IH]; intros s; cbn; [by intros [= <-]|].
  destruct (step timer handler act s) as [s1|] eqn:E; [|done]. eauto using step_excluded.
Qed.

(** ** Deadlock *)

(** Cores with interrupts off, each of which waits for a lock that one of them
    holds. *)
Definition waits_for s (C : list nat) (c : nat) : Prop :=
  exists x l m a r, s !! c = Some x /\ iflag x = false /\ cont x = Guard l m a :: r /\
    exists d y g, d ∈ C /\ s !! d = Some y /\ g ∈ held y /\ compatible l m g = false.

Lemma waits_for_blocked s C c b : waits_for s C c -> advance s c b = None.
Proof.
  intros (x & l & m & a & r & Hx & _ & Ec & d & y & g & _ & Hy & Hg & Hc).
  unfold advance, advance_core. rewrite Hx, Ec. destruct (acquirable s l m) eqn:E; [|done]. exfalso.
  unfold acquirable in E. rewrite forallb_forall in E.
  specialize (E y (proj1 (list_elem_of_In _ _) (list_elem_of_lookup_2 _ _ _ Hy))). rewrite forallb_forall in E.
  specialize (E g (proj1 (list_elem_of_In _ _) Hg)). congruence.
Qed.

Lemma deadlock_step act C s s' :
  (forall c, c ∈ C -> waits_for s C c) -> step timer handler act s = Some s' ->
  forall c, c ∈ C -> waits_for s' C c.
Proof.
  intros HC Hst.
  assert (forall c x, c ∈ C -> s !! c = Some x ->
    exists x', s' !! c = Some x' /\ iflag x' = iflag x /\ cont x' = cont x /\ held x' = held x) as Hkeep.
  { intros c x Hc Hx. assert (iflag x = false) as Hi.
    { destruct (HC c Hc) as (x' & ? & ? & ? & ? & Hx' & ? & _). congruence. }
    destruct act as [d b|d|d]; cbn in Hst.
    - destruct (decide (d = c)) as [->|Hd]; [by rewrite (waits_for_blocked _ _ _ b (HC c Hc)) in Hst|].
      unfold advance in Hst. destruct (s !! d) as [y|]; [|done].
      destruct (advance_core s y b) as [y'|]; [|done]. injection Hst as <-.
      assert (<[d := y']> s !! c = Some x) as Hx' by by rewrite list_lookup_insert_ne.
      unfold send_from. destruct (cont y) as [|[] ?]; eauto.
      destruct (decide (d0 = c)) as [->|]; [|rewrite list_lookup_alter_ne by done; eauto].
      rewrite list_lookup_alter_eq, Hx'. by eexists.
    - destruct (s !! d) as [y|] eqn:Ey; [|done]. destruct (iflag y) eqn:Ei; [|done]. injection Hst as <-.
      destruct (decide (d = c)) as [->|]; [congruence|]. rewrite list_lookup_insert_ne by done. eauto.
    - destruct (s !! d) as [y|] eqn:Ey; [|done]. destruct (iflag y) eqn:Ei; [|done].
      destruct (requested y); [|done]. injection Hst as <-.
      destruct (decide (d = c)) as [->|]; [congruence|]. rewrite list_lookup_insert_ne by done. eauto. }
  intros c Hc. destruct (HC c Hc) as (x & l & m & a & r & Hx & Hi & Ec & d & y & g & Hd & Hy & Hg & Hcp).
  destruct (Hkeep c x Hc Hx) as (x' & Hx' & Hi' & Ec' & _). destruct (Hkeep d y Hd Hy) as (y' & Hy' & _ & _ & Eh').
  exists x', l, m, a, r. split_and!; [done|congruence..|]. exists d, y', g. by rewrite Eh'.
Qed.

Lemma deadlock_locks_out C s c :
  (forall c, c ∈ C -> waits_for s C c) -> c ∈ C -> locked_out timer handler c s.
Proof.
  intros HC Hc acts s' b Hr. assert (waits_for s' C c) as Hw; [|by eapply waits_for_blocked].
  revert s HC Hr. induction acts as [|act acts IH]; intros s HC; cbn; [intros [= <-]; eauto|].
  destruct (step timer handler act s) as [s1|] eqn:E; [|done]. intros Hr.
  eapply IH; [|done]. by eapply deadlock_step.
Qed.
End any_code.

(** ** The discipline *)

(** How locks may be used.  A lock that is [shared] is only read.  A lock with
    an [owner] is only locked by that core, with interrupts off.  The others are
    locked in the order of their [rank]; while interrupts are on, a core only
    holds locks with a rank below the [limit] of its context, so that a handler
    may lock those from the limit on. *)
Record discipline (L K : Type) := mkDiscipline {
  rank : L -> nat;
  shared : L -> bool;
  owner : L -> option nat;
  limit : K -> nat
}.
Arguments mkDiscipline {L K}.
Arguments rank {L K}.
Arguments shared {L K}.
Arguments owner {L K}.
Arguments limit {L K}.

Section checker.
Context {L K : Type} `{EqDecision L, EqDecision K} (D : discipline L K).
Implicit Types (l : L) (m : access) (k : K).

(** What is known before and after a piece of code: whether interrupts may be
    on, and the context. *)
Abbreviation facts := (bool * K)%type.

Definition may_enable (top : nat) (loc : bool) k : bool := (top <=? limit D k)%nat && negb loc.

(** [top] is above the rank of every lock that is held; [loc] tells whether an
    owned one is. *)
Fixpoint check (c top : nat) (loc : bool) (g : facts) (a : code L K) : option facts :=
  match a with
  | Work | Send _ => Some g
  | Seq a1 a2 =>
      match check c top loc g a1 with Some g1 => check c top loc g1 a2 | None => None end
  | Choice a1 a2 =>
      match check c top loc g a1, check c top loc g a2 with
      | Some g1, Some g2 => if bool_decide (g1.2 = g2.2) then Some (g1.1 || g2.1, g1.2) else None
      | _, _ => None
      end
  | Loop a1 =>
      match check c top loc g a1 with
      | Some g1 => if bool_decide (g1.2 = g.2) && implb g1.1 g.1 then Some g else None
      | None => None
      end
  | Guard l m a1 =>
      if shared D l then if bool_decide (m = Read) then check c top loc g a1 else None
      else match owner D l with
           | Some d => if bool_decide (d = c) && negb loc && negb g.1 then check c top true g a1 else None
           | None =>
               if (top <=? rank D l)%nat && implb g.1 (S (rank D l) <=? limit D g.2)%nat
               then check c (S (rank D l)) loc g a1 else None
           end
  | Unlock _ _ => None
  | SetIf on => if implb on (may_enable top loc g.2) then Some (on, g.2) else None
  | Without a1 =>
      match check c top loc (false, g.2) a1 with
      | Some g1 => if implb g.1 (may_enable top loc g1.2) then Some (g.1, g1.2) else None
      | None => None
      end
  | Current k => if implb g.1 (top <=? limit D k)%nat then Some (g.1, k) else None
  end.

(** Code that passes for a core that holds more also passes for one that holds
    less. *)
Lemma check_mono c a : forall top top' loc loc' g g1,
  check c top loc g a = Some g1 -> (top' <= top)%nat -> implb loc' loc ->
  check c top' loc' g a = Some g1.
Proof.
  induction a as [|a1 IH1 a2 IH2|a1 IH1 a2 IH2|a IH|l m a IH|l m|b|a IH|k'|d];
    intros top top' loc loc' g g1 Hc Ht Hl; cbn in *; try done.
  - destruct (check c top loc g a1) as [g2|] eqn:E1; [|done]. erewrite IH1 by done. eauto.
  - destruct (check c top loc g a1) as [g2|] eqn:E1; [|done].
    destruct (check c top loc g a2) as [g3|] eqn:E2; [|done]. erewrite IH1, IH2 by done. done.
  - destruct (check c top loc g a) as [g2|] eqn:E1; [|done]. by erewrite IH by done.
  - destruct (shared D l); [case_bool_decide; eauto|]. destruct (owner D l) as [d|].
    + case_bool_decide; [|done]. destruct loc; [done|]. destruct loc'; [done|]. cbn in *.
      destruct (negb g.1); [|done]. eauto.
    + destruct (top <=? rank D l)%nat eqn:Er; [|done]. apply Nat.leb_le in Er. cbn in Hc.
      rewrite (proj2 (Nat.leb_le top' (rank D l))) by lia. cbn. destruct (implb _ _); eauto.
  - destruct b; cbn in *; [|done]. unfold may_enable in *.
    destruct (top <=? limit D g.2)%nat eqn:Er; [|done]. apply Nat.leb_le in Er.
    rewrite (proj2 (Nat.leb_le top' _)) by lia. by destruct loc, loc'.
  - destruct (check c top loc (false, g.2) a) as [g2|] eqn:E1; [|done]. erewrite IH by done.
    destruct (g.1); [|done]. cbn in *. unfold may_enable in *.
    destruct (top <=? limit D g2.2)%nat eqn:Er; [|done]. apply Nat.leb_le in Er.
    rewrite (proj2 (Nat.leb_le top' _)) by lia. by destruct loc, loc'.
  - destruct (g.1); [|done]. cbn in *. destruct (top <=? limit D k')%nat eqn:Er; [|done].
    apply Nat.leb_le in Er. by rewrite (proj2 (Nat.leb_le top' _)) by lia.
Qed.

(** ** The discipline of a state *)

Definition blocking l : bool := negb (shared D l) && bool_decide (owner D l = None).

Fixpoint top_of (h : list (L * access)) : nat :=
  match h with
  | [] => 0%nat
  | g :: h => if blocking g.1 then Nat.max (S (rank D g.1)) (top_of h) else top_of h
  end.
Definition owned (h : list (L * access)) : bool :=
  existsb (fun g => negb (shared D g.1) && negb (bool_decide (owner D g.1 = None))) h.

(** Guards as they may be held by core [c]. *)
Definition guard_ok (c : nat) (g : L * access) : Prop :=
  if shared D g.1 then g.2 = Read else owner D g.1 = None \/ owner D g.1 = Some c.

Definition weaker (g g' : facts) : Prop := g.2 = g'.2 /\ implb g.1 g'.1.

(** What is left to do passes, each guard is dropped in turn, and at the end
    only shared locks are held. *)
Fixpoint cont_ok (c : nat) (h : list (L * access)) (g : facts) (k : list (code L K)) : Prop :=
  match k with
  | [] => Forall (fun e => shared D e.1 = true) h
  | Unlock l m :: k =>
      match h with
      | e :: h => e = (l, m) /\ cont_ok c h g k
      | [] => False
      end
  | a :: k => exists g1 g2, check c (top_of h) (owned h) g a = Some g1 /\ weaker g1 g2 /\ cont_ok c h g2 k
  end.

Definition core_ok (c : nat) (x : core L K) : Prop :=
  (exists on, implb (iflag x) on /\ cont_ok c (held x) (on, cur x) (cont x)) /\
  implb (iflag x) (may_enable (top_of (held x)) (owned (held x)) (cur x)) /\
  Forall (guard_ok c) (held x).

Definition state_ok (s : list (core L K)) : Prop := forall c x, s !! c = Some x -> core_ok c x.

Lemma weaker_refl g : weaker g g.
Proof. split; [done|]. by destruct (g.1). Qed.
Lemma weaker_trans g1 g2 g3 : weaker g1 g2 -> weaker g2 g3 -> weaker g1 g3.
Proof. intros [H1 H2] [H3 H4]. split; [congruence|]. by destruct (g1.1), (g2.1), (g3.1). Qed.

Lemma cont_ok_cons c h g a r g1 g2 :
  check c (top_of h) (owned h) g a = Some g1 -> weaker g1 g2 -> cont_ok c h g2 r -> cont_ok c h g (a :: r).
Proof. intros Hc Hw Hk. destruct a; cbn in *; try done; eauto 10. Qed.

Lemma cont_ok_inv c h g a r :
  cont_ok c h g (a :: r) ->
  (exists l m h', a = Unlock l m /\ h = (l, m) :: h' /\ cont_ok c h' g r) \/
  (exists g1 g2, check c (top_of h) (owned h) g a = Some g1 /\ weaker g1 g2 /\ cont_ok c h g2 r).
Proof.
  destruct a; cbn [cont_ok]; try by right.
  destruct h as [|e h]; [done|]. intros [-> Hk]. left. eauto 10.
Qed.

(** ** Preservation *)

(** The head of a core's code takes a step. *)
Lemma guard_step c h (on : bool) k l m a g1 g2 r :
  check c (top_of h) (owned h) (on, k) (Guard l m a) = Some g1 -> weaker g1 g2 -> cont_ok c h g2 r ->
  Forall (guard_ok c) h ->
  cont_ok c ((l, m) :: h) (on, k) (a :: Unlock l m :: r) /\ Forall (guard_ok c) ((l, m) :: h) /\
  (forall b : bool, implb b on -> implb b (may_enable (top_of h) (owned h) k) ->
     implb b (may_enable (top_of ((l, m) :: h)) (owned ((l, m) :: h)) k)).
Proof.
  intros Hc Hw Hr Hh. cbn [check fst snd] in Hc.
  assert (forall top loc, check c top loc (on, k) a = Some g1 ->
    (top_of ((l, m) :: h) <= top)%nat -> implb (owned ((l, m) :: h)) loc ->
    cont_ok c ((l, m) :: h) (on, k) (a :: Unlock l m :: r)) as Hgo.
  { intros top loc Ht Hle Hlo. eapply cont_ok_cons; [by eapply check_mono| |]; [exact Hw|]. by cbn. }
  rewrite Forall_cons. unfold guard_ok at 1, may_enable. cbn [fst snd].
  unfold owned in *. cbn [top_of existsb fst] in *. unfold blocking in *.
  destruct (shared D l); cbn [negb andb orb] in *.
  { case_bool_decide; [|done]. split_and!; [|done..|tauto]. eapply Hgo; [done..|]. by destruct (existsb _ h). }
  destruct (owner D l) as [d|].
  - rewrite (bool_decide_eq_false_2 (Some d = None)) in * by done. cbn [negb andb orb] in *.
    case_bool_decide; [|done]. subst d. destruct (existsb _ h) eqn:Eh; [done|]. destruct on; [done|]. cbn [andb negb implb] in Hc.
    split_and!; [|tauto|done|]. { by eapply Hgo. } by intros [].
  - rewrite (bool_decide_eq_true_2 (None = None)) in * by done. cbn [negb andb orb] in *.
    destruct (Nat.leb_spec (top_of h) (rank D l)); [|done]. cbn [andb negb implb] in Hc.
    destruct (implb on _) eqn:Eo; [|done].
    split_and!; [|tauto|done|].
    { eapply Hgo; [done|lia|]. by destruct (existsb _ h). }
    intros [] Hb Hm; [|done]. destruct on; [|done]. cbn [implb] in Eo, Hm |- *. apply Nat.leb_le in Eo.
    apply andb_prop_elim in Hm as [_ Hm]. apply andb_prop_intro. split; [|done].
    apply Is_true_true, Nat.leb_le. lia.
Qed.

Lemma may_enable_tail (b : bool) e h k :
  implb b (may_enable (top_of (e :: h)) (owned (e :: h)) k) -> implb b (may_enable (top_of h) (owned h) k).
Proof.
  destruct b; [|done]. unfold may_enable, owned. cbn [implb existsb top_of].
  intros [Ht%Is_true_true%Nat.leb_le Ho]%andb_prop_elim. apply andb_prop_intro. split.
  - apply Is_true_true, Nat.leb_le. destruct (blocking e.1); lia.
  - by destruct (existsb _ h); [rewrite orb_true_r in Ho|].
Qed.

Lemma advance_core_ok s c x b x' :
  core_ok c x -> advance_core s x b = Some x' -> core_ok c x'.
Proof.
  intros ((on & Hon & Hk) & Hm & Hh) Ha. unfold advance_core in Ha.
  destruct x as [r fl k rq h]. cbn [cont iflag cur requested held] in *.
  destruct r as [|a r]; [done|]. apply cont_ok_inv in Hk as [(l & m & h' & -> & -> & Hk)|([o1 k1] & [o2 k2] & Hc & [E Hw] & Hk)].
  { cbn in Ha. rewrite bool_decide_eq_true_2 in Ha by done. simplify_eq. apply Forall_cons in Hh as [_ Hh].
    split_and!; [by exists on| |done]. by apply may_enable_tail in Hm. }
  cbn [fst snd] in *. subst k2.
  destruct a as [|a1 a2|a1 a2|a|l m a|l m|fl'|a|k'|d]; cbn [check fst snd] in Hc; cbn in Ha; simplify_eq;
    unfold core_ok; cbn [with_cont cont iflag cur requested held].
  - split_and!; [|done..]. exists o2. split; [by destruct fl, o1, o2|done].
  - destruct (check c _ _ (on, k) a1) as [g1|] eqn:E1; [|done].
    split_and!; [|done..]. exists on. split; [done|].
    eapply cont_ok_cons; [exact E1|apply weaker_refl|]. eapply cont_ok_cons; [exact Hc| |exact Hk]; by split.
  - destruct (check c _ _ (on, k) a1) as [[p q]|] eqn:E1; [|done].
    destruct (check c _ _ (on, k) a2) as [[p' q']|] eqn:E2; [|done]. cbn [fst snd] in Hc.
    case_bool_decide; simplify_eq. split_and!; [|done..]. exists on. split; [done|].
    destruct b; (eapply cont_ok_cons; [done| |exact Hk]); split; try done; cbn; by destruct p, p', o2.
  - destruct (check c _ _ (on, k) a) as [[p q]|] eqn:E1; [|done]. cbn [fst snd] in Hc.
    case_bool_decide; [|done]. destruct (implb p on) eqn:Ep; [|done]. cbn [andb] in Hc. simplify_eq.
    destruct b; split_and!; try done.
    + exists o1. split; [done|]. eapply (cont_ok_cons _ _ _ _ _ _ (o1, k1)); [exact E1|split; [done|by cbn; destruct p, o1]|].
      eapply (cont_ok_cons _ _ _ _ _ (o1, k1) (o2, k1)); [|by split|exact Hk]. cbn [check]. rewrite E1. cbn [fst snd].
      by rewrite bool_decide_eq_true_2, Ep.
    + exists o2. split; [by destruct fl, o1, o2|done].
  - destruct (acquirable s l m); [|done]. simplify_eq.
    destruct (guard_step c h on k l m a (o1, k1) (o2, k1) r) as (H1 & H2 & H3); [done|by split|done..|].
    split_and!; [by exists on|by apply H3|done].
  - destruct fl'; cbn [implb] in Hc.
    + destruct (may_enable _ _ k) eqn:Em; [|done]. simplify_eq.
      split_and!; [|done..]. by exists o2.
    + simplify_eq. split_and!; [|done..]. by exists o2.
  - destruct (check c _ _ (false, k) a) as [[p q]|] eqn:E1; [|done]. cbn [fst snd] in Hc.
    destruct (implb on _) eqn:Ei; [|done]. simplify_eq. split_and!; [|done..]. exists false. split; [done|].
    eapply cont_ok_cons; [exact E1|apply weaker_refl|].
    eapply (cont_ok_cons _ _ _ _ _ (fl, k1) (o2, k1)); [|split; [done|by destruct fl, o1, o2]|exact Hk].
    cbn [check snd]. destruct fl; [|done]. destruct o1; [|done]. cbn [implb] in *. by rewrite Ei.
  - destruct (implb on _) eqn:Ei; [|done]. simplify_eq. split_and!; [| |done].
    { exists o2. split; [by destruct fl, o1, o2|done]. }
    destruct fl; [|done]. destruct o1; [|done]. cbn [implb] in *. unfold may_enable in *.
    apply andb_prop_elim in Hm as [_ Ho]. apply andb_prop_intro. by rewrite Ei.
  - split_and!; [|done..]. exists o2. split; [by destruct fl, o1, o2|done].
Qed.
End checker.

Section soundness.
Context {L K : Type} `{EqDecision L, EqDecision K} (D : discipline L K).
Context (timer handler : nat -> K -> code L K).
Implicit Types (s : list (core L K)) (x y : core L K) (a : code L K) (l : L) (m : access).

(** A handler starts with interrupts off and whatever the code it interrupts
    may hold, and leaves the context as it is. *)
Definition handler_ok (f : nat -> K -> code L K) : Prop :=
  forall c k, exists on, check D c (limit D k) false (false, k) (f c k) = Some (on, k).

Hypothesis timer_ok : handler_ok timer.
Hypothesis interrupt_ok : handler_ok handler.

Lemma core_ok_request c x : core_ok D c x -> core_ok D c (request x).
Proof. by destruct x. Qed.

Lemma enter_ok c x f r :
  handler_ok f -> core_ok D c x -> iflag x = true -> core_ok D c (enter x (f c (cur x)) r).
Proof.
  intros Hf ((on & Hon & Hk) & Hm & Hh) Hi. rewrite Hi in Hon, Hm. destruct on; [|done].
  cbn [implb] in Hm. pose proof (andb_prop_elim _ _ Hm) as [Ht%Is_true_true%Nat.leb_le Ho].
  destruct (Hf c (cur x)) as [on Hc]. split_and!; [|done..]. exists false. split; [done|].
  eapply (cont_ok_cons _ _ _ _ _ _ (on, cur x) (on, cur x)); [|apply weaker_refl|].
  { eapply check_mono; [exact Hc|exact Ht|]. cbn [enter held]. by destruct (owned D (held x)). }
  eapply (cont_ok_cons _ _ _ _ _ _ (true, cur x) (true, cur x)); [|apply weaker_refl|exact Hk].
  cbn [check implb enter held snd]. by rewrite (Is_true_eq_true _ Hm).
Qed.

(** Every step keeps the discipline. *)
Lemma step_keeps act s s' : state_ok D s -> step timer handler act s = Some s' -> state_ok D s'.
Proof.
  intros Hs Hst.
  assert (forall c x', core_ok D c x' -> state_ok D (<[c := x']> s)) as Hins.
  { intros c x' Hx' d y [(-> & <- & _)|(_ & Hd)]%list_lookup_insert_Some; [done|eauto]. }
  destruct act as [c b|c|c]; cbn in Hst.
  - unfold advance in Hst. destruct (s !! c) as [x|] eqn:Ex; [|done].
    destruct (advance_core s x b) as [x'|] eqn:Ea; [|done]. simplify_eq.
    pose proof (Hins c x' (advance_core_ok D s c x b x' (Hs c x Ex) Ea)) as Hok.
    unfold send_from. destruct (cont x) as [|[] ?]; try done.
    intros d' y. destruct (decide (d = d')) as [->|Hd]; [|rewrite list_lookup_alter_ne by done; eauto].
    rewrite list_lookup_alter_eq, fmap_Some. intros (y' & Hy & ->). apply core_ok_request. eauto.
  - destruct (s !! c) as [x|] eqn:Ex; [|done]. destruct (iflag x) eqn:Ei; simplify_eq.
    apply Hins, enter_ok; eauto.
  - destruct (s !! c) as [x|] eqn:Ex; [|done]. destruct (iflag x) eqn:Ei; [|done].
    destruct (requested x); [|done]. cbn [andb] in Hst. simplify_eq. apply Hins, enter_ok; eauto.
Qed.

Lemma run_ok acts s s' : state_ok D s -> run timer handler acts s = Some s' -> state_ok D s'.
Proof using All.
  revert s. induction acts as [|act acts IH]; intros s Hs; cbn; [by intros [= <-]|].
  destruct (step timer handler act s) as [s1|] eqn:E; [|done]. intros Hr. eapply IH; [|done]. by eapply step_keeps.
Qed.

(** ** Progress *)

Lemma top_of_elem g h : g ∈ h -> blocking D g.1 = true -> (S (rank D g.1) <= top_of D h)%nat.
Proof.
  intros Hg Hb. induction h as [|g' h IH]; [by apply not_elem_of_nil in Hg|].
  apply elem_of_cons in Hg as [->|Hg]; cbn; [rewrite Hb; lia|]. specialize (IH Hg). destruct (blocking D g'.1); lia.
Qed.

Lemma top_of_shared h : Forall (fun e => shared D e.1 = true) h -> top_of D h = 0%nat.
Proof. induction 1 as [|e h He _ IH]; [done|]. cbn. unfold blocking. by rewrite He. Qed.

(** A core that cannot go on waits for a lock that takes part in the order, of
    a rank above all it holds itself, and some core holds it. *)
Lemma blocked_core s c x b :
  state_ok D s -> s !! c = Some x -> cont x <> [] -> advance_core s x b = None ->
  exists l d y m, blocking D l = true /\ (top_of D (held x) <= rank D l)%nat /\ s !! d = Some y /\ (l, m) ∈ held y.
Proof.
  intros Hs Hx Hne Ha. destruct (Hs c x Hx) as ((on & _ & Hk) & _ & Hh). unfold advance_core in Ha.
  destruct (cont x) as [|a r]; [done|]. destruct a as [| | | |l m a| | | | |]; try done.
  destruct (acquirable s l m) eqn:Eq; [done|].
  apply forallb_false_inv in Eq as (d & y & Hy & (i & [l' m'] & Hi & Hc)%forallb_false_inv).
  apply list_elem_of_lookup_2 in Hi. destruct (Hs d y Hy) as (_ & _ & Hh').
  pose proof (proj1 (Forall_forall _ _) Hh' _ Hi) as Hg.
  unfold compatible in Hc. cbn in Hc. case_bool_decide as El; [|done]. subst l'. cbn in Hc.
  apply cont_ok_inv in Hk as [(? & ? & ? & [=] & _)|(g1 & g2 & Hk & _)].
  cbn [check] in Hk. unfold guard_ok in Hg. cbn [fst snd] in *.
  exists l, d, y, m'. unfold blocking. destruct (shared D l) eqn:Esh.
  { subst m'. case_bool_decide; [|done]. by subst. }
  destruct (owner D l) as [d'|] eqn:Eo.
  - exfalso. case_bool_decide; [|done]. subst d'. destruct Hg as [?|[= <-]]; [done|]. assert (y = x) as -> by congruence.
    destruct (owned D (held x)) eqn:Ew; [done|]. apply not_true_iff_false in Ew. apply Ew.
    apply existsb_exists. exists (l, m'). split; [by apply list_elem_of_In|]. cbn. by rewrite Esh, Eo.
  - destruct (Nat.leb_spec (top_of D (held x)) (rank D l)); [|done]. done.
Qed.

Fixpoint weight a : nat :=
  match a with
  | Seq a1 a2 | Choice a1 a2 => S (weight a1 + weight a2)
  | Loop a1 => S (weight a1)
  | Guard _ _ a1 | Without a1 => S (S (weight a1))
  | _ => 1%nat
  end.
Definition left_to_do x : nat := sum_list_with weight (cont x).

Lemma advance_core_weight s x x' : advance_core s x false = Some x' -> (left_to_do x' < left_to_do x)%nat.
Proof.
  unfold advance_core, left_to_do. destruct (cont x) as [|a r]; [done|].
  destruct a; try case_match; intros [= <-]; cbn; lia.
Qed.

Lemma send_from_weight x s :
  sum_list_with left_to_do (send_from x s) = sum_list_with left_to_do s.
Proof.
  unfold send_from. destruct (cont x) as [|[] ?]; try done.
  revert d. induction s as [|y s IH]; intros [|d]; cbn; [done..|]. by rewrite IH.
Qed.


(** Nobody is locked out: a core that has something left to do can still go on,
    whatever happened so far. *)
Lemma never_locked_out s c x :
  state_ok D s -> s !! c = Some x -> cont x <> [] -> can_go_on timer handler c s.
Proof using All.
  remember (sum_list_with left_to_do s) as n eqn:Hn. revert s x Hn.
  induction (lt_wf n) as [n _ IH]. intros s x -> Hs Hx Hne.
  destruct (advance_core s x false) as [x'|] eqn:Ea.
  { exists [], s, false, (send_from x (<[c := x']> s)). split; [done|]. unfold advance. by rewrite Hx, Ea. }
  destruct (blocked_core s c x false) as (l & d & y & m & Hb & Hr & Hy & Hl); [done..|].
  destruct (exists_max (fun z => top_of D (held z)) s d y Hy) as (e & z & Hz & Hmax).
  pose proof (top_of_elem _ _ Hl Hb) as Htop. pose proof (Hmax d y Hy) as Hdy. cbn in Htop, Hdy.
  assert (cont z <> []) as Hnz.
  { intros E. destruct (Hs e z Hz) as ((on & _ & Hk) & _). rewrite E in Hk. apply top_of_shared in Hk. lia. }
  destruct (advance_core s z false) as [z'|] eqn:Ez.
  2: { destruct (blocked_core s e z false) as (l' & d' & y' & m' & Hb' & Hr' & Hy' & Hl'); [done..|].
       pose proof (top_of_elem _ _ Hl' Hb'). pose proof (Hmax d' y' Hy'). cbn in *. lia. }
  set (s' := send_from z (<[e := z']> s)).
  assert (step timer handler (Advance e false) s = Some s') as Hstep by (cbn; unfold advance; by rewrite Hz, Ez).
  assert (e <> c) as Hec by (intros ->; simplify_eq; lia).
  assert (exists x', s' !! c = Some x' /\ cont x' = cont x) as (x' & Hx' & Ec).
  { unfold s', send_from. destruct (cont z) as [|[] ?]; try (exists x; by rewrite list_lookup_insert_ne).
    destruct (decide (d0 = c)) as [->|]; [|exists x; by rewrite list_lookup_alter_ne, list_lookup_insert_ne].
    exists (request x). by rewrite list_lookup_alter_eq, list_lookup_insert_ne, Hx. }
  destruct (IH (sum_list_with left_to_do s')) with (s := s') (x := x') as (acts & s1 & b & s2 & Hrun & Hadv);
    [|done|by eapply step_keeps|done|congruence|].
  { unfold s'. rewrite send_from_weight. by eapply sum_insert, advance_core_weight. }
  exists (Advance e false :: acts), s1, b, s2. split; [|done]. cbn [run]. by rewrite Hstep.
Qed.
End soundness.
