(* ===== verification/KernelLocks.v ===== *)
(** * The locks of the kernel

    The kernel's code as the machine of [Locks.v] sees it: the guards it takes,
    in the scopes of the source, the interrupt flag, and the interrupts it
    requests; what it computes in between is [Work], and a condition on data is
    a choice.  The event loop, the handlers, the system calls and process
    creation are covered.  The event loops are shown to be free of deadlock
    whatever kernel futures they poll, provided the futures pass the checker;
    three ways are shown in which code that does not pass locks cores out. *)

From S2P Require Import Prelude Apic Events Locks.

(** The statics with a lock, the locks of each core's runner, the lock of the
    future a core is polling, and the lock of the heap allocator. *)
Inductive klock :=
| EVENT_RUNNERS
| RUNNER (c : nat)
| QUEUE (c i : nat)
| REWAKE (c : nat)
| PENDING (c : nat)
| FUTURE (c : nat)
| PROCESS_TABLE
| MAPPER
| FRAME_ALLOCATOR
| LOGGER
| SERIAL1
| ALLOCATOR
| TLB_ADDRESSES.
#[export] Instance klock_eq_dec : EqDecision klock.
Proof. solve_decision. Defined.

(** What the timer handler finds out about the code it interrupts: no event of
    a process is current; the event of a process is, but the process is not
    [Running]; the process is [Running]. *)
Inductive context := Kernel | Process | User.
#[export] Instance context_eq_dec : EqDecision context.
Proof. solve_decision. Defined.

Abbreviation kcode := (code klock context).
Open Scope code_scope.

(** ** Output and memory *)

(** Allocation and deallocation on the heap. *)
Definition heap_code : kcode := Guard ALLOCATOR Write Work.
Definition print_code : kcode := Guard SERIAL1 Write Work.
Definition log_code : kcode := Work <|> Guard LOGGER Write print_code.

Definition with_generic_allocator_code (f : kcode) : kcode := Guard FRAME_ALLOCATOR Write f.
Definition alloc_frame_code : kcode := with_generic_allocator_code Work.
Definition dealloc_frame_code : kcode := with_generic_allocator_code Work.

(** [tlb_shootdown] on core [c], and the handler of its interrupt. *)
Definition send_all (c : nat) : kcode :=
  foldr (fun d k => if bool_decide (d = c) then k else Work ;; Send d ;; k) Work (seq 0 (Z.to_nat MAX_CORES)).
Definition tlb_shootdown_code (c : nat) : kcode :=
  Guard TLB_ADDRESSES Write (send_all c) ;; Work.
Definition tlb_shootdown_handler_code (c : nat) (k : context) : kcode :=
  Guard TLB_ADDRESSES Write Work ;; Work.

Definition create_mapping_code : kcode := alloc_frame_code ;; Guard FRAME_ALLOCATOR Write Work.
Definition update_mapping_code (c : nat) : kcode :=
  Work ;; (Work <|> (Guard FRAME_ALLOCATOR Write Work ;; tlb_shootdown_code c)).
Definition remove_mapping_code (c : nat) : kcode := Work ;; tlb_shootdown_code c.
Definition remove_mapped_frame_code (c : nat) : kcode := Work ;; dealloc_frame_code ;; tlb_shootdown_code c.
Definition map_kernel_frame_code : kcode := Work ;; Guard FRAME_ALLOCATOR Write Work.
Definition update_permissions_code (c : nat) : kcode := Work ;; tlb_shootdown_code c.

(** ** Events *)

Definition enqueue_code (c i : nat) : kcode := Guard (QUEUE c i) Write heap_code.
Definition try_pop_code (c i : nat) : kcode := Guard (QUEUE c i) Write Work.
Definition front_clock_code (c i : nat) : kcode := Guard (QUEUE c i) Read Work.

Definition reprioritize_code (c : nat) : kcode :=
  foldr (fun i k => (front_clock_code c i ;;
                     (Work <|> (try_pop_code c i ;; (Work <|> (enqueue_code c (i - 1) ;; print_code))))) ;; k)
    Work (seq 1 (NUM_EVENT_PRIORITIES - 1)).
Definition next_event_code (c : nat) : kcode :=
  Guard (REWAKE c) Write Work ;;
  (Work <|> (reprioritize_code c ;;
             foldr (fun i k => try_pop_code c i ;; (Work <|> k)) Work (seq 0 NUM_EVENT_PRIORITIES))).

(** [EventRunner::schedule]: the event is allocated, queued and recorded. *)
Definition runner_schedule_code (c i : nat) : kcode :=
  heap_code ;; enqueue_code c i ;; Guard (PENDING c) Write heap_code.
Definition with_runner_code (c : nat) (f : kcode) : kcode :=
  Guard EVENT_RUNNERS Read (Guard (RUNNER c) Write f).
Definition schedule_kernel_code (c i : nat) : kcode := with_runner_code c (runner_schedule_code c i).
Definition schedule_process_code (c : nat) : kcode :=
  Without (with_runner_code c (runner_schedule_code c (NUM_EVENT_PRIORITIES - 1))).
Definition register_event_runner_code : kcode := Without (heap_code ;; Guard EVENT_RUNNERS Write heap_code).
Definition current_running_event_info_code (c : nat) : kcode := with_runner_code c Work.
Definition wake_by_ref_code (c : nat) : kcode := Guard (REWAKE c) Write heap_code.

(** ** Processes *)

Definition create_process_page_table_code : kcode := alloc_frame_code ;; Guard MAPPER Write Work.

Definition load_elf_code (c : nat) : kcode :=
  heap_code ;;
  Loop (create_mapping_code ;; map_kernel_frame_code ;; Work ;; update_permissions_code c ;;
        with_generic_allocator_code Work ;; update_permissions_code c) ;;
  Loop create_mapping_code ;;
  heap_code.

Definition create_process_code (c : nat) : kcode :=
  create_process_page_table_code ;;
  Guard MAPPER Write (load_elf_code c) ;;
  heap_code ;;
  Guard PROCESS_TABLE Write heap_code ;;
  log_code.

(** [sys_exit]: the frames are given back and the control block is dropped
    while the process table is locked. *)
Definition sys_exit_code (c : nat) : kcode :=
  current_running_event_info_code c ;;
  print_code ;;
  Guard PROCESS_TABLE Write (with_generic_allocator_code Work ;; heap_code).

Definition syscall_handler_code (c : nat) : kcode :=
  foldr Seq Work (replicate 6 print_code) ;; (sys_exit_code c <|> print_code) ;; Work.

(** [timer_handler], by what it finds. *)
Definition timer_handler_code (c : nat) (k : context) : kcode :=
  current_running_event_info_code c ;;
  match k with
  | Kernel => Work
  | Process => Guard PROCESS_TABLE Write Work
  | User => Guard PROCESS_TABLE Write Work ;; schedule_process_code c ;; Work
  end.

(** [run_process_ring3]: the process runs with interrupts on and makes system
    calls through an interrupt gate.  It is left when the timer handler or
    [sys_exit] jumps to [return_process], with interrupts off: in the model,
    when the loop ends. *)
Definition run_process_ring3_code (c : nat) : kcode :=
  SetIf false ;;
  Guard PROCESS_TABLE Read Work ;;
  Work ;;
  Current User ;; SetIf true ;;
  Loop (Work <|> Without (syscall_handler_code c)) ;;
  SetIf false ;; Current Process.

(** ** The event loop *)

Definition any_queue (c : nat) : kcode :=
  enqueue_code c 0 <|> enqueue_code c 1 <|> enqueue_code c 2 <|> enqueue_code c 3.

(** A turn with a kernel future [f]: it may be a copy of an event that has
    completed, it may stay pending, and the event is freed at the end if nothing
    else refers to it. *)
Definition kernel_turn (c : nat) (f : kcode) : kcode :=
  Guard (PENDING c) Read Work ;;
  (Work <|> (Guard (FUTURE c) Write f ;; (any_queue c <|> Guard (PENDING c) Write heap_code))) ;;
  (Work <|> heap_code).

(** A turn with a process.  [run_process_ring3] does not await anything, so it
    is ready at once; its waker is never used, so there are no other copies of
    its event. *)
Definition process_turn (c : nat) : kcode :=
  Current Process ;;
  Guard (PENDING c) Read Work ;;
  Guard (FUTURE c) Write (run_process_ring3_code c) ;;
  Guard (PENDING c) Write heap_code ;;
  heap_code ;;
  Current Kernel.

Definition run_loop_code (c : nat) (f : kcode) : kcode :=
  Guard EVENT_RUNNERS Read (
    Loop (Loop (Guard (PENDING c) Read Work ;; next_event_code c ;; (kernel_turn c f <|> process_turn c)) ;;
          Guard (PENDING c) Read Work ;;
          SetIf true ;; Work)).
Close Scope code_scope.

(** ** The discipline *)

Definition kernel_rank (l : klock) : nat :=
  match l with
  | FUTURE _ => 0
  | QUEUE _ _ | REWAKE _ | PENDING _ => 1
  | PROCESS_TABLE => 2
  | MAPPER => 3
  | FRAME_ALLOCATOR => 4
  | LOGGER => 5
  | SERIAL1 => 6
  | ALLOCATOR => 7
  | TLB_ADDRESSES => 8
  | EVENT_RUNNERS | RUNNER _ => 0
  end.

(** After boot the map of runners is only read; a runner is only locked on its
    own core. *)
Definition kernel_discipline : discipline klock context := mkDiscipline
  kernel_rank
  (fun l => match l with EVENT_RUNNERS => true | _ => false end)
  (fun l => match l with RUNNER c => Some c | _ => None end)
  (fun k => match k with Kernel => 8 | Process => 2 | User => 1 end)%nat.

(** A kernel future may do whatever passes with the lock of its event held and
    interrupts on. *)
Definition future_ok (c : nat) (f : kcode) : Prop :=
  exists on, check kernel_discipline c 1 false (true, Kernel) f = Some (on, Kernel).

Ltac run_check :=
  cbn -[bool_decide];
  repeat (rewrite bool_decide_eq_true_2 by done; cbn -[bool_decide]).

Lemma timer_checked : handler_ok kernel_discipline timer_handler_code.
Proof. intros c []; eexists; run_check; reflexivity. Qed.

Lemma shootdown_checked : handler_ok kernel_discipline tlb_shootdown_handler_code.
Proof. intros c []; eexists; run_check; reflexivity. Qed.

Lemma run_loop_checked c f : future_ok c f ->
  exists on, check kernel_discipline c 0 false (true, Kernel) (run_loop_code c f) = Some (on, Kernel).
Proof. intros [on Hf]. eexists. run_check. rewrite Hf. destruct on; run_check; reflexivity. Qed.

(** The cores in their event loops, with interrupts on and nothing held. *)
Definition in_loop (c : nat) (f : kcode) : core klock context := mkCore [run_loop_code c f] true Kernel false [].
Definition loops (futures : list kcode) : list (core klock context) := imap in_loop futures.

Lemma loops_ok futures :
  (forall c f, futures !! c = Some f -> future_ok c f) -> state_ok kernel_discipline (loops futures).
Proof.
  intros Hf c x. unfold loops. rewrite list_lookup_imap, fmap_Some. intros (f & Hc & ->).
  destruct (run_loop_checked c f (Hf c f Hc)) as [on Hon].
  split_and!; [|done|by constructor]. exists true. split; [done|].
  eapply (cont_ok_cons _ _ _ _ _ _ (on, Kernel) (on, Kernel)); [exact Hon|apply weaker_refl|]. by constructor.
Qed.

(** C8: The event loops of the cores, with their timer interrupts, TLB shootdown
    interrupts, processes and system calls, never deadlock, for any number of
    cores and any kernel futures that pass the checker: whatever has happened,
    every core that has something left to do can still get to do it. *)
Theorem event_loops_never_locked_out futures acts s c x :
  (forall c f, futures !! c = Some f -> future_ok c f) ->
  run timer_handler_code tlb_shootdown_handler_code acts (loops futures) = Some s ->
  s !! c = Some x -> cont x <> [] ->
  can_go_on timer_handler_code tlb_shootdown_handler_code c s.
Proof.
  intros Hf Hr Hx Hne. eapply never_locked_out; [apply timer_checked|apply shootdown_checked| |exact Hx|exact Hne].
  eapply run_ok; [apply timer_checked|apply shootdown_checked|by apply loops_ok|exact Hr].
Qed.

(** ** What a kernel future may call *)

Lemma send_all_checked c top loc g : check kernel_discipline c top loc g (send_all c) = Some g.
Proof.
  unfold send_all. change (seq 0 (Z.to_nat MAX_CORES)) with [0; 1]%nat. cbn -[bool_decide].
  by repeat case_bool_decide.
Qed.

Ltac future_steps :=
  cbn -[bool_decide send_all];
  repeat (first [rewrite send_all_checked | rewrite bool_decide_eq_true_2 by done]; cbn -[bool_decide send_all]).
Ltac future_check := eexists; future_steps; reflexivity.
Ltac future_refused :=
  let on := fresh in let H := fresh in intros [on H]; revert H; future_steps; done.

(** What a kernel future may call under the discipline: waking an event of any core,
    scheduling a process on its own core, output, allocation and new mappings
    at any time; scheduling an event on its own core, changing mappings and
    creating a process only with interrupts off.  Scheduling an event on another
    core is never allowed. *)
Theorem future_calls c d i :
  future_ok c (wake_by_ref_code d) /\ future_ok c (schedule_process_code c) /\ future_ok c log_code /\
  future_ok c heap_code /\ future_ok c (Guard MAPPER Write create_mapping_code) /\
  future_ok c (Without (schedule_kernel_code c i)) /\ ~ future_ok c (schedule_kernel_code c i) /\
  future_ok c (Without (create_process_code c)) /\ ~ future_ok c (create_process_code c) /\
  future_ok c (Without (Guard MAPPER Write (remove_mapped_frame_code c))) /\
  ~ future_ok c (Guard MAPPER Write (remove_mapped_frame_code c)) /\
  (c = d \/ ~ future_ok c (Without (schedule_kernel_code d i))).
Proof.
  split_and!; try future_check; try future_refused.
  destruct (decide (c = d)) as [|Hcd]; [by left|right]. intros [on H]. revert H. cbn -[bool_decide]. by rewrite (bool_decide_eq_false_2 (d = c)) by congruence.
Qed.

(** ** Cores that are locked out *)

(** Two cores that change a mapping; one that schedules a kernel event on core
    [d]. *)
Definition changing_mapping (c : nat) : core klock context := 
  mkCore [Guard MAPPER Write (update_permissions_code c)] true Kernel false [].
Definition scheduling (d : nat) (on : bool) : core klock context :=
  mkCore [schedule_kernel_code d 3] on Kernel false [].

Ltac show_wait d g :=
  do 5 eexists; split_and!; [reflexivity..|]; exists d; eexists; exists g;
  split_and!; [set_solver|reflexivity|set_solver|reflexivity].

(** C39: Two cores that change a mapping one after the other, each with [MAPPER]
    locked and interrupts on as the loader does for the first process, can end
    in a deadlock: the interrupt of the first shootdown reaches the second core
    when it has locked [TLB_SHOOTDOWN_ADDR] for its own, and its handler waits
    for that lock for ever. *)
Theorem shootdown_locks_out :
  exists acts s,
    run timer_handler_code tlb_shootdown_handler_code acts [changing_mapping 0; changing_mapping 1] = Some s /\
    locked_out timer_handler_code tlb_shootdown_handler_code 1 s.
Proof.
  exists (replicate 13 (Advance 0 true) ++ replicate 5 (Advance 1 true) ++ [Interrupt 1; Advance 1 true]).
  eexists. split; [vm_compute; reflexivity|]. apply (deadlock_locks_out _ _ [1%nat]); [|set_solver].
  intros c ->%list_elem_of_singleton. show_wait 1%nat (TLB_ADDRESSES, Write).
Qed.

(** C40: [schedule_kernel], which unlike [schedule_process] leaves interrupts on,
    can lock out the cores.  On its own core: the timer interrupts it while it
    has the runner locked, and the handler waits for the runner for ever.  From
    another core, even with interrupts off there: the timer interrupts the event
    loop while a lock of the runner's collections is held, its handler waits for
    the runner, and the scheduling core, which has the runner, waits for the
    collection. *)
Theorem schedule_kernel_locks_out :
  (exists acts s, run timer_handler_code tlb_shootdown_handler_code acts [scheduling 0 true] = Some s /\
     locked_out timer_handler_code tlb_shootdown_handler_code 0 s) /\
  (exists acts s, run timer_handler_code tlb_shootdown_handler_code acts [in_loop 0 Work; scheduling 0 false] = Some s /\
     locked_out timer_handler_code tlb_shootdown_handler_code 0 s /\
     locked_out timer_handler_code tlb_shootdown_handler_code 1 s).
Proof.
  split.
  - exists (replicate 2 (Advance 0 true) ++ [Timer 0] ++ replicate 2 (Advance 0 true)).
    eexists. split; [vm_compute; reflexivity|]. apply (deadlock_locks_out _ _ [0%nat]); [|set_solver].
    intros c ->%list_elem_of_singleton. show_wait 0%nat (RUNNER 0, Write).
  - exists (replicate 6 (Advance 0 true) ++ replicate 12 (Advance 1 true) ++ [Timer 0] ++ replicate 2 (Advance 0 true)).
    eexists. split; [vm_compute; reflexivity|].
    split; (apply (deadlock_locks_out _ _ [0; 1]%nat); [|set_solver]);
      (intros c [->| ->%list_elem_of_singleton]%elem_of_cons;
       [show_wait 1%nat (RUNNER 0, Write)|show_wait 0%nat (PENDING 0, Read)]).
Qed.

(** Two cores, one of which creates a process and wakes an event of the other,
    which schedules a process. *)
Lemma event_loops_never_locked_out_witness :
  let futures := [(Without (create_process_code 0) ;; wake_by_ref_code 1)%code; schedule_process_code 1] in
  exists s, run timer_handler_code tlb_shootdown_handler_code
              (replicate 6 (Advance 0 true) ++ [Timer 0; Timer 1]) (loops futures) = Some s /\
    can_go_on timer_handler_code tlb_shootdown_handler_code 1 s.
Proof.
  intros futures. eexists. split; [vm_compute; reflexivity|].
  eapply (event_loops_never_locked_out futures (replicate 6 (Advance 0 true) ++ [Timer 0; Timer 1]));
    [|vm_compute; reflexivity|reflexivity|done].
  intros [|[|c]] f Hf; cbn in Hf; [| |done]; injection Hf as <-; future_check.
Defined.
