(* ===== verification/Console.v ===== *)
(** * Serial output and logging ([devices/serial.rs], [logging.rs])

    What the kernel prints.  The driver of the UART and the [log] crate are
    classes, with their documented behaviour as laws.  The spin locks around
    them are in [KernelLocks.v]. *)

From S2P Require Import Prelude.

Definition SERIAL_PORT : Z := 0x3F8.
Definition newline : string := String (Ascii.ascii_of_nat 10) EmptyString.

(** ** The serial port *)

(** [uart_16550::SerialPort]: [write_fmt] sends the formatted text. *)
Class Uart (U : Type) := {
  uart_new : Z -> U;
  uart_init : U -> U;
  write_fmt : string -> M U unit unit
}.
Class UartLaws (U : Type) `{Uart U} := {
  sent : U -> string;
  init_law p : sent (uart_init (uart_new p)) = EmptyString;
  write_law s u : exists u', write_fmt s u = (Ok tt, u') /\ sent u' = sent u +:+ s
}.

Section serial.
Context {U : Type} `{Uart U}.

(** [SERIAL1]: the port is set up by the first access. *)
Definition SERIAL1 : M (option U) no_error U :=
  let! port := get_state in
  match port with
  | Some u => ret u
  | None =>
      let serial_port := uart_init (uart_new SERIAL_PORT) in
      put_state (Some serial_port) ;!
      ret serial_port
  end.

Definition _print (args : string) : M (option U) no_error unit :=
  let! u := SERIAL1 in
  zoom (fun _ => u) (fun u' _ => Some u') (unwrap (write_fmt args)).

Definition serial_print (args : string) : M (option U) no_error unit := _print args.
Definition serial_println (args : string) : M (option U) no_error unit := serial_print (args +:+ newline).

(** [debug_print!] and [debug_println!]: nothing in a release build. *)
Definition debug_print (debug_assertions : bool) (args : string) : M (option U) no_error unit :=
  if debug_assertions then serial_print args else ret tt.
Definition debug_println (debug_assertions : bool) (args : string) : M (option U) no_error unit :=
  if debug_assertions then serial_println args else ret tt.
End serial.

Section serial_proofs.
Context {U : Type} `{UartLaws U}.

(** What has been sent on the port so far. *)
Definition output (port : option U) : string := default EmptyString (sent <$> port).

Lemma print_ok s port : exists port', _print s port = (Ok tt, port') /\ output port' = output port +:+ s.
Proof.
  unfold _print, SERIAL1. destruct port as [u|].
  - destruct (write_law s u) as (u' & E & Hs). exists (Some u'). split; [|exact Hs].
    cbv [bind get_state ret zoom]. by rewrite (unwrap_ok _ _ _ _ E).
  - destruct (write_law s (uart_init (uart_new SERIAL_PORT))) as (u' & E & Hs). exists (Some u'). split.
    + cbv [bind get_state put_state ret zoom]. by rewrite (unwrap_ok _ _ _ _ E).
    + cbn. by rewrite Hs, init_law.
Qed.
End serial_proofs.

(** ** Logging *)

Inductive Level := Error | Warn | Info | Debug | Trace.
Inductive LevelFilter := Off | UpTo (l : Level).

(** The order of severities, [Level <= LevelFilter]. *)
Definition rank (l : Level) : Z := match l with Error => 1 | Warn => 2 | Info => 3 | Debug => 4 | Trace => 5 end.
Definition level_le (l : Level) (f : LevelFilter) : bool :=
  match f with Off => false | UpTo m => rank l <=? rank m end.

(** The [log] crate: a logger can be installed once, the maximal level is
    global, and the macros call the logger for enabled levels. *)
Class LogCrate (C : Type) := {
  set_logger : M C unit unit;
  set_max_level : LevelFilter -> C -> C;
  max_level : C -> LevelFilter;
  has_logger : C -> bool;
  level_name : Level -> string
}.
Class LogCrateLaws (C : Type) `{LogCrate C} := {
  set_logger_first c : has_logger c = false ->
    exists c', set_logger c = (Ok tt, c') /\ has_logger c' = true /\ max_level c' = max_level c;
  set_logger_again c : has_logger c = true -> set_logger c = (Err tt, c);
  set_max_level_law f c : max_level (set_max_level f c) = f /\ has_logger (set_max_level f c) = has_logger c
}.

(** The port and the state of the crate. *)
Record Out (U C : Type) := mkOut { port : option U; crate : C }.
Arguments mkOut {U C}.
Arguments port {U C}.
Arguments crate {U C}.

Section logging.
Context {U C : Type} `{Uart U} `{LogCrate C}.
Abbreviation MO := (M (Out U C) no_error).

Definition to_port {A} (m : M (option U) no_error A) : MO A := zoom port (fun p o => mkOut p (crate o)) m.
Definition in_crate {E A} (m : M C E A) : M (Out U C) E A := zoom crate (fun c o => mkOut (port o) c) m.

(** [Logger]: [enabled], [log] and [flush]. *)
Definition enabled (level : Level) : MO bool :=
  let! o := get_state in ret (level_le level (max_level (crate o))).
Definition log (level : Level) (args : string) : MO unit :=
  let! e := enabled level in
  if (e : bool) then to_port (serial_println ("[" +:+ level_name level +:+ "] " +:+ args)) else ret tt.
Definition flush : MO unit := ret tt.

(** [logging::init]. *)
Definition init (debug_assertions : bool) (cpu_id : Z) : MO unit :=
  if cpu_id =? 0 then
    unwrap (in_crate (
      set_logger ;!
      let! c := get_state in
      put_state (set_max_level (UpTo (if debug_assertions then Debug else Info)) c)))
  else ret tt.

(** The macros of the crate, which [trace!], [debug!], [info!], [warn!] and
    [error!] expand to. *)
Definition log_macro (level : Level) (args : string) : MO unit :=
  let! o := get_state in
  if level_le level (max_level (crate o)) && has_logger (crate o) then log level args else ret tt.
Definition trace (args : string) : MO unit := log_macro Trace args.
Definition debug (args : string) : MO unit := log_macro Debug args.
Definition info (args : string) : MO unit := log_macro Info args.
Definition warn (args : string) : MO unit := log_macro Warn args.
Definition error (args : string) : MO unit := log_macro Error args.
End logging.

Section logging_proofs.
Context {U C : Type} `{UartLaws U} `{LogCrateLaws C}.

(** The line of a message, and the lines of a sequence of messages. *)
Definition line (m : Level * string) : string :=
  "[" +:+ level_name m.1 +:+ "] " +:+ m.2 +:+ newline.
Definition lines (f : LevelFilter) (ms : list (Level * string)) : string :=
  foldr (fun m s => (if level_le m.1 f then line m else EmptyString) +:+ s) EmptyString ms.
Definition log_all (ms : list (Level * string)) : M (Out U C) no_error unit :=
  for_do ms (fun m => log_macro m.1 m.2).

Lemma append_assoc (a b c : string) : a +:+ (b +:+ c) = (a +:+ b) +:+ c.
Proof. induction a as [|x a IH]; [done|]. exact (f_equal (String x) IH). Qed.
Lemma append_nil_r (a : string) : a +:+ EmptyString = a.
Proof. induction a as [|x a IH]; [done|]. exact (f_equal (String x) IH). Qed.

Lemma log_ok level args (o : Out U C) : level_le level (max_level (crate o)) = true ->
  exists p, log level args o = (Ok tt, mkOut p (crate o)) /\ output p = output (port o) +:+ line (level, args).
Proof.
  intros Hl. unfold log, enabled. rewrite bind_assoc, bind_get, bind_ret, Hl.
  destruct (print_ok (line (level, args)) (port o)) as (p & E & Hp). exists p. split; [|exact Hp].
  apply (zoom_ok port (fun p o => mkOut p (crate o)) _ o). rewrite <- E. unfold serial_println, serial_print, line.
  cbn [fst snd]. by rewrite <- !append_assoc.
Qed.

(** Messages after the logger is installed. *)
Lemma log_all_ok ms (o : Out U C) : has_logger (crate o) = true ->
  exists p, log_all ms o = (Ok tt, mkOut p (crate o)) /\
    output p = output (port o) +:+ lines (max_level (crate o)) ms.
Proof.
  revert o. induction ms as [|[l s] ms IH]; intros [p0 c] Hc; cbn [crate port] in *.
  - exists p0. split; [done|]. cbn. symmetry. apply append_nil_r.
  - cbn [log_all for_do]. unfold log_macro at 1. cbn [fst snd]. rewrite bind_assoc, bind_get. cbn [crate].
    rewrite Hc, andb_true_r. cbn [lines foldr fst]. destruct (level_le l (max_level c)) eqn:El.
    + destruct (log_ok l s (mkOut p0 c) El) as (p1 & E & Hp1). rewrite (bind_ok _ _ _ _ _ E).
      destruct (IH (mkOut p1 c) Hc) as (p2 & E2 & Hp2). exists p2. split; [exact E2|].
      rewrite Hp2. cbn [port crate] in *. by rewrite Hp1, append_assoc.
    + rewrite bind_ret. apply (IH (mkOut p0 c) Hc).
Qed.

(** Messages before that are dropped. *)
Lemma log_all_dropped ms (o : Out U C) : has_logger (crate o) = false -> log_all ms o = (Ok tt, o).
Proof.
  intros Hc. induction ms as [|[l s] ms IH]; [done|]. cbn [log_all for_do]. unfold log_macro at 1.
  rewrite bind_assoc, bind_get, Hc, andb_false_r, bind_ret. exact IH.
Qed.

(** Logging.  Until core 0 has run [logging::init], messages are dropped;
    afterwards the port has sent, in order and each exactly once, the lines
    [[LEVEL] message] of the messages up to the level of the build ([Debug] or
    [Info]), and nothing of the others.  The other cores' calls of [init] do
    nothing, and a second call on core 0 panics. *)
Theorem log_output (debug_assertions : bool) (o : Out U C) (before after : list (Level * string)) :
  has_logger (crate o) = false ->
  log_all before o = (Ok tt, o) /\
  exists o1 o2, init debug_assertions 0 o = (Ok tt, o1) /\ log_all after o1 = (Ok tt, o2) /\
    output (port o2) = output (port o) +:+ lines (UpTo (if debug_assertions then Debug else Info)) after /\
    (forall cpu_id, cpu_id <> 0 -> init debug_assertions cpu_id o1 = (Ok tt, o1)) /\
    fst (init debug_assertions 0 o1) = Panic.
Proof.
  intros Hc. split; [by apply log_all_dropped|].
  set (f := UpTo (if debug_assertions then Debug else Info)).
  destruct (set_logger_first (crate o) Hc) as (c1 & E1 & Hc1 & _).
  destruct (set_max_level_law f c1) as [Hm Hl]. rewrite Hc1 in Hl. set (o1 := mkOut (port o) (set_max_level f c1)).
  destruct (log_all_ok after o1 Hl) as (p & E2 & Hp). exists o1, (mkOut p (crate o1)). split_and!.
  - unfold init. cbn [Z.eqb]. apply unwrap_ok. apply (zoom_ok crate (fun c o => mkOut (port o) c) _ o (Ok tt) (set_max_level f c1)).
    rewrite (bind_ok _ _ _ _ _ E1), bind_get. done.
  - exact E2.
  - unfold o1 in Hp. cbn [port crate] in *. by rewrite Hp, Hm.
  - intros cpu Hcpu. unfold init. by replace (cpu =? 0) with false by lia.
  - unfold init. cbn [Z.eqb]. erewrite unwrap_err; [done|].
    apply (zoom_ok crate (fun c o => mkOut (port o) c) _ o1 (Err tt) (crate o1)). apply bind_err, set_logger_again, Hl.
Qed.
End logging_proofs.

(** ** A port and a crate *)

Module Terminal.
#[export] Instance uart : Uart string := {
  uart_new _ := EmptyString;
  uart_init _ := EmptyString;
  write_fmt s u := (Ok tt, u +:+ s)
}.
#[export] Instance uart_laws : UartLaws string.
Proof. refine {| sent u := u |}; [done|]. intros s u. by eexists. Defined.

Definition Crate : Type := bool * LevelFilter.
#[export] Instance log_crate : LogCrate Crate := {
  set_logger c := if c.1 then (Err tt, c) else (Ok tt, (true, c.2));
  set_max_level f c := (c.1, f);
  max_level c := c.2;
  has_logger c := c.1;
  level_name l := match l with
    | Error => "ERROR" | Warn => "WARN" | Info => "INFO" | Debug => "DEBUG" | Trace => "TRACE" end%string
}.
#[export] Instance log_crate_laws : LogCrateLaws Crate.
Proof.
  split.
  - intros [[] f]; [done|]. intros _. by exists (true, f).
  - by intros [[] f].
  - done.
Qed.

Definition boot : Out string Crate := mkOut None (false, Off).
Definition messages : list (Level * string) := [(Debug, "BSP entering event loop"); (Trace, "tick"); (Error, "no card")]%string.

Lemma log_output_witness :
  exists o1 o2, init true 0 boot = (Ok tt, o1) /\ log_all messages o1 = (Ok tt, o2) /\
    output (port o2) =
      "[DEBUG] BSP entering event loop" +:+ newline +:+ "[ERROR] no card" +:+ newline.
Proof.
  destruct (log_output true boot [] messages) as (_ & o1 & o2 & E1 & E2 & Ho & _); [reflexivity|].
  exists o1, o2. exact (conj E1 (conj E2 Ho)).
Defined.
End Terminal.
