(* ===== verification/Harness.v ===== *)
(** * The test harness ([lib.rs], the panic handlers of [main.rs])

    How the kernel's tests are run: one after the other on the booted system,
    with a line on the serial port each, until one panics; the verdict is the
    value written to the port of the emulator's exit device.  A test is a
    computation on the state of the system, a panic of it an outcome. *)

From stdpp Require Import pretty.
From S2P Require Import Prelude Console.
#[local] Open Scope Z_scope.

(** The system under test, the console, and the values written to I/O ports. *)
Record Bench (S U : Type) := mkBench { system : S; console : option U; ports : list (Z * Z) }.
Arguments mkBench {S U}.
Arguments system {S U}.
Arguments console {S U}.
Arguments ports {S U}.

Inductive QemuExitCode := Success | Failed.
Definition code_value (c : QemuExitCode) : Z := match c with Success => 0x10 | Failed => 0x11 end.

Definition tab : string := String (Ascii.ascii_of_nat 9) EmptyString.

Section harness.
Context {S U : Type} `{Uart U}.
Abbreviation MB := (M (Bench S U) no_error).

Definition in_system {A} (m : M S no_error A) : MB A :=
  zoom system (fun s b => mkBench s (console b) (ports b)) m.
Definition on_console {A} (m : M (option U) no_error A) : MB A :=
  zoom console (fun c b => mkBench (system b) c (ports b)) m.
Definition println (args : string) : MB unit := on_console (serial_println args).

(** [hlt] for ever. *)
Definition idle_loop : MB unit := diverge.

Definition exit_qemu (exit_code : QemuExitCode) : MB unit :=
  let! b := get_state in
  put_state (mkBench (system b) (console b) (ports b ++ [(0xf4, code_value exit_code)])).

(** A test function with the name of its type, and [Testable::run]. *)
Record Testable := mkTest { type_name : string; body : M S no_error unit }.
Definition run (t : Testable) : MB unit :=
  println ("TEST: " +:+ type_name t +:+ "..." +:+ tab) ;!
  in_system (body t) ;!
  println ("[ok]" +:+ newline).

Definition test_runner (tests : list Testable) : MB unit :=
  on_console (serial_print ("INFO: Running " +:+ pretty (length tests) +:+ " tests..." +:+ newline)) ;!
  for_do tests run ;!
  exit_qemu Success.

(** What a panic with the message [info] runs. *)
Definition test_panic_handler (info : string) : MB unit :=
  println ("[failed]" +:+ newline) ;!
  println ("Error: " +:+ info +:+ newline) ;!
  exit_qemu Failed ;!
  idle_loop.
Definition rust_panic (info : string) : MB unit :=
  println ("Kernel panic: " +:+ info) ;!
  idle_loop.
Definition panicking {A} (handler : MB A) (m : MB A) : MB A :=
  fun b => match m b with (Panic, b') => handler b' | r => r end.

(** [_start] of the test image: [init] is the start of the kernel. *)
Definition _start (info : string) (init : M S no_error unit) (tests : list Testable) : MB unit :=
  panicking (test_panic_handler info) (
    println "!!! RUNNING LIBRARY TESTS !!!" ;!
    in_system init ;!
    test_runner tests ;!
    idle_loop).

End harness.
Arguments Testable S : clear implicits.

(** ** The verdict *)

(** The value a run of the tests leaves at the exit device. *)
Definition verdict (r : outcome no_error unit) : list (Z * Z) :=
  match r with
  | Ok _ => [(0xf4, code_value Success)]
  | Panic => [(0xf4, code_value Failed)]
  | _ => []
  end.

(** Computations one after the other, without the harness. *)
Definition in_a_row {S} (ms : list (M S no_error unit)) : M S no_error unit := for_do ms (fun m => m).

Section harness_proofs.
Context {S U : Type} `{UartLaws U}.
Implicit Types (b : Bench S U) (tests : list (Testable S)).

Lemma println_ok s b : exists c, println s b = (Ok tt, mkBench (system b) c (ports b)).
Proof.
  destruct (print_ok (s +:+ newline) (console b)) as (c & E & _). exists c.
  apply (zoom_ok console (fun c b => mkBench (system b) c (ports b)) _ b). exact E.
Qed.

Lemma in_system_eq (m : M S no_error unit) b r s :
  m (system b) = (r, s) -> in_system m b = (r, mkBench s (console b) (ports b)).
Proof. intros E. unfold in_system. by rewrite (zoom_ok _ _ _ b _ _ E). Qed.

(** A test under the harness does to the system what it does without. *)
Lemma test_run_ok t b : exists c,
  run t b = ((body t (system b)).1, mkBench (body t (system b)).2 c (ports b)).
Proof.
  unfold run. destruct (println_ok ("TEST: " +:+ type_name t +:+ "..." +:+ tab) b) as (c1 & E1).
  rewrite (bind_ok _ _ _ _ _ E1). destruct (body t (system b)) as [[[]|e| |] s] eqn:Et;
    pose proof (in_system_eq _ (mkBench (system b) c1 (ports b)) _ _ Et) as E; cbn [fst snd].
  - rewrite (bind_ok _ _ _ _ _ E). destruct (println_ok ("[ok]" +:+ newline) (mkBench s c1 (ports b))) as (c & E').
    by exists c.
  - by destruct e.
  - exists c1. by rewrite (bind_panic _ _ _ _ E).
  - exists c1. by rewrite (bind_diverge _ _ _ _ E).
Qed.

Lemma run_all_ok tests b : exists c,
  for_do tests run b = ((in_a_row (map body tests) (system b)).1,
                        mkBench (in_a_row (map body tests) (system b)).2 c (ports b)).
Proof.
  revert b. induction tests as [|t tests IH]; intros b; [by exists (console b); destruct b|].
  unfold in_a_row. cbn [for_do map]. destruct (test_run_ok t b) as [c E].
  destruct (body t (system b)) as [[[]|e| |] s] eqn:Et; cbn [fst snd] in E.
  - rewrite (bind_ok _ _ _ _ _ E), (bind_ok _ _ _ _ _ Et). exact (IH (mkBench s c (ports b))).
  - by destruct e.
  - exists c. by rewrite (bind_panic _ _ _ _ E), (bind_panic _ _ _ _ Et).
  - exists c. by rewrite (bind_diverge _ _ _ _ E), (bind_diverge _ _ _ _ Et).
Qed.

Lemma test_panic_handler_ok info b : exists c,
  test_panic_handler info b = (Diverge, mkBench (system b) c (ports b ++ [(0xf4, 0x11)])).
Proof.
  unfold test_panic_handler. destruct (println_ok ("[failed]" +:+ newline) b) as (c1 & E1).
  rewrite (bind_ok _ _ _ _ _ E1).
  destruct (println_ok ("Error: " +:+ info +:+ newline) (mkBench (system b) c1 (ports b))) as (c2 & E2).
  rewrite (bind_ok _ _ _ _ _ E2). by exists c2.
Qed.

Lemma test_runner_ok tests b : exists c,
  test_runner tests b =
    (let '(r, s) := in_a_row (map body tests) (system b) in
     (r, mkBench s c (ports b ++ match r with Ok _ => verdict r | _ => [] end))).
Proof.
  unfold test_runner.
  destruct (print_ok ("INFO: Running " +:+ pretty (length tests) +:+ " tests..." +:+ newline) (console b)) as (c1 & E1 & _).
  rewrite (bind_ok _ _ _ tt (mkBench (system b) c1 (ports b))).
  2: { exact (zoom_ok console (fun c b => mkBench (system b) c (ports b)) _ b _ _ E1). }
  destruct (run_all_ok tests (mkBench (system b) c1 (ports b))) as (c & E). cbn [system ports] in E. exists c.
  destruct (in_a_row (map body tests) (system b)) as [[[]|e| |] s]; cbn [fst snd] in E; rewrite ?app_nil_r.
  - by rewrite (bind_ok _ _ _ _ _ E).
  - by destruct e.
  - by rewrite (bind_panic _ _ _ _ E).
  - by rewrite (bind_diverge _ _ _ _ E).
Qed.

Lemma start_verdict info (init : M S no_error unit) tests b : exists c,
  _start info init tests b =
    (let '(r, s) := in_a_row (init :: map body tests) (system b) in
     (Diverge, mkBench s c (ports b ++ verdict r))).
Proof.
  unfold _start, panicking. destruct (println_ok "!!! RUNNING LIBRARY TESTS !!!" b) as (c1 & E1).
  rewrite (bind_ok _ _ _ _ _ E1). unfold in_a_row at 1. cbn [for_do].
  destruct (init (system b)) as [[[]|e| |] s1] eqn:Ei;
    pose proof (in_system_eq _ (mkBench (system b) c1 (ports b)) _ _ Ei) as E; cbn [console ports] in E.
  - rewrite (bind_ok _ _ _ _ _ E), (bind_ok _ _ _ _ _ Ei).
    change (for_do (map body tests) (fun m => m) s1) with (in_a_row (map body tests) s1).
    destruct (test_runner_ok tests (mkBench s1 c1 (ports b))) as (c2 & E2). cbn [system ports] in E2.
    destruct (in_a_row (map body tests) s1) as [[[]|e| |] s2]; rewrite ?app_nil_r in E2.
    + rewrite (bind_ok _ _ _ _ _ E2). by exists c2.
    + by destruct e.
    + rewrite (bind_panic _ _ _ _ E2). destruct (test_panic_handler_ok info (mkBench s2 c2 (ports b))) as (c4 & ->).
      by exists c4.
    + rewrite (bind_diverge _ _ _ _ E2). exists c2. cbn [verdict]. by rewrite app_nil_r.
  - by destruct e.
  - rewrite (bind_panic _ _ _ _ E), (bind_panic _ _ _ _ Ei).
    destruct (test_panic_handler_ok info (mkBench s1 c1 (ports b))) as (c4 & ->). by exists c4.
  - rewrite (bind_diverge _ _ _ _ E), (bind_diverge _ _ _ _ Ei). exists c1. cbn [verdict]. by rewrite app_nil_r.
Qed.
End harness_proofs.
