(* ===== verification/Suite.v ===== *)
(** * The repository's tests ([memory/paging.rs], [filesys/fat16/mod.rs])

    The test modules as programs of the model, a failed assertion being a panic.
    The four tests of the page tables of one core are shown to pass whatever
    page tables and frame allocator they run on, and to leave the translations
    as they found them, so that the harness reports success; the test of the
    file system is run on a memory device.  The fifth paging test busy-waits for
    another core and is not modelled. *)

From S2P Require Import Prelude BlockDev FatLayout FatSpec FatFile FatVolume FatDir FatFs FatFd Apic Tlb Frames FrameStore Paging Loader FlatMemory Console Harness.

(** ** Paging *)

(** A 64-bit value in memory. *)
Definition to_le8 (x : Z) : list Z := map (fun i => (x / 256 ^ i) mod 256) (range 0 8).
Definition of_le (bytes : list Z) : Z := foldr (fun b v => b + 256 * v) 0 bytes.

Inductive TranslateError := PageNotMapped | ParentEntryHugePage.

Section paging_tests.
Context {P F G T W : Type} `{Pages P} `{PhysFrames F} `{PageTableFlags} `{FrameStore F G}.
Context `{Mapper P F G T} `{Machine W}.
(** The flags in the entry [get_page_table_entry] returns. *)
Context (pte_flags : T -> P -> option Z).
Abbreviation MT := (M (T * Vm G W) no_error).

(** [Mapper::translate_page] and [Page::from_start_address] of the crate. *)
Definition translate_page (t : T) (page : P) : F + TranslateError :=
  match translate t page with
  | Mapped f _ => inl f
  | Unmapped => inr PageNotMapped
  | Huge => inr ParentEntryHugePage
  end.
Definition from_start_address (a : Z) : option P :=
  if a mod PAGE_SIZE =? 0 then Some (page_containing a) else None.

(** Volatile access through a pointer; a page that is not mapped faults. *)
Fixpoint read_virt (vaddr : Z) (n : nat) : MT (list Z) :=
  match n with
  | O => ret []
  | S n =>
      let! s := get_state in
      match translate s.1 (page_containing vaddr) with
      | Mapped f _ =>
          let! bytes := read_virt (vaddr + 1) n in
          ret (default 0 (phys s.2 !! (start_address f + vaddr mod PAGE_SIZE)) :: bytes)
      | _ => panic
      end
  end.
Definition write_volatile (ptr v : Z) : MT unit := write_virt ptr (to_le8 v).
Definition read_volatile (ptr : Z) : MT Z := let! bytes := read_virt ptr 8 in ret (of_le bytes).

Definition test_page : MT P := let! a := expect (VirtAddr_new 0x500000000) in ret (page_containing a).

Definition test_remove_mapped_frame : MT unit :=
  let! page := test_page in
  let! _ := create_mapping page None in
  remove_mapped_frame page ;!
  let! s := get_state in
  rassert (match translate_page s.1 page with inr PageNotMapped => true | _ => false end).

Definition test_basic_map_and_translate : MT unit :=
  let! page := test_page in
  let! frame := create_mapping page None in
  let! s := get_state in
  let! translate_frame := expect (match translate_page s.1 page with inl f => Some f | inr _ => None end) in
  rassert (start_address frame =? start_address translate_frame) ;!
  remove_mapped_frame page.

Definition test_update_permissions : MT unit :=
  let! page := test_page in
  let! _ := create_mapping page None in
  let flags := PRESENT in
  update_permissions page flags ;!
  let! s := get_state in
  let! pte := expect (pte_flags s.1 page) in
  rassert (Z.land pte PRESENT =? PRESENT) ;!
  rassert (negb (Z.land pte WRITABLE =? WRITABLE)) ;!
  remove_mapped_frame page.

(** The three loops of [test_contiguous_mapping], and the test. *)
Definition map_page (start_page : P) (frames : list (P * F)) (i : Z) : MT (list (P * F)) :=
  let! a := chk 64 (page_start start_page + i * PAGE_SIZE) in
  let! a := expect (VirtAddr_new a) in
  let! page := expect (from_start_address a) in
  let! frame := create_mapping page (Some (Z.lor PRESENT WRITABLE)) in
  ret (frames ++ [(page, frame)]).
Definition write_and_verify (x : Z * (P * F)) : MT unit :=
  write_volatile (page_start x.2.1) x.1 ;!
  let! val := read_volatile (page_start x.2.1) in
  rassert (val =? x.1).
Definition test_contiguous_mapping : MT unit :=
  let! start_page := test_page in
  let num_pages := 8 in
  let! frames := for_fold (range 0 num_pages) [] (map_page start_page) in
  for_do (zip (range 0 (len frames)) frames) write_and_verify ;!
  for_do frames (fun x => remove_mapped_frame x.1).

Definition paging_tests : list (Testable (T * Vm G W)) :=
  [mkTest "taos::memory::paging::tests::test_remove_mapped_frame" test_remove_mapped_frame;
   mkTest "taos::memory::paging::tests::test_basic_map_and_translate" test_basic_map_and_translate;
   mkTest "taos::memory::paging::tests::test_update_permissions" test_update_permissions;
   mkTest "taos::memory::paging::tests::test_contiguous_mapping" test_contiguous_mapping].
End paging_tests.

Lemma of_to_le8 x : 0 <= x < 2 ^ 64 -> of_le (to_le8 x) = x.
Proof.
  intros Hx. unfold of_le, to_le8. change (range 0 8) with [0; 1; 2; 3; 4; 5; 6; 7]. cbn [map foldr].
  change (256 ^ 0) with 1. rewrite Z.div_1_r.
  change (256 ^ 1) with 256. change (256 ^ 2) with 65536. change (256 ^ 3) with 16777216.
  change (256 ^ 4) with 4294967296. change (256 ^ 5) with 1099511627776.
  change (256 ^ 6) with 281474976710656. change (256 ^ 7) with 72057594037927936. dlia.
Qed.

Section paging_suite.
Context {P F G T W : Type} `{PagesLaws P} `{PhysFramesLaws F} `{PageTableFlags} `{!FrameStore F G, !FrameStoreLaws F G}.
Context `{!Mapper P F G T, !MapperLaws P F G T} `{Machine W}.
Context (pte_flags : T -> P -> option Z).
Implicit Types (vm : Vm G W) (t : T) (page : P) (f : F).

(** ** The operations, once more *)

(** [frames] are mapped, each page to its own frame, none of which is free, and
    every other page is as in [t0]. *)
Record mapped (t0 : T) (frames : list (P * F)) (n : nat) (s : T * Vm G W) : Prop := {
  mp_view x : x ∈ frames -> exists flags, translate s.1 x.1 = Mapped x.2 flags;
  mp_pages : NoDup (map fst frames);
  mp_frames : NoDup (map (fun x => frame_number x.2) frames);
  mp_taken x : x ∈ frames -> frame_number x.2 < total (vm_frames s.2) /\ (frame_number x.2 ∉ avail (vm_frames s.2));
  mp_rest q : q ∉ map fst frames -> translate s.1 q = translate t0 q;
  mp_ready : ready n (vm_frames s.2);
  mp_slots : slots_ok s.2
}.

Lemma create_mapped t0 frames n s page flags :
  mapped t0 frames (4 + n) s -> page ∉ map fst frames -> translate t0 page = Unmapped ->
  exists f s', create_mapping page flags s = (Ok f, s') /\ mapped t0 (frames ++ [(page, f)]) n s' /\
    translate s'.1 page = Mapped f (default (Z.lor (Z.lor PRESENT WRITABLE) USER_ACCESSIBLE) flags).
Proof.
  destruct s as [t vm]. intros [] Hp Hu. cbn [fst snd] in *.
  destruct (create_mapping_step n t vm page flags) as (f & t' & g' & E & Hin & Hno & Hm & Hsame & Hsub & Htot & _ & _ & Hr);
    [done|by rewrite mp_rest0|].
  destruct (store_avail_range _ _ _ mp_ready0 Hin) as [_ Hlt].
  assert (forall x, x ∈ frames -> x.1 <> page) as Hne.
  { intros x Hx <-. apply Hp. by apply list_elem_of_fmap_2. }
  exists f, (t', with_frames vm g'). split_and!; [done| |done]. split; cbn [fst snd vm_frames with_frames].
  - intros x [Hx| ->%list_elem_of_singleton]%elem_of_app; [|by eexists]. rewrite Hsame by auto. by apply mp_view0.
  - rewrite map_app. apply NoDup_app. split_and!; [done|set_solver|apply NoDup_singleton].
  - rewrite map_app. apply NoDup_app. split_and!; [done| |apply NoDup_singleton].
    intros i (x & -> & Hx)%list_elem_of_fmap Heq%list_elem_of_singleton. cbn in Heq.
    apply (mp_taken0 x Hx). by rewrite Heq.
  - intros x [Hx| ->%list_elem_of_singleton]%elem_of_app; [|cbn [snd]; split; [lia|done]].
    destruct (mp_taken0 x Hx). split; [lia|set_solver].
  - intros q Hq. rewrite map_app in Hq. rewrite Hsame by set_solver. apply mp_rest0. set_solver.
  - done.
  - done.
Qed.

Lemma remove_mapped t0 frames n s page f :
  mapped t0 ((page, f) :: frames) (S n) s -> translate t0 page = Unmapped ->
  exists s', remove_mapped_frame page s = (Ok tt, s') /\ mapped t0 frames n s'.
Proof.
  destruct s as [t vm]. intros [] Hu. cbn [fst snd map] in *.
  destruct (mp_view0 (page, f)) as (fl & Hm); [by left|]. destruct (mp_taken0 (page, f)) as [Hlt Hno]; [by left|].
  apply NoDup_cons in mp_pages0 as [Hp Hpages], mp_frames0 as [Hf Hframes]. cbn [fst snd] in *.
  destruct (unmap_step t vm page f fl Hm) as (t' & E1 & Hu' & Hsame & _).
  destruct (store_dealloc_law n (vm_frames vm) f mp_ready0 Hlt Hno) as (g & E2 & Ha & Ht & Hr).
  destruct (shootdown_step (page_start page) t' (with_frames vm g) mp_slots0) as (a & E3 & Hs & _).
  exists (t', with_apic (with_frames vm g) a). split.
  { unfold remove_mapped_frame. rewrite (bind_ok _ _ _ _ _ (unwrap_ok _ _ _ _ E1)).
    rewrite (bind_ok _ _ _ tt (t', with_frames vm g)); [exact E3|]. by apply in_frames_eq. }
  split; cbn [fst snd vm_frames with_apic with_frames]; try done.
  - intros x Hx. destruct (mp_view0 x) as [fl' Hx']; [by right|]. exists fl'. rewrite Hsame; [done|].
    intros <-. apply Hp. by apply list_elem_of_fmap_2.
  - intros x Hx. destruct (mp_taken0 x) as [? Hx']; [by right|]. split; [lia|]. rewrite Ha.
    assert (frame_number x.2 <> frame_number f); [|set_solver]. intros Heq. apply Hf. rewrite <- Heq.
    by apply (list_elem_of_fmap_2 (fun x => frame_number x.2)).
  - intros q Hq. destruct (decide (page_start q = page_start page)) as [->%page_inj|Hne]; [congruence|].
    assert (q <> page) by (intros ->; done). rewrite Hsame by done. apply mp_rest0. set_solver.
Qed.

(** Access to memory keeps all of it, and a value written is read back. *)
Lemma read_virt_ok t vm page f fl off (bytes : list Z) m :
  translate t page = Mapped f fl -> 0 <= off -> off + len bytes <= PAGE_SIZE ->
  (forall j, 0 <= j < len bytes -> m !! (start_address f + off + j) = idx bytes j) ->
  read_virt (page_start page + off) (length bytes) (t, with_phys vm m) = (Ok bytes, (t, with_phys vm m)).
Proof.
  intros Ht. destruct (page_start_ok page) as [_ Hal].
  revert off. induction bytes as [|b bytes IH]; intros off Hoff Hlen Hj; [done|].
  assert (len (b :: bytes) = 1 + len bytes) as El by (unfold len; cbn; lia). pose proof (len_nonneg bytes).
  cbn [read_virt length]. rewrite bind_get. cbn [fst snd]. rewrite page_containing_in by lia. rewrite Ht.
  replace ((page_start page + off) mod PAGE_SIZE) with off by (unfold PAGE_SIZE in *; dlia).
  replace (page_start page + off + 1) with (page_start page + (off + 1)) by lia.
  rewrite (bind_ok _ _ _ bytes (t, with_phys vm m)).
  - specialize (Hj 0 ltac:(lia)). rewrite Z.add_0_r in Hj. cbn [with_phys phys]. rewrite Hj. done.
  - apply IH; [lia|lia|]. intros j Hj'. replace (start_address f + (off + 1) + j) with (start_address f + off + (j + 1)) by lia.
    rewrite Hj by lia. unfold idx. by replace (Z.to_nat (j + 1)) with (S (Z.to_nat j)) by lia.
Qed.

Lemma mapped_phys t0 frames n t vm m : mapped t0 frames n (t, vm) -> mapped t0 frames n (t, with_phys vm m).
Proof. intros []. by split. Qed.

Lemma write_and_verify_ok t0 frames n s x :
  mapped t0 frames n s -> x.2 ∈ frames -> 0 <= x.1 < 2 ^ 64 ->
  exists s', write_and_verify x s = (Ok tt, s') /\ mapped t0 frames n s'.
Proof.
  destruct s as [t vm], x as [v [page f]]. intros Hm Hx Hv. cbn [fst snd] in *.
  destruct (mp_view _ _ _ _ Hm _ Hx) as (fl & Ht). cbn in Ht.
  set (m := put_bytes (phys vm) (start_address f + 0) (to_le8 v)).
  exists (t, with_phys vm m). split; [|by apply mapped_phys]. unfold write_and_verify, write_volatile. cbn [fst snd].
  pose proof (write_virt_ok t vm page f fl 0 (to_le8 v) Ht ltac:(lia)) as Ew. rewrite Z.add_0_r in Ew.
  rewrite (bind_ok _ _ _ _ _ (Ew ltac:(done))). unfold read_volatile.
  pose proof (read_virt_ok t vm page f fl 0 (to_le8 v) m Ht ltac:(lia) ltac:(done)) as Er.
  rewrite (Z.add_0_r (page_start page)) in Er.
  rewrite bind_assoc. change 8%nat with (length (to_le8 v)). rewrite (bind_ok _ _ _ (to_le8 v) (t, with_phys vm m)).
  - rewrite bind_ret, of_to_le8, Z.eqb_refl by done. done.
  - apply Er. intros j Hj. unfold m. rewrite put_bytes_in by lia. f_equal. lia.
Qed.

(** ** The tests *)

Definition test_pages (i : Z) : P := page_containing (0x500000000 + i * PAGE_SIZE).

Lemma test_address i : 0 <= i < 8 -> canonical (0x500000000 + i * PAGE_SIZE).
Proof. unfold canonical, PAGE_SIZE. lia. Qed.

Lemma test_pages_start i : 0 <= i < 8 -> page_start (test_pages i) = 0x500000000 + i * PAGE_SIZE.
Proof.
  intros Hi. unfold test_pages. rewrite page_containing_start by by apply test_address.
  unfold PAGE_SIZE. dlia.
Qed.

Lemma bind_test_page {A} (k : P -> M (T * Vm G W) no_error A) s : bind test_page k s = k (test_pages 0) s.
Proof.
  unfold test_page. rewrite bind_assoc.
  rewrite (bind_expect _ 0x500000000) by (apply VirtAddr_new_canonical; unfold canonical; lia). done.
Qed.

Lemma empty_mapped t0 n s :
  mapped t0 [] n s <-> (forall q, translate s.1 q = translate t0 q) /\ ready n (vm_frames s.2) /\ slots_ok s.2.
Proof.
  split; [intros []; split_and!; try done; intros q; apply mp_rest0; set_solver|].
  intros (Hq & Hr & Hs). split; try done; (try (by intros x Hx%not_elem_of_nil)); constructor.
Qed.

Section one_page.
Context (t0 : T) (n : nat) (s : T * Vm G W) (Hs : mapped t0 [] (5 + n) s).
Context (Hfree : translate t0 (test_pages 0) = Unmapped).

Lemma test_remove_mapped_frame_ok : exists s', test_remove_mapped_frame s = (Ok tt, s') /\ mapped t0 [] n s'.
Proof using All.
  unfold test_remove_mapped_frame. rewrite bind_test_page.
  destruct (create_mapped t0 [] (1 + n) s (test_pages 0) None Hs) as (f & s1 & E1 & Hm & _); [set_solver|done|].
  rewrite (bind_ok _ _ _ _ _ E1). destruct (remove_mapped t0 [] n s1 (test_pages 0) f Hm Hfree) as (s2 & E2 & Hm2).
  rewrite (bind_ok _ _ _ _ _ E2), bind_get. exists s2. split; [|done].
  unfold translate_page. rewrite (mp_rest _ _ _ _ Hm2), Hfree by set_solver. done.
Qed.

Lemma test_basic_map_and_translate_ok : exists s', test_basic_map_and_translate s = (Ok tt, s') /\ mapped t0 [] n s'.
Proof using All.
  unfold test_basic_map_and_translate. rewrite bind_test_page.
  destruct (create_mapped t0 [] (1 + n) s (test_pages 0) None Hs) as (f & s1 & E1 & Hm & Ht); [set_solver|done|].
  rewrite (bind_ok _ _ _ _ _ E1), bind_get. unfold translate_page. rewrite Ht.
  rewrite (bind_expect _ f) by done. rewrite bind_assert by apply Z.eqb_refl.
  by apply (remove_mapped t0 [] n s1 (test_pages 0) f).
Qed.

Lemma test_update_permissions_ok :
  (forall t p f flags, translate t p = Mapped f flags -> pte_flags t p = Some flags) ->
  Z.land PRESENT WRITABLE <> WRITABLE ->
  exists s', test_update_permissions pte_flags s = (Ok tt, s') /\ mapped t0 [] n s'.
Proof using All.
  intros Hpte Hdis. unfold test_update_permissions. rewrite bind_test_page.
  destruct (create_mapped t0 [] (1 + n) s (test_pages 0) None Hs) as (f & [t1 vm1] & E1 & Hm & Ht); [set_solver|done|].
  rewrite (bind_ok _ _ _ _ _ E1). cbn [fst app] in *.
  destruct (update_flags_law t1 (test_pages 0) f _ PRESENT Ht) as (t2 & E2 & Ht2 & Hsame & _).
  destruct (shootdown_step (page_start (test_pages 0)) t2 vm1 (mp_slots _ _ _ _ Hm)) as (a & E3 & Hsl & _).
  rewrite (bind_ok _ _ _ tt (t2, with_apic vm1 a)).
  2: { unfold update_permissions. by rewrite (bind_ok _ _ _ _ _ (unwrap_ok _ _ _ _ (in_mapper_eq _ t1 vm1 _ _ E2))). }
  rewrite bind_get. cbn [fst]. rewrite (bind_expect _ PRESENT) by by eapply Hpte.
  rewrite bind_assert by (rewrite Z.land_diag; apply Z.eqb_refl).
  rewrite bind_assert by (apply negb_true_iff, Z.eqb_neq, Hdis).
  apply (remove_mapped t0 [] n (t2, with_apic vm1 a) (test_pages 0) f); [|done]. destruct Hm. split; try done; cbn [fst snd] in *.
  - intros x ->%list_elem_of_singleton. by exists PRESENT.
  - intros q Hq. cbn in Hq. rewrite Hsame by set_solver. apply mp_rest0. set_solver.
Qed.
End one_page.

Lemma test_pages_inj i j : 0 <= i < 8 -> 0 <= j < 8 -> test_pages i = test_pages j -> i = j.
Proof. intros Hi Hj Heq%(f_equal page_start). rewrite !test_pages_start in Heq by done. unfold PAGE_SIZE in Heq. lia. Qed.

Section contiguous.
Context (t0 : T) (Hfree : forall i, 0 <= i < 8 -> translate t0 (test_pages i) = Unmapped).

Lemma map_page_ok frames n s a : 0 <= a < 8 ->
  mapped t0 frames (4 + n) s -> map fst frames = map test_pages (range 0 a) ->
  exists f s', map_page (test_pages 0) frames a s = (Ok (frames ++ [(test_pages a, f)]), s') /\
    mapped t0 (frames ++ [(test_pages a, f)]) n s'.
Proof using All.
  intros Ha Hm Hf. pose proof (test_address a Ha) as Hc. unfold map_page.
  rewrite test_pages_start by lia. replace (0x500000000 + 0 * PAGE_SIZE + a * PAGE_SIZE) with (0x500000000 + a * PAGE_SIZE) by lia.
  rewrite bind_chk by (unfold canonical in Hc; lia).
  rewrite (bind_expect _ (0x500000000 + a * PAGE_SIZE)) by by apply VirtAddr_new_canonical.
  rewrite (bind_expect _ (test_pages a)).
  2: { unfold from_start_address. by replace (_ mod PAGE_SIZE =? 0) with true by (unfold PAGE_SIZE; dlia). }
  destruct (create_mapped t0 frames n s (test_pages a) (Some (Z.lor PRESENT WRITABLE)) Hm) as (f & s' & E & Hm' & _).
  - rewrite Hf. intros (i & Heq & Hi%elem_of_range)%list_elem_of_fmap. apply test_pages_inj in Heq; lia.
  - by apply Hfree.
  - exists f, s'. by rewrite (bind_ok _ _ _ _ _ E).
Qed.

Lemma map_pages_loop k a frames n s : Z.of_nat k = 8 - a -> 0 <= a ->
  mapped t0 frames (4 * k + n) s -> map fst frames = map test_pages (range 0 a) ->
  exists frames' s', for_fold (range a 8) frames (map_page (test_pages 0)) s = (Ok frames', s') /\
    mapped t0 frames' n s' /\ map fst frames' = map test_pages (range 0 8).
Proof using All.
  revert a frames s. induction k as [|k IH]; intros a frames s Hk Ha Hm Hf.
  - assert (a = 8) as -> by lia. exists frames, s. by rewrite range_nil by lia.
  - rewrite range_cons by lia. cbn [for_fold].
    destruct (map_page_ok frames (4 * k + n) s a) as (f & s1 & E & Hm1); [lia| |done|].
    { by replace (4 + (4 * k + n))%nat with (4 * S k + n)%nat by lia. }
    rewrite (bind_ok _ _ _ _ _ E). apply IH; [lia|lia|done|].
    rewrite range_snoc by lia. rewrite !map_app. by rewrite Hf.
Qed.

Lemma verify_loop frames n l s : mapped t0 frames n s ->
  (forall x, x ∈ l -> x.2 ∈ frames /\ 0 <= x.1 < 2 ^ 64) ->
  exists s', for_do l write_and_verify s = (Ok tt, s') /\ mapped t0 frames n s'.
Proof.
  revert s. induction l as [|x l IH]; intros s Hm Hl; [by exists s|]. cbn [for_do].
  destruct (Hl x) as [Hx Hr]; [by left|].
  destruct (write_and_verify_ok t0 frames n s x Hm Hx Hr) as (s1 & E & Hm1). rewrite (bind_ok _ _ _ _ _ E).
  apply IH; [done|]. intros y Hy. apply Hl. by right.
Qed.

Lemma remove_loop frames n s : mapped t0 frames (length frames + n) s ->
  (forall x, x ∈ frames -> translate t0 x.1 = Unmapped) ->
  exists s', for_do frames (fun x => remove_mapped_frame x.1) s = (Ok tt, s') /\ mapped t0 [] n s'.
Proof.
  revert s. induction frames as [|[p f] frames IH]; intros s Hm Hu; [by exists s|]. cbn [for_do fst].
  destruct (remove_mapped t0 frames (length frames + n) s p f Hm) as (s1 & E & Hm1); [apply (Hu (p, f)); by left|].
  rewrite (bind_ok _ _ _ _ _ E). apply IH; [done|]. intros x Hx. apply Hu. by right.
Qed.

Lemma test_contiguous_mapping_ok n s : mapped t0 [] (40 + n) s ->
  exists s', test_contiguous_mapping s = (Ok tt, s') /\ mapped t0 [] n s'.
Proof using All.
  intros Hm. unfold test_contiguous_mapping. rewrite bind_test_page.
  destruct (map_pages_loop 8 0 [] (8 + n) s) as (frames & s1 & E1 & Hm1 & Hf); [done|done|done|done|].
  rewrite (bind_ok _ _ _ _ _ E1).
  assert (length frames = 8%nat) as Hlen by (by rewrite <- (length_map fst), Hf).
  destruct (verify_loop frames (8 + n) (zip (range 0 (len frames)) frames) s1 Hm1) as (s2 & E2 & Hm2).
  { intros [i x] Hx. pose proof (elem_of_zip_l _ _ _ _ Hx) as Hi%elem_of_range.
    unfold len in Hi. rewrite Hlen in Hi. cbn. split; [by eapply elem_of_zip_r|lia]. }
  rewrite (bind_ok _ _ _ _ _ E2). apply remove_loop; [by rewrite Hlen|].
  intros x Hx%(list_elem_of_fmap_2 fst). change (x.1 ∈ map fst frames) in Hx. rewrite Hf in Hx. apply list_elem_of_fmap in Hx as (i & -> & Hi%elem_of_range).
  by apply Hfree.
Qed.
End contiguous.

Lemma paging_tests_pass n t vm :
  (forall t p f flags, translate t p = Mapped f flags -> pte_flags t p = Some flags) ->
  Z.land PRESENT WRITABLE <> WRITABLE ->
  ready (55 + n) (vm_frames vm) -> slots_ok vm ->
  (forall i, 0 <= i < 8 -> translate t (test_pages i) = Unmapped) ->
  exists s', in_a_row (map body (paging_tests pte_flags)) (t, vm) = (Ok tt, s') /\ mapped t [] n s'.
Proof.
  intros Hpte Hdis Hr Hs Hfree. pose proof (Hfree 0 ltac:(lia)) as Hp0.
  assert (mapped t [] (55 + n) (t, vm)) as Hm by (by apply empty_mapped).
  unfold in_a_row. cbn [map for_do paging_tests body].
  destruct (test_remove_mapped_frame_ok t (50 + n) (t, vm) Hm Hp0) as (s1 & E1 & Hm1). rewrite (bind_ok _ _ _ _ _ E1).
  destruct (test_basic_map_and_translate_ok t (45 + n) s1 Hm1 Hp0) as (s2 & E2 & Hm2). rewrite (bind_ok _ _ _ _ _ E2).
  destruct (test_update_permissions_ok t (40 + n) s2 Hm2 Hp0 Hpte Hdis) as (s3 & E3 & Hm3). rewrite (bind_ok _ _ _ _ _ E3).
  destruct (test_contiguous_mapping_ok t Hfree n s3 Hm3) as (s4 & E4 & Hm4). rewrite (bind_ok _ _ _ _ _ E4).
  by exists s4.
Qed.
End paging_suite.


(** ** The file system *)

Section fat_test.
Context {D : Type} `{BlockDevice D}.

Definition on_fs {A} (op : Fat16 -> M D FsError A) : M (Fat16 * D) no_error A :=
  unwrap (let! self := get_self in dev (op self)).

(** The body of the test once the device is formatted; [fuel] bounds the
    clusters of a chain that is freed. *)
Definition fat_test_body (fuel : nat) : M (Fat16 * D) no_error unit :=
  let test_dir := bytes_of_string "/test_dir" in
  let subdir := bytes_of_string "/test_dir/subdir" in
  let test_txt := bytes_of_string "/test_dir/test.txt" in
  on_fs (fun fs => create_dir fs test_dir) ;!
  on_fs (fun fs => create_dir fs subdir) ;!
  on_fs (fun fs => create_file fs test_txt) ;!
  let! fd := unwrap (open_file test_txt) in
  let test_data := bytes_of_string "Hello, TaOS FAT16!" in
  let! written := unwrap (write_file fd test_data) in
  rassert (written =? len test_data) ;!
  unwrap (seek_file fd (Start 0)) ;!
  let! (read, read_buf) := unwrap (read_file fd (vec 0 32)) in
  rassert (read =? len test_data) ;!
  rassert (list_eqb (slice read_buf 0 read) test_data) ;!
  let! entries := on_fs (fun fs => read_dir fs test_dir) in
  rassert (negb (len entries =? 0)) ;!
  rassert (len entries =? 2) ;!
  let! metadata := on_fs (fun fs => metadata fs test_txt) in
  rassert (meta_size metadata =? len test_data) ;!
  rassert (negb (is_dir metadata)) ;!
  unwrap (seek_file fd (Start 7)) ;!
  let! (read, partial_buf) := unwrap (read_file fd (vec 0 4)) in
  rassert (read =? 4) ;!
  rassert (list_eqb (slice partial_buf 0 read) (bytes_of_string "TaOS")) ;!
  ignore (close_file fd) ;!
  on_fs (fun fs => remove_file fuel fs test_txt) ;!
  on_fs (fun fs => remove_dir fuel fs subdir) ;!
  on_fs (fun fs => remove_dir fuel fs test_dir) ;!
  let! root_entries := on_fs (fun fs => read_dir fs [0x2F]) in
  rassert (len root_entries =? 0).

(** [fat_test]; the state is the device of [SD_CARD], whose clone the test
    unwraps. *)
Definition fat_test (fuel : nat) : M (option D) no_error unit :=
  fun card =>
    match card with
    | None => (Panic, card)
    | Some device =>
        match format device with
        | (Ok fs, device) => let '(r, (_, device)) := fat_test_body fuel (fs, device) in (r, Some device)
        | (_, device) => (Panic, Some device)
        end
    end.
End fat_test.

(** The kernel's test of its file system (format, make directories, create,
    write, seek, read, list, remove) passes on a memory device of 60 blocks, and
    panics when there is no card. *)
Theorem fat_test_passes :
  fst (fat_test 6 (Some (MemoryBlockDevice.new 60 512))) = Ok tt /\
  fst (fat_test 6 (None : option MemoryBlockDevice.MemoryBlockDevice)) = Panic.
Proof. split; [by vm_compute|done]. Qed.

(** ** The tests on the pages of [FlatMemory] *)

#[local] Existing Instances demo_store demo_store_laws Terminal.uart Terminal.uart_laws.

Definition flat_pte (t : Flat) (p : Page) : option Z := snd <$> t !! key p.

