(* ===== verification/Boot.v ===== *)
(** * Bringing up the cores ([init.rs], [main.rs])

    The bootstrap processor (BSP) initialises the kernel, releases the
    application processors (APs), waits for them and then starts the first
    process; every core ends in its event loop.  A state has the program
    counter of every core, the statics they synchronise on, the event system of
    [Events.v] and the guards of the lock on [EVENT_RUNNERS] that are never
    dropped: [run_loop] does not return and keeps its read guard.  The steps of
    the cores interleave in any order; a step that spins is not enabled.  The
    subsystems' own initialisation is modelled where they are; here their calls
    are recorded in order. *)

From S2P Require Import Prelude Events EventSafety.

Inductive call := InterruptsInit | MemoryInit | DevicesInit | LoggingInit | EnableInterrupts | CreateProcess.

(** Where the BSP is in [_start], [init] and [wake_cores]: [BGoto j] is at
    iteration [j] of the loop over the cores, [BWait] at the spin on
    [CPU_COUNT]. *)
Inductive bsp_pc :=
| BInterrupts | BMemory | BDevices | BLogging | BGoto (j : nat) | BWait | BComplete
| BRegister | BEnable | BCreate | BSchedule | BRun | BLoop.

(** Where an AP is in [secondary_cpu_main]: [AStart] at the increment of
    [CPU_COUNT], [AWait] at the spin on [BOOT_COMPLETE]. *)
Inductive ap_pc :=
| AStart | AInterrupts | AMemory | ALogging | AWait | ARegister | AEnable | ARun | ALoop.

#[export] Instance bsp_pc_eq_dec : EqDecision bsp_pc.
Proof. solve_decision. Defined.
#[export] Instance ap_pc_eq_dec : EqDecision ap_pc.
Proof. solve_decision. Defined.

(** An AP that the BSP has not released is not in [aps]. *)
Record Boot (Fut : Type) := mkBoot {
  bsp : bsp_pc;
  aps : gmap Z ap_pc;
  BOOT_COMPLETE : bool;
  CPU_COUNT : Z;
  sys : Sys Fut;
  runners_readers : nat;
  calls : list (Z * call)
}.
Arguments mkBoot {Fut}.
Arguments bsp {Fut}.
Arguments aps {Fut}.
Arguments BOOT_COMPLETE {Fut}.
Arguments CPU_COUNT {Fut}.
Arguments sys {Fut}.
Arguments runners_readers {Fut}.
Arguments calls {Fut}.

Section boot.
Context {Fut : Type} `{Future Fut}.
(** The cores the boot loader lists, the BSP's identifier, and the first process. *)
Context (cpus : list Z) (bsp_id : Z) (run_process_ring3 : Fut) (pid : Z).
Implicit Types s : Boot Fut.

Definition goto_bsp s (pc : bsp_pc) : Boot Fut :=
  mkBoot pc (aps s) (BOOT_COMPLETE s) (CPU_COUNT s) (sys s) (runners_readers s) (calls s).
Definition goto_ap s (c : Z) (pc : ap_pc) : Boot Fut :=
  mkBoot (bsp s) (<[c := pc]> (aps s)) (BOOT_COMPLETE s) (CPU_COUNT s) (sys s) (runners_readers s) (calls s).
Definition called s (c : Z) (x : call) : Boot Fut :=
  mkBoot (bsp s) (aps s) (BOOT_COMPLETE s) (CPU_COUNT s) (sys s) (runners_readers s) (calls s ++ [(c, x)]).
Definition with_sys s (x : Sys Fut) : Boot Fut :=
  mkBoot (bsp s) (aps s) (BOOT_COMPLETE s) (CPU_COUNT s) x (runners_readers s) (calls s).

(** [CPU_COUNT.fetch_add(1)] and [BOOT_COMPLETE.store(true)]. *)
Definition add_cpu s : Boot Fut :=
  mkBoot (bsp s) (aps s) (BOOT_COMPLETE s) (wrap 64 (CPU_COUNT s + 1)) (sys s) (runners_readers s) (calls s).
Definition set_complete s : Boot Fut :=
  mkBoot (bsp s) (aps s) true (CPU_COUNT s) (sys s) (runners_readers s) (calls s).

(** [register_event_runner] takes the write lock: not while a read guard is held. *)
Definition register (c : Z) s : option (Boot Fut) :=
  match runners_readers s, register_event_runner c (sys s) with
  | O, (Ok _, x) => Some (with_sys s x)
  | _, _ => None
  end.
(** [schedule_process] of the first process. *)
Definition schedule_first s : option (Boot Fut) :=
  match schedule_process bsp_id run_process_ring3 pid (sys s) with
  | (Ok _, x) => Some (with_sys s x)
  | _ => None
  end.
(** [run_loop]: the read guard, and the runner it finds. *)
Definition enter_loop (c : Z) s : option (Boot Fut) :=
  match EVENT_RUNNERS (sys s) !! c with
  | Some _ => Some (mkBoot (bsp s) (aps s) (BOOT_COMPLETE s) (CPU_COUNT s) (sys s) (S (runners_readers s)) (calls s))
  | None => None
  end.

(** [wake_cores]: iteration [j] of the loop that sets the entry point of the
    other cores, and the spin until they have counted themselves. *)
Definition wake_release (j : nat) s : option (Boot Fut) :=
  match cpus !! j with
  | Some c => Some (goto_bsp (if c =? bsp_id then s else goto_ap s c AStart) (BGoto (S j)))
  | None => Some (goto_bsp s BWait)
  end.
Definition wake_wait s : option (Boot Fut) :=
  if CPU_COUNT s <? len cpus - 1 then None else Some (goto_bsp s BComplete).

(** The next step of the BSP; [None] while it spins. *)
Definition bsp_step s : option (Boot Fut) :=
  match bsp s with
  | BInterrupts => Some (goto_bsp (called s 0 InterruptsInit) BMemory)
  | BMemory => Some (goto_bsp (called s 0 MemoryInit) BDevices)
  | BDevices => Some (goto_bsp (called s 0 DevicesInit) BLogging)
  | BLogging => Some (goto_bsp (called s 0 LoggingInit) (BGoto 0))
  | BGoto j => wake_release j s
  | BWait => wake_wait s
  | BComplete => Some (goto_bsp (set_complete s) BRegister)
  | BRegister => s' ← register bsp_id s; Some (goto_bsp s' BEnable)
  | BEnable => Some (goto_bsp (called s bsp_id EnableInterrupts) BCreate)
  | BCreate => Some (goto_bsp (called s bsp_id CreateProcess) BSchedule)
  | BSchedule => s' ← schedule_first s; Some (goto_bsp s' BRun)
  | BRun => s' ← enter_loop bsp_id s; Some (goto_bsp s' BLoop)
  | BLoop => None
  end.

(** The next step of the AP [c]. *)
Definition ap_step (c : Z) s : option (Boot Fut) :=
  match aps s !! c with
  | None | Some ALoop => None
  | Some AStart => Some (goto_ap (add_cpu s) c AInterrupts)
  | Some AInterrupts => Some (goto_ap (called s c InterruptsInit) c AMemory)
  | Some AMemory => Some (goto_ap (called s c MemoryInit) c ALogging)
  | Some ALogging => Some (goto_ap (called s c LoggingInit) c AWait)
  | Some AWait => if BOOT_COMPLETE s then Some (goto_ap s c ARegister) else None
  | Some ARegister => s' ← register c s; Some (goto_ap s' c AEnable)
  | Some AEnable => Some (goto_ap (called s c EnableInterrupts) c ARun)
  | Some ARun => s' ← enter_loop c s; Some (goto_ap s' c ALoop)
  end.

Definition step s s' : Prop := bsp_step s = Some s' \/ exists c, ap_step c s = Some s'.

(** The boot loader starts the BSP in [_start]. *)
Definition power_on : Boot Fut := mkBoot BInterrupts ∅ false 0 boot 0 [].
Definition reachable s : Prop := rtc step power_on s.

(** A schedule: which core steps next ([None]: the BSP). *)
Fixpoint run_schedule (cs : list (option Z)) s : option (Boot Fut) :=
  match cs with
  | [] => Some s
  | None :: cs' => s' ← bsp_step s; run_schedule cs' s'
  | Some c :: cs' => s' ← ap_step c s; run_schedule cs' s'
  end.

Lemma run_schedule_steps cs s s' : run_schedule cs s = Some s' -> nsteps step (length cs) s s'.
Proof.
  revert s. induction cs as [|[c|] cs IH]; intros s Hs; cbn in Hs.
  - injection Hs as <-. constructor.
  - destruct (ap_step c s) as [s1|] eqn:E1; [|done]. econstructor; [right; by exists c|by apply IH].
  - destruct (bsp_step s) as [s1|] eqn:E1; [|done]. econstructor; [by left|by apply IH].
Qed.

(** ** How far a core is *)

Definition bsp_rank (p : bsp_pc) : nat :=
  match p with
  | BInterrupts => 0 | BMemory => 1 | BDevices => 2 | BLogging => 3
  | BGoto j => 4 + j `min` length cpus
  | BWait => 5 + length cpus | BComplete => 6 + length cpus | BRegister => 7 + length cpus
  | BEnable => 8 + length cpus | BCreate => 9 + length cpus | BSchedule => 10 + length cpus
  | BRun => 11 + length cpus | BLoop => 12 + length cpus
  end.
Definition ap_rank (p : option ap_pc) : nat :=
  match p with
  | None => 0
  | Some AStart => 1 | Some AInterrupts => 2 | Some AMemory => 3 | Some ALogging => 4 | Some AWait => 5
  | Some ARegister => 6 | Some AEnable => 7 | Some ARun => 8 | Some ALoop => 9
  end.

(** ** The invariant *)

(** How many cores of the list the BSP has seen in its loop. *)
Definition seen s : nat :=
  match bsp s with
  | BInterrupts | BMemory | BDevices | BLogging => 0
  | BGoto j => j
  | _ => length cpus
  end.
Definition bsp_calls : list (Z * call) := [(0, InterruptsInit); (0, MemoryInit); (0, DevicesInit); (0, LoggingInit)].
Definition rank s (c : Z) : nat := ap_rank (aps s !! c).
Definition in_loop s : Prop := bsp s = BLoop \/ exists c, aps s !! c = Some ALoop.
Definition is_ap (c : Z) : Prop := c ∈ cpus /\ c <> bsp_id.

(** The calls of the BSP up to its loop come first, in order. *)
Definition calls_ok s : Prop :=
  ((bsp_rank (bsp s) < 4)%nat -> calls s = take (bsp_rank (bsp s)) bsp_calls) /\
  ((4 <= bsp_rank (bsp s))%nat -> bsp_calls `prefix_of` calls s).

Record boot_ok s : Prop := {
  bo_seen c : is_Some (aps s !! c) <-> c <> bsp_id /\ c ∈ take (seen s) cpus;
  bo_count : exists started : gset Z, (forall c, c ∈ started <-> (1 < rank s c)%nat) /\ CPU_COUNT s = Z.of_nat (size started);
  bo_all : (6 + length cpus <= bsp_rank (bsp s))%nat -> forall c, is_ap c -> (1 < rank s c)%nat;
  bo_complete : BOOT_COMPLETE s = true <-> (7 + length cpus <= bsp_rank (bsp s))%nat;
  bo_past c : (5 < rank s c)%nat -> BOOT_COMPLETE s = true;
  bo_bsp : is_Some (EVENT_RUNNERS (sys s) !! bsp_id) <-> (8 + length cpus <= bsp_rank (bsp s))%nat;
  bo_ap c : c <> bsp_id -> is_Some (EVENT_RUNNERS (sys s) !! c) <-> (6 < rank s c)%nat;
  bo_queues c r : EVENT_RUNNERS (sys s) !! c = Some r -> length (event_queues r) = NUM_EVENT_PRIORITIES;
  bo_readers : (0 < runners_readers s)%nat <-> in_loop s;
  bo_calls : calls_ok s;
  bo_goto j : bsp s = BGoto j -> (j <= length cpus)%nat
}.

Lemma power_on_ok : boot_ok power_on.
Proof.
  split; cbn; try done.
  - intros c. rewrite lookup_empty. split; [by intros []%is_Some_None|by intros [_ []%not_elem_of_nil]].
  - exists ∅. split; [|done]. intros c. unfold rank. cbn. rewrite lookup_empty. cbn. set_solver by lia.
  - lia.
  - split; [done|lia].
  - intros c. unfold rank. cbn. rewrite lookup_empty. cbn. lia.
  - rewrite lookup_empty. split; [by intros []%is_Some_None|lia].
  - intros c _. rewrite lookup_empty. unfold rank. cbn. rewrite lookup_empty. cbn. split; [by intros []%is_Some_None|lia].
  - split; [lia|]. intros [Hb|[c Hc]]; [done|]. cbn in Hc. by rewrite lookup_empty in Hc.
  - split; cbn; [done|lia].
Qed.

Lemma seen_rank s : (0 < seen s)%nat -> (4 <= bsp_rank (bsp s))%nat.
Proof. unfold seen. destruct (bsp s); cbn; lia. Qed.

Lemma register_eq c (x : Sys Fut) : exists x' r, register_event_runner c x = (Ok tt, x') /\
  EVENT_RUNNERS x' = <[c := r]> (EVENT_RUNNERS x) /\ length (event_queues r) = NUM_EVENT_PRIORITIES.
Proof. do 2 eexists. split; [done|]. split; [done|]. done. Qed.

Lemma schedule_first_eq (x : Sys Fut) r :
  EVENT_RUNNERS x !! bsp_id = Some r -> length (event_queues r) = NUM_EVENT_PRIORITIES ->
  exists x' r', schedule_process bsp_id run_process_ring3 pid x = (Ok tt, x') /\
    EVENT_RUNNERS x' = <[bsp_id := r']> (EVENT_RUNNERS x) /\ length (event_queues r') = NUM_EVENT_PRIORITIES.
Proof.
  intros Hr Hl. assert (is_Some (event_queues r !! (NUM_EVENT_PRIORITIES - 1)%nat)) as [q Hq].
  { apply lookup_lt_is_Some. rewrite Hl. unfold NUM_EVENT_PRIORITIES. lia. }
  do 2 eexists. split; [eapply schedule_eq; [done|done|unfold NUM_EVENT_PRIORITIES; lia]|].
  split; [done|]. cbn. by rewrite length_insert.
Qed.

(** The event system with a runner of [c] put in place. *)
Lemma runners_insert x x' c c' r :
  EVENT_RUNNERS x' = <[c := r]> (EVENT_RUNNERS x) ->
  is_Some (EVENT_RUNNERS (x' : Sys Fut) !! c') <-> c' = c \/ is_Some (EVENT_RUNNERS (x : Sys Fut) !! c').
Proof.
  intros ->. destruct (decide (c' = c)) as [->|]; [rewrite lookup_insert_eq; naive_solver|].
  rewrite lookup_insert_ne by done. naive_solver.
Qed.

(** One step of an AP, for the invariant: its counter moves on by one. *)
Lemma ap_moves s s' c p p' :
  boot_ok s -> aps s !! c = Some p -> ap_rank (Some p') = S (ap_rank (Some p)) ->
  bsp s' = bsp s -> aps s' = <[c := p']> (aps s) -> BOOT_COMPLETE s' = BOOT_COMPLETE s ->
  CPU_COUNT s' = CPU_COUNT s + (if decide (p = AStart) then 1 else 0) ->
  (p = AWait -> BOOT_COMPLETE s = true) ->
  (forall c', is_Some (EVENT_RUNNERS (sys s') !! c') <-> (p = ARegister /\ c' = c) \/ is_Some (EVENT_RUNNERS (sys s) !! c')) ->
  (forall c r, EVENT_RUNNERS (sys s') !! c = Some r -> length (event_queues r) = NUM_EVENT_PRIORITIES) ->
  runners_readers s' = (runners_readers s + if decide (p = ARun) then 1 else 0)%nat ->
  calls s `prefix_of` calls s' -> boot_ok s'.
Proof.
  intros [Hseen (st & Hst & Hcnt) Hall Hcomp Hpast Hbsp Hap Hq Hrd Hcalls Hgoto] Hc Hrank Eb Ea Eo Ec Hw Er Hq' Erd Ecalls.
  assert (Hcb : c <> bsp_id) by (apply (proj1 (Hseen c)); by eexists).
  assert (Hrk : forall c', rank s' c' = if decide (c' = c) then S (rank s c) else rank s c').
  { intros c'. unfold rank. rewrite Ea. destruct (decide (c' = c)) as [->|]; [by rewrite lookup_insert_eq, Hc|by rewrite lookup_insert_ne]. }
  assert (Hrc : rank s c = ap_rank (Some p)) by (unfold rank; by rewrite Hc).
  split; rewrite ?Eb, ?Eo; try done.
  - intros c'. unfold seen. rewrite Eb. rewrite <- Hseen, Ea. rewrite lookup_insert_is_Some.
    split; [intros [<-|[_ ?]]; [by eexists|done]|]. intros. destruct (decide (c = c')); naive_solver.
  - exists (if decide (p = AStart) then {[c]} ∪ st else st). split.
    + intros c'. rewrite Hrk. destruct (decide (p = AStart)) as [->|Hp].
      * rewrite elem_of_union, elem_of_singleton, Hst. destruct (decide (c' = c)) as [->|Hne].
        { rewrite Hrc. cbn. split; [lia|by left]. }
        split; [by intros [?|?]|by right].
      * rewrite Hst. destruct (decide (c' = c)) as [->|]; [|done]. rewrite Hrc. destruct p; cbn; try lia. done.
    + rewrite Ec, Hcnt. destruct (decide (p = AStart)) as [->|Hp]; [|lia]. rewrite size_union, size_singleton; [lia|].
      intros x ->%elem_of_singleton Hx%Hst. rewrite Hrc in Hx. cbn in Hx. lia.
  - intros Hb c' Hc'. specialize (Hall Hb c' Hc'). rewrite Hrk. destruct (decide (c' = c)) as [->|]; lia.
  - intros c'. rewrite Hrk. destruct (decide (c' = c)) as [->|]; [|apply Hpast]. rewrite Hrc. intros Hlt.
    destruct (decide (p = AWait)) as [|Hne]; [auto|]. apply (Hpast c). rewrite Hrc. destruct p; cbn in *; try lia; done.
  - rewrite Er, <- Hbsp. split; [intros [[_ ?]|?]; [congruence|done]|by right].
  - intros c' Hc'. rewrite Er, Hap, Hrk by done. destruct (decide (c' = c)) as [->|Hne].
    + rewrite Hrc. destruct p; cbn; (split; [intros [[? _]|?]|]; try lia; try done); by left.
    + split; [intros [[_ ?]|?]; done|by right].
  - rewrite Erd. unfold in_loop. rewrite Eb, Ea. unfold in_loop in Hrd. destruct (decide (p = ARun)) as [->|Hp].
    + split; [|lia]. intros _. right. exists c. rewrite lookup_insert_eq. destruct p'; done || cbn in Hrank; lia.
    + rewrite Nat.add_0_r, Hrd. split; (intros [?|[c' Hc']]; [by left|right]).
      * exists c'. destruct (decide (c = c')) as [<-|]; [|by rewrite lookup_insert_ne].
        rewrite Hc in Hc'. injection Hc' as ->. destruct p'; cbn in Hrank; lia.
      * destruct (decide (c = c')) as [<-|]; [|exists c'; by rewrite lookup_insert_ne in Hc'].
        rewrite lookup_insert_eq in Hc'. injection Hc' as ->. destruct p; cbn in Hrank; try lia. done.
  - assert (4 <= bsp_rank (bsp s))%nat as H4.
    { apply seen_rank. destruct (proj1 (Hseen c) (mk_is_Some _ _ Hc)) as [_ Hin].
      destruct (seen s); [by apply not_elem_of_nil in Hin|lia]. }
    unfold calls_ok. rewrite Eb. split; [lia|]. intros _. etrans; [by apply Hcalls|done].
Qed.

Context (Hnodup : NoDup cpus) (Hbsp : bsp_id ∈ cpus) (Hfew : len cpus < 2 ^ 64).

Lemma ap_is_ap s c : boot_ok s -> is_Some (aps s !! c) -> is_ap c.
Proof.
  intros Hok [Hne Hc]%(bo_seen _ Hok). split; [|done]. by eapply (subseteq_take (seen s)) in Hc.
Qed.

Lemma count_bound s (st : gset Z) c :
  boot_ok s -> (forall c, c ∈ st <-> (1 < rank s c)%nat) -> is_ap c -> c ∉ st -> (size st < length cpus)%nat.
Proof.
  intros Hok Hst [Hc _] Hn. assert (Hsub : ({[c]} ∪ st : gset Z) ⊆ list_to_set cpus).
  { intros x [->%elem_of_singleton|Hx%Hst]%elem_of_union; apply elem_of_list_to_set; [done|].
    apply (ap_is_ap s x Hok). unfold rank in Hx. destruct (aps s !! x); [by eexists|cbn in Hx; lia]. }
  apply subseteq_size in Hsub. rewrite size_list_to_set in Hsub by done.
  rewrite size_union, size_singleton in Hsub by set_solver. lia.
Qed.

Lemma add_cpu_count s c : boot_ok s -> aps s !! c = Some AStart -> CPU_COUNT (add_cpu s) = CPU_COUNT s + 1.
Proof.
  intros Hok Hc. cbn. destruct (bo_count _ Hok) as (st & Hst & ->). apply wrap_small. split; [lia|].
  assert (size st < length cpus)%nat; [|unfold len in Hfew; lia].
  apply (count_bound s st c Hok Hst); [apply (ap_is_ap s c Hok); by eexists|].
  rewrite Hst. unfold rank. rewrite Hc. cbn. lia.
Qed.

(** The side conditions of [ap_moves] for a step that leaves the event system alone. *)
Ltac ap_moved s c Hc :=
  eapply (ap_moves s _ c); [done|exact Hc| |reflexivity|reflexivity|..]; cbn; try done; try lia;
  try (intros ?; split; [by right|by intros [[? _]|?]]); try (by apply prefix_app_r);
  try (by apply bo_queues); try (case_decide; (done || lia)).

Lemma ap_step_ok c s s' : boot_ok s -> ap_step c s = Some s' -> boot_ok s'.
Proof.
  intros Hok Hs. unfold ap_step in Hs. destruct (aps s !! c) as [p|] eqn:Hc; [|done].
  pose proof (bo_queues _ Hok) as Hq.
  destruct p; try (injection Hs as <-; ap_moved s c Hc; fail).
  - injection Hs as <-. pose proof (add_cpu_count s c Hok Hc). ap_moved s c Hc.
  - destruct (BOOT_COMPLETE s) eqn:Hb; [|done]. injection Hs as <-. ap_moved s c Hc.
  - unfold register in Hs. destruct (runners_readers s) eqn:Hrd; [|done].
    destruct (register_eq c (sys s)) as (x' & r & E1 & Hx & Hl). rewrite E1 in Hs. cbn in Hs. injection Hs as <-.
    ap_moved s c Hc.
    + intros c'. rewrite (runners_insert _ _ _ c' _ Hx). split; (intros [?|?]; [left|right]; naive_solver).
    + intros c' r'. rewrite Hx. intros [[<- <-]|[_ ?]]%lookup_insert_Some; [done|by eapply Hq].
  - unfold enter_loop in Hs. destruct (EVENT_RUNNERS (sys s) !! c) eqn:Hr; [|done]. cbn in Hs. injection Hs as <-.
    ap_moved s c Hc.
  - done.
Qed.

(** One step of the BSP that releases no core. *)
Lemma bsp_moves s s' :
  boot_ok s -> aps s' = aps s -> CPU_COUNT s' = CPU_COUNT s -> calls s `prefix_of` calls s' ->
  (forall c, c <> bsp_id -> c ∈ take (seen s') cpus <-> c ∈ take (seen s) cpus) ->
  ((6 + length cpus <= bsp_rank (bsp s'))%nat -> forall c, is_ap c -> (1 < rank s c)%nat) ->
  (BOOT_COMPLETE s = true -> BOOT_COMPLETE s' = true) ->
  (BOOT_COMPLETE s' = true <-> (7 + length cpus <= bsp_rank (bsp s'))%nat) ->
  (is_Some (EVENT_RUNNERS (sys s') !! bsp_id) <-> (8 + length cpus <= bsp_rank (bsp s'))%nat) ->
  (forall c, c <> bsp_id -> EVENT_RUNNERS (sys s') !! c = EVENT_RUNNERS (sys s) !! c) ->
  (forall r, EVENT_RUNNERS (sys s') !! bsp_id = Some r -> length (event_queues r) = NUM_EVENT_PRIORITIES) ->
  ((0 < runners_readers s')%nat <-> (0 < runners_readers s)%nat \/ bsp s' = BLoop) -> bsp s <> BLoop ->
  calls_ok s' ->
  (forall j, bsp s' = BGoto j -> (j <= length cpus)%nat) -> boot_ok s'.
Proof.
  intros [Hseen (st & Hst & Hcnt) Hall Hcomp Hpast Hb Hap Hq Hrd Hcalls Hgoto] Ea Ec Ecalls Es H6 Hmono H7 H8 Er Hq' Erd Hnl H4 Hg.
  assert (Hrk : forall c, rank s' c = rank s c) by (intros c; unfold rank; by rewrite Ea).
  split; try done.
  - intros c. rewrite Ea, Hseen. split; (intros [Hne Hc]; split; [done|]; by apply (Es c Hne)).
  - exists st. split; [|congruence]. intros c. by rewrite Hrk.
  - intros Hr c Hc. rewrite Hrk. by apply H6.
  - intros c. rewrite Hrk. intros Hc. by apply Hmono, (Hpast c).
  - intros c Hne. by rewrite Er, Hrk, Hap.
  - intros c r Hr. destruct (decide (c = bsp_id)) as [->|Hne]; [by apply Hq'|].
    rewrite Er in Hr by done. by eapply Hq.
  - rewrite Erd, Hrd. unfold in_loop. rewrite Ea. split; [intros [[?|?]|?]; [done|by right|by left]|].
    intros [?|?]; [by right|left; by right].
Qed.

(** The BSP releases core [c], the one its loop is at. *)
Lemma release_ok s j c :
  boot_ok s -> bsp s = BGoto j -> cpus !! j = Some c -> c <> bsp_id ->
  boot_ok (goto_bsp (goto_ap s c AStart) (BGoto (S j))).
Proof.
  intros Hok Ebsp Hj Hne. destruct Hok as [Hseen (st & Hst & Hcnt) Hall Hcomp Hpast Hb Hap Hq Hrd Hcalls Hgoto].
  pose proof (lookup_lt_Some _ _ _ Hj) as Hlt. unfold seen in Hseen. rewrite Ebsp in *.
  assert (Hnone : aps s !! c = None).
  { apply eq_None_not_Some. intros [_ (k & Hk & Hkj)%elem_of_take]%Hseen.
    assert (k = j) by (by eapply NoDup_lookup). lia. }
  assert (Hrk : forall c', rank (goto_bsp (goto_ap s c AStart) (BGoto (S j))) c' = if decide (c' = c) then 1%nat else rank s c').
  { intros c'. unfold rank. cbn. destruct (decide (c' = c)) as [->|]; [by rewrite lookup_insert_eq|by rewrite lookup_insert_ne]. }
  assert (Hrc : rank s c = O) by (unfold rank; by rewrite Hnone).
  cbn [bsp_rank] in *. split; cbn [bsp aps BOOT_COMPLETE CPU_COUNT sys runners_readers calls goto_bsp goto_ap]; try done.
  - intros c'. unfold seen. cbn. rewrite (take_S_r _ _ _ Hj), elem_of_app, list_elem_of_singleton.
    rewrite lookup_insert_is_Some, Hseen. split; [intros [<-|[? [? ?]]]; naive_solver|].
    intros [Hc' [?|?]]; [|by left]. destruct (decide (c = c')); [by left|naive_solver].
  - exists st. split; [|done]. intros c'. rewrite Hrk, Hst. destruct (decide (c' = c)) as [->|]; [rewrite Hrc; lia|done].
  - cbn [bsp_rank]. lia.
  - rewrite Hcomp. cbn [bsp_rank]. lia.
  - intros c'. rewrite Hrk. destruct (decide (c' = c)); [lia|apply Hpast].
  - rewrite Hb. cbn [bsp_rank]. lia.
  - intros c' Hc'. rewrite Hap, Hrk by done. destruct (decide (c' = c)) as [->|]; [rewrite Hrc; lia|done].
  - rewrite Hrd. unfold in_loop. cbn. rewrite Ebsp. split; (intros [?|[c' Hc']]; [done|right; exists c']).
    + rewrite lookup_insert_ne; [done|]. intros <-. congruence.
    + by apply lookup_insert_Some in Hc' as [[_ ?]|[_ ?]].
  - destruct Hcalls as [_ Hcalls]. rewrite Ebsp in Hcalls. split; cbn [bsp goto_bsp bsp_rank calls goto_ap]; [lia|].
    intros _. apply Hcalls. cbn [bsp_rank]. lia.
  - intros k [= <-]. lia.
Qed.

Lemma all_seen s c : boot_ok s -> seen s = length cpus -> is_ap c -> is_Some (aps s !! c).
Proof. intros Hok Hs [Hc Hne]. apply (bo_seen _ Hok). rewrite Hs, firstn_all. done. Qed.

(** When the count has reached the number of APs, all of them have started. *)
Lemma count_all s : boot_ok s -> ~ CPU_COUNT s < len cpus - 1 -> forall c, is_ap c -> (1 < rank s c)%nat.
Proof.
  intros Hok Hcnt c Hc. destruct (bo_count _ Hok) as (st & Hst & E1). rewrite <- Hst.
  assert (Hsub : st ⊆ list_to_set cpus ∖ {[bsp_id]}).
  { intros x Hx%Hst. destruct (ap_is_ap s x Hok) as [??]; [|set_solver].
    unfold rank in Hx. destruct (aps s !! x); [by eexists|cbn in Hx; lia]. }
  apply set_subseteq_size_eq in Hsub as ->.
  - apply elem_of_difference. rewrite elem_of_list_to_set, elem_of_singleton. done.
  - rewrite size_difference by set_solver. rewrite size_list_to_set, size_singleton by done.
    unfold len in Hcnt. lia.
Qed.

Lemma calls_later s s' : calls_ok s -> (4 <= bsp_rank (bsp s))%nat -> (4 <= bsp_rank (bsp s'))%nat ->
  calls s `prefix_of` calls s' -> calls_ok s'.
Proof. intros [_ Hc] H4 H4' Hp. split; [lia|]. intros _. etrans; [by apply Hc|done]. Qed.
Lemma calls_next s s' x : calls_ok s -> (bsp_rank (bsp s) < 4)%nat ->
  bsp_calls !! bsp_rank (bsp s) = Some x -> bsp_rank (bsp s') = S (bsp_rank (bsp s)) ->
  calls s' = calls s ++ [x] -> calls_ok s'.
Proof.
  intros [Hc _] H4 Hx Hr Hcs. split; intros Hlt.
  - rewrite Hcs, Hr, (Hc H4). by rewrite (take_S_r _ _ _ Hx).
  - rewrite Hcs, (Hc H4), <- (take_S_r _ _ _ Hx), take_ge; [done|]. cbn [length bsp_calls]. lia.
Qed.

(** The side conditions of [bsp_moves] that the position decides. *)
Ltac bsp_moved s Hok Eb :=
  pose proof (bo_queues _ Hok); pose proof (bo_complete _ Hok) as Hcomp; pose proof (bo_bsp _ Hok) as Hb;
  pose proof (bo_all _ Hok) as Hall; rewrite Eb in Hcomp, Hb, Hall; cbn [bsp_rank] in Hcomp, Hb, Hall;
  apply (bsp_moves s _ Hok); try done; unfold seen; cbn [bsp aps BOOT_COMPLETE CPU_COUNT sys runners_readers calls goto_bsp called set_complete with_sys bsp_rank];
  rewrite ?Eb; try done; try (rewrite ?Hcomp, ?Hb; lia);
  try (by apply prefix_app_r); try (by auto); try (split; [by left|by intros [?|?]]);
  try (intros _; apply Hall; lia); try (intros ? ?; by eapply bo_queues);
  try (apply (calls_later s); [apply Hok|rewrite Eb|..]; cbn [bsp goto_bsp bsp_rank calls called]; try lia; (done || by apply prefix_app_r));
  try (eapply (calls_next s); [apply Hok|rewrite Eb; cbn; lia|by rewrite Eb|by rewrite Eb|done]).

Lemma bsp_step_ok s s' : boot_ok s -> bsp_step s = Some s' -> boot_ok s'.
Proof.
  intros Hok Hs. unfold bsp_step, wake_release, wake_wait in Hs. destruct (bsp s) eqn:Eb.
  all: try (injection Hs as <-; bsp_moved s Hok Eb; fail).
  - injection Hs as <-. bsp_moved s Hok Eb. intros j [= <-]. lia.
  - destruct (cpus !! j) as [c|] eqn:Hj; injection Hs as <-.
    + destruct (Z.eqb_spec c bsp_id) as [->|Hne]; [|by apply release_ok].
      pose proof (lookup_lt_Some _ _ _ Hj). bsp_moved s Hok Eb.
      * intros c Hne. rewrite (take_S_r _ _ _ Hj), elem_of_app, list_elem_of_singleton. naive_solver.
      * intros k [= <-]. lia.
    + apply lookup_ge_None in Hj. bsp_moved s Hok Eb.
      intros c _. by rewrite !take_ge by lia.
  - destruct (CPU_COUNT s <? len cpus - 1) eqn:Hc; [done|]. injection Hs as <-. bsp_moved s Hok Eb.
    intros _. apply count_all; [done|lia].
  - unfold register in Hs. destruct (runners_readers s) eqn:Hrd; [|done].
    destruct (register_eq bsp_id (sys s)) as (x' & r & E1 & Hx & Hl). rewrite E1 in Hs. cbn in Hs. injection Hs as <-.
    bsp_moved s Hok Eb.
    + rewrite Hx, lookup_insert_eq. split; [lia|by eexists].
    + intros c Hne. rewrite Hx. by rewrite lookup_insert_ne.
    + intros r'. rewrite Hx, lookup_insert_eq. by intros [= <-].
  - unfold schedule_first in Hs. destruct (EVENT_RUNNERS (sys s) !! bsp_id) as [r0|] eqn:Hr0.
    2:{ exfalso. destruct (proj2 (bo_bsp _ Hok)) as [? ?]; [rewrite Eb; cbn; lia|congruence]. }
    destruct (schedule_first_eq (sys s) r0 Hr0) as (x' & r & E1 & Hx & Hl); [by eapply bo_queues|].
    rewrite E1 in Hs. cbn in Hs. injection Hs as <-. bsp_moved s Hok Eb.
    + rewrite Hx, lookup_insert_eq. split; [lia|by eexists].
    + intros c Hne. rewrite Hx. by rewrite lookup_insert_ne.
    + intros r'. rewrite Hx, lookup_insert_eq. by intros [= <-].
  - unfold enter_loop in Hs. destruct (EVENT_RUNNERS (sys s) !! bsp_id) as [r0|] eqn:Hr0; [|done].
    cbn in Hs. injection Hs as <-. bsp_moved s Hok Eb. split; [by right|lia].
  - done.
Qed.

Lemma step_ok s s' : boot_ok s -> step s s' -> boot_ok s'.
Proof. intros Hok [Hs|[c Hs]]; [by eapply bsp_step_ok|by eapply ap_step_ok]. Qed.
Lemma reachable_ok s : reachable s -> boot_ok s.
Proof.
  intros Hr. unfold reachable in Hr. pose proof power_on_ok as Hok. induction Hr; [done|].
  apply IHHr. by eapply step_ok.
Qed.

(** ** What boot guarantees *)

(** Every core is in its event loop. *)
Definition booted s : Prop := bsp s = BLoop /\ forall c, is_ap c -> aps s !! c = Some ALoop.

(** A core waits to register its runner while another is in the event loop,
    with a read guard on the map of runners that it never drops. *)
Definition locked_out s : Prop :=
  in_loop s /\ (bsp s = BRegister \/ exists c, aps s !! c = Some ARegister).

(** Steps done: every step of a core adds one. *)
Definition progress s : nat := bsp_rank (bsp s) + sum_list_with (rank s) cpus.
Definition boot_bound : nat := 12 + length cpus + 9 * length cpus.

Lemma sum_rank_insert (f g : Z -> nat) c :
  c ∈ cpus -> (f c < g c)%nat -> (forall x, x <> c -> f x = g x) ->
  (sum_list_with f cpus < sum_list_with g cpus)%nat.
Proof.
  intros Hc Hlt He. clear Hbsp Hfew. induction cpus as [|x l IH]; [by apply not_elem_of_nil in Hc|].
  apply NoDup_cons in Hnodup as [Hx Hl]. cbn. apply elem_of_cons in Hc as [->|Hc].
  - assert (sum_list_with f l = sum_list_with g l); [|lia].
    clear IH Hl. induction l as [|y l IH]; [done|]. cbn. apply not_elem_of_cons in Hx as [??]. rewrite IH, He; done.
  - specialize (IH Hl Hc). rewrite He; [lia|]. by intros ->.
Qed.

Lemma sum_rank_bound s l : (sum_list_with (rank s) l <= 9 * length l)%nat.
Proof.
  induction l as [|x l IH]; cbn; [lia|]. assert (rank s x <= 9)%nat; [|lia].
  unfold rank. destruct (aps s !! x) as [[]|]; cbn; lia.
Qed.
Lemma progress_bound s : boot_ok s -> (progress s <= boot_bound)%nat.
Proof.
  intros Hok. unfold progress, boot_bound. pose proof (sum_rank_bound s cpus).
  assert (bsp_rank (bsp s) <= 12 + length cpus)%nat; [|lia]. destruct (bsp s); cbn; lia.
Qed.

(** A step of an AP raises its rank and no other. *)
Lemma ap_step_rank c s s' : ap_step c s = Some s' ->
  bsp s' = bsp s /\ (rank s c < rank s' c)%nat /\ forall x, x <> c -> rank s x = rank s' x.
Proof.
  unfold ap_step. destruct (aps s !! c) as [p|] eqn:Hc; [|done].
  unfold register, enter_loop. intros Hs.
  assert (exists p', bsp s' = bsp s /\ aps s' = <[c := p']> (aps s) /\ (ap_rank (Some p) < ap_rank (Some p'))%nat) as (p' & Eb & Ea & Hr).
  { destruct p; repeat case_match; simplify_eq/=; simplify_option_eq; eexists; (split; [|split]); try done; cbn; lia. }
  split; [done|]. unfold rank. rewrite Ea, lookup_insert_eq, Hc. split; [done|].
  intros x Hx. by rewrite lookup_insert_ne.
Qed.

Lemma bsp_step_rank s s' : boot_ok s -> bsp_step s = Some s' ->
  (bsp_rank (bsp s) < bsp_rank (bsp s'))%nat /\ forall x, (rank s x <= rank s' x)%nat.
Proof.
  intros Hok Hs. pose proof (bo_goto _ Hok) as Hg. unfold bsp_step, wake_release, wake_wait, register, schedule_first, enter_loop in Hs.
  destruct (bsp s) as [| | | |j| | | | | | | |] eqn:Eb; try (injection Hs as <-; split; [cbn; lia|done]).
  - destruct (cpus !! j) as [c|] eqn:Hj; injection Hs as <-.
    + apply lookup_lt_Some in Hj as Hlt. split; [cbn [bsp goto_bsp bsp_rank]; lia|]. intros x.
      destruct (c =? bsp_id) eqn:Hc; [done|]. unfold rank. cbn. destruct (decide (c = x)) as [->|]; [|by rewrite lookup_insert_ne].
      destruct (aps s !! x) as [p|] eqn:Hx; [|cbn; lia]. exfalso.
      pose proof (bo_seen _ Hok x) as Hseen. unfold seen in Hseen. rewrite Eb, Hx in Hseen.
      destruct (proj1 Hseen) as [_ (k & Hk & Hkj)%elem_of_take]; [by eexists|].
      assert (k = j) by (by eapply NoDup_lookup). lia.
    + split; [cbn [bsp goto_bsp bsp_rank]; lia|done].
  - case_match; [done|]. injection Hs as <-. split; [cbn; lia|done].
  - repeat case_match; simplify_option_eq. split; [cbn; lia|done].
  - repeat case_match; simplify_option_eq. split; [cbn; lia|done].
  - repeat case_match; simplify_option_eq. split; [cbn; lia|done].
  - done.
Qed.

Lemma sum_rank_mono (f g : Z -> nat) l : (forall x, (f x <= g x)%nat) -> (sum_list_with f l <= sum_list_with g l)%nat.
Proof. intros Hfg. induction l as [|x l IH]; cbn; [lia|]. specialize (Hfg x). lia. Qed.

Lemma step_progress s s' : boot_ok s -> step s s' -> (progress s < progress s')%nat.
Proof.
  intros Hok [Hs|[c Hs]]; unfold progress.
  - destruct (bsp_step_rank s s' Hok Hs) as [Hb Hr]. pose proof (sum_rank_mono _ _ cpus Hr). lia.
  - destruct (ap_step_rank c s s' Hs) as (-> & Hlt & He).
    pose proof (sum_rank_insert (rank s) (rank s') c) as Hsum.
    assert (is_ap c) as [Hc _].
    { apply (ap_is_ap s c Hok). unfold ap_step in Hs. destruct (aps s !! c); [by eexists|done]. }
    specialize (Hsum Hc Hlt He). lia.
Qed.

(** A core that cannot move spins on the lock or is in its loop, unless others can. *)
Lemma ap_stuck s c p : boot_ok s -> BOOT_COMPLETE s = true -> aps s !! c = Some p -> ap_step c s = None ->
  p = ALoop \/ (p = ARegister /\ (0 < runners_readers s)%nat).
Proof.
  intros Hok Hb Hc Hs. unfold ap_step in Hs. rewrite Hc in Hs. destruct p; try done; try (by rewrite Hb in Hs).
  - right. split; [done|]. unfold register in Hs. destruct (runners_readers s); [|lia].
    by destruct (register_eq c (sys s)) as (x' & r & E1 & _); rewrite E1 in Hs.
  - exfalso. unfold enter_loop in Hs.
    assert (c <> bsp_id) as Hne by (apply (bo_seen _ Hok); by eexists).
    destruct (proj2 (bo_ap _ Hok c Hne)) as [r Hr]; [unfold rank; rewrite Hc; cbn; lia|]. by rewrite Hr in Hs.
  - by left.
Qed.

Lemma bsp_stuck s : boot_ok s -> bsp_step s = None ->
  bsp s = BLoop \/ (bsp s = BRegister /\ (0 < runners_readers s)%nat) \/
  (bsp s = BWait /\ CPU_COUNT s < len cpus - 1).
Proof.
  intros Hok Hs. unfold bsp_step, wake_release, wake_wait in Hs. destruct (bsp s) eqn:Eb; try done; auto.
  - by destruct (cpus !! j).
  - case_match; [|done]. right. right. split; [done|lia].
  - right. left. split; [done|]. unfold register in Hs. destruct (runners_readers s); [|lia].
    by destruct (register_eq bsp_id (sys s)) as (x' & r & E1 & _); rewrite E1 in Hs.
  - exfalso. unfold schedule_first in Hs. destruct (proj2 (bo_bsp _ Hok)) as [r Hr]; [rewrite Eb; cbn; lia|].
    destruct (schedule_first_eq (sys s) r Hr) as (x' & r' & E1 & _); [by eapply bo_queues|]. by rewrite E1 in Hs.
  - exfalso. unfold enter_loop in Hs. destruct (proj2 (bo_bsp _ Hok)) as [r Hr]; [rewrite Eb; cbn; lia|].
    by rewrite Hr in Hs.
Qed.

(** C23: The order of boot, for every interleaving of the cores: no application
    processor runs before the bootstrap processor has initialised interrupts,
    memory, devices and logging, in this order and before any other call;
    [BOOT_COMPLETE] is set only when every core the boot loader lists has
    started and counted itself; and no core has an event runner before that. *)
Theorem boot_order (s : Boot Fut) :
  reachable s ->
  (aps s <> ∅ -> bsp_calls `prefix_of` calls s) /\
  (BOOT_COMPLETE s = true -> forall c, c ∈ cpus -> c <> bsp_id -> exists p, aps s !! c = Some p /\ p <> AStart) /\
  (forall c, is_Some (EVENT_RUNNERS (sys s) !! c) -> BOOT_COMPLETE s = true).
Proof.
  intros Hok%reachable_ok. split; [|split].
  - intros (c & p & Hc)%map_choose. apply (bo_calls _ Hok), seen_rank.
    destruct (proj1 (bo_seen _ Hok c) (mk_is_Some _ _ Hc)) as [_ Hin].
    destruct (seen s); [by apply not_elem_of_nil in Hin|lia].
  - intros Hb%(bo_complete _ Hok) c Hc Hne. assert (1 < rank s c)%nat as Hr by (apply (bo_all _ Hok); [lia|done]).
    unfold rank in Hr. destruct (aps s !! c) as [p|]; [|cbn in Hr; lia]. exists p. split; [done|]. intros ->. cbn in Hr. lia.
  - intros c Hr. destruct (decide (c = bsp_id)) as [->|Hne].
    + apply (bo_complete _ Hok). apply (bo_bsp _ Hok) in Hr. lia.
    + apply (bo_past _ Hok c). apply (bo_ap _ Hok c Hne) in Hr. lia.
Qed.

Lemma steps_progress n s s' : nsteps step n s s' -> boot_ok s -> (progress s + n <= progress s')%nat.
Proof.
  induction 1 as [|k a b c Hs _ IH]; intros Ha; [lia|].
  pose proof (step_progress _ _ Ha Hs). specialize (IH (step_ok _ _ Ha Hs)). lia.
Qed.

(** While the BSP waits for the count, an AP has not counted itself and can. *)
Lemma wait_moves s : boot_ok s -> bsp s = BWait -> CPU_COUNT s < len cpus - 1 -> exists c s', ap_step c s = Some s'.
Proof.
  intros Hok Eb Hcnt. destruct (bo_count _ Hok) as (st & Hst & E1).
  destruct (decide (list_to_set cpus ∖ {[bsp_id]} ⊆ st)) as [Hsub|Hsub].
  - apply subseteq_size in Hsub. rewrite size_difference in Hsub by set_solver.
    rewrite size_list_to_set, size_singleton in Hsub by done. unfold len in Hcnt. lia.
  - assert (exists c, c ∈ list_to_set cpus ∖ {[bsp_id]} ∖ st) as (c & [[Hc Hne]%elem_of_difference Hns]%elem_of_difference).
    { apply set_choose_L. intros He. apply Hsub. set_solver. }
    apply elem_of_list_to_set in Hc. destruct (all_seen s c Hok) as [p Hp]; [unfold seen; by rewrite Eb|split; set_solver|].
    exists c. unfold ap_step. rewrite Hp. rewrite Hst in Hns. unfold rank in Hns. rewrite Hp in Hns.
    destruct p; cbn in Hns; [by eexists|lia..].
Qed.

Lemma loop_or_locked s : boot_ok s -> bsp s = BLoop -> (forall c, ap_step c s = None) -> booted s \/ locked_out s.
Proof.
  intros Hok Eb Ha. assert (BOOT_COMPLETE s = true) as Hbc by (apply (bo_complete _ Hok); rewrite Eb; cbn; lia).
  destruct (decide (Exists (fun c => aps s !! c = Some ARegister) cpus)) as [Hex|Hno].
  - right. apply Exists_exists in Hex as (c & _ & Hc). split; [by left|right; by exists c].
  - left. split; [done|]. intros c Hc. destruct (all_seen s c Hok) as [p Hp]; [unfold seen; by rewrite Eb|done|].
    destruct (ap_stuck s c p Hok Hbc Hp (Ha c)) as [->|[-> _]]; [done|].
    destruct Hno. apply Exists_exists. exists c. split; [apply Hc|done].
Qed.


(** The BSP, once locked out, stays locked out. *)
Lemma locked_out_step s s' : bsp s = BRegister -> (0 < runners_readers s)%nat -> step s s' ->
  bsp s' = BRegister /\ (0 < runners_readers s')%nat.
Proof.
  intros Eb Hrd [Hs|[c Hs]].
  - unfold bsp_step in Hs. rewrite Eb in Hs. unfold register in Hs. destruct (runners_readers s); [lia|done].
  - unfold ap_step, register, enter_loop in Hs. repeat case_match; simplify_option_eq; split; cbn; (done || lia).
Qed.
End boot.

(** ** Two cores *)

(** The bootstrap processor up to the release of core 1; core 1 up to its spin
    on [BOOT_COMPLETE]; then the bootstrap processor to the store. *)
Definition to_complete : list (option Z) :=
  replicate 6 None ++ replicate 4 (Some 1) ++ replicate 3 None.

(** Core 1 may then register, enable interrupts and enter its event loop before
    the bootstrap processor registers. *)
Definition ap_first : list (option Z) := to_complete ++ replicate 4 (Some 1).

Lemma ap_first_locks {Fut} `{Future Fut} (f : Fut) pid :
  exists s, run_schedule [0; 1] 0 f pid ap_first power_on = Some s /\ bsp s = BRegister /\ runners_readers s = 1%nat.
Proof. eexists. split; [vm_compute; reflexivity|]. split; reflexivity. Qed.

(** C38: The bootstrap processor can be locked out for ever: with two cores
    there is an interleaving after which it waits to register its event runner
    and, whatever happens then, keeps waiting; the first process is never
    scheduled. *)
Theorem boot_can_lock_out {Fut : Type} `{Future Fut} (f : Fut) (pid : Z) :
  exists s, reachable [0; 1] 0 f pid s /\
    forall s', rtc (step [0; 1] 0 f pid) s s' -> bsp s' = BRegister.
Proof.
  destruct (ap_first_locks f pid) as (s & Hrun & Hb & Hr). exists s. split; [apply rtc_nsteps; eexists; by eapply run_schedule_steps|].
  assert (Hrd : (0 < runners_readers s)%nat) by lia. clear Hrun Hr. intros s' Hs.
  induction Hs as [|x y z Hxy _ IH]; [done|].
  destruct (locked_out_step _ _ _ _ x y Hb Hrd Hxy). by apply IH.
Qed.

(** The bootstrap processor registers first: both cores reach their event loops. *)
Definition bsp_first : list (option Z) :=
  to_complete ++ replicate 4 None ++ replicate 4 (Some 1) ++ [None].
Definition two_cores : option (Boot nat) := run_schedule [0; 1] 0 3%nat 1 bsp_first power_on.

Lemma two_cores_run : exists s, two_cores = Some s /\ bsp s = BLoop /\ aps s = {[1 := ALoop]} /\ BOOT_COMPLETE s = true.
Proof. eexists. split; [vm_compute; reflexivity|]. done. Qed.
Lemma two_cores_steps s : two_cores = Some s -> nsteps (step [0; 1] 0 3%nat 1) (length bsp_first) power_on s.
Proof. unfold two_cores. apply run_schedule_steps. Qed.
Lemma two_cores_reachable s : two_cores = Some s -> reachable [0; 1] 0 3%nat 1 s.
Proof. intros Hs. apply rtc_nsteps. eexists. exact (two_cores_steps s Hs). Qed.
Lemma two_cores_listed : NoDup [0; 1] /\ 0 ∈ [0; 1] /\ len [0; 1] < 2 ^ 64.
Proof. split; [|split; [by left|done]]. apply (bool_decide_unpack _). by vm_compute. Qed.

Lemma boot_order_witness : exists s, two_cores = Some s /\ bsp_calls `prefix_of` calls s.
Proof.
  destruct two_cores_run as (s & Hs & _ & Ha & _). destruct two_cores_listed as (Hn & Hb & Hl).
  exists s. split; [exact Hs|].
  destruct (boot_order [0; 1] 0 3%nat 1 Hn Hb Hl s) as (Hc & _).
  - exact (two_cores_reachable s Hs).
  - apply Hc. rewrite Ha. apply map_non_empty_singleton.
Defined.

