(* ===== verification/Cpu.v ===== *)
(** * Registers, stacks and the assembly of the kernel

    [processes/registers.rs] and the naked functions of [interrupts/idt.rs]
    ([naked_timer_handler], [naked_syscall_handler]) and [processes/process.rs]
    ([call_process], [return_process]), which move the processor between a
    process and the kernel.

    The machine is the part of the processor those functions touch: the general
    registers, [rip], [rflags], [cs], [ss] and byte-addressed memory.  Each
    naked function is the list of its instructions; a call to a Rust function
    splits the list. *)

From S2P Require Import Prelude.

(** ** Memory: little-endian words over bytes *)

Abbreviation memory := (gmap Z Z).

Definition load8 (m : memory) (a : Z) : Z := default 0 (m !! a).
Definition store8 (m : memory) (a v : Z) : memory := <[a := v mod 256]> m.

Fixpoint load (n : nat) (m : memory) (a : Z) : Z :=
  match n with O => 0 | S n => load8 m a + 256 * load n m (a + 1) end.
Fixpoint store (n : nat) (m : memory) (a v : Z) : memory :=
  match n with O => m | S n => store8 (store n m (a + 1) (v / 256)) a v end.

Definition load64 (m : memory) (a : Z) : Z := load 8 m a.
Definition store64 (m : memory) (a v : Z) : memory := store 8 m a v.
#[global] Arguments load64 m a : simpl never.
#[global] Arguments store64 m a v : simpl never.

(** ** The processor *)

Inductive reg :=
| RAX | RBX | RCX | RDX | RSI | RDI | R8 | R9 | R10 | R11 | R12 | R13 | R14 | R15 | RBP | RSP.

#[global] Instance reg_eq_dec : EqDecision reg.
Proof. solve_decision. Defined.

Definition reg_num (r : reg) : Z :=
  match r with
  | RAX => 0 | RBX => 1 | RCX => 2 | RDX => 3 | RSI => 4 | RDI => 5 | R8 => 6 | R9 => 7
  | R10 => 8 | R11 => 9 | R12 => 10 | R13 => 11 | R14 => 12 | R15 => 13 | RBP => 14 | RSP => 15
  end.
Definition reg_eqb (r r' : reg) : bool := reg_num r =? reg_num r'.

Record Cpu := mkCpu {
  gpr : reg -> Z;
  rip : Z;
  rflags : Z;
  cs : Z;
  ss : Z;
  mem : memory
}.

Definition set_reg (c : Cpu) (r : reg) (v : Z) : Cpu :=
  mkCpu (fun r' => if reg_eqb r' r then v else gpr c r') (rip c) (rflags c) (cs c) (ss c) (mem c).
Definition set_mem (c : Cpu) (m : memory) : Cpu :=
  mkCpu (gpr c) (rip c) (rflags c) (cs c) (ss c) m.
Definition set_flags (c : Cpu) (f : Z) : Cpu :=
  mkCpu (gpr c) (rip c) f (cs c) (ss c) (mem c).
Definition set_rip (c : Cpu) (a : Z) : Cpu :=
  mkCpu (gpr c) a (rflags c) (cs c) (ss c) (mem c).

(** The instructions the naked functions use. *)
Inductive instr :=
| Push (r : reg)                       (* push r *)
| Pop (r : reg)                        (* pop r *)
| Mov (d s : reg)                      (* mov d, s *)
| Load (d b : reg) (off : Z)           (* mov d, [b + off] *)
| Store (b s : reg)                    (* mov [b], s *)
| StoreByte (b : reg) (v : Z)          (* mov byte ptr [b], v *)
| Cld | Cli | Sti | Stc
| Ret
| Iretq.

Definition push (c : Cpu) (v : Z) : Cpu :=
  let sp := wrap 64 (gpr c RSP - 8) in
  set_reg (set_mem c (store64 (mem c) sp v)) RSP sp.

Definition step_instr (c : Cpu) (i : instr) : Cpu :=
  let sp := gpr c RSP in
  match i with
  | Push r => push c (gpr c r)
  | Pop r => set_reg (set_reg c RSP (wrap 64 (sp + 8))) r (load64 (mem c) sp)
  | Mov d s => set_reg c d (gpr c s)
  | Load d b off => set_reg c d (load64 (mem c) (wrap 64 (gpr c b + off)))
  | Store b s => set_mem c (store64 (mem c) (gpr c b) (gpr c s))
  | StoreByte b v => set_mem c (store8 (mem c) (gpr c b) v)
  | Cld => set_flags c (Z.clearbit (rflags c) 10)
  | Cli => set_flags c (Z.clearbit (rflags c) 9)
  | Sti => set_flags c (Z.setbit (rflags c) 9)
  | Stc => set_flags c (Z.setbit (rflags c) 0)
  | Ret => set_reg (set_rip c (load64 (mem c) sp)) RSP (wrap 64 (sp + 8))
  | Iretq =>
      mkCpu (fun r => if reg_eqb r RSP then load64 (mem c) (sp + 24) else gpr c r)
        (load64 (mem c) sp) (load64 (mem c) (sp + 16)) (load64 (mem c) (sp + 8))
        (load64 (mem c) (sp + 32)) (mem c)
  end.
Definition exec (is_ : list instr) (c : Cpu) : Cpu := foldl step_instr c is_.

(** An interrupt that enters ring 0 from ring 3: the processor switches to the
    stack of the task state segment, aligned to 16 bytes, pushes [ss], [rsp],
    [rflags], [cs] and [rip], and clears the interrupt flag (the gates are
    interrupt gates). *)
Definition interrupt_frame (c : Cpu) : list Z := [rip c; cs c; rflags c; gpr c RSP; ss c].
Definition push_words (vs : list Z) (c : Cpu) : Cpu := foldr (fun v c => push c v) c vs.
Definition interrupt (rsp0 : Z) (kernel_cs : Z) (c : Cpu) : Cpu :=
  let c1 := push_words (interrupt_frame c) (set_reg c RSP (rsp0 - rsp0 mod 16)) in
  mkCpu (gpr c1) (rip c) (Z.clearbit (rflags c) 9) kernel_cs (ss c) (mem c1).

(** ** [struct Registers] *)

Record Registers := mkRegisters {
  rax : Z; rbx : Z; rcx : Z; rdx : Z; rsi : Z; rdi : Z;
  r8 : Z; r9 : Z; r10 : Z; r11 : Z; r12 : Z; r13 : Z; r14 : Z; r15 : Z;
  rbp : Z; rsp : Z; reg_rip : Z; reg_rflags : Z
}.

(** [Registers::new]. *)
Definition Registers_new : Registers := mkRegisters 0 0 0 0 0 0 0 0 0 0 0 0 0 0 0 0 0 0.

(** The [repr(C)] layout. *)
Definition words (r : Registers) : list Z :=
  [rax r; rbx r; rcx r; rdx r; rsi r; rdi r; r8 r; r9 r; r10 r; r11 r; r12 r; r13 r; r14 r; r15 r;
   rbp r; rsp r; reg_rip r; reg_rflags r].

(** The registers of the running program. *)
Definition regs_of (c : Cpu) : Registers :=
  mkRegisters (gpr c RAX) (gpr c RBX) (gpr c RCX) (gpr c RDX) (gpr c RSI) (gpr c RDI)
    (gpr c R8) (gpr c R9) (gpr c R10) (gpr c R11) (gpr c R12) (gpr c R13) (gpr c R14) (gpr c R15)
    (gpr c RBP) (gpr c RSP) (rip c) (rflags c).

(** ** The naked functions *)

(** [push_registers!]. *)
Definition push_registers : list instr :=
  map Push [RBP; R15; R14; R13; R12; R11; R10; R9; R8; RDI; RSI; RDX; RCX; RBX; RAX].

(** [naked_timer_handler] up to its call of [timer_handler], and after it. *)
Definition timer_entry : list instr :=
  map Push [RBP; R15; R14; R13; R12; R11; R10; R9; R8; RDI; RSI; RDX; RCX; RBX; RAX] ++
  [Cld; Mov RDI RSP].
Definition timer_exit : list instr :=
  map Pop [RAX; RBX; RCX; RDX; RSI; RDI; R8; R9; R10; R11; R12; R13; R14; R15; RBP] ++ [Iretq].

(** [naked_syscall_handler] up to its call of [syscall_handler], and after it. *)
Definition syscall_entry : list instr :=
  map Push [RAX; RDI; RSI; RDX; RCX; R8; R9] ++ [Mov RDI RSP].
Definition syscall_exit : list instr :=
  map Pop [R9; R8; RCX; RDX; RSI; RDI; RAX] ++ [Iretq].

(** [call_process]. *)
Definition call_process : list instr :=
  map Push [RBP; R15; R14; R13; R12; R11; R10; R9; R8; RDI; RSI; RBX] ++
  [Mov R11 RSP; Store RCX R11;
   Push RSI;
   Load RAX RDI 120; Push RAX;
   Load RAX RDI 136; Push RAX;
   Push RDX;
   Load RAX RDI 128; Push RAX;
   StoreByte R8 2;
   Load RAX RDI 0; Load RBX RDI 8; Load RCX RDI 16; Load RDX RDI 24; Load RSI RDI 32;
   Load R8 RDI 48; Load R9 RDI 56; Load R10 RDI 64; Load R11 RDI 72; Load R12 RDI 80;
   Load R13 RDI 88; Load R14 RDI 96; Load R15 RDI 104; Load RBP RDI 112; Load RDI RDI 40;
   Sti; Iretq].

(** [return_process]. *)
Definition return_process : list instr :=
  [Cli] ++ map Pop [RBX; RSI; RDI; R8; R9; R10; R11; R12; R13; R14; R15; RBP] ++ [Ret].

(** The jump of [timer_handler] and [sys_exit] back into the kernel:
    [mov rsp, {0}; push {1}; ret]. *)
Definition jump_to (kernel_rsp kernel_rip : Z) (c : Cpu) : Cpu :=
  step_instr (push (set_reg c RSP kernel_rsp) kernel_rip) Ret.

(** ** What the Rust handlers read from the stack *)

(** [*stack_ptr.add(i)]. *)
Definition stack_word (m : memory) (stack_ptr : Z) (i : Z) : Z := load64 m (stack_ptr + 8 * i).

(** The registers [timer_handler] saves. *)
Definition saved_registers (m : memory) (stack_ptr : Z) : Registers :=
  let w := stack_word m stack_ptr in
  {| rax := w 0; rbx := w 1; rcx := w 2; rdx := w 3; rsi := w 4; rdi := w 5; r8 := w 6; r9 := w 7;
     r10 := w 8; r11 := w 9; r12 := w 10; r13 := w 11; r14 := w 12; r15 := w 13; rbp := w 14;
     rsp := w 18; reg_rip := w 15; reg_rflags := w 17 |}.

(** The number and parameters [syscall_handler] reads. *)
Record SyscallArgs := mkSyscallArgs {
  syscall_num : Z; p1 : Z; p2 : Z; p3 : Z; p4 : Z; p5 : Z; p6 : Z
}.
Definition syscall_args (m : memory) (stack_ptr : Z) : SyscallArgs :=
  let w := stack_word m stack_ptr in
  mkSyscallArgs (w 6) (w 5) (w 4) (w 3) (w 2) (w 1) (w 0).

(** ** Memory laws *)

Section memory.
Implicit Types (m : memory) (a b v : Z) (n k : nat).

Lemma load8_store8 m a v b : load8 (store8 m a v) b = if decide (b = a) then v mod 256 else load8 m b.
Proof. unfold load8, store8. rewrite lookup_insert. repeat case_decide; done. Qed.

Lemma load_ext n m m' a :
  (forall x, a <= x < a + Z.of_nat n -> load8 m x = load8 m' x) -> load n m a = load n m' a.
Proof.
  revert a. induction n as [|n IH]; intros a Hx; [done|]. cbn. rewrite Hx by lia.
  rewrite IH; [done|]. intros x ?. apply Hx. lia.
Qed.

Lemma load8_store_out n m a v x :
  ~ (a <= x < a + Z.of_nat n) -> load8 (store n m a v) x = load8 m x.
Proof.
  revert m a v. induction n as [|n IH]; intros m a v Hx; [done|]. cbn.
  rewrite load8_store8. case_decide; [lia|]. apply IH. lia.
Qed.

Lemma load_store_same n m a v : load n (store n m a v) a = v mod 256 ^ Z.of_nat n.
Proof.
  revert m a v. induction n as [|n IH]; intros m a v; [cbn; by rewrite Z.mod_1_r|].
  cbn [load store]. rewrite load8_store8, decide_True by done.
  rewrite (load_ext n _ (store n m (a + 1) (v / 256))).
  - rewrite IH. replace (256 ^ Z.of_nat (S n)) with (256 * 256 ^ Z.of_nat n)
      by (rewrite Nat2Z.inj_succ, Z.pow_succ_r by lia; done).
    rewrite Z.rem_mul_r by lia. done.
  - intros x ?. rewrite load8_store8, decide_False by lia. done.
Qed.

Lemma load64_store64 m a v : 0 <= v < 2 ^ 64 -> load64 (store64 m a v) a = v.
Proof. intros Hv. unfold load64, store64. rewrite load_store_same. by apply Z.mod_small. Qed.

Lemma load64_store64_ne m a v b :
  a + 8 <= b \/ b + 8 <= a -> load64 (store64 m a v) b = load64 m b.
Proof. intros Hd. unfold load64, store64. apply load_ext. intros x ?. apply load8_store_out. lia. Qed.

Lemma load64_store8_ne m a v b : a < b \/ b + 8 <= a -> load64 (store8 m a v) b = load64 m b.
Proof. intros Hd. apply load_ext. intros x ?. rewrite load8_store8, decide_False by lia. done. Qed.

Lemma load8_store64_ne m a v b : b < a \/ a + 8 <= b -> load8 (store64 m a v) b = load8 m b.
Proof. intros Hd. apply load8_store_out. lia. Qed.
End memory.

(** ** Stacks *)

(** The words [l] lie in memory from address [a] upwards. *)
Definition stack_at (m : memory) (a : Z) (l : list Z) : Prop :=
  forall i v, l !! i = Some v -> load64 m (a + 8 * Z.of_nat i) = v.

Lemma stack_at_nil m a : stack_at m a [].
Proof. intros i v. by rewrite lookup_nil. Qed.

Lemma stack_at_cons m a v l : load64 m a = v -> stack_at m (a + 8) l -> stack_at m a (v :: l).
Proof.
  intros Hv Hl [|i] w; cbn [lookup list_lookup]; intros Hi.
  - injection Hi as <-. by rewrite Z.add_0_r.
  - rewrite <- (Hl i w Hi). f_equal. lia.
Qed.

Lemma stack_at_head m a v l : stack_at m a (v :: l) -> load64 m a = v /\ stack_at m (a + 8) l.
Proof.
  intros Hs. split.
  - rewrite <- (Hs 0%nat v eq_refl). f_equal. lia.
  - intros i w Hi. rewrite <- (Hs (S i) w Hi). f_equal. lia.
Qed.

Lemma stack_at_app m a l l' :
  stack_at m a (l ++ l') <-> stack_at m a l /\ stack_at m (a + 8 * len l) l'.
Proof.
  split.
  - intros Hs. split; intros i v Hi.
    + apply Hs. by apply lookup_app_l_Some.
    + rewrite <- (Hs (length l + i)%nat v) by (by rewrite lookup_app_r, Nat.add_sub' by lia).
      f_equal. unfold len. lia.
  - intros [Hl Hl'] i v [Hi|[Hle Hi]]%lookup_app_Some; [by apply Hl|].
    rewrite <- (Hl' _ _ Hi). f_equal. unfold len. lia.
Qed.

(** Writes outside the region keep it. *)
Definition agree (lo hi : Z) (m m' : memory) : Prop :=
  forall a, lo <= a -> a + 8 <= hi -> load64 m' a = load64 m a.

#[global] Instance agree_preorder lo hi : PreOrder (agree lo hi).
Proof.
  split; [by intros m a|]. intros m1 m2 m3 H12 H23 a ? ?. by rewrite H23, H12.
Qed.

Lemma stack_at_agree m m' lo hi a l :
  agree lo hi m m' -> lo <= a -> a + 8 * len l <= hi -> stack_at m a l -> stack_at m' a l.
Proof.
  intros Hg Hlo Hhi Hs i v Hi. rewrite <- (Hs i v Hi). apply lookup_lt_Some in Hi. unfold len in Hhi.
  apply Hg; lia.
Qed.

Lemma agree_store64 lo hi m a v : a + 8 <= lo \/ hi <= a -> agree lo hi m (store64 m a v).
Proof. intros Hd b ? ?. apply load64_store64_ne. lia. Qed.

Lemma agree_store8 lo hi m a v : a < lo \/ hi <= a -> agree lo hi m (store8 m a v).
Proof. intros Hd b ? ?. apply load64_store8_ne. lia. Qed.

(** Registers hold 64-bit words. *)
Record cpu_ok (c : Cpu) : Prop := {
  ck_gpr : forall r, 0 <= gpr c r < 2 ^ 64;
  ck_rip : 0 <= rip c < 2 ^ 64;
  ck_rflags : 0 <= rflags c < 2 ^ 64;
  ck_cs : 0 <= cs c < 2 ^ 64;
  ck_ss : 0 <= ss c < 2 ^ 64
}.

Definition same_control (c c' : Cpu) : Prop :=
  rip c' = rip c /\ rflags c' = rflags c /\ cs c' = cs c /\ ss c' = ss c.

Lemma gpr_set_reg c r v r' : gpr (set_reg c r v) r' = if decide (r' = r) then v else gpr c r'.
Proof. cbn. case_decide as Hr; [by destruct r'; subst|]. by destruct r, r'. Qed.

(** The part of memory below or above a stack that grows from [hi] to [lo] is kept. *)
Definition outside (lo hi : Z) (m m' : memory) : Prop :=
  forall a b, b <= lo \/ hi <= a -> agree a b m m'.

Lemma push_spec c v l :
  8 <= gpr c RSP < 2 ^ 64 -> 0 <= v < 2 ^ 64 -> stack_at (mem c) (gpr c RSP) l ->
  let c' := push c v in
  gpr c' RSP = gpr c RSP - 8 /\ (forall r, r <> RSP -> gpr c' r = gpr c r) /\ same_control c c' /\
  stack_at (mem c') (gpr c' RSP) (v :: l) /\ outside (gpr c RSP - 8) (gpr c RSP) (mem c) (mem c').
Proof.
  intros Hsp Hv Hl c'.
  assert (gpr c' RSP = gpr c RSP - 8) as Hs.
  { unfold c', push. rewrite gpr_set_reg, decide_True by done. apply wrap_small. lia. }
  assert (mem c' = store64 (mem c) (gpr c RSP - 8) v) as Hm.
  { unfold c', push. cbn -[store64]. by rewrite wrap_small by lia. }
  rewrite Hs, Hm. split_and!; [done| |done| |].
  - intros r Hr. unfold c', push. by rewrite gpr_set_reg, decide_False.
  - apply stack_at_cons; [by apply load64_store64|]. replace (gpr c RSP - 8 + 8) with (gpr c RSP) by lia.
    eapply (stack_at_agree _ _ (gpr c RSP) (gpr c RSP + 8 * len l)); [|lia|lia|done].
    apply agree_store64. lia.
  - intros a b Hab. apply agree_store64. lia.
Qed.

Lemma outside_trans lo mid hi m1 m2 m3 :
  lo <= mid <= hi -> outside mid hi m1 m2 -> outside lo mid m2 m3 -> outside lo hi m1 m3.
Proof. intros Hl H12 H23 a b Hab. etrans; [apply H12|apply H23]; lia. Qed.

Definition words64 (c : Cpu) : Prop := forall r, 0 <= gpr c r < 2 ^ 64.

Lemma pushes_spec rs c l :
  RSP ∉ rs -> words64 c -> 8 * len rs <= gpr c RSP -> stack_at (mem c) (gpr c RSP) l ->
  let c' := exec (map Push rs) c in
  gpr c' RSP = gpr c RSP - 8 * len rs /\ (forall r, r <> RSP -> gpr c' r = gpr c r) /\
  same_control c c' /\ stack_at (mem c') (gpr c' RSP) (rev (map (gpr c) rs) ++ l) /\
  outside (gpr c' RSP) (gpr c RSP) (mem c) (mem c').
Proof.
  revert c l. induction rs as [|r rs IH]; intros c l Hrs Hok Hsp Hl.
  { cbn. unfold len. cbn. split_and!; [lia|done|done|done|]. by intros a b _. }
  apply not_elem_of_cons in Hrs as [Hr Hrs]. unfold len in Hsp. cbn [length] in Hsp.
  pose proof (Hok RSP). pose proof (Hok r).
  destruct (push_spec c (gpr c r) l) as (Hs1 & Hg1 & Hc1 & Hl1 & Ho1); [lia|done|done|].
  set (c1 := push c (gpr c r)) in *.
  assert (words64 c1) as Hok1.
  { intros r'. destruct (decide (r' = RSP)) as [->|]; [lia|]. by rewrite Hg1. }
  destruct (IH c1 (gpr c r :: l) Hrs Hok1) as (Hs2 & Hg2 & Hc2 & Hl2 & Ho2); [unfold len; lia|done|].
  cbn [map exec foldl step_instr]. fold c1. unfold exec in *. unfold len in *. cbn [length] in *.
  split_and!; [lia| | | |].
  - intros r' ?. by rewrite Hg2, Hg1.
  - destruct Hc1 as (? & ? & ? & ?), Hc2 as (? & ? & ? & ?). split_and!; congruence.
  - cbn [map rev]. rewrite <- app_assoc. cbn [app].
    replace (map (gpr c) rs) with (map (gpr c1) rs); [done|].
    apply map_ext_in. intros r' Hin%list_elem_of_In. apply Hg1. by intros ->.
  - eapply outside_trans; [|exact Ho1|]; [lia|]. by rewrite <- Hs1.
Qed.

(** The same, for a state given by an equation. *)
Lemma pushes_to rs c l c' :
  c' = exec (map Push rs) c -> RSP ∉ rs -> words64 c -> 8 * len rs <= gpr c RSP ->
  stack_at (mem c) (gpr c RSP) l ->
  gpr c' RSP = gpr c RSP - 8 * len rs /\ (forall r, r <> RSP -> gpr c' r = gpr c r) /\
  same_control c c' /\ stack_at (mem c') (gpr c' RSP) (rev (map (gpr c) rs) ++ l) /\
  outside (gpr c' RSP) (gpr c RSP) (mem c) (mem c').
Proof. intros ->. apply pushes_spec. Qed.

Lemma pops_spec rs c vs l :
  NoDup rs -> RSP ∉ rs -> length vs = length rs -> 0 <= gpr c RSP ->
  gpr c RSP + 8 * len rs < 2 ^ 64 -> stack_at (mem c) (gpr c RSP) (vs ++ l) ->
  let c' := exec (map Pop rs) c in
  mem c' = mem c /\ gpr c' RSP = gpr c RSP + 8 * len rs /\ same_control c c' /\
  map (gpr c') rs = vs /\ (forall r, r ∉ rs -> r <> RSP -> gpr c' r = gpr c r) /\
  stack_at (mem c') (gpr c' RSP) l.
Proof.
  revert c vs. induction rs as [|r rs IH]; intros c vs Hnd Hrs Hlen H0 Hsp Hl.
  { destruct vs; [|done]. unfold len. cbn. rewrite Z.add_0_r. by split_and!. }
  destruct vs as [|v vs]; [done|]. apply not_elem_of_cons in Hrs as [Hr Hrs].
  apply NoDup_cons in Hnd as [Hrn Hnd]. unfold len in Hsp. cbn [length] in Hsp, Hlen.
  apply stack_at_head in Hl as [Hv Hl].
  cbn [map exec foldl step_instr]. rewrite Hv, wrap_small by lia.
  set (c1 := set_reg (set_reg c RSP (gpr c RSP + 8)) r v).
  assert (gpr c1 RSP = gpr c RSP + 8) as Hs1.
  { unfold c1. rewrite !gpr_set_reg. by rewrite decide_False, decide_True. }
  destruct (IH c1 vs Hnd Hrs) as (Hm & Hs & Hc & Hg & Ho & Hst);
    [lia|lia|rewrite Hs1; unfold len; lia|rewrite Hs1; exact Hl|].
  unfold exec in *. unfold len in *. cbn [length] in *. split_and!; [done|lia|done| | |done].
  - cbn [map]. f_equal; [|done]. rewrite Ho by done. unfold c1. rewrite gpr_set_reg. by rewrite decide_True.
  - intros r' [? ?]%not_elem_of_cons ?. rewrite Ho by done. unfold c1. rewrite !gpr_set_reg.
    by rewrite !decide_False.
Qed.

Lemma pops_to rs c vs l c' :
  c' = exec (map Pop rs) c -> NoDup rs -> RSP ∉ rs -> length vs = length rs -> 0 <= gpr c RSP ->
  gpr c RSP + 8 * len rs < 2 ^ 64 -> stack_at (mem c) (gpr c RSP) (vs ++ l) ->
  mem c' = mem c /\ gpr c' RSP = gpr c RSP + 8 * len rs /\ same_control c c' /\
  map (gpr c') rs = vs /\ (forall r, r ∉ rs -> r <> RSP -> gpr c' r = gpr c r) /\
  stack_at (mem c') (gpr c' RSP) l.
Proof. intros ->. apply pops_spec. Qed.
