(* ===== verification/ContextSwitch.v ===== *)
(** * Context switches

    The naked functions of [Cpu] do what the kernel relies on: the timer
    interrupt saves a process exactly, [call_process] resumes exactly what was
    saved and remembers where the kernel was, [return_process] gets back there,
    and system calls see their arguments.  The one register pair they lose is
    exhibited. *)

From S2P Require Import Prelude Cpu.

Lemma exec_app a b c : exec (a ++ b) c = exec b (exec a c).
Proof. apply foldl_app. Qed.

Lemma exec_cons i is_ c : exec (i :: is_) c = exec is_ (step_instr c i).
Proof. done. Qed.

Lemma stack_at_lookup m a l i v : stack_at m a l -> l !! Z.to_nat i = Some v -> 0 <= i ->
  stack_word m a i = v.
Proof. intros Hs Hi H0. unfold stack_word. rewrite <- (Hs _ _ Hi). f_equal. lia. Qed.

(** Pushing a list of words. *)
Lemma push_words_spec vs c l :
  Forall (fun v => 0 <= v < 2 ^ 64) vs -> 8 * len vs <= gpr c RSP < 2 ^ 64 ->
  stack_at (mem c) (gpr c RSP) l ->
  let c' := push_words vs c in
  gpr c' RSP = gpr c RSP - 8 * len vs /\ (forall r, r <> RSP -> gpr c' r = gpr c r) /\
  same_control c c' /\ stack_at (mem c') (gpr c' RSP) (vs ++ l) /\
  outside (gpr c' RSP) (gpr c RSP) (mem c) (mem c').
Proof.
  induction vs as [|v vs IH]; intros Hvs Hsp Hl; cbn zeta.
  { unfold len. cbn. split_and!; [lia|done|done|done|]. by intros a b _. }
  apply Forall_cons in Hvs as [Hv Hvs]. unfold len in *. cbn [length] in *.
  destruct IH as (Hs1 & Hg1 & Hc1 & Hl1 & Ho1); [done|lia|done|].
  cbn [push_words foldr]. fold (push_words vs c). set (c1 := push_words vs c) in *.
  destruct (push_spec c1 v (vs ++ l)) as (Hs2 & Hg2 & Hc2 & Hl2 & Ho2); [lia|done|done|].
  split_and!; [lia| | |done|].
  - intros r Hr. by rewrite Hg2, Hg1.
  - destruct Hc1 as (? & ? & ? & ?), Hc2 as (? & ? & ? & ?). split_and!; congruence.
  - eapply outside_trans; [|exact Ho1|]; [lia|]. by rewrite Hs2.
Qed.

Definition general : list reg :=
  [RAX; RBX; RCX; RDX; RSI; RDI; R8; R9; R10; R11; R12; R13; R14; R15; RBP].

Lemma general_nodup : NoDup general.
Proof. apply (bool_decide_unpack (NoDup general)). by vm_compute. Qed.

(** [iretq] on a frame. *)
Lemma iretq_to c c' rip' cs' rflags' rsp' ss' :
  c' = step_instr c Iretq -> stack_at (mem c) (gpr c RSP) [rip'; cs'; rflags'; rsp'; ss'] ->
  rip c' = rip' /\ cs c' = cs' /\ rflags c' = rflags' /\ gpr c' RSP = rsp' /\ ss c' = ss' /\
  mem c' = mem c /\ forall r, r <> RSP -> gpr c' r = gpr c r.
Proof.
  intros -> Hf. pose proof (Hf 0%nat _ eq_refl) as W0. pose proof (Hf 1%nat _ eq_refl) as W1.
  pose proof (Hf 2%nat _ eq_refl) as W2. pose proof (Hf 3%nat _ eq_refl) as W3.
  pose proof (Hf 4%nat _ eq_refl) as W4. cbn [Z.of_nat Pos.of_succ_nat Pos.succ] in *.
  rewrite Z.add_0_r in W0. split_and!; [exact W0|exact W1|exact W2|exact W3|exact W4|done|].
  intros r Hr. by destruct r.
Qed.

Lemma map_gpr_eq c u rs r : map (gpr c) rs = map (gpr u) rs -> r ∈ rs -> gpr c r = gpr u r.
Proof.
  induction rs as [|x rs IH]; cbn; [by intros _ ?%elem_of_nil|].
  intros [= ? ?] [->|?]%elem_of_cons; auto.
Qed.

Lemma regs_of_ext c u :
  map (gpr c) general = map (gpr u) general -> gpr c RSP = gpr u RSP -> rip c = rip u ->
  rflags c = rflags u -> regs_of c = regs_of u.
Proof. intros Hg ? ? ?. cbn in Hg. injection Hg as ?. unfold regs_of. f_equal; done. Qed.

(** ** The timer interrupt *)

Lemma timer_entry_split c :
  exec timer_entry c = exec [Cld; Mov RDI RSP] (exec (map Push (rev general)) c).
Proof. exact (exec_app (map Push (rev general)) _ c). Qed.

Lemma timer_entry_end c c2 :
  c = exec [Cld; Mov RDI RSP] c2 ->
  gpr c RSP = gpr c2 RSP /\ gpr c RDI = gpr c2 RSP /\ mem c = mem c2.
Proof.
  intros ->. cbn [exec foldl step_instr]. rewrite !gpr_set_reg.
  by rewrite decide_False, decide_True by done.
Qed.

Lemma timer_exit_split c : exec timer_exit c = step_instr (exec (map Pop general) c) Iretq.
Proof. exact (exec_app (map Pop general) _ c). Qed.

Lemma push_general_spec c1 l :
  words64 c1 -> 120 <= gpr c1 RSP -> stack_at (mem c1) (gpr c1 RSP) l ->
  forall c2, c2 = exec (map Push (rev general)) c1 ->
  gpr c2 RSP = gpr c1 RSP - 120 /\ stack_at (mem c2) (gpr c2 RSP) (map (gpr c1) general ++ l).
Proof.
  intros Hok Hs Hl c2 Hc2. assert (len (rev general) = 15) as Hlen by done.
  destruct (pushes_to _ _ l _ Hc2) as (Hs2 & _ & _ & Hl2 & _);
    [set_solver|done|lia|done|]. clear Hc2. split; [lia|].
  rewrite <- map_rev, rev_involutive in Hl2. done.
Qed.

Section timer.
Context (u : Cpu) (rsp0 kernel_cs : Z).
Context (u_ok : cpu_ok u) (rsp0_ok : 512 <= rsp0 < 2 ^ 64).

Abbreviation stack_top := (rsp0 - rsp0 mod 16).
Abbreviation frame := (interrupt_frame u).

Lemma frame_words : Forall (fun v => 0 <= v < 2 ^ 64) frame.
Proof using u_ok.
  destruct u_ok. unfold interrupt_frame. repeat (apply Forall_cons_2; [by auto|]). apply Forall_nil_2.
Qed.

Lemma interrupt_parts c1 :
  c1 = push_words frame (set_reg u RSP stack_top) ->
  gpr c1 RSP = stack_top - 40 /\ (forall r, r <> RSP -> gpr c1 r = gpr u r) /\
  stack_at (mem c1) (gpr c1 RSP) frame.
Proof using u_ok rsp0_ok.
  intros ->. pose proof (Z.mod_pos_bound rsp0 16).
  assert (gpr (set_reg u RSP stack_top) RSP = stack_top) as Htop.
  { by rewrite gpr_set_reg, decide_True. }
  destruct (push_words_spec frame (set_reg u RSP stack_top) []) as (Hs & Hg & _ & Hl & _);
    [apply frame_words|rewrite Htop; unfold len; cbn; lia|apply stack_at_nil|].
  rewrite app_nil_r in Hl. rewrite Htop in Hs. split_and!; [|clear Hl Hs|exact Hl].
  - rewrite Hs. unfold len. cbn [length interrupt_frame]. lia.
  - intros r Hr. rewrite Hg by done. by rewrite gpr_set_reg, decide_False.
Qed.

Lemma interrupt_spec c :
  c = interrupt rsp0 kernel_cs u ->
  gpr c RSP = stack_top - 40 /\ (forall r, r <> RSP -> gpr c r = gpr u r) /\
  stack_at (mem c) (gpr c RSP) frame /\ words64 c.
Proof using u_ok rsp0_ok.
  intros Hc. assert (exists c1, c1 = push_words frame (set_reg u RSP stack_top) /\
    c = mkCpu (gpr c1) (rip u) (Z.clearbit (rflags u) 9) kernel_cs (ss u) (mem c1)) as (c1 & Hc1 & Hc').
  { eexists. split; [reflexivity|exact Hc]. }
  clear Hc. destruct (interrupt_parts _ Hc1) as (Hs & Hg & Hl). subst c. clear Hc1. cbn [gpr mem].
  split_and!; [exact Hs|exact Hg|exact Hl|].
  intros r. cbn [gpr]. pose proof (Z.mod_pos_bound rsp0 16).
  destruct (decide (r = RSP)) as [->|Hr]; [lia|]. rewrite Hg by done. apply u_ok.
Qed.

Lemma timer_entry_spec c :
  c = exec timer_entry (interrupt rsp0 kernel_cs u) ->
  gpr c RSP = stack_top - 160 /\ gpr c RDI = gpr c RSP /\
  stack_at (mem c) (gpr c RSP) (map (gpr u) general ++ frame).
Proof using u_ok rsp0_ok.
  intros Hc. rewrite timer_entry_split in Hc. name (interrupt rsp0 kernel_cs u) in Hc as c1 Hc1.
  destruct (interrupt_spec c1 Hc1) as (Hs & Hg & Hl & Hok). clear Hc1.
  pose proof (Z.mod_pos_bound rsp0 16).
  name (exec (map Push (rev general)) c1) in Hc as c2 Hc2.
  destruct (push_general_spec c1 frame Hok ltac:(lia) Hl c2 Hc2) as [Hs2 Hl2]. clear Hc2.
  destruct (timer_entry_end c c2 Hc) as (-> & -> & ->). split_and!; [lia|done|].
  replace (map (gpr u) general) with (map (gpr c1) general); [done|].
  apply map_ext_in. intros r Hin%list_elem_of_In. apply Hg. intros ->. set_solver.
Qed.

(** What [timer_handler] saves is the interrupted program. *)
Lemma timer_saves c :
  c = exec timer_entry (interrupt rsp0 kernel_cs u) ->
  saved_registers (mem c) (gpr c RDI) = regs_of u.
Proof using u_ok rsp0_ok.
  intros Hc. destruct (timer_entry_spec c Hc) as (_ & -> & Hl). clear Hc.
  unfold saved_registers, regs_of. f_equal; (eapply stack_at_lookup; [exact Hl|reflexivity|lia]).
Qed.

(** If [timer_handler] returns, with the stack above its frame as it was, the
    program goes on as if nothing had happened. *)
Lemma timer_returns c0 c c' :
  c0 = exec timer_entry (interrupt rsp0 kernel_cs u) ->
  gpr c RSP = gpr c0 RSP -> agree (gpr c0 RSP) stack_top (mem c0) (mem c) ->
  c' = exec timer_exit c ->
  regs_of c' = regs_of u /\ cs c' = cs u /\ ss c' = ss u /\ mem c' = mem c.
Proof using u_ok rsp0_ok.
  intros Hc0 Hs Hag Hc'. destruct (timer_entry_spec c0 Hc0) as (Hs0 & _ & Hl0). clear Hc0.
  pose proof (Z.mod_pos_bound rsp0 16). assert (len general = 15) as Hlen by done.
  assert (stack_at (mem c) (gpr c RSP) (map (gpr u) general ++ frame)) as Hl.
  { rewrite Hs. eapply stack_at_agree; [exact Hag|lia| |done].
    rewrite len_app. change (len (map (gpr u) general)) with 15. change (len frame) with 5. lia. }
  rewrite timer_exit_split in Hc'. name (exec (map Pop general) c) in Hc' as c1 Hc1.
  destruct (pops_to _ _ (map (gpr u) general) frame _ Hc1) as (Hm & Hs' & _ & Hg & _ & Hf);
    [apply general_nodup|set_solver|done|lia|lia|done|]. clear Hc1.
  destruct (iretq_to _ _ _ _ _ _ _ Hc' Hf) as (Hrip & -> & Hfl & Hsp & -> & -> & Hr). clear Hc'.
  split_and!; [|done|done|done]. apply regs_of_ext; [|done|done|done].
  rewrite <- Hg. apply map_ext_in. intros r Hin%list_elem_of_In. apply Hr. intros ->. set_solver.
Qed.
End timer.

(** ** System calls *)

Definition syscall_saved : list reg := [R9; R8; RCX; RDX; RSI; RDI; RAX].

(** What the System V calling convention lets a function do to its caller:
    the callee-saved registers and the stack pointer come back, and the memory
    of the caller's stack is not touched. *)
Definition callee_saved : list reg := [RBX; RBP; R12; R13; R14; R15; RSP].
Definition called (hi : Z) (c c' : Cpu) : Prop :=
  (forall r, r ∈ callee_saved -> gpr c' r = gpr c r) /\ agree (gpr c RSP) hi (mem c) (mem c').

(** Every register but [r10] and [r11] is saved by one side or the other. *)
Lemma reg_split r : r <> R10 -> r <> R11 -> r ∉ syscall_saved -> r ∈ callee_saved.
Proof.
  intros ? ? Hout. apply (bool_decide_unpack (r ∈ callee_saved)).
  apply (bool_decide_pack (r ∉ syscall_saved)) in Hout. by destruct r.
Qed.

Section syscall.
Context (u : Cpu) (rsp0 kernel_cs : Z).
Context (u_ok : cpu_ok u) (rsp0_ok : 512 <= rsp0 < 2 ^ 64).
Abbreviation stack_top := (rsp0 - rsp0 mod 16).
Abbreviation frame := (interrupt_frame u).

Lemma syscall_entry_split c :
  exec syscall_entry c = exec [Mov RDI RSP] (exec (map Push (rev syscall_saved)) c).
Proof. exact (exec_app (map Push (rev syscall_saved)) _ c). Qed.

Lemma syscall_exit_split c : exec syscall_exit c = step_instr (exec (map Pop syscall_saved) c) Iretq.
Proof. exact (exec_app (map Pop syscall_saved) _ c). Qed.

Lemma syscall_entry_end c c2 :
  c = exec [Mov RDI RSP] c2 ->
  gpr c RSP = gpr c2 RSP /\ gpr c RDI = gpr c2 RSP /\ mem c = mem c2 /\
  forall r, r <> RSP -> r <> RDI -> gpr c r = gpr c2 r.
Proof.
  intros ->. cbn [exec foldl step_instr]. rewrite !gpr_set_reg.
  rewrite decide_False, decide_True by done. split_and!; [done..|].
  intros r ? ?. by rewrite gpr_set_reg, decide_False.
Qed.

Lemma syscall_entry_spec c :
  c = exec syscall_entry (interrupt rsp0 kernel_cs u) ->
  gpr c RSP = stack_top - 96 /\ gpr c RDI = gpr c RSP /\
  (forall r, r <> RSP -> r <> RDI -> gpr c r = gpr u r) /\
  stack_at (mem c) (gpr c RSP) (map (gpr u) syscall_saved ++ frame).
Proof using u_ok rsp0_ok.
  intros Hc. rewrite syscall_entry_split in Hc. name (interrupt rsp0 kernel_cs u) in Hc as c1 Hc1.
  destruct (interrupt_spec u rsp0 kernel_cs u_ok rsp0_ok c1 Hc1) as (Hs & Hg & Hl & Hok). clear Hc1.
  pose proof (Z.mod_pos_bound rsp0 16). assert (len (rev syscall_saved) = 7) as Hlen by done.
  name (exec (map Push (rev syscall_saved)) c1) in Hc as c2 Hc2.
  destruct (pushes_to _ _ frame _ Hc2) as (Hs2 & Hg2 & _ & Hl2 & _);
    [set_solver|done|lia|done|]. clear Hc2.
  rewrite <- map_rev, rev_involutive in Hl2.
  destruct (syscall_entry_end c c2 Hc) as (-> & -> & -> & Hr).
  split_and!; [lia|done| |].
  - intros r ? ?. by rewrite Hr, Hg2, Hg.
  - replace (map (gpr u) syscall_saved) with (map (gpr c1) syscall_saved); [done|].
    apply map_ext_in. intros r Hin%list_elem_of_In. apply Hg. intros ->. set_solver.
Qed.

Lemma syscall_args_spec c :
  c = exec syscall_entry (interrupt rsp0 kernel_cs u) ->
  syscall_args (mem c) (gpr c RDI) =
    mkSyscallArgs (gpr u RAX) (gpr u RDI) (gpr u RSI) (gpr u RDX) (gpr u RCX) (gpr u R8) (gpr u R9).
Proof using u_ok rsp0_ok.
  intros Hc. destruct (syscall_entry_spec c Hc) as (_ & -> & _ & Hl). clear Hc.
  unfold syscall_args. f_equal; (eapply stack_at_lookup; [exact Hl|reflexivity|lia]).
Qed.

(** After the call every register of the program is as it was, but for [r10]
    and [r11], which are what the handler left in them. *)
Lemma syscall_returns c0 c c' :
  c0 = exec syscall_entry (interrupt rsp0 kernel_cs u) -> called stack_top c0 c ->
  c' = exec syscall_exit c ->
  (forall r, r <> R10 -> r <> R11 -> gpr c' r = gpr u r) /\
  gpr c' R10 = gpr c R10 /\ gpr c' R11 = gpr c R11 /\
  rip c' = rip u /\ rflags c' = rflags u /\ cs c' = cs u /\ ss c' = ss u.
Proof using u_ok rsp0_ok.
  intros Hc0 [Hcs Hag] Hc'. destruct (syscall_entry_spec c0 Hc0) as (Hs0 & _ & Hr0 & Hl0). clear Hc0.
  pose proof (Z.mod_pos_bound rsp0 16). assert (len syscall_saved = 7) as Hlen by done.
  assert (gpr c RSP = gpr c0 RSP) as Hs by (apply Hcs; unfold callee_saved; set_solver).
  assert (stack_at (mem c) (gpr c RSP) (map (gpr u) syscall_saved ++ frame)) as Hl.
  { rewrite Hs. eapply stack_at_agree; [exact Hag|lia| |done].
    rewrite len_app. change (len (map (gpr u) syscall_saved)) with 7. change (len frame) with 5. lia. }
  rewrite syscall_exit_split in Hc'. name (exec (map Pop syscall_saved) c) in Hc' as c1 Hc1.
  destruct (pops_to _ _ (map (gpr u) syscall_saved) frame _ Hc1) as (Hm & Hs' & _ & Hg & Ho & Hf);
    [apply (bool_decide_unpack (NoDup syscall_saved)); by vm_compute|set_solver|done|lia|lia|done|].
  clear Hc1.
  destruct (iretq_to _ _ _ _ _ _ _ Hc' Hf) as (-> & -> & -> & Hsp & -> & _ & Hr). clear Hc'.
  assert ((R10 ∉ syscall_saved) /\ (R11 ∉ syscall_saved)) as [N10 N11]
    by (unfold syscall_saved; split; set_solver).
  split_and!; [|by rewrite Hr, Ho by done..|done|done|done|done].
  intros r ? ?. destruct (decide (r = RSP)) as [->|]; [done|]. rewrite Hr by done.
  destruct (decide (r ∈ syscall_saved)) as [Hin|Hout].
  { by eapply map_gpr_eq. }
  rewrite Ho, Hcs, Hr0; [done|done| |by apply reg_split|done|done].
  intros ->. apply Hout. apply (bool_decide_unpack (RDI ∈ syscall_saved)). by vm_compute.
Qed.
End syscall.

(** ** Entering and leaving a process *)

Definition kernel_saved : list reg := [RBX; RSI; RDI; R8; R9; R10; R11; R12; R13; R14; R15; RBP].

(** Loads of fields of the structure at [rdi]. *)
Definition field_loads (l : list (reg * nat)) : list instr :=
  map (fun '(d, i) => Load d RDI (8 * Z.of_nat i)) l.

Lemma field_load_to c c' W d i v :
  c' = step_instr c (Load d RDI (8 * Z.of_nat i)) -> stack_at (mem c) (gpr c RDI) W ->
  0 <= gpr c RDI -> gpr c RDI + 8 * len W <= 2 ^ 64 -> W !! i = Some v ->
  mem c' = mem c /\ same_control c c' /\ gpr c' d = v /\ forall r, r <> d -> gpr c' r = gpr c r.
Proof.
  intros -> Hs H0 Hsp Hi. apply lookup_lt_Some in Hi as Hlt. unfold len in Hsp.
  cbn [step_instr]. rewrite wrap_small by lia. rewrite (Hs _ _ Hi).
  split_and!; [done|done| |].
  - by rewrite gpr_set_reg, decide_True.
  - intros r Hr. by rewrite gpr_set_reg, decide_False.
Qed.

Lemma field_loads_to l c c' W :
  c' = exec (field_loads l) c -> stack_at (mem c) (gpr c RDI) W -> 0 <= gpr c RDI ->
  gpr c RDI + 8 * len W <= 2 ^ 64 -> NoDup l.*1 -> RDI ∉ l.*1 ->
  Forall (fun '(_, i) => (i < length W)%nat) l ->
  mem c' = mem c /\ same_control c c' /\ (forall r, r ∉ l.*1 -> gpr c' r = gpr c r) /\
  map (fun '(d, _) => Some (gpr c' d)) l = map (fun '(_, i) => W !! i) l.
Proof.
  revert c. induction l as [|[d i] l IH]; intros c Hc Hs H0 Hsp Hnd Hrdi Hl; [by subst c'|].
  apply NoDup_cons in Hnd as [Hd Hnd]. apply not_elem_of_cons in Hrdi as [Hne Hrdi].
  apply Forall_cons in Hl as [Hi Hl]. apply lookup_lt_is_Some_2 in Hi as [v Hi].
  cbn [field_loads map] in Hc. rewrite exec_cons in Hc. fold (field_loads l) in Hc.
  name (step_instr c (Load d RDI (8 * Z.of_nat i))) in Hc as c1 Hc1.
  destruct (field_load_to _ _ W _ _ v Hc1 Hs H0 Hsp Hi) as (Hm1 & Hctl1 & Hd1 & Hr1). clear Hc1.
  assert (gpr c1 RDI = gpr c RDI) as Hrdi1 by (by apply Hr1).
  destruct (IH c1 Hc) as (Hm2 & Hctl2 & Hr2 & Hv2);
    [by rewrite Hm1, Hrdi1|by rewrite Hrdi1|by rewrite Hrdi1|done|done|done|].
  split_and!; [congruence| | |].
  - destruct Hctl1 as (? & ? & ? & ?), Hctl2 as (? & ? & ? & ?). split_and!; congruence.
  - intros r [? ?]%not_elem_of_cons. by rewrite Hr2, Hr1.
  - cbn [map]. rewrite Hv2, Hi. f_equal. rewrite Hr2 by done. by rewrite Hd1.
Qed.

(** Loading a field and pushing it. *)
Lemma field_push_to c c' W i v l :
  c' = exec [Load RAX RDI (8 * Z.of_nat i); Push RAX] c -> stack_at (mem c) (gpr c RDI) W ->
  0 <= gpr c RDI -> gpr c RDI + 8 * len W <= 2 ^ 64 -> W !! i = Some v -> 0 <= v < 2 ^ 64 ->
  8 <= gpr c RSP < 2 ^ 64 -> stack_at (mem c) (gpr c RSP) l ->
  gpr c' RSP = gpr c RSP - 8 /\ (forall r, r <> RSP -> r <> RAX -> gpr c' r = gpr c r) /\
  stack_at (mem c') (gpr c' RSP) (v :: l) /\ outside (gpr c RSP - 8) (gpr c RSP) (mem c) (mem c').
Proof.
  intros Hc Hs H0 Hsp Hi Hv Hrsp Hl. rewrite exec_cons in Hc.
  name (step_instr c (Load RAX RDI (8 * Z.of_nat i))) in Hc as c1 Hc1.
  destruct (field_load_to _ _ W _ _ v Hc1 Hs H0 Hsp Hi) as (Hm1 & _ & Hd1 & Hr1). clear Hc1.
  assert (gpr c1 RSP = gpr c RSP) as Hs1 by (by apply Hr1).
  assert (c' = push c1 v) as Hc' by (by rewrite Hc; cbn [exec foldl step_instr]; rewrite Hd1).
  destruct (push_spec c1 v l) as (Hs2 & Hg2 & _ & Hl2 & Ho2);
    [by rewrite Hs1|done|by rewrite Hm1, Hs1|].
  rewrite <- Hc' in *. rewrite <- Hm1, <- Hs1. split_and!; [done| |done|done].
  intros r ? ?. by rewrite Hg2, Hr1.
Qed.

Lemma push_to c c' r l :
  c' = exec [Push r] c -> words64 c -> 8 <= gpr c RSP -> stack_at (mem c) (gpr c RSP) l ->
  gpr c' RSP = gpr c RSP - 8 /\ (forall r, r <> RSP -> gpr c' r = gpr c r) /\
  stack_at (mem c') (gpr c' RSP) (gpr c r :: l) /\ outside (gpr c RSP - 8) (gpr c RSP) (mem c) (mem c').
Proof.
  intros -> Hok Hs Hl. destruct (push_spec c (gpr c r) l) as (? & ? & _ & ? & ?); [|done..|done].
  pose proof (Hok RSP). lia.
Qed.

(** The fields [call_process] restores before [rdi]. *)
Definition process_fields : list (reg * nat) :=
  [(RAX, 0%nat); (RBX, 1%nat); (RCX, 2%nat); (RDX, 3%nat); (RSI, 4%nat); (R8, 6%nat); (R9, 7%nat);
   (R10, 8%nat); (R11, 9%nat); (R12, 10%nat); (R13, 11%nat); (R14, 12%nat); (R15, 13%nat); (RBP, 14%nat)].

Lemma call_process_split k :
  exec call_process k =
    exec [Sti; Iretq] (exec [Load RDI RDI 40] (exec (field_loads process_fields)
      (exec [StoreByte R8 2]
        (exec [Load RAX RDI 128; Push RAX] (exec [Push RDX] (exec [Load RAX RDI 136; Push RAX]
          (exec [Load RAX RDI 120; Push RAX] (exec [Push RSI]
            (exec [Mov R11 RSP; Store RCX R11] (exec (map Push (rev kernel_saved)) k)))))))))).
Proof.
  change call_process with (map Push (rev kernel_saved) ++ [Mov R11 RSP; Store RCX R11] ++ [Push RSI] ++
    [Load RAX RDI 120; Push RAX] ++ [Load RAX RDI 136; Push RAX] ++ [Push RDX] ++
    [Load RAX RDI 128; Push RAX] ++ [StoreByte R8 2] ++ field_loads process_fields ++
    [Load RDI RDI 40] ++ [Sti; Iretq]).
  by rewrite !exec_app.
Qed.

(** The arguments of [call_process]: the structure at [rdi] holds [R], and it,
    the word at [rcx] and the byte at [r8] are apart from each other and from
    the part of the stack the call uses. *)
Record call_ok (k : Cpu) (R : Registers) (ra : Z) : Prop := {
  co_words : words64 k;
  co_rsp : 136 <= gpr k RSP /\ gpr k RSP + 8 <= 2 ^ 64;
  co_ra : load64 (mem k) (gpr k RSP) = ra;
  co_regs : stack_at (mem k) (gpr k RDI) (words R);
  co_range : Forall (fun v => 0 <= v < 2 ^ 64) (words R);
  co_rdi : gpr k RDI + 144 <= 2 ^ 64;
  co_rdi_stack : gpr k RDI + 144 <= gpr k RSP - 136 \/ gpr k RSP <= gpr k RDI;
  co_rcx_stack : gpr k RCX + 8 <= gpr k RSP - 136 \/ gpr k RSP + 8 <= gpr k RCX;
  co_rcx_rdi : gpr k RCX + 8 <= gpr k RDI \/ gpr k RDI + 144 <= gpr k RCX;
  co_r8_stack : gpr k R8 < gpr k RSP - 136 \/ gpr k RSP + 8 <= gpr k R8;
  co_r8_rdi : gpr k R8 < gpr k RDI \/ gpr k RDI + 144 <= gpr k R8;
  co_r8_rcx : gpr k R8 < gpr k RCX \/ gpr k RCX + 8 <= gpr k R8
}.

(** The state before the registers are restored. *)
Record framed (k : Cpu) (R : Registers) (ra : Z) (c : Cpu) : Prop := {
  fr_rsp : gpr c RSP = gpr k RSP - 136;
  fr_rdi : gpr c RDI = gpr k RDI;
  fr_frame : stack_at (mem c) (gpr c RSP)
    [reg_rip R; gpr k RDX; reg_rflags R; rsp R; gpr k RSI];
  fr_saved : stack_at (mem c) (gpr k RSP - 96) (map (gpr k) kernel_saved ++ [ra]);
  fr_regs : stack_at (mem c) (gpr k RDI) (words R);
  fr_kernel_rsp : load64 (mem c) (gpr k RCX) = gpr k RSP - 96;
  fr_state : load8 (mem c) (gpr k R8) = 2
}.

(** [mov r11, rsp; mov [rcx], r11]. *)
Lemma call_store c c' :
  c' = exec [Mov R11 RSP; Store RCX R11] c ->
  gpr c' R11 = gpr c RSP /\ (forall r, r <> R11 -> gpr c' r = gpr c r) /\
  mem c' = store64 (mem c) (gpr c RCX) (gpr c RSP).
Proof.
  intros ->. cbn [exec foldl step_instr set_mem gpr mem]. rewrite !gpr_set_reg.
  rewrite decide_True, decide_False by done. split_and!; [done| |done].
  intros r Hr. by rewrite gpr_set_reg, decide_False.
Qed.

(** The kernel's registers are saved and [kernel_rsp] is set. *)
Lemma call_saves k R ra c :
  call_ok k R ra -> c = exec [Mov R11 RSP; Store RCX R11] (exec (map Push (rev kernel_saved)) k) ->
  gpr c RSP = gpr k RSP - 96 /\ (forall r, r <> RSP -> r <> R11 -> gpr c r = gpr k r) /\ words64 c /\
  stack_at (mem c) (gpr k RSP - 96) (map (gpr k) kernel_saved ++ [ra]) /\
  stack_at (mem c) (gpr k RDI) (words R) /\ load64 (mem c) (gpr k RCX) = gpr k RSP - 96.
Proof.
  intros [Hw [Hs1 Hs2] Hra Hregs _ Hr1 Hr2 Hr3 Hr4 _ _ _] Hc.
  name (exec (map Push (rev kernel_saved)) k) in Hc as c1 Hc1.
  assert (len (rev kernel_saved) = 12) as Hlen by done.
  destruct (pushes_to _ _ [ra] _ Hc1) as (Hsp & Hg & _ & Hl & Ho);
    [apply (bool_decide_unpack (RSP ∉ rev kernel_saved)); by vm_compute|done|lia| |].
  { apply stack_at_cons; [done|apply stack_at_nil]. }
  clear Hc1. rewrite <- map_rev, rev_involutive in Hl.
  destruct (call_store _ _ Hc) as (Hr11 & Hg' & Hm'). clear Hc.
  assert (gpr c1 RSP = gpr k RSP - 96) as Hsp1 by lia.
  assert (gpr c1 RCX = gpr k RCX) as Hrcx by (by apply Hg).
  rewrite Hrcx, Hsp1 in Hm'. rewrite Hsp1 in Hr11, Hl. pose proof (Hw RSP). pose proof (Hw RCX).
  split_and!.
  - by rewrite Hg'.
  - intros r ? ?. by rewrite Hg', Hg.
  - intros r. destruct (decide (r = R11)) as [->|]; [lia|]. rewrite Hg' by done.
    destruct (decide (r = RSP)) as [->|]; [lia|]. by rewrite Hg.
  - rewrite Hm'. eapply (stack_at_agree _ _ (gpr k RSP - 96) (gpr k RSP + 8)); [|lia| |exact Hl].
    + apply agree_store64. lia.
    + rewrite len_app. change (len (map (gpr k) kernel_saved)) with 12. change (len [ra]) with 1. lia.
  - rewrite Hm'. change 144 with (8 * len (words R)) in *.
    eapply (stack_at_agree (mem c1) _ (gpr k RDI) (gpr k RDI + 8 * len (words R))); [|lia|lia|].
    + apply agree_store64. lia.
    + eapply (stack_at_agree (mem k) _ (gpr k RDI) (gpr k RDI + 8 * len (words R)));
        [apply Ho; rewrite Hsp1; lia|lia|lia|done].
  - rewrite Hm'. apply load64_store64. lia.
Qed.

(** A stage of the building of the frame: the words [l] are pushed. *)
Record stage (k : Cpu) (R : Registers) (c0 : Cpu) (l : list Z) (c : Cpu) : Prop := {
  sg_rsp : gpr c RSP = gpr k RSP - 96 - 8 * len l;
  sg_regs : forall r, r <> RSP -> r <> RAX -> gpr c r = gpr c0 r;
  sg_stack : stack_at (mem c) (gpr c RSP) l;
  sg_out : outside (gpr k RSP - 96 - 8 * len l) (gpr k RSP - 96) (mem c0) (mem c)
}.

Lemma stage_next k R c0 l c c' v :
  stage k R c0 l c -> gpr c' RSP = gpr c RSP - 8 ->
  (forall r, r <> RSP -> r <> RAX -> gpr c' r = gpr c r) ->
  stack_at (mem c') (gpr c' RSP) (v :: l) -> outside (gpr c RSP - 8) (gpr c RSP) (mem c) (mem c') ->
  stage k R c0 (v :: l) c'.
Proof.
  intros [Hs Hr Hl Ho] Hs' Hr' Hl' Ho'.
  assert (len (v :: l) = len l + 1) as Hlen by (unfold len; cbn [length]; lia).
  pose proof (len_nonneg l). split; [lia| |done|].
  - intros r ? ?. by rewrite Hr', Hr.
  - rewrite Hlen. eapply outside_trans; [|exact Ho|]; [lia|].
    replace (gpr k RSP - 96 - 8 * (len l + 1)) with (gpr c RSP - 8) by lia.
    replace (gpr k RSP - 96 - 8 * len l) with (gpr c RSP) by lia. done.
Qed.

Section call.
Context (k : Cpu) (R : Registers) (ra : Z) (c0 : Cpu).
Context (k_ok : call_ok k R ra).
Context (saved_rsp : gpr c0 RSP = gpr k RSP - 96).
Context (saved_gpr : forall r, r <> RSP -> r <> R11 -> gpr c0 r = gpr k r).
Context (saved_regs : stack_at (mem c0) (gpr k RDI) (words R)).

Lemma stage_field l c c' i v :
  stage k R c0 l c -> len l <= 4 -> words R !! i = Some v ->
  c' = exec [Load RAX RDI (8 * Z.of_nat i); Push RAX] c -> stage k R c0 (v :: l) c'.
Proof using k_ok saved_gpr saved_regs.
  intros Hst Hlen Hi Hc. pose proof Hst as [Hs Hr Hl Ho]. destruct k_ok.
  pose proof (len_nonneg l). change 144 with (8 * len (words R)) in *.
  assert (gpr c RDI = gpr k RDI) as Hrdi by (by rewrite Hr, saved_gpr).
  pose proof (co_words0 RDI). pose proof (co_words0 RSP).
  destruct (field_push_to _ _ (words R) i v l Hc) as (Hs' & Hr' & Hl' & Ho').
  - rewrite Hrdi. eapply (stack_at_agree (mem c0) _ (gpr k RDI) (gpr k RDI + 8 * len (words R)));
      [apply Ho; lia|lia|lia|done].
  - lia.
  - lia.
  - done.
  - eapply (Forall_lookup_1 _ _ _ _ co_range0 Hi).
  - lia.
  - done.
  - by eapply stage_next.
Qed.

Lemma stage_push l c c' r :
  stage k R c0 l c -> len l <= 4 -> r <> RSP -> r <> RAX -> r <> R11 ->
  c' = exec [Push r] c -> stage k R c0 (gpr k r :: l) c'.
Proof using k_ok saved_gpr saved_rsp.
  intros Hst Hlen Hn1 Hn2 Hn3 Hc. pose proof Hst as [Hs Hr Hl Ho]. destruct k_ok.
  pose proof (len_nonneg l). pose proof (co_words0 RSP).
  assert (gpr c r = gpr k r) as Hcr by (by rewrite Hr, saved_gpr).
  destruct (push_spec c (gpr c r) l) as (Hs' & Hr' & _ & Hl' & Ho');
    [lia|rewrite Hcr; apply co_words0|done|].
  assert (c' = push c (gpr c r)) as Hc' by exact Hc. rewrite <- Hc', Hcr in *.
  eapply stage_next; eauto.
Qed.

Lemma call_frames c :
  c = exec [Load RAX RDI 128; Push RAX] (exec [Push RDX] (exec [Load RAX RDI 136; Push RAX]
        (exec [Load RAX RDI 120; Push RAX] (exec [Push RSI] c0)))) ->
  stage k R c0 [reg_rip R; gpr k RDX; reg_rflags R; rsp R; gpr k RSI] c.
Proof using k_ok saved_gpr saved_regs saved_rsp.
  intros ->.
  assert (stage k R c0 [] c0) as H0.
  { split; [unfold len; cbn; lia|done|apply stack_at_nil|]. by intros a b _. }
  eapply (stage_field _ _ _ 16); [|done|reflexivity|reflexivity].
  eapply (stage_push _ _ _ RDX); [|done|done|done|done|reflexivity].
  eapply (stage_field _ _ _ 17); [|done|reflexivity|reflexivity].
  eapply (stage_field _ _ _ 15); [|done|reflexivity|reflexivity].
  eapply (stage_push _ _ _ RSI); [exact H0|done|done|done|done|reflexivity].
Qed.
End call.

Lemma store_byte_to c c' r v :
  c' = exec [StoreByte r v] c ->
  mem c' = store8 (mem c) (gpr c r) v /\ forall r', gpr c' r' = gpr c r'.
Proof. by intros ->. Qed.

Lemma call_framed k R ra c :
  call_ok k R ra ->
  c = exec [StoreByte R8 2]
        (exec [Load RAX RDI 128; Push RAX] (exec [Push RDX] (exec [Load RAX RDI 136; Push RAX]
          (exec [Load RAX RDI 120; Push RAX] (exec [Push RSI]
            (exec [Mov R11 RSP; Store RCX R11] (exec (map Push (rev kernel_saved)) k))))))) ->
  framed k R ra c.
Proof.
  intros Hok Hc. name (exec [Mov R11 RSP; Store RCX R11] _) in Hc as c0 Hc0.
  destruct (call_saves k R ra c0 Hok Hc0) as (Hs0 & Hg0 & _ & Hsv0 & Hr0 & Hk0). clear Hc0.
  name (exec [Load RAX RDI 128; Push RAX] _) in Hc as c1 Hc1.
  destruct (call_frames k R ra c0 Hok Hs0 Hg0 Hr0 c1 Hc1) as [Hs1 Hg1 Hl1 Ho1]. clear Hc1.
  assert (gpr c1 R8 = gpr k R8) as H8 by (by rewrite Hg1, Hg0).
  assert (mem c = store8 (mem c1) (gpr k R8) 2 /\ forall r, gpr c r = gpr c1 r) as [Hm Hg].
  { rewrite <- H8. by apply store_byte_to. }
  clear Hc. unfold len in Hs1, Ho1. cbn [length] in Hs1, Ho1. destruct Hok.
  pose proof (co_words0 RSP). change 144 with (8 * len (words R)) in *.
  assert (forall a b, b <= gpr k RSP - 136 \/ gpr k RSP - 96 <= a ->
    gpr k R8 < a \/ b <= gpr k R8 -> agree a b (mem c0) (mem c)) as Hag.
  { intros a b ? ?. etrans; [apply Ho1; lia|]. rewrite Hm. by apply agree_store8. }
  split; rewrite ?Hg.
  - lia.
  - by rewrite Hg1, Hg0.
  - rewrite Hm. eapply (stack_at_agree (mem c1) _ (gpr k RSP - 136) (gpr k RSP - 96)); [|lia| |done].
    + apply agree_store8. lia.
    + unfold len. cbn [length]. lia.
  - eapply (stack_at_agree (mem c0) _ (gpr k RSP - 96) (gpr k RSP + 8)); [apply Hag; lia|lia| |done].
    rewrite len_app. change (len (map (gpr k) kernel_saved)) with 12. change (len [ra]) with 1. lia.
  - eapply (stack_at_agree (mem c0) _ (gpr k RDI) (gpr k RDI + 8 * len (words R)));
      [apply Hag; lia|lia|lia|done].
  - rewrite <- Hk0. eapply (Hag (gpr k RCX) (gpr k RCX + 8)); lia.
  - rewrite Hm, load8_store8, decide_True by done. done.
Qed.

Lemma words_regs R c :
  map (fun '(d, _) => Some (gpr c d)) process_fields = map (fun '(_, i) => words R !! i) process_fields ->
  gpr c RDI = rdi R -> gpr c RSP = rsp R -> rip c = reg_rip R -> rflags c = reg_rflags R ->
  regs_of c = R.
Proof.
  intros Hf ? ? ? ?. cbn in Hf. injection Hf as ?. destruct R. cbn in *. unfold regs_of. f_equal; done.
Qed.

(** The registers of the process are loaded. *)
Lemma load_registers k R ra c1 c :
  call_ok k R ra -> framed k R ra c1 ->
  c = exec [Load RDI RDI 40] (exec (field_loads process_fields) c1) ->
  mem c = mem c1 /\ gpr c RSP = gpr c1 RSP /\ gpr c RDI = rdi R /\
  map (fun '(d, _) => Some (gpr c d)) process_fields = map (fun '(_, i) => words R !! i) process_fields.
Proof.
  intros [] [Hs1 Hrdi1 _ _ Hr1 _ _] Hc.
  name (exec (field_loads process_fields) c1) in Hc as c2 Hc2.
  pose proof (co_words0 RDI). change 144 with (8 * len (words R)) in *.
  assert ((RDI ∉ process_fields.*1) /\ (RSP ∉ process_fields.*1)) as [Hn1 Hn2].
  { split; refine (bool_decide_unpack _ _); by vm_compute. }
  destruct (field_loads_to _ _ _ (words R) Hc2) as (Hm2 & _ & Hg2 & Hv2);
    [by rewrite Hrdi1|lia|lia|apply (bool_decide_unpack (NoDup process_fields.*1)); by vm_compute
    |done|repeat (apply Forall_cons_2; [cbn; lia|]); apply Forall_nil_2|]. clear Hc2.
  destruct (field_load_to c2 c (words R) RDI 5 (rdi R) Hc) as (Hm3 & _ & Hd3 & Hg3);
    [by rewrite Hm2, Hg2, Hrdi1|rewrite Hg2 by done; lia|rewrite Hg2 by done; lia|done|]. clear Hc.
  split_and!; [congruence|by rewrite Hg3, Hg2|done|]. rewrite <- Hv2. apply map_ext_in.
  intros [d i] Hin%list_elem_of_In. rewrite Hg3; [done|]. intros ->. apply Hn1.
  apply list_elem_of_fmap. by exists (RDI, i).
Qed.

(** [call_process] enters the process. *)
Lemma call_process_spec k R ra c :
  call_ok k R ra -> c = exec call_process k ->
  regs_of c = R /\ cs c = gpr k RDX /\ ss c = gpr k RSI /\
  load64 (mem c) (gpr k RCX) = gpr k RSP - 96 /\ load8 (mem c) (gpr k R8) = 2 /\
  stack_at (mem c) (gpr k RSP - 96) (map (gpr k) kernel_saved ++ [ra]).
Proof.
  intros Hok Hc. rewrite call_process_split in Hc.
  name (exec [StoreByte R8 2] _) in Hc as c1 Hc1.
  pose proof (call_framed k R ra c1 Hok Hc1) as Hf1. clear Hc1.
  name (exec [Load RDI RDI 40] _) in Hc as c2 Hc2.
  destruct (load_registers k R ra c1 c2 Hok Hf1 Hc2) as (Hm2 & Hs2 & Hd2 & Hv2). clear Hc2.
  destruct Hf1 as [_ _ Hfr1 Hsv1 _ Hk1 Hst1]. rewrite exec_cons in Hc.
  name (step_instr c2 Sti) in Hc as c3 Hc3.
  assert (mem c3 = mem c2 /\ gpr c3 = gpr c2) as [Hm3 Hg3] by (by rewrite Hc3). clear Hc3.
  rewrite <- Hm2, <- Hs2, <- Hm3, <- Hg3 in Hfr1.
  destruct (iretq_to _ _ _ _ _ _ _ Hc Hfr1) as (Hrip & Hcs & Hfl & Hsp & Hss & Hm & Hr). clear Hc.
  assert (mem c = mem c1) as Hmc by congruence. rewrite Hmc. split_and!; [|done|done|done|done|done].
  apply words_regs; [|rewrite Hr, Hg3 by done; done|done|done|done].
  rewrite <- Hv2. apply map_ext_in. intros [d i] Hin%list_elem_of_In. rewrite Hr, Hg3; [done|].
  intros ->. assert (RSP ∉ process_fields.*1) as Hn by (refine (bool_decide_unpack _ _); by vm_compute).
  apply Hn, list_elem_of_fmap. by exists (RSP, i).
Qed.

(** [return_process] gets back to the caller of [call_process]. *)
Lemma return_process_split c :
  exec return_process c = step_instr (exec (map Pop kernel_saved) (step_instr c Cli)) Ret.
Proof. exact (exec_app (Cli :: map Pop kernel_saved) [Ret] c). Qed.

Lemma ret_to c c' v :
  c' = step_instr c Ret -> load64 (mem c) (gpr c RSP) = v -> 0 <= gpr c RSP -> gpr c RSP + 8 < 2 ^ 64 ->
  rip c' = v /\ gpr c' RSP = gpr c RSP + 8 /\ (forall r, r <> RSP -> gpr c' r = gpr c r) /\ mem c' = mem c.
Proof.
  intros -> Hv ? ?. cbn [step_instr]. rewrite Hv, wrap_small by lia.
  split_and!; [done|by rewrite gpr_set_reg, decide_True| |done].
  intros r Hr. by rewrite gpr_set_reg, decide_False.
Qed.

Lemma return_process_spec k ra c c' :
  stack_at (mem c) (gpr c RSP) (map (gpr k) kernel_saved ++ [ra]) -> 0 <= gpr c RSP ->
  gpr c RSP + 104 < 2 ^ 64 -> c' = exec return_process c ->
  (forall r, r ∈ kernel_saved -> gpr c' r = gpr k r) /\ gpr c' RSP = gpr c RSP + 104 /\
  rip c' = ra /\ mem c' = mem c.
Proof.
  intros Hl H0 Hhi Hc. rewrite return_process_split in Hc.
  name (step_instr c Cli) in Hc as c0 Hc0.
  assert (mem c0 = mem c /\ gpr c0 = gpr c) as [Hm0 Hg0] by (by rewrite Hc0). clear Hc0.
  rewrite <- Hm0, <- Hg0 in *. name (exec (map Pop kernel_saved) c0) in Hc as c1 Hc1.
  assert (len kernel_saved = 12) as Hlen by done.
  assert (RSP ∉ kernel_saved) as Hn by (refine (bool_decide_unpack _ _); by vm_compute).
  destruct (pops_to _ _ (map (gpr k) kernel_saved) [ra] _ Hc1) as (Hm1 & Hs1 & _ & Hg1 & _ & Hl1);
    [apply (bool_decide_unpack (NoDup kernel_saved)); by vm_compute|done|done|lia|lia|done|]. clear Hc1.
  apply stack_at_head in Hl1 as [Hra _].
  destruct (ret_to _ _ _ Hc Hra) as (Hrip & Hs2 & Hg2 & Hm2); [lia|lia|]. clear Hc.
  split_and!; [|lia|done|congruence].
  intros r Hr. rewrite Hg2 by (by intros ->). by eapply map_gpr_eq.
Qed.

(** The jump of a handler back into the kernel. *)
Lemma jump_to_spec kernel_rsp kernel_rip c c' :
  c' = jump_to kernel_rsp kernel_rip c -> 8 <= kernel_rsp < 2 ^ 64 -> 0 <= kernel_rip < 2 ^ 64 ->
  rip c' = kernel_rip /\ gpr c' RSP = kernel_rsp /\
  outside (kernel_rsp - 8) kernel_rsp (mem c) (mem c').
Proof.
  intros Hc Hs Hr. unfold jump_to in Hc.
  assert (gpr (set_reg c RSP kernel_rsp) RSP = kernel_rsp) as Hs0 by (by rewrite gpr_set_reg, decide_True).
  name (push _ _) in Hc as c1 Hc1.
  destruct (push_spec (set_reg c RSP kernel_rsp) kernel_rip []) as (Hs1 & _ & _ & Hl1 & Ho1);
    [by rewrite Hs0|done|apply stack_at_nil|]. rewrite <- Hc1, Hs0 in *. clear Hc1.
  apply stack_at_head in Hl1 as [Hv _].
  destruct (ret_to _ _ _ Hc Hv) as (Hrip & Hs2 & _ & Hm); [lia|lia|]. clear Hc.
  split_and!; [done|lia|]. rewrite Hm. exact Ho1.
Qed.

(** ** Theorems *)

(** C31: a process that the timer preempts is resumed exactly where it was: the
    registers [timer_handler] reads from the stack of the interrupt, given to
    [call_process], are restored as the process had them, all eighteen of them
    ([rsp], [rip] and [rflags] included), whatever the kernel did in between. *)
Theorem preempt_resume (u : Cpu) (rsp0 kernel_cs : Z) (k : Cpu) (ra : Z) :
  cpu_ok u -> 512 <= rsp0 < 2 ^ 64 ->
  call_ok k (saved_registers (mem (exec timer_entry (interrupt rsp0 kernel_cs u)))
                             (gpr (exec timer_entry (interrupt rsp0 kernel_cs u)) RDI)) ra ->
  regs_of (exec call_process k) = regs_of u /\
  cs (exec call_process k) = gpr k RDX /\ ss (exec call_process k) = gpr k RSI /\
  load8 (mem (exec call_process k)) (gpr k R8) = 2.
Proof.
  intros Hu Hr. rewrite (timer_saves u rsp0 kernel_cs Hu Hr _ eq_refl). intros Hk.
  by destruct (call_process_spec k _ ra _ Hk eq_refl) as (? & ? & ? & _ & ? & _).
Qed.

(** The timer interrupt is transparent when it does not preempt: if
    [timer_handler] returns with its stack as it found it, the interrupted
    program goes on with every register, [rip], [rflags] and segment it had. *)
Theorem timer_transparent (u : Cpu) (rsp0 kernel_cs : Z) (c : Cpu) :
  cpu_ok u -> 512 <= rsp0 < 2 ^ 64 ->
  gpr c RSP = gpr (exec timer_entry (interrupt rsp0 kernel_cs u)) RSP ->
  agree (gpr c RSP) (rsp0 - rsp0 mod 16) (mem (exec timer_entry (interrupt rsp0 kernel_cs u))) (mem c) ->
  regs_of (exec timer_exit c) = regs_of u /\ cs (exec timer_exit c) = cs u /\
  ss (exec timer_exit c) = ss u.
Proof.
  intros Hu Hr Hs Hag. rewrite Hs in Hag.
  by destruct (timer_returns u rsp0 kernel_cs Hu Hr _ c _ eq_refl Hs Hag eq_refl) as (? & ? & ? & _).
Qed.

(** C32: leaving a process returns to the kernel as if [call_process] had
    returned: when the handler jumps to the [kernel_rsp] that [call_process]
    stored and to [return_process], the registers [call_process] saved, the stack
    pointer and the return address are those of the caller, provided nobody
    wrote to the caller's part of the stack. *)
Theorem kernel_call_return (k : Cpu) (R : Registers) (ra entry : Z) (d : Cpu) :
  call_ok k R ra -> 0 <= entry < 2 ^ 64 -> gpr k RSP + 8 < 2 ^ 64 ->
  agree (gpr k RSP - 96) (gpr k RSP + 8) (mem (exec call_process k)) (mem d) ->
  let kernel_rsp := load64 (mem (exec call_process k)) (gpr k RCX) in
  let e := exec return_process (jump_to kernel_rsp entry d) in
  rip (jump_to kernel_rsp entry d) = entry /\
  (forall r, r ∈ kernel_saved -> gpr e r = gpr k r) /\ gpr e RSP = gpr k RSP + 8 /\ rip e = ra.
Proof.
  intros Hk He Hhi Hag. destruct (call_process_spec k R ra _ Hk eq_refl) as (_ & _ & _ & -> & _ & Hsv).
  destruct Hk as [_ [Hs _] _ _ _ _ _ _ _ _ _ _].
  destruct (jump_to_spec (gpr k RSP - 96) entry d _ eq_refl) as (Hrip & Hsp & Ho); [lia|done|].
  split; [exact Hrip|].
  destruct (return_process_spec k ra (jump_to (gpr k RSP - 96) entry d)
    (exec return_process (jump_to (gpr k RSP - 96) entry d))) as (Hr & Hs' & Hra & _);
    [|lia|lia|reflexivity|].
  - rewrite Hsp. eapply (stack_at_agree _ _ (gpr k RSP - 96) (gpr k RSP + 8)); [|lia| |exact Hsv].
    + etrans; [exact Hag|]. apply Ho. lia.
    + rewrite len_app. change (len (map (gpr k) kernel_saved)) with 12. change (len [ra]) with 1. lia.
  - split_and!; [exact Hr|lia|exact Hra].
Qed.

(** C33: a system call sees its arguments and loses only [r10] and [r11]: the
    handler reads the number from [rax] and the parameters from [rdi], [rsi],
    [rdx], [rcx], [r8] and [r9]; if it respects the calling convention, every
    other register of the process, [rax] included, comes back unchanged, while
    [r10] and [r11] come back with whatever the handler left in them. *)
Theorem syscall_context (u : Cpu) (rsp0 kernel_cs : Z) (c : Cpu) :
  cpu_ok u -> 512 <= rsp0 < 2 ^ 64 ->
  called (rsp0 - rsp0 mod 16) (exec syscall_entry (interrupt rsp0 kernel_cs u)) c ->
  let c0 := exec syscall_entry (interrupt rsp0 kernel_cs u) in
  let c' := exec syscall_exit c in
  syscall_args (mem c0) (gpr c0 RDI) =
    mkSyscallArgs (gpr u RAX) (gpr u RDI) (gpr u RSI) (gpr u RDX) (gpr u RCX) (gpr u R8) (gpr u R9) /\
  (forall r, r <> R10 -> r <> R11 -> gpr c' r = gpr u r) /\
  gpr c' R10 = gpr c R10 /\ gpr c' R11 = gpr c R11 /\
  rip c' = rip u /\ rflags c' = rflags u /\ cs c' = cs u /\ ss c' = ss u.
Proof.
  intros Hu Hr Hc. split; [exact (syscall_args_spec u rsp0 kernel_cs Hu Hr _ eq_refl)|].
  exact (syscall_returns u rsp0 kernel_cs Hu Hr _ c _ eq_refl Hc eq_refl).
Qed.

(** ** Concrete processors *)

Definition demo_user : Cpu :=
  mkCpu (fun r => if reg_eqb r RSP then 0x7000000FFF0 else reg_num r + 100) 0x401000 0x202 0x1B 0x23 ∅.
Definition demo_kernel_mem : memory :=
  foldr (fun '(i, v) m => store64 m (8192 + 8 * i) v) (store64 ∅ 4096 0x1234)
    (zip (range 0 18) (words (regs_of demo_user))).
Definition demo_kernel : Cpu :=
  mkCpu (fun r => match r with
                  | RSP => 4096 | RDI => 8192 | RSI => 0x23 | RDX => 0x1B | RCX => 16384 | R8 => 20000
                  | r => reg_num r + 500
                  end) 0 0x2 8 16 demo_kernel_mem.

Lemma demo_user_ok : cpu_ok demo_user.
Proof. split; [|done..]. intros []; done. Qed.

Lemma demo_call_ok : call_ok demo_kernel (regs_of demo_user) 0x1234.
Proof.
  split.
  - intros []; done.
  - done.
  - vm_compute. reflexivity.
  - intros i v Hi. do 18 (destruct i as [|i]; [vm_compute in Hi |- *; congruence|]). done.
  - repeat (apply Forall_cons_2; [done|]). apply Forall_nil_2.
  - done.
  - right. done.
  - right. done.
  - right. done.
  - right. done.
  - right. done.
  - right. done.
Qed.

Lemma preempt_resume_witness : regs_of (exec call_process demo_kernel) = regs_of demo_user.
Proof.
  refine (proj1 (preempt_resume demo_user 8000 8 demo_kernel 0x1234 demo_user_ok _ _)); [done|].
  rewrite (timer_saves demo_user 8000 8 demo_user_ok ltac:(done) _ eq_refl). exact demo_call_ok.
Defined.

Lemma timer_transparent_witness :
  regs_of (exec timer_exit (exec timer_entry (interrupt 8000 8 demo_user))) = regs_of demo_user.
Proof.
  refine (proj1 (timer_transparent demo_user 8000 8 _ demo_user_ok _ _ _)); [done|reflexivity|].
  intros a _ _. reflexivity.
Defined.

Lemma kernel_call_return_witness :
  gpr (exec return_process (jump_to (load64 (mem (exec call_process demo_kernel)) 16384) 0x5678
    (exec call_process demo_kernel))) RSP = 4104.
Proof.
  refine (proj1 (proj2 (proj2 (kernel_call_return demo_kernel (regs_of demo_user) 0x1234 0x5678
    (exec call_process demo_kernel) demo_call_ok _ _ _)))); [done|done|]. intros a _ _. reflexivity.
Defined.

(** A handler that uses [r10] for itself, as the convention allows. *)
Definition demo_handler (c : Cpu) : Cpu := set_reg c R10 0.

Lemma demo_handler_called hi c : called hi c (demo_handler c).
Proof.
  split; [|by intros a _ _].
  intros r Hr. unfold demo_handler. rewrite gpr_set_reg, decide_False; [done|]. intros ->.
  revert Hr. apply (bool_decide_unpack (R10 ∉ callee_saved)). by vm_compute.
Qed.

Lemma demo_handler_r10 c : gpr (demo_handler c) R10 = 0.
Proof. done. Qed.

Lemma syscall_context_witness :
  gpr (exec syscall_exit (demo_handler (exec syscall_entry (interrupt 8000 8 demo_user)))) R10 = 0 /\
  gpr demo_user R10 = 108.
Proof.
  split; [|reflexivity]. etrans; [|apply demo_handler_r10].
  exact (proj1 (proj2 (proj2 (syscall_context demo_user 8000 8 _ demo_user_ok
    (conj (Zle_bool_imp_le 512 8000 eq_refl) eq_refl) (demo_handler_called _ _))))).
Defined.
