(* ===== verification/PageTables.v ===== *)
(** * Page tables as trees ([processes/process.rs], [memory/paging.rs])

    Where the kernel does not go through the [Mapper] it walks the four levels
    of page tables itself: to set up the table of a new process, to give back
    the frames of one that exits, and to look up an entry.  A table is the
    512 entries in its frame, which is reached at a fixed offset (HHDM).  The
    entries are values of the [x86_64] crate. *)

From S2P Require Import Prelude Frames FrameStore.

(** [PageTableEntry]: [is_unused], [addr], and [frame], an error for an entry
    that is not present or maps a huge page; [unused] is what [zero] and
    [set_unused] leave. *)
Class PageTableEntry (F E : Type) := {
  is_unused : E -> bool;
  entry_addr : E -> Z;
  entry_frame : E -> option F;
  unused : E
}.
Class PageTableEntryLaws (F E : Type) `{PageTableEntry F E} := {
  is_unused_unused : is_unused unused = true
}.

Definition TABLE_ENTRIES : Z := 512.

(** The frame allocator and the tables in memory, by the address of their frame. *)
Record Tables (G E : Type) := mkTables { t_frames : G; t_tables : gmap Z (list E) }.
Arguments mkTables {G E}.
Arguments t_frames {G E}.
Arguments t_tables {G E}.

Section tables.
Context {F G E : Type} `{PhysFrames F} `{FrameStore F G} `{PageTableEntry F E}.
Abbreviation MP := (M (Tables G E) no_error).

Definition with_table (s : Tables G E) (frame : F) (es : list E) : Tables G E :=
  mkTables (t_frames s) (<[start_address frame := es]> (t_tables s)).

Definition take_frame : MP (option F) :=
  zoom t_frames (fun g s => mkTables g (t_tables s)) store_alloc.
Definition give_frame (frame : F) : MP unit :=
  zoom t_frames (fun g s => mkTables g (t_tables s)) (store_dealloc frame).

(** The entry at an index of the table in a frame, read and written. *)
Definition get_entry (frame : F) (i : Z) : MP E :=
  let! s := get_state in
  let! es := expect (t_tables s !! start_address frame) in
  expect (idx es i).
Definition set_entry (frame : F) (i : Z) (e : E) : MP unit :=
  let! s := get_state in
  let! es := expect (t_tables s !! start_address frame) in
  let! _ := expect (idx es i) in
  put_state (with_table s frame (upd es i e)).

(** [create_process_page_table]; [kernel] is the table [MAPPER] was made with. *)
Definition create_process_page_table (kernel : F) : MP F :=
  let! frame := take_frame in
  let! frame := expect frame in
  let! s := get_state in
  put_state (with_table s frame (vec unused TABLE_ENTRIES)) ;!
  for_do (range 256 512) (fun i =>
    let! e := get_entry kernel i in set_entry frame i e) ;!
  ret frame.

(** [free_page_table]. *)
Fixpoint free_page_table (level : nat) (frame : F) : MP unit :=
  for_do (range 0 TABLE_ENTRIES) (fun i =>
    let! entry := get_entry frame i in
    if is_unused entry then ret tt else
    let! child := expect (containing_address (entry_addr entry)) in
    match level with
    | S ((S _) as level') => free_page_table level' child
    | _ => give_frame child
    end ;!
    set_entry frame i unused) ;!
  give_frame frame.

(** [clear_process_frames]. *)
Definition clear_process_frames (pml4_frame : F) : MP unit :=
  for_do (range 0 256) (fun i =>
    let! entry := get_entry pml4_frame i in
    if is_unused entry then ret tt else
    let! pdpt_frame := expect (containing_address (entry_addr entry)) in
    free_page_table 3 pdpt_frame) ;!
  give_frame pml4_frame.

(** [get_page_table_entry]: [p4_index] and the like are nine bits of the page's
    address each. *)
Definition page_index (level vaddr : Z) : Z := Z.land (Z.shiftr vaddr (12 + 9 * (level - 1))) 511.
Definition get_page_table_entry (pml4 : F) (vaddr : Z) : MP (option E) :=
  let! p4_entry := get_entry pml4 (page_index 4 vaddr) in
  let! p3_frame := expect (entry_frame p4_entry) in
  let! p3_entry := get_entry p3_frame (page_index 3 vaddr) in
  let! p2_frame := expect (entry_frame p3_entry) in
  let! p2_entry := get_entry p2_frame (page_index 2 vaddr) in
  let! p1_frame := expect (entry_frame p2_entry) in
  let! pte := get_entry p1_frame (page_index 1 vaddr) in
  ret (Some pte).

(** ** The frames of an address space *)

(** The frames a table of a level reaches, in the order they are given back:
    the frames below each entry in use, then the table's own.  [None] if a
    table is missing. *)
Definition below_entry (sub : F -> option (list F)) (leaf : bool) (e : E) : option (list F) :=
  if is_unused e then Some [] else
  child ← containing_address (entry_addr e);
  if leaf then Some [child] else sub child.
Fixpoint tree_frames (ts : gmap Z (list E)) (level : nat) (frame : F) : option (list F) :=
  es ← ts !! start_address frame;
  fss ← mapM (below_entry (match level with S ((S _) as level') => tree_frames ts level' | _ => fun _ => None end)
                          (match level with S (S _) => false | _ => true end)) es;
  Some (concat fss ++ [frame]).

(** The frames of a process: those below the lower half of its top table. *)
Definition process_frames (ts : gmap Z (list E)) (pml4_frame : F) : option (list F) :=
  es ← ts !! start_address pml4_frame;
  fss ← mapM (below_entry (tree_frames ts 3) false) (take 256 es);
  Some (concat fss ++ [pml4_frame]).
End tables.

(** ** Giving back a tree *)

Section freeing.
Context {F G E : Type} `{PhysFramesLaws F} `{!FrameStore F G, !FrameStoreLaws F G} `{PageTableEntryLaws F E}.
Implicit Types (s : Tables G E) (ts : gmap Z (list E)) (f frame : F) (fs touched : list F).

Definition numbers (fs : list F) : gset Z := list_to_set (map frame_number fs).

Lemma numbers_nil : numbers [] = ∅.
Proof. done. Qed.

(** Every table in memory has all its entries. *)
Definition full_tables s : Prop := forall a es, t_tables s !! a = Some es -> len es = TABLE_ENTRIES.

(** The frames can be given back: they are distinct, exist and are not free. *)
Definition can_free fs s : Prop :=
  NoDup fs /\ forall f, f ∈ fs -> frame_number f < total (t_frames s) /\ (frame_number f ∉ avail (t_frames s)).

(** [fs] were given back, and no table outside [touched] changed. *)
Record freed fs touched s s' : Prop := {
  fr_avail : avail (t_frames s') = numbers fs ∪ avail (t_frames s);
  fr_total : total (t_frames s') = total (t_frames s);
  fr_tables f : f ∉ touched -> t_tables s' !! start_address f = t_tables s !! start_address f;
  fr_full : full_tables s'
}.

Lemma freed_trans fs1 fs2 t1 t2 s1 s2 s3 :
  freed fs1 t1 s1 s2 -> freed fs2 t2 s2 s3 -> freed (fs1 ++ fs2) (t1 ++ t2) s1 s3.
Proof.
  intros [A1 T1 U1 _] [A2 T2 U2 F2]. split; [|congruence| |done].
  - unfold numbers. rewrite A2, A1, map_app, list_to_set_app_L. unfold numbers. set_solver.
  - intros f [? ?]%not_elem_of_app. by rewrite U2, U1.
Qed.

Lemma freed_weaken fs t1 t2 s1 s2 : (forall f, f ∈ t1 -> f ∈ t2) -> freed fs t1 s1 s2 -> freed fs t2 s1 s2.
Proof. intros Hsub [? ? U ?]. split; [done|done| |done]. intros f Hf. apply U. auto. Qed.

Lemma freed_snoc fs f s1 s2 s3 :
  freed fs (f :: fs) s1 s2 -> freed [f] [] s2 s3 -> freed (fs ++ [f]) (fs ++ [f]) s1 s3.
Proof.
  intros Hf1 Hf2. eapply freed_weaken; [|exact (freed_trans _ _ _ _ _ _ _ Hf1 Hf2)]. clear. set_solver.
Qed.

Lemma freed_nil s : full_tables s -> freed [] [] s s.
Proof. intros. split; try done. by rewrite numbers_nil, (left_id_L ∅ (∪)). Qed.

Lemma can_free_app fs1 fs2 s : can_free (fs1 ++ fs2) s -> can_free fs1 s.
Proof. intros [(Hn & _ & _)%NoDup_app Hf]. split; [done|]. intros f Hin. apply Hf, elem_of_app. by left. Qed.

Lemma can_free_after fs1 fs2 t s s' :
  can_free (fs1 ++ fs2) s -> freed fs1 t s s' -> can_free fs2 s'.
Proof.
  intros [(_ & Hd & Hn)%NoDup_app Hf] [A T _ _]. split; [done|]. intros f Hin.
  destruct (Hf f) as [Hlt Hno]; [apply elem_of_app; by right|]. rewrite T, A. split; [done|].
  intros [Hi|Hi]%elem_of_union; [|done].
  unfold numbers in Hi. apply elem_of_list_to_set, list_elem_of_fmap in Hi as (g & Eg & Hg).
  apply frame_number_inj in Eg as ->. by apply (Hd g).
Qed.

Lemma give_frame_freed n f s :
  full_tables s -> can_free [f] s -> ready (S n) (t_frames s) ->
  exists s', give_frame f s = (Ok tt, s') /\ freed [f] [] s s' /\ ready n (t_frames s') /\ t_tables s' = t_tables s.
Proof.
  intros Hfull [_ Hf] Hr. destruct (Hf f) as [Hlt Hno]; [by left|].
  destruct (store_dealloc_law n (t_frames s) f Hr Hlt Hno) as (g & E1 & Ha & Ht & Hr').
  exists (mkTables g (t_tables s)). split_and!; [|split; try done|done|done].
  - unfold give_frame. by rewrite (zoom_ok _ _ _ s _ _ E1).
  - cbn. rewrite Ha. unfold numbers. cbn. set_solver.
Qed.

Lemma get_entry_ok frame es i e s :
  t_tables s !! start_address frame = Some es -> idx es i = Some e -> get_entry frame i s = (Ok e, s).
Proof. intros Ht Hi. unfold get_entry. rewrite bind_get, (bind_expect _ es) by done. by rewrite Hi. Qed.

Lemma set_entry_ok frame es i e e' s :
  full_tables s -> t_tables s !! start_address frame = Some es -> idx es i = Some e ->
  exists s', set_entry frame i e' s = (Ok tt, s') /\ freed [] [frame] s s' /\ t_frames s' = t_frames s /\
    t_tables s' !! start_address frame = Some (upd es i e').
Proof.
  intros Hfull Ht Hi. exists (with_table s frame (upd es i e')). split_and!; [| |done|by apply lookup_insert_eq].
  - unfold set_entry. rewrite bind_get, (bind_expect _ es), (bind_expect _ e) by done. done.
  - split; [by rewrite numbers_nil, (left_id_L ∅ (∪))|done|cbn|cbn].
    + intros f Hf. apply lookup_insert_ne. intros Heq%frame_inj. apply Hf. rewrite Heq. by left.
    + intros a es'. cbn. intros [[_ <-]|[_ Ha]]%lookup_insert_Some; [rewrite len_upd|]; by eapply Hfull.
Qed.

(** The frames of a tree depend on the tables in these frames only. *)
Lemma below_entry_ext (sub sub' : F -> option (list F)) leaf e l :
  (forall c l', (forall f, f ∈ l' -> f ∈ l) -> sub c = Some l' -> sub' c = Some l') ->
  below_entry sub leaf e = Some l -> below_entry sub' leaf e = Some l.
Proof.
  unfold below_entry. intros Hs. destruct (is_unused e); [done|].
  destruct (containing_address (entry_addr e)) as [c|]; [|done]. cbn. destruct leaf; [done|]. by apply Hs.
Qed.

Lemma mapM_below_ext (sub sub' : F -> option (list F)) leaf es fss :
  (forall c l, (forall f, f ∈ l -> f ∈ concat fss) -> sub c = Some l -> sub' c = Some l) ->
  mapM (below_entry sub leaf) es = Some fss -> mapM (below_entry sub' leaf) es = Some fss.
Proof.
  intros Hs Hm%mapM_Some. apply mapM_Some. induction Hm as [|e l es fss He _ IH]; constructor.
  - eapply below_entry_ext; [|exact He]. intros c l' Hl'. apply Hs. intros f Hf. apply elem_of_app. left. auto.
  - apply IH. intros c l' Hl'. apply Hs. intros f Hf. apply elem_of_app. right. auto.
Qed.

Lemma tree_frames_ext ts ts' level : forall f l,
  tree_frames ts level f = Some l ->
  (forall g, g ∈ l -> ts' !! start_address g = ts !! start_address g) -> tree_frames ts' level f = Some l.
Proof.
  induction level as [|level IH]; intros f l; cbn [tree_frames];
    (destruct (ts !! start_address f) as [es|] eqn:Et; [|done]); cbn [mbind option_bind];
    (destruct (mapM _ es) as [fss|] eqn:Em; [|done]); cbn [mbind option_bind]; intros Hl Hsame; injection Hl as <-;
    (rewrite Hsame by (apply elem_of_app; right; by left)); rewrite Et; cbn [mbind option_bind].
  - rewrite (mapM_below_ext _ _ _ _ _ ltac:(by intros c l' _) Em). done.
  - erewrite mapM_below_ext; [done| |exact Em]. destruct level as [|level]; [done|].
    intros c l' Hl' Hc. apply (IH c l' Hc). intros g Hg. apply Hsame, elem_of_app. left. auto.
Qed.

(** A loop over entries whose body gives back what is below each. *)
Section loop.
Context (frame : F) (sub : gmap Z (list E) -> F -> option (list F)) (leaf : bool)
  (body : Z -> M (Tables G E) no_error unit).

Definition frees_entry : Prop := forall i es e l n s,
  full_tables s -> t_tables s !! start_address frame = Some es -> 0 <= i -> idx es i = Some e ->
  below_entry (sub (t_tables s)) leaf e = Some l -> can_free l s -> frame ∉ l -> ready (length l + n) (t_frames s) ->
  exists s' es', body i s = (Ok tt, s') /\ freed l (frame :: l) s s' /\ ready n (t_frames s') /\
    t_tables s' !! start_address frame = Some es' /\ (forall j, i < j -> idx es' j = idx es j).

Definition sub_local : Prop := forall ts ts' c l, sub ts c = Some l ->
  (forall g, g ∈ l -> ts' !! start_address g = ts !! start_address g) -> sub ts' c = Some l.

Lemma free_loop : frees_entry -> sub_local -> forall rest i es fss n s,
  full_tables s -> t_tables s !! start_address frame = Some es -> 0 <= i ->
  (forall j, 0 <= j < len rest -> idx es (i + j) = idx rest j) ->
  mapM (below_entry (sub (t_tables s)) leaf) rest = Some fss ->
  can_free (concat fss) s -> frame ∉ concat fss -> ready (length (concat fss) + n) (t_frames s) ->
  exists s', for_do (range i (i + len rest)) body s = (Ok tt, s') /\
    freed (concat fss) (frame :: concat fss) s s' /\ ready n (t_frames s').
Proof.
  intros Hbody Hsub. induction rest as [|e rest IH]; intros i es fss n s Hfull Ht Hi Hes Hm Hcan Hno Hr.
  { injection Hm as <-. exists s. rewrite range_nil by (unfold len; cbn; lia).
    split_and!; [done| |done].
    apply (freed_weaken [] []); [by intros f ?%not_elem_of_nil|by apply freed_nil]. }
  assert (len (e :: rest) = 1 + len rest) as El by (unfold len; cbn; lia). pose proof (len_nonneg rest).
  apply mapM_Some in Hm. inversion Hm as [|e' l rest' fss' He Hrest]; subst. cbn [concat] in *.
  rewrite length_app, <- Nat.add_assoc in Hr. apply not_elem_of_app in Hno as [Hno1 Hno2].
  assert (idx es i = Some e) as Hie by (by rewrite <- (Z.add_0_r i), Hes by lia).
  destruct (Hbody i es e l _ s Hfull Ht Hi Hie He (can_free_app _ _ _ Hcan) Hno1 Hr)
    as (s1 & es1 & E1 & Hf1 & Hr1 & Ht1 & Hes1).
  destruct (IH (i + 1) es1 fss' n s1) as (s2 & E2 & Hf2 & Hr2); try done.
  - apply (fr_full _ _ _ _ Hf1).
  - lia.
  - intros j Hj. rewrite Hes1 by lia. replace (i + 1 + j) with (i + (1 + j)) by lia. rewrite Hes by lia.
    unfold idx. by replace (Z.to_nat (1 + j)) with (S (Z.to_nat j)) by lia.
  - apply mapM_Some in Hrest. eapply mapM_below_ext; [|exact Hrest]. intros c l' Hl' Hc.
    apply (Hsub (t_tables s) _ c l' Hc). intros g Hg. apply (fr_tables _ _ _ _ Hf1).
    apply Hl' in Hg. intros [->|Hg']%elem_of_cons; [done|].
    destruct Hcan as [(_ & Hd & _)%NoDup_app _]. by apply (Hd g).
  - by eapply can_free_after.
  - exists s2. split_and!; [|eapply freed_weaken; [|by eapply freed_trans]; set_solver|done].
    rewrite range_cons by lia. replace (i + len (e :: rest)) with (i + 1 + len rest) by lia.
    cbn [for_do]. by rewrite (bind_ok _ _ _ _ _ E1).
Qed.
End loop.

(** What is below a table of a level. *)
Definition sub_frames (level : nat) ts : F -> option (list F) :=
  match level with S ((S _) as level') => tree_frames ts level' | _ => fun _ => None end.
Definition is_leaf (level : nat) : bool := match level with S (S _) => false | _ => true end.
Definition free_below (level : nat) (child : F) : M (Tables G E) no_error unit :=
  match level with S ((S _) as level') => free_page_table level' child | _ => give_frame child end.
Definition free_entry (level : nat) (frame : F) (i : Z) : M (Tables G E) no_error unit :=
  let! entry := get_entry frame i in
  if is_unused entry then ret tt else
  let! child := expect (containing_address (entry_addr entry)) in
  free_below level child ;! set_entry frame i unused.

Lemma free_page_table_eq level frame :
  free_page_table level frame =
  (for_do (range 0 TABLE_ENTRIES) (free_entry level frame) ;! give_frame frame).
Proof. by destruct level. Qed.

Lemma tree_frames_eq ts level frame :
  tree_frames ts level frame =
  (es ← ts !! start_address frame; fss ← mapM (below_entry (sub_frames level ts) (is_leaf level)) es;
   Some (concat fss ++ [frame])).
Proof. by destruct level. Qed.

Lemma sub_frames_local level : sub_local (sub_frames level).
Proof. intros ts ts' c l. destruct level as [|[|level]]; [done|done|]. apply tree_frames_ext. Qed.

(** Giving back a tree, for a level at which [free_below] gives back the trees. *)
Definition frees_below (level : nat) : Prop := forall child l n s,
  full_tables s -> (if is_leaf level then Some [child] else sub_frames level (t_tables s) child) = Some l ->
  can_free l s -> ready (length l + n) (t_frames s) ->
  exists s', free_below level child s = (Ok tt, s') /\ freed l l s s' /\ ready n (t_frames s').

Lemma free_entry_frees level frame : frees_below level ->
  frees_entry frame (sub_frames level) (is_leaf level) (free_entry level frame).
Proof.
  intros Hb i es e l n s Hfull Ht Hi He Hl Hcan Hno Hr. unfold free_entry.
  rewrite (bind_ok _ _ _ _ _ (get_entry_ok frame es i e s Ht He)). unfold below_entry in Hl.
  destruct (is_unused e).
  { injection Hl as <-. exists s, es. split_and!; try done.
    apply (freed_weaken [] []); [by intros f ?%not_elem_of_nil|by apply freed_nil]. }
  destruct (containing_address (entry_addr e)) as [child|]; [|done]. cbn [mbind option_bind] in Hl.
  rewrite (bind_expect _ child) by done.
  destruct (Hb child l n s Hfull Hl Hcan Hr) as (s1 & E1 & Hf1 & Hr1). rewrite (bind_ok _ _ _ _ _ E1).
  destruct (set_entry_ok frame es i e unused s1) as (s2 & E2 & Hf2 & Hfr & Ht2); [apply Hf1| |done|].
  { by rewrite (fr_tables _ _ _ _ Hf1). }
  exists s2, (upd es i unused). split_and!; [done| |by rewrite Hfr|done|].
  - rewrite <- (app_nil_r l) at 1. eapply freed_weaken; [|by eapply freed_trans]. set_solver.
  - intros j Hj. apply idx_upd_ne; lia.
Qed.

Lemma give_tree level frame : frees_below level -> forall fs n s,
  full_tables s -> tree_frames (t_tables s) level frame = Some fs -> can_free fs s ->
  ready (length fs + n) (t_frames s) ->
  exists s', free_page_table level frame s = (Ok tt, s') /\ freed fs fs s s' /\ ready n (t_frames s').
Proof.
  intros Hb fs n s Hfull Hfs Hcan Hr. rewrite tree_frames_eq in Hfs.
  destruct (t_tables s !! start_address frame) as [es|] eqn:Et; [|done]. cbn [mbind option_bind] in Hfs.
  destruct (mapM _ es) as [fss|] eqn:Em; [|done]. cbn [mbind option_bind] in Hfs. injection Hfs as <-.
  rewrite length_app, <- Nat.add_assoc in Hr. pose proof Hcan as [(_ & Hd & _)%NoDup_app _].
  destruct (free_loop frame (sub_frames level) (is_leaf level) (free_entry level frame)
    (free_entry_frees level frame Hb) (sub_frames_local level) es 0 es fss (1 + n) s) as (s1 & E1 & Hf1 & Hr1); try done.
  { by eapply can_free_app. }
  { intros Hin. by apply (Hd frame Hin), list_elem_of_here. }
  destruct (give_frame_freed n frame s1) as (s2 & E2 & Hf2 & Hr2 & _); [apply Hf1|by eapply can_free_after|done|].
  exists s2. split_and!; [|by apply (freed_snoc _ _ _ s1)|done].
  rewrite free_page_table_eq. rewrite Z.add_0_l, (Hfull _ _ Et) in E1. by rewrite (bind_ok _ _ _ _ _ E1).
Qed.

Lemma free_below_frees level : frees_below level.
Proof.
  assert (forall level, is_leaf level = true -> frees_below level) as Hleaf.
  { intros lv Hlv child l n s Hfull Hl Hcan Hr. rewrite Hlv in Hl. injection Hl as <-.
    destruct (give_frame_freed n child s Hfull Hcan Hr) as (s' & E1 & Hf & Hr' & _).
    exists s'. split_and!; [by destruct lv as [|[|]]| |done]. eapply freed_weaken; [|done]. set_solver. }
  induction level as [|level IH]; [by apply Hleaf|]. destruct level as [|level]; [by apply Hleaf|].
  intros child l n s Hfull Hl Hcan Hr. by apply (give_tree (S level)).
Qed.

(** The loop body of [clear_process_frames]. *)
Lemma clear_entry_frees pml4_frame :
  frees_entry pml4_frame (fun ts => tree_frames ts 3) false (fun i =>
    let! entry := get_entry pml4_frame i in
    if is_unused entry then ret tt else
    let! pdpt_frame := expect (containing_address (entry_addr entry)) in
    free_page_table 3 pdpt_frame).
Proof.
  intros i es e l n s Hfull Ht Hi He Hl Hcan Hno Hr.
  rewrite (bind_ok _ _ _ _ _ (get_entry_ok pml4_frame es i e s Ht He)). unfold below_entry in Hl.
  destruct (is_unused e).
  { injection Hl as <-. exists s, es. split_and!; try done.
    apply (freed_weaken [] []); [by intros f ?%not_elem_of_nil|by apply freed_nil]. }
  destruct (containing_address (entry_addr e)) as [child|]; [|done]. cbn [mbind option_bind] in Hl.
  rewrite (bind_expect _ child) by done.
  destruct (give_tree 3 child (free_below_frees 3) l n s Hfull Hl Hcan Hr) as (s1 & E1 & Hf1 & Hr1).
  exists s1, es. split_and!; [done| |done| |done].
  - apply (freed_weaken l l); [intros f Hf; by right|done].
  - by rewrite (fr_tables _ _ _ _ Hf1).
Qed.

Lemma clear_process_frames_freed (n : nat) (pml4_frame : F) fs s :
  full_tables s -> process_frames (t_tables s) pml4_frame = Some fs -> can_free fs s ->
  ready (length fs + n) (t_frames s) ->
  exists s', clear_process_frames pml4_frame s = (Ok tt, s') /\ freed fs fs s s' /\ ready n (t_frames s').
Proof.
  intros Hfull Hfs Hcan Hr. unfold process_frames in Hfs.
  destruct (t_tables s !! start_address pml4_frame) as [es|] eqn:Et; [|done]. cbn [mbind option_bind] in Hfs.
  destruct (mapM _ _) as [fss|] eqn:Em; [|done]. cbn [mbind option_bind] in Hfs. injection Hfs as <-.
  rewrite length_app, <- Nat.add_assoc in Hr. pose proof Hcan as [(_ & Hd & _)%NoDup_app _].
  pose proof (Hfull _ _ Et) as Hlen.
  assert (len (take 256 es) = 256) as Hl2 by (unfold len, TABLE_ENTRIES in *; rewrite length_take; lia).
  destruct (free_loop pml4_frame (fun ts => tree_frames ts 3) false _ (clear_entry_frees pml4_frame)
    (fun ts ts' => tree_frames_ext ts ts' 3) (take 256 es) 0 es fss (1 + n) s) as (s1 & E1 & Hf1 & Hr1); try done.
  { intros j Hj. rewrite Z.add_0_l. unfold idx. rewrite lookup_take_lt by lia. done. }
  { by eapply can_free_app. }
  { intros Hin. by apply (Hd pml4_frame Hin), list_elem_of_here. }
  destruct (give_frame_freed n pml4_frame s1) as (s2 & E2 & Hf2 & Hr2 & _); [apply Hf1|by eapply can_free_after|done|].
  exists s2. split_and!; [|by apply (freed_snoc _ _ _ s1)|done].
  rewrite Hl2 in E1. unfold clear_process_frames. by rewrite (bind_ok _ _ _ _ _ E1).
Qed.

(** C14: [clear_process_frames] on the page tables of a process, when they form a
    tree of frames that are in use: it terminates and gives back each frame of
    the tree below the lower half of the top table exactly once, then the top
    table, and nothing else; no table outside the tree changes, the kernel's
    tables that the upper half refers to included. *)
Theorem clear_process_frames_exact (n : nat) (pml4_frame : F) (fs : list F) (s : Tables G E) :
  full_tables s -> process_frames (t_tables s) pml4_frame = Some fs -> can_free fs s ->
  ready (length fs + n) (t_frames s) ->
  exists s', clear_process_frames pml4_frame s = (Ok tt, s') /\
    avail (t_frames s') = numbers fs ∪ avail (t_frames s) /\
    (forall f, f ∉ fs -> t_tables s' !! start_address f = t_tables s !! start_address f) /\
    full_tables s' /\ ready n (t_frames s').
Proof.
  intros Hfull Hfs Hcan Hr.
  destruct (clear_process_frames_freed n pml4_frame fs s Hfull Hfs Hcan Hr) as (s' & E1 & [A T U V] & Hr').
  by exists s'.
Qed.

(** Copying the kernel's half of the top table. *)
Lemma copy_entries_ok kernel frame kes : kernel <> frame -> len kes = TABLE_ENTRIES ->
  forall m i es s, i + Z.of_nat m = TABLE_ENTRIES -> 0 <= i -> full_tables s ->
  t_tables s !! start_address kernel = Some kes -> t_tables s !! start_address frame = Some es ->
  exists s' es', for_do (range i TABLE_ENTRIES) (fun i => let! e := get_entry kernel i in set_entry frame i e) s = (Ok tt, s') /\
    t_tables s' !! start_address frame = Some es' /\ t_frames s' = t_frames s /\
    (forall j, 0 <= j < TABLE_ENTRIES -> idx es' j = if i <=? j then idx kes j else idx es j) /\
    (forall f, f <> frame -> t_tables s' !! start_address f = t_tables s !! start_address f) /\ full_tables s'.
Proof.
  intros Hne Hk. induction m as [|m IH]; intros i es s Hi Hpos Hfull Hks Hfs.
  { exists s, es. rewrite range_nil by lia. split_and!; try done. intros j Hj. by replace (i <=? j) with false by lia. }
  rewrite range_cons by lia. cbn [for_do].
  destruct (idx_is_Some kes i) as [e He]; [lia|].
  destruct (idx_is_Some es i) as [e0 He0]; [rewrite (Hfull _ _ Hfs); lia|].
  rewrite bind_assoc, (bind_ok _ _ _ _ _ (get_entry_ok kernel kes i e s Hks He)).
  destruct (set_entry_ok frame es i e0 e s Hfull Hfs He0) as (s1 & E1 & Hf1 & Hfr1 & Ht1).
  rewrite (bind_ok _ _ _ _ _ E1).
  destruct (IH (i + 1) (upd es i e) s1) as (s2 & es2 & E2 & Ht2 & Hfr2 & Hes2 & Ho2 & Hfull2); try done; [lia|lia| | |].
  { apply Hf1. }
  { rewrite (fr_tables _ _ _ _ Hf1); [done|]. by intros ->%list_elem_of_singleton. }
  exists s2, es2. split_and!; [done|done|congruence| |..|done].
  - intros j Hj. rewrite Hes2 by done. pose proof (Hfull _ _ Hfs). destruct (decide (j = i)) as [->|].
    + replace (i + 1 <=? i) with false by lia. rewrite idx_upd_eq by lia. by replace (i <=? i) with true by lia.
    + rewrite idx_upd_ne by lia. by replace (i + 1 <=? j) with (i <=? j) by lia.
  - intros f Hf. rewrite Ho2 by done. apply (fr_tables _ _ _ _ Hf1). by intros ->%list_elem_of_singleton.
Qed.

(** A new address space: the lower half empty, the upper half the kernel's. *)
Lemma create_process_page_table_ok n kernel kes s :
  full_tables s -> t_tables s !! start_address kernel = Some kes -> frame_number kernel ∉ avail (t_frames s) ->
  ready (S n) (t_frames s) ->
  exists frame s' es, create_process_page_table kernel s = (Ok frame, s') /\
    frame_number frame ∈ avail (t_frames s) /\ frame_number frame < total (t_frames s) /\
    avail (t_frames s') = avail (t_frames s) ∖ {[frame_number frame]} /\ total (t_frames s') = total (t_frames s) /\
    t_tables s' !! start_address frame = Some es /\ len es = TABLE_ENTRIES /\
    (forall j, 0 <= j < TABLE_ENTRIES -> idx es j = if 256 <=? j then idx kes j else Some unused) /\
    (forall f, f <> frame -> t_tables s' !! start_address f = t_tables s !! start_address f) /\
    full_tables s' /\ ready n (t_frames s').
Proof.
  intros Hfull Hk Hno Hr. destruct (alloc_fresh n (t_frames s) Hr) as (frame & g & E1 & Hin & _ & _ & Ha & Hlt & Htot & Hr').
  assert (kernel <> frame) as Hne by (intros ->; done).
  set (s1 := mkTables g (t_tables s)). set (s2 := with_table s1 frame (vec unused TABLE_ENTRIES)).
  assert (full_tables s2) as Hfull2.
  { intros a es. cbn. intros [[_ <-]|[_ Hl]]%lookup_insert_Some; [by apply len_vec|by eapply Hfull]. }
  assert (forall f, f <> frame -> t_tables s2 !! start_address f = t_tables s !! start_address f) as Ho2.
  { intros f Hf. cbn. apply lookup_insert_ne. by intros Heq%frame_inj. }
  destruct (copy_entries_ok kernel frame kes Hne (Hfull _ _ Hk) 256 256 (vec unused TABLE_ENTRIES) s2)
    as (s3 & es & E3 & Ht3 & Hfr3 & Hes & Ho3 & Hfull3); try done; [by rewrite Ho2|by apply lookup_insert_eq|].
  exists frame, s3, es. split_and!; try done; try (by rewrite Hfr3).
  - unfold create_process_page_table, take_frame. rewrite (bind_ok _ _ _ _ _ (zoom_ok _ _ _ s _ _ E1)). fold s1.
    rewrite (bind_expect _ frame) by done. rewrite bind_get, bind_put. fold s2.
    by rewrite (bind_ok _ _ _ _ _ E3).
  - by apply (Hfull3 _ _ Ht3).
  - intros j Hj. rewrite Hes by done. destruct (256 <=? j); [done|]. apply idx_vec. done.
  - intros f Hf. by rewrite Ho3, Ho2.
Qed.

(** Unused entries reach nothing. *)
Lemma below_unused (sub : F -> option (list F)) leaf m :
  exists fss, mapM (below_entry sub leaf) (replicate m unused) = Some fss /\ concat fss = [].
Proof.
  exists (replicate m []). split; [|by induction m]. apply mapM_Some, Forall2_replicate.
  unfold below_entry. by rewrite is_unused_unused.
Qed.

Lemma below_single (sub : F -> option (list F)) (leaf : bool) (e : E) m child l :
  is_unused e = false -> containing_address (entry_addr e) = Some child ->
  (if leaf then Some [child] else sub child) = Some l ->
  exists fss, mapM (below_entry sub leaf) (e :: replicate m unused) = Some fss /\ concat fss = l.
Proof.
  intros Hu Hc Hl. destruct (below_unused sub leaf m) as (fss & Em & Ec). exists (l :: fss).
  split; [|cbn; by rewrite Ec, app_nil_r]. apply mapM_Some. constructor; [|by apply mapM_Some].
  unfold below_entry. rewrite Hu, Hc. exact Hl.
Qed.

Lemma tree_frames_single ts level frame (e : E) m child l :
  ts !! start_address frame = Some (e :: replicate m unused) -> is_unused e = false ->
  containing_address (entry_addr e) = Some child ->
  (if is_leaf level then Some [child] else sub_frames level ts child) = Some l ->
  tree_frames ts level frame = Some (l ++ [frame]).
Proof.
  intros Ht Hu Hc Hl. rewrite tree_frames_eq, Ht. cbn [mbind option_bind].
  destruct (below_single _ _ e m child l Hu Hc Hl) as (fss & -> & <-). done.
Qed.

Lemma process_frames_single ts frame (e : E) m child l :
  ts !! start_address frame = Some (e :: replicate m unused) -> is_unused e = false ->
  containing_address (entry_addr e) = Some child -> tree_frames ts 3 child = Some l ->
  process_frames ts frame = Some (l ++ [frame]).
Proof.
  intros Ht Hu Hc Hl. unfold process_frames. rewrite Ht. cbn [mbind option_bind]. rewrite firstn_cons, take_replicate.
  destruct (below_single (tree_frames ts 3) false e (255 `min` m) child l Hu Hc Hl) as (fss & -> & <-). done.
Qed.

Lemma process_frames_empty ts frame es :
  ts !! start_address frame = Some es -> len es = TABLE_ENTRIES ->
  (forall j, 0 <= j < 256 -> idx es j = Some unused) -> process_frames ts frame = Some [frame].
Proof.
  intros Ht Hl Hu. unfold process_frames. rewrite Ht. cbn [mbind option_bind].
  assert (take 256 es = replicate 256 unused) as ->.
  { apply list_eq. intros j. destruct (decide (j < 256)%nat).
    - rewrite lookup_take_lt, lookup_replicate_2 by done. specialize (Hu (Z.of_nat j) ltac:(lia)).
      unfold idx in Hu. by rewrite Nat2Z.id in Hu.
    - rewrite !lookup_ge_None_2; [done|rewrite length_replicate; lia|rewrite length_take; lia]. }
  destruct (below_unused (tree_frames ts 3) false 256) as (fss & -> & Ec). cbn. by rewrite Ec.
Qed.

(** The page table of a new process has the kernel's entries in its upper
    half and none in its lower half; clearing it at once gives back its frame
    and leaves the free frames and all other tables as they were. *)
Theorem create_then_clear (n : nat) (kernel : F) (kes : list E) (s : Tables G E) :
  full_tables s -> t_tables s !! start_address kernel = Some kes -> frame_number kernel ∉ avail (t_frames s) ->
  ready (2 + n) (t_frames s) ->
  exists frame s1 es s2, create_process_page_table kernel s = (Ok frame, s1) /\
    t_tables s1 !! start_address frame = Some es /\
    (forall j, 0 <= j < TABLE_ENTRIES -> idx es j = if 256 <=? j then idx kes j else Some unused) /\
    clear_process_frames frame s1 = (Ok tt, s2) /\ avail (t_frames s2) = avail (t_frames s) /\
    (forall f, f <> frame -> t_tables s2 !! start_address f = t_tables s !! start_address f).
Proof.
  intros Hfull Hk Hno Hr.
  destruct (create_process_page_table_ok (1 + n) kernel kes s Hfull Hk Hno Hr)
    as (frame & s1 & es & E1 & Hin & Hlt & Ha & Htot & Ht & Hl & Hes & Ho & Hfull1 & Hr1).
  assert (process_frames (t_tables s1) frame = Some [frame]) as Hpf.
  { apply (process_frames_empty _ _ es Ht Hl). intros j Hj. rewrite Hes by (unfold TABLE_ENTRIES; lia).
    by replace (256 <=? j) with false by lia. }
  destruct (clear_process_frames_freed n frame [frame] s1 Hfull1 Hpf) as (s2 & E2 & [A2 T2 U2 _] & Hr2); [|done|].
  { split; [apply NoDup_singleton|]. intros f ->%list_elem_of_singleton. rewrite Htot, Ha. split; [done|set_solver]. }
  exists frame, s1, es, s2. split_and!; try done.
  - rewrite A2, Ha. unfold numbers. cbn. apply set_eq. intros i. destruct (decide (i = frame_number frame)); set_solver.
  - intros f Hf. rewrite U2, Ho; [done|done|]. by intros ->%list_elem_of_singleton.
Qed.
End freeing.
