(* ===== verification/Process.v ===== *)
(** * Processes ([processes/process.rs], [interrupts/idt.rs], [syscalls/syscall_handlers.rs])

    The process table, the creation of processes, and the three ways into and
    out of one: [run_process_ring3], which the event runner polls, the timer
    interrupt that preempts a process, and the system call that ends it.  The
    handlers compose the event system, the page tables with the frame allocator,
    the interrupt controller and the stack of the interrupted processor.

    The table holds shared control blocks ([Arc<UnsafePCB>]): they live in a
    store and the table maps a PID to a handle.  The future [run_process_ring3]
    makes and the address of [return_process] are parameters, and so is what
    [load_elf] does to the tables of a new process, which [Loader] describes. *)

From S2P Require Import Prelude Apic Frames FrameStore PageTables Events Cpu.

Inductive ProcessState := New | Ready | Running | Blocked | Terminated.
#[global] Instance ProcessState_eq_dec : EqDecision ProcessState.
Proof. solve_decision. Defined.

Record PCB (F : Type) := mkPCB {
  pcb_pid : Z;
  state : ProcessState;
  kernel_rsp : Z;
  kernel_rip : Z;
  registers : Registers;
  pml4_frame : F
}.
Arguments mkPCB {F}.
Arguments pcb_pid {F}.
Arguments state {F}.
Arguments kernel_rsp {F}.
Arguments kernel_rip {F}.
Arguments registers {F}.
Arguments pml4_frame {F}.

Definition SYSCALL_EXIT : Z := 1.
Definition SYSCALL_PRINT : Z := 3.

(** The statics the handlers use, the stack they run on and [CR3]. *)
Record Kernel (Fut F G E W : Type) := mkKernel {
  k_sys : Sys Fut;
  k_apic : Apic W;
  k_tables : Tables G E;
  NEXT_PID : Z;
  PROCESS_TABLE : gmap Z nat;
  pcbs : list (PCB F);
  k_mem : memory;
  cr3 : option F
}.
Arguments mkKernel {Fut F G E W}.
Arguments k_sys {Fut F G E W}.
Arguments k_apic {Fut F G E W}.
Arguments k_tables {Fut F G E W}.
Arguments NEXT_PID {Fut F G E W}.
Arguments PROCESS_TABLE {Fut F G E W}.
Arguments pcbs {Fut F G E W}.
Arguments k_mem {Fut F G E W}.
Arguments cr3 {Fut F G E W}.

(** How a handler ends: it returns, and the interrupted code goes on, or it
    loads a kernel stack pointer and jumps. *)
Inductive control :=
| Resume
| Switch (to_rsp to_rip : Z).

Section process.
Context {Fut F G E W : Type} `{PhysFrames F} `{FrameStore F G} `{PageTableEntry F E} `{Machine W}.
Context (run_process_ring3 : Z -> Fut) (return_process_addr : Z)
  (load_program : F -> list Z -> M (Tables G E) no_error (Z * Z)) (kernel_pml4 : F).
Abbreviation K := (Kernel Fut F G E W).
Abbreviation MK := (M K no_error).

Definition with_sys (s : K) (x : Sys Fut) : K :=
  mkKernel x (k_apic s) (k_tables s) (NEXT_PID s) (PROCESS_TABLE s) (pcbs s) (k_mem s) (cr3 s).
Definition with_k_apic (s : K) (x : Apic W) : K :=
  mkKernel (k_sys s) x (k_tables s) (NEXT_PID s) (PROCESS_TABLE s) (pcbs s) (k_mem s) (cr3 s).
Definition with_k_tables (s : K) (x : Tables G E) : K :=
  mkKernel (k_sys s) (k_apic s) x (NEXT_PID s) (PROCESS_TABLE s) (pcbs s) (k_mem s) (cr3 s).
Definition with_next_pid (s : K) (x : Z) : K :=
  mkKernel (k_sys s) (k_apic s) (k_tables s) x (PROCESS_TABLE s) (pcbs s) (k_mem s) (cr3 s).
Definition with_processes (s : K) (t : gmap Z nat) (l : list (PCB F)) : K :=
  mkKernel (k_sys s) (k_apic s) (k_tables s) (NEXT_PID s) t l (k_mem s) (cr3 s).
Definition with_cr3 (s : K) (x : F) : K :=
  mkKernel (k_sys s) (k_apic s) (k_tables s) (NEXT_PID s) (PROCESS_TABLE s) (pcbs s) (k_mem s) (Some x).

Definition in_sys {A} (m : M (Sys Fut) no_error A) : MK A := zoom k_sys (fun x s => with_sys s x) m.
Definition in_k_apic {A} (m : M (Apic W) no_error A) : MK A := zoom k_apic (fun x s => with_k_apic s x) m.
Definition in_k_tables {A} (m : M (Tables G E) no_error A) : MK A := zoom k_tables (fun x s => with_k_tables s x) m.

(** The handle of a PID, the control block behind it, and a store to it. *)
Definition process_of (pid : Z) : MK nat :=
  let! s := get_state in expect (PROCESS_TABLE s !! pid).
Definition get_pcb (h : nat) : MK (PCB F) :=
  let! s := get_state in expect (pcbs s !! h).
Definition put_pcb (h : nat) (p : PCB F) : MK unit :=
  let! s := get_state in put_state (with_processes s (PROCESS_TABLE s) (<[h := p]> (pcbs s))).

Definition set_state (p : PCB F) (x : ProcessState) : PCB F :=
  mkPCB (pcb_pid p) x (kernel_rsp p) (kernel_rip p) (registers p) (pml4_frame p).
Definition set_registers (p : PCB F) (r : Registers) : PCB F :=
  mkPCB (pcb_pid p) (state p) (kernel_rsp p) (kernel_rip p) r (pml4_frame p).
Definition set_kernel (p : PCB F) (sp ip : Z) : PCB F :=
  mkPCB (pcb_pid p) (state p) sp ip (registers p) (pml4_frame p).

(** The registers a process starts with. *)
Definition initial_registers (stack_top entry_point : Z) : Registers :=
  {| rax := 0; rbx := 0; rcx := 0; rdx := 0; rsi := 0; rdi := 0; r8 := 0; r9 := 0; r10 := 0; r11 := 0;
     r12 := 0; r13 := 0; r14 := 0; r15 := 0; rbp := 0; rsp := stack_top; reg_rip := entry_point;
     reg_rflags := 0x202 |}.

(** [create_process]; [NEXT_PID.fetch_add(1)] wraps around. *)
Definition create_process (elf_bytes : list Z) : MK Z :=
  let! s := get_state in
  let pid := NEXT_PID s in
  put_state (with_next_pid s (wrap 32 (pid + 1))) ;!
  let! process_pml4_frame := in_k_tables (create_process_page_table kernel_pml4) in
  let! loaded := in_k_tables (load_program process_pml4_frame elf_bytes) in
  let (stack_top, entry_point) := (loaded : Z * Z) in
  let! s := get_state in
  let h := length (pcbs s) in
  put_state (with_processes s (<[pid := h]> (PROCESS_TABLE s))
    (pcbs s ++ [mkPCB pid New 0 0 (initial_registers stack_top entry_point) process_pml4_frame])) ;!
  ret pid.

(** [run_process_ring3] up to the point where the process runs: [call_process]
    stores the kernel's stack pointer in the control block, sets the state and
    loads the registers it is given. *)
Definition enter_process (pid kernel_stack : Z) : MK Registers :=
  let! h := process_of pid in
  let! p := get_pcb h in
  let! s := get_state in
  put_state (with_cr3 s (pml4_frame p)) ;!
  let regs := registers p in
  put_pcb h (set_state (set_kernel p kernel_stack return_process_addr) Running) ;!
  ret regs.

(** [timer_handler]. *)
Definition timer_handler (stack_ptr : Z) : MK control :=
  let! cpuid := in_k_apic current_core_id in
  let! ev := in_sys (current_running_event_info cpuid) in
  if info_pid ev =? 0 then in_k_apic send_eoi ;! ret Resume else
  let! h := process_of (info_pid ev) in
  let! p := get_pcb h in
  if negb (bool_decide (state p = Running)) then in_k_apic send_eoi ;! ret Resume else
  let! s := get_state in
  put_pcb h (set_state (set_registers p (saved_registers (k_mem s) stack_ptr)) Blocked) ;!
  in_sys (schedule_process cpuid (run_process_ring3 (info_pid ev)) (info_pid ev)) ;!
  in_k_apic send_eoi ;!
  ret (Switch (kernel_rsp p) (kernel_rip p)).

(** [sys_exit]. *)
Definition sys_exit : MK control :=
  let! cpuid := in_k_apic current_core_id in
  let! ev := in_sys (current_running_event_info cpuid) in
  if info_pid ev =? 0 then panic else
  let! h := process_of (info_pid ev) in
  let! p := get_pcb h in
  put_pcb h (set_state p Terminated) ;!
  in_k_tables (clear_process_frames (pml4_frame p)) ;!
  let! s := get_state in
  put_state (with_processes s (delete (info_pid ev) (PROCESS_TABLE s)) (pcbs s)) ;!
  ret (Switch (kernel_rsp p) (kernel_rip p)).

(** [syscall_handler]; [sys_exit] does not return to it. *)
Definition syscall_handler (stack_ptr : Z) : MK control :=
  let! s := get_state in
  let num := wrap 32 (syscall_num (syscall_args (k_mem s) stack_ptr)) in
  if num =? SYSCALL_EXIT then sys_exit
  else if num =? SYSCALL_PRINT then in_k_apic send_eoi ;! ret Resume
  else panic.
End process.

(** ** What processes can rely on *)

Section process_proofs.
Context {Fut F G E W : Type} `{PhysFramesLaws F} `{!FrameStore F G, !FrameStoreLaws F G}.
Context `{PageTableEntryLaws F E} `{Machine W}.
Context (run_process_ring3 : Z -> Fut) (return_process_addr : Z)
  (load_program : F -> list Z -> M (Tables G E) no_error (Z * Z)) (kernel_pml4 : F).
Abbreviation K := (Kernel Fut F G E W).
Implicit Types (s : K) (p : PCB F).

Abbreviation create_process := (create_process load_program kernel_pml4).
Abbreviation enter_process := (enter_process return_process_addr).
Abbreviation timer_handler := (timer_handler run_process_ring3).

(** The core that executes and the PID of the event it is polling. *)
Definition core_of s : Z := (rdmsr X2APIC_ID (machine (k_apic s))).1.
Definition running_pid s : option Z :=
  match current_running_event_info (core_of s) (k_sys s) with (Ok i, _) => Some (info_pid i) | _ => None end.

(** Every PID of the table leads to a control block with that PID, and is below
    the next one. *)
Record table_ok s : Prop := {
  to_pcb pid h : PROCESS_TABLE s !! pid = Some h -> exists p, pcbs s !! h = Some p /\ pcb_pid p = pid;
  to_next pid : is_Some (PROCESS_TABLE s !! pid) -> 0 < pid < NEXT_PID s;
  to_pid : 0 < NEXT_PID s < 2 ^ 32
}.

(** The same processes in the same state. *)
Definition same_processes s s' : Prop :=
  NEXT_PID s' = NEXT_PID s /\ PROCESS_TABLE s' = PROCESS_TABLE s /\ pcbs s' = pcbs s.

(** What the kernel does, as far as processes go; [Elsewhere] is anything that
    leaves the process table alone: the event runner, the processes themselves,
    other interrupts. *)
Inductive op := Create (elf_bytes : list Z) | Enter (pid kernel_stack : Z) | Timer (stack_ptr : Z) | Syscall (stack_ptr : Z) | Elsewhere.
Inductive does : op -> K -> K -> Prop :=
| does_create b s pid s' : NEXT_PID s < 2 ^ 32 - 1 -> create_process b s = (Ok pid, s') -> does (Create b) s s'
| does_enter pid k s r s' : enter_process pid k s = (Ok r, s') -> does (Enter pid k) s s'
| does_timer sp s c s' : timer_handler sp s = (Ok c, s') -> does (Timer sp) s s'
| does_syscall sp s c s' : syscall_handler sp s = (Ok c, s') -> does (Syscall sp) s s'
| does_elsewhere s s' : same_processes s s' -> does Elsewhere s s'.

(** Process [pid] is entered or makes a system call. *)
Definition concerns (pid : Z) (o : op) s : Prop :=
  match o with
  | Enter q _ => q = pid
  | Syscall _ => running_pid s = Some pid
  | _ => False
  end.
Inductive without (pid : Z) : K -> K -> Prop :=
| without_refl s : without pid s s
| without_step s o s1 s2 : does o s s1 -> ~ concerns pid o s -> without pid s1 s2 -> without pid s s2.

(** ** The handlers, inverted *)

Lemma info_reads c (x x' : Sys Fut) i : current_running_event_info c x = (Ok i, x') -> x' = x.
Proof.
  unfold current_running_event_info, runner, event, bind, get_state, expect, ret, panic.
  repeat case_match; intros Heq; simplify_eq; done.
Qed.

Lemma core_id_reads s c s' : in_k_apic current_core_id s = (Ok c, s') ->
  c = core_of s /\ exists w, s' = with_k_apic s (with_machine (k_apic s) w).
Proof.
  intros (a & Ha & ->)%zoom_ok_inv. unfold current_core_id in Ha. rewrite msr_read_eq in Ha.
  injection Ha as <- <-. split; [done|]. by eexists.
Qed.

Lemma eoi_processes s s' : in_k_apic send_eoi s = (Ok tt, s') -> same_processes s s' /\ k_sys s' = k_sys s.
Proof. by intros (a & _ & ->)%zoom_ok_inv. Qed.

Lemma process_of_inv pid s h s' : process_of pid s = (Ok h, s') -> s' = s /\ PROCESS_TABLE s !! pid = Some h.
Proof.
  unfold process_of. rewrite bind_get. unfold expect. destruct (PROCESS_TABLE s !! pid); [|done].
  intros Heq. by injection Heq as -> <-.
Qed.

Lemma get_pcb_inv h s p s' : get_pcb h s = (Ok p, s') -> s' = s /\ pcbs s !! h = Some p.
Proof.
  unfold get_pcb. rewrite bind_get. unfold expect. destruct (pcbs s !! h); [|done].
  intros Heq. by injection Heq as -> <-.
Qed.

(** How the handlers start: the PID of the running event, its control block. *)
Lemma handler_start {A} (k : Z -> EventInfo -> M K no_error A) s a s' :
  (let! cpuid := in_k_apic current_core_id in
   let! ev := in_sys (current_running_event_info cpuid) in k cpuid ev) s = (Ok a, s') ->
  exists ev s1, running_pid s = Some (info_pid ev) /\ same_processes s s1 /\ k_sys s1 = k_sys s /\
    k_mem s1 = k_mem s /\ k_tables s1 = k_tables s /\ k (core_of s) ev s1 = (Ok a, s').
Proof.
  intros Hm. apply bind_ok_inv in Hm as (c & s1 & Hc & Hm). apply core_id_reads in Hc as [-> [w ->]].
  apply bind_ok_inv in Hm as (ev & s2 & Hev & Hm). apply zoom_ok_inv in Hev as (x & Hx & ->). cbn in Hx.
  pose proof (info_reads _ _ _ _ Hx) as ->. exists ev, (with_k_apic s (with_machine (k_apic s) w)).
  split_and!; try done. unfold running_pid. by rewrite Hx.
Qed.

(** [timer_handler] either leaves every process as it is, or preempts the one
    that is running. *)
Record preempts s (stack_ptr pid : Z) (h : nat) p c s' : Prop := {
  pre_pid : running_pid s = Some pid;
  pre_table : PROCESS_TABLE s !! pid = Some h;
  pre_pcb : pcbs s !! h = Some p;
  pre_state : state p = Running;
  pre_control : c = Switch (kernel_rsp p) (kernel_rip p);
  pre_processes : NEXT_PID s' = NEXT_PID s /\ PROCESS_TABLE s' = PROCESS_TABLE s /\
    pcbs s' = <[h := set_state (set_registers p (saved_registers (k_mem s) stack_ptr)) Blocked]> (pcbs s);
  pre_scheduled : schedule_process (core_of s) (run_process_ring3 pid) pid (k_sys s) = (Ok tt, k_sys s')
}.

Lemma timer_inv sp s c s' : timer_handler sp s = (Ok c, s') ->
  (c = Resume /\ same_processes s s') \/ exists pid h p, preempts s sp pid h p c s'.
Proof.
  intros (ev & s1 & Hpid & (Hn & Ht & Hp) & Hsys & Hmem & _ & Hk)%handler_start.
  destruct (info_pid ev =? 0).
  { apply bind_ok_inv in Hk as ([] & s2 & [(Hn' & Ht' & Hp') _]%eoi_processes & Hk). injection Hk as <- <-.
    left. split; [done|]. split_and!; congruence. }
  apply bind_ok_inv in Hk as (h & s2 & [-> Hh]%process_of_inv & Hk).
  apply bind_ok_inv in Hk as (p & s3 & [-> Hpcb]%get_pcb_inv & Hk).
  destruct (bool_decide_reflect (state p = Running)) as [Hrun|]; cbn [negb] in Hk.
  - right. exists (info_pid ev), h, p. rewrite bind_get in Hk.
    apply bind_ok_inv in Hk as ([] & s4 & Hput & Hk). unfold put_pcb in Hput. rewrite bind_get in Hput.
    injection Hput as <-. apply bind_ok_inv in Hk as ([] & s5 & (x & Hx & ->)%zoom_ok_inv & Hk).
    apply bind_ok_inv in Hk as ([] & s6 & [(Hn6 & Ht6 & Hp6) Hs6]%eoi_processes & Hk). injection Hk as <- <-.
    cbn in Hx, Hn6, Ht6, Hp6, Hs6. rewrite Ht in Hh. rewrite Hp in Hpcb. rewrite Hsys in Hx.
    split; try done; [split_and!; congruence|by rewrite Hs6].
  - apply bind_ok_inv in Hk as ([] & s2 & [(Hn' & Ht' & Hp') _]%eoi_processes & Hk). injection Hk as <- <-.
    left. split; [done|]. split_and!; congruence.
Qed.

(** [sys_exit] ends the process that is running. *)
Record exits s (pid : Z) (h : nat) p c s' : Prop := {
  ex_pid : running_pid s = Some pid;
  ex_table : PROCESS_TABLE s !! pid = Some h;
  ex_pcb : pcbs s !! h = Some p;
  ex_control : c = Switch (kernel_rsp p) (kernel_rip p);
  ex_processes : NEXT_PID s' = NEXT_PID s /\ PROCESS_TABLE s' = delete pid (PROCESS_TABLE s) /\
    pcbs s' = <[h := set_state p Terminated]> (pcbs s);
  ex_tables : clear_process_frames (pml4_frame p) (k_tables s) = (Ok tt, k_tables s')
}.

Lemma exit_inv s c s' : sys_exit s = (Ok c, s') -> exists pid h p, exits s pid h p c s'.
Proof.
  intros (ev & s1 & Hpid & (Hn & Ht & Hp) & Hsys & Hmem & Htab & Hk)%handler_start.
  destruct (info_pid ev =? 0); [done|].
  apply bind_ok_inv in Hk as (h & s2 & [-> Hh]%process_of_inv & Hk).
  apply bind_ok_inv in Hk as (p & s3 & [-> Hpcb]%get_pcb_inv & Hk).
  apply bind_ok_inv in Hk as ([] & s4 & Hput & Hk). unfold put_pcb in Hput. rewrite bind_get in Hput.
  injection Hput as <-. apply bind_ok_inv in Hk as ([] & s5 & (x & Hx & ->)%zoom_ok_inv & Hk).
  rewrite bind_get, bind_put in Hk. injection Hk as <- <-. cbn in Hx. rewrite Htab in Hx.
  rewrite Ht in Hh. rewrite Hp in Hpcb.
  exists (info_pid ev), h, p. split; try done. cbn. split_and!; congruence.
Qed.

Lemma syscall_inv sp s c s' : syscall_handler sp s = (Ok c, s') ->
  (c = Resume /\ same_processes s s') \/ exists pid h p, exits s pid h p c s'.
Proof.
  unfold syscall_handler. rewrite bind_get. destruct (_ =? SYSCALL_EXIT); [by intros ?%exit_inv; right|].
  destruct (_ =? SYSCALL_PRINT); [|done].
  intros Hk. apply bind_ok_inv in Hk as ([] & s2 & [Hs _]%eoi_processes & Hk). injection Hk as <- <-. by left.
Qed.

(** [enter_process] is total on the processes of the table. *)
Lemma enter_eq pid k h p s : PROCESS_TABLE s !! pid = Some h -> pcbs s !! h = Some p ->
  enter_process pid k s = (Ok (registers p),
    let s1 := with_cr3 s (pml4_frame p) in
    with_processes s1 (PROCESS_TABLE s) (<[h := set_state (set_kernel p k return_process_addr) Running]> (pcbs s))).
Proof.
  intros Ht Hp. unfold enter_process, process_of, get_pcb, Process.enter_process.
  rewrite bind_assoc, bind_get, (bind_expect _ h), bind_assoc, bind_get, (bind_expect _ p), bind_get, bind_put by done.
  done.
Qed.

Lemma enter_inv pid k s r s' : enter_process pid k s = (Ok r, s') ->
  exists h p, PROCESS_TABLE s !! pid = Some h /\ pcbs s !! h = Some p /\ NEXT_PID s' = NEXT_PID s /\
    PROCESS_TABLE s' = PROCESS_TABLE s /\
    pcbs s' = <[h := set_state (set_kernel p k return_process_addr) Running]> (pcbs s).
Proof.
  intros Hm. pose proof Hm as Hm0. apply bind_ok_inv in Hm as (h & s1 & [-> Hh]%process_of_inv & Hm).
  apply bind_ok_inv in Hm as (p & s2 & [-> Hp]%get_pcb_inv & _). rewrite (enter_eq pid k h p s Hh Hp) in Hm0.
  injection Hm0 as _ <-. by exists h, p.
Qed.

Lemma create_inv b s pid s' : create_process b s = (Ok pid, s') ->
  pid = NEXT_PID s /\ NEXT_PID s' = wrap 32 (pid + 1) /\
  PROCESS_TABLE s' = <[pid := length (pcbs s)]> (PROCESS_TABLE s) /\
  exists p, pcbs s' = pcbs s ++ [p] /\ pcb_pid p = pid /\ state p = New.
Proof.
  intros Hm. unfold create_process, Process.create_process in Hm. rewrite bind_get, bind_put in Hm.
  apply bind_ok_inv in Hm as (frame & s1 & (x & _ & ->)%zoom_ok_inv & Hm).
  apply bind_ok_inv in Hm as ([top entry] & s2 & (y & _ & ->)%zoom_ok_inv & Hm).
  rewrite bind_get, bind_put in Hm. injection Hm as <- <-. cbn. split_and!; try done. by eexists.
Qed.

(** ** Invariants *)

(** Changing one control block but not its PID, and dropping PIDs. *)
Lemma table_ok_update s s' h p q :
  table_ok s -> pcbs s !! h = Some p -> pcb_pid q = pcb_pid p -> NEXT_PID s' = NEXT_PID s ->
  (forall pid i, PROCESS_TABLE s' !! pid = Some i -> PROCESS_TABLE s !! pid = Some i) ->
  pcbs s' = <[h := q]> (pcbs s) -> table_ok s'.
Proof.
  intros [Hpcb Hnext Hpid] Hp Hq Hn Ht Hps. split.
  - intros pid i Hi. destruct (Hpcb pid i (Ht _ _ Hi)) as (p' & Hp' & Hid). rewrite Hps.
    destruct (decide (i = h)) as [->|Hne].
    + exists q. rewrite Hp in Hp'. injection Hp' as <-. split; [|congruence].
      apply list_lookup_insert_eq. by eapply lookup_lt_Some.
    + exists p'. by rewrite list_lookup_insert_ne.
  - intros pid [i Hi]. rewrite Hn. apply Hnext. exists i. by apply Ht.
  - by rewrite Hn.
Qed.

Lemma same_processes_ok s s' : same_processes s s' -> table_ok s -> table_ok s'.
Proof. intros (Hn & Ht & Hp) [H1' H2' H3']. split; rewrite ?Hn, ?Ht, ?Hp; done. Qed.

Lemma does_table_ok o s s' : does o s s' -> table_ok s -> table_ok s'.
Proof.
  intros Hd Hok. destruct Hd as [b s pid s' Hlt Hc|pid k s r s' Hc|sp s c s' Hc|sp s c s' Hc|s s' Hs].
  - apply create_inv in Hc as (-> & Hn & Ht & p & Hps & Hid & _). destruct Hok as [Hpcb Hnext Hpid].
    rewrite wrap_small in Hn by lia. split.
    + intros pid h. rewrite Ht. intros [[<- <-]|[Hne Hh]]%lookup_insert_Some; rewrite Hps.
      * exists p. by rewrite lookup_app_r, Nat.sub_diag by lia.
      * destruct (Hpcb pid h Hh) as (q & Hq & Hid'). exists q. by rewrite lookup_app_l by by eapply lookup_lt_Some.
    + intros pid. rewrite Ht, Hn. intros [h [[<- _]|[_ Hh]]%lookup_insert_Some]; [lia|].
      specialize (Hnext pid (mk_is_Some _ _ Hh)). lia.
    + rewrite Hn. lia.
  - apply enter_inv in Hc as (h & p & Hh & Hp & Hn & Ht & Hps). eapply table_ok_update; [done|done| |done| |exact Hps]; [done|].
    by rewrite Ht.
  - apply timer_inv in Hc as [[_ Hs]|(pid & h & p & [_ Hh Hp _ _ (Hn & Ht & Hps) _])]; [by eapply same_processes_ok|].
    eapply table_ok_update; [done|done| |done| |exact Hps]; [done|]. by rewrite Ht.
  - apply syscall_inv in Hc as [[_ Hs]|(pid & h & p & [_ Hh Hp _ (Hn & Ht & Hps) _])]; [by eapply same_processes_ok|].
    eapply table_ok_update; [done|done| |done| |exact Hps]; [done|]. intros q i. rewrite Ht. by intros [_ ?]%lookup_delete_Some.
  - by eapply same_processes_ok.
Qed.

(** The control block of a process that is not running. *)
Definition blocked s (pid : Z) (h : nat) p : Prop :=
  PROCESS_TABLE s !! pid = Some h /\ pcbs s !! h = Some p /\ state p = Blocked.

(** Two PIDs have two handles. *)
Lemma handle_ne s pid pid' h h' :
  table_ok s -> PROCESS_TABLE s !! pid = Some h -> PROCESS_TABLE s !! pid' = Some h' -> pid' <> pid -> h' <> h.
Proof.
  intros [Hpcb _ _] Hh Hh' Hne ->. destruct (Hpcb _ _ Hh) as (q & Hq & Hid).
  destruct (Hpcb _ _ Hh') as (q' & Hq' & Hid'). apply Hne. congruence.
Qed.

Lemma blocked_kept o s s' pid h p :
  does o s s' -> table_ok s -> ~ concerns pid o s -> blocked s pid h p -> blocked s' pid h p.
Proof.
  intros Hd Hok Hno Hb. pose proof Hb as (Hh & Hp & Hst).
  destruct Hd as [b s pid' s' Hlt Hc|pid' k s r s' Hc|sp s c s' Hc|sp s c s' Hc|s s' (Hn & Ht & Hps)]; cbn in Hno.
  - apply create_inv in Hc as (-> & Hn & Ht & q & Hps & _). unfold blocked. rewrite Ht, Hps.
    destruct (to_next _ Hok pid (mk_is_Some _ _ Hh)) as [_ Hpid].
    rewrite lookup_insert_ne by lia. split_and!; [done| |done]. rewrite lookup_app_l by by eapply lookup_lt_Some. done.
  - apply enter_inv in Hc as (h' & p' & Hh' & Hp' & _ & Ht & Hps). unfold blocked. rewrite Ht, Hps.
    rewrite list_lookup_insert_ne by (by eapply (handle_ne s pid pid')). done.
  - apply timer_inv in Hc as [[_ (Hn & Ht & Hps)]|(pid' & h' & p' & [_ Hh' Hp' Hrun _ (_ & Ht & Hps) _])].
    { unfold blocked. by rewrite Ht, Hps. }
    unfold blocked. rewrite Ht, Hps. rewrite list_lookup_insert_ne; [done|]. intros ->. congruence.
  - apply syscall_inv in Hc as [[_ (Hn & Ht & Hps)]|(pid' & h' & p' & [Hrun Hh' Hp' _ (_ & Ht & Hps) _])].
    { unfold blocked. by rewrite Ht, Hps. }
    assert (pid' <> pid) by (intros ->; done). unfold blocked. rewrite Ht, Hps, lookup_delete_ne by done.
    rewrite list_lookup_insert_ne by (by eapply (handle_ne s pid pid')). done.
  - unfold blocked. by rewrite Ht, Hps.
Qed.

Lemma without_blocked s s' pid h p :
  without pid s s' -> table_ok s -> blocked s pid h p -> table_ok s' /\ blocked s' pid h p.
Proof.
  induction 1 as [s|s o s1 s2 Hd Hno _ IH]; intros Hok Hb; [done|].
  apply IH; [by eapply does_table_ok|by eapply blocked_kept].
Qed.


(** C5: A process the timer preempts is not lost and not changed.  The handler
    saves the registers found on the interrupt stack, marks the process blocked
    and schedules a new event for it on the same core; and whatever the kernel
    then does with other processes, interrupts and events, when the process is
    entered again it is given exactly these registers and its own page table,
    and it is running. *)
Theorem preempted_process_resumes (s s1 s2 : K) (stack_ptr pid a b k : Z) :
  table_ok s -> running_pid s = Some pid -> timer_handler stack_ptr s = (Ok (Switch a b), s1) ->
  without pid s1 s2 ->
  schedule_process (core_of s) (run_process_ring3 pid) pid (k_sys s) = (Ok tt, k_sys s1) /\
  exists h p s3, PROCESS_TABLE s !! pid = Some h /\ pcbs s !! h = Some p /\
    enter_process pid k s2 = (Ok (saved_registers (k_mem s) stack_ptr), s3) /\
    cr3 s3 = Some (pml4_frame p) /\ table_ok s3 /\
    exists p', pcbs s3 !! h = Some p' /\ state p' = Running /\ kernel_rsp p' = k.
Proof.
  intros Hok Hrun Ht Hw. pose proof (does_timer _ _ _ _ Ht) as Hd.
  apply timer_inv in Ht as [[? _]|(pid' & h & p & [Hpid Hh Hp Hst _ (Hn & Htb & Hps) Hsch])]; [done|].
  assert (pid' = pid) as -> by congruence. split; [done|].
  set (q := set_state (set_registers p (saved_registers (k_mem s) stack_ptr)) Blocked) in *.
  assert (blocked s1 pid h q) as Hb.
  { unfold blocked. rewrite Htb, Hps, list_lookup_insert_eq by (by eapply lookup_lt_Some). done. }
  destruct (without_blocked s1 s2 pid h q Hw (does_table_ok _ _ _ Hd Hok) Hb) as [Hok2 (Hh2 & Hq2 & _)].
  pose proof (enter_eq pid k h q s2 Hh2 Hq2) as He. exists h, p. eexists. split_and!; [done|done|exact He|done| |].
  - exact (does_table_ok _ _ _ (does_enter _ _ _ _ _ He) Hok2).
  - eexists. split; [apply list_lookup_insert_eq; by eapply lookup_lt_Some|done].
Qed.

(** The handlers' first steps, forward. *)
Lemma core_id_eq s : exists w,
  in_k_apic current_core_id s = (Ok (core_of s), with_k_apic s (with_machine (k_apic s) w)).
Proof. eexists. exact (zoom_ok _ _ _ s _ _ (msr_read_eq _ _)). Qed.

Lemma info_eq c (x : Sys Fut) r arc ev :
  EVENT_RUNNERS x !! c = Some r -> current_event r = Some arc -> events x !! arc = Some ev ->
  current_running_event_info c x = (Ok (mkEventInfo (priority ev) (Events.pid ev)), x).
Proof.
  intros Hr Hc He. unfold current_running_event_info, runner, event. rewrite bind_assoc, bind_get, (bind_expect _ r) by done.
  unfold current_running_event. rewrite Hc, bind_assoc, bind_get, (bind_expect _ ev) by done. done.
Qed.

Lemma in_sys_info c s r arc ev :
  EVENT_RUNNERS (k_sys s) !! c = Some r -> current_event r = Some arc -> events (k_sys s) !! arc = Some ev ->
  in_sys (current_running_event_info c) s = (Ok (mkEventInfo (priority ev) (Events.pid ev)), s).
Proof.
  intros Hr Hc He. unfold in_sys. rewrite (zoom_ok _ _ _ s _ _ (info_eq c _ r arc ev Hr Hc He)). by destruct s.
Qed.

Lemma running_pid_eq s r arc ev :
  EVENT_RUNNERS (k_sys s) !! core_of s = Some r -> current_event r = Some arc -> events (k_sys s) !! arc = Some ev ->
  running_pid s = Some (Events.pid ev).
Proof. intros Hr Hc He. unfold running_pid. by rewrite (info_eq _ _ r arc ev). Qed.

(** C19: When a process exits, its PID leaves the table, every frame of its
    address space, page tables included, becomes free and no other frame does,
    the tables of all other address spaces and the control blocks of all other
    processes are untouched, and control goes back to the kernel context that
    entered the process. *)
Theorem exit_frees_process (n : nat) (s : K) (pid : Z) (h : nat) (p : PCB F) (fs : list F) (r : EventRunner)
    (arc : nat) (ev : Event Fut) :
  table_ok s -> EVENT_RUNNERS (k_sys s) !! core_of s = Some r -> current_event r = Some arc ->
  events (k_sys s) !! arc = Some ev -> pid = Events.pid ev ->
  PROCESS_TABLE s !! pid = Some h -> pcbs s !! h = Some p ->
  full_tables (k_tables s) -> process_frames (t_tables (k_tables s)) (pml4_frame p) = Some fs ->
  can_free fs (k_tables s) -> ready (length fs + n) (t_frames (k_tables s)) ->
  exists s', sys_exit s = (Ok (Switch (kernel_rsp p) (kernel_rip p)), s') /\
    PROCESS_TABLE s' = delete pid (PROCESS_TABLE s) /\
    (forall pid' h' p', pid' <> pid -> PROCESS_TABLE s !! pid' = Some h' -> pcbs s !! h' = Some p' ->
      PROCESS_TABLE s' !! pid' = Some h' /\ pcbs s' !! h' = Some p') /\
    avail (t_frames (k_tables s')) = numbers fs ∪ avail (t_frames (k_tables s)) /\
    (forall f, f ∉ fs -> t_tables (k_tables s') !! start_address f = t_tables (k_tables s) !! start_address f) /\
    table_ok s'.
Proof.
  clear run_process_ring3 return_process_addr load_program kernel_pml4.
  intros Hok Hr Hcur Hev -> Hh Hp Hfull Hfs Hcan Hrd.
  destruct (clear_process_frames_freed n _ fs (k_tables s) Hfull Hfs Hcan Hrd) as (t & Ec & [A T U _] & _).
  pose proof (to_next _ Hok _ (mk_is_Some _ _ Hh)) as [Hpos _].
  assert (exists s', sys_exit s = (Ok (Switch (kernel_rsp p) (kernel_rip p)), s') /\ k_tables s' = t) as (s' & Ee & <-).
  { unfold sys_exit. destruct (core_id_eq s) as [w Ew]. rewrite (bind_ok _ _ _ _ _ Ew).
    set (s1 := with_k_apic s _).
    rewrite (bind_ok _ _ _ _ _ (in_sys_info _ s1 _ _ _ Hr Hcur Hev)). cbn [info_pid].
    replace (Events.pid ev =? 0) with false by lia.
    unfold process_of, get_pcb, put_pcb. rewrite bind_assoc, bind_get, (bind_expect _ h) by done.
    rewrite bind_assoc, bind_get, (bind_expect _ p) by done. rewrite bind_assoc, bind_get, bind_put.
    set (s2 := with_processes _ _ _). rewrite (bind_ok _ _ _ tt (with_k_tables s2 t)) by
      (exact (zoom_ok _ _ _ s2 _ _ Ec)).
    rewrite bind_get, bind_put. by eexists. }
  pose proof (exit_inv _ _ _ Ee) as (pid' & h' & p' & [Hpid Hh' Hp' _ (Hn & Ht & Hps) _]).
  assert (pid' = Events.pid ev) as -> by (rewrite (running_pid_eq _ _ _ _ Hr Hcur Hev) in Hpid; congruence).
  assert (h' = h) as -> by congruence. assert (p' = p) as -> by congruence.
  exists s'. split_and!; try done.
  - intros pid' h' p' Hne Hh2 Hp2. rewrite Ht, lookup_delete_ne, Hps by done. split; [done|].
    rewrite list_lookup_insert_ne; [done|]. apply not_eq_sym. by eapply (handle_ne s (Events.pid ev) pid').
  - eapply table_ok_update; [done|done| |done| |exact Hps]; [done|]. intros q i. rewrite Ht. by intros [_ ?]%lookup_delete_Some.
Qed.
End process_proofs.
