(* ===== verification/ProcessExamples.v ===== *)
(** * Examples of processes

    A machine with one process whose address space is one page under four levels
    of tables: the theorems of [PageTables] and [Process] applied to it. *)

From S2P Require Import Prelude Apic Tlb Frames FrameSafety FrameStore PageTables Events Cpu Process FlatMemory.

(** Page table entries as words: the address of a frame in the upper bits. *)
#[global] Instance word_entries : PageTableEntry Frame Z := {
  is_unused e := e =? 0;
  entry_addr e := e - e mod 4096;
  entry_frame e := if Z.testbit e 0 && negb (Z.testbit e 7) then containing_address (e - e mod 4096) else None;
  unused := 0
}.
#[global] Instance word_entries_laws : PageTableEntryLaws Frame Z.
Proof. by split. Qed.

#[local] Instance example_store : FrameStore Frame (option (GlobalFrameAllocator Frame)) := global_store 64.
#[local] Instance example_store_laws : FrameStoreLaws Frame (option (GlobalFrameAllocator Frame)) :=
  global_store_laws 64.

(** Frame number [i]. *)
Definition fr (i : Z) : Frame := default frame0 (containing_address (i * 4096)).

Lemma fr_ok i : 0 <= i < 2 ^ 40 -> containing_address (i * 4096) = Some (fr i) /\ start_address (fr i) = i * 4096.
Proof.
  intros Hi. destruct (frame_of_address (i * 4096)) as (f & E & Hs); [lia|].
  assert (fr i = f) as -> by (unfold fr; by rewrite E). split; [done|]. rewrite Hs. unfold FRAME_SIZE. rewrite Z.mod_mul by done. lia.
Qed.

Lemma fr_number i : 0 <= i < 2 ^ 40 -> frame_number (fr i) = i.
Proof.
  intros Hi. destruct (fr_ok i Hi) as [_ Hs]. unfold frame_number. rewrite Hs. by apply Z.div_mul.
Qed.

(** 64 frames, of which 1 to 5 are in use. *)
Definition five_used : BitmapFrameAllocator := mkBitmap 64 123 0 [62] 0 0.

Lemma five_used_size : size (free_set five_used) = 59%nat.
Proof. by vm_compute. Qed.

Lemma five_used_ok : bm_ok 64 five_used.
Proof.
  split; [split; [done|done|done|by repeat constructor]|done| |done|done].
  rewrite five_used_size. done.
Qed.

(** The tables of the process: the top table in frame 1, one table of each
    level in frames 2, 3 and 4, and the page in frame 5. *)
Definition one_entry (i : Z) : list Z := (i * 4096 + 7) :: replicate 511 0.
Definition example_tables : Tables (option (GlobalFrameAllocator Frame)) Z :=
  mkTables (Some (Bitmap five_used))
    (<[1 * 4096 := one_entry 2]> (<[2 * 4096 := one_entry 3]> (<[3 * 4096 := one_entry 4]>
      (<[4 * 4096 := one_entry 5]> ∅)))).
Definition example_frames : list Frame := [fr 5; fr 4; fr 3; fr 2; fr 1].

Lemma example_ready n : (n <= 50)%nat -> ready n (t_frames example_tables).
Proof.
  intros Hn. exists 64. pose proof five_used_size as Hs.
  split_and!; [apply five_used_ok|done|rewrite Hs; lia|..]; cbn; lia.
Qed.

Lemma example_full : full_tables example_tables.
Proof.
  intros a es. cbn [t_tables example_tables].
  do 4 (intros [[_ <-]|[_ Hl]]%lookup_insert_Some; [done|]; revert Hl). by rewrite lookup_empty.
Qed.

Lemma example_table i : 1 <= i <= 4 ->
  t_tables example_tables !! start_address (fr i) = Some (((i + 1) * 4096 + 7) :: replicate 511 unused).
Proof.
  intros Hi. destruct (fr_ok i) as [_ ->]; [lia|].
  assert (i = 1 \/ i = 2 \/ i = 3 \/ i = 4) as [->|[->|[->| ->]]] by lia; reflexivity.
Qed.

Lemma one_entry_child i : 1 <= i <= 4 ->
  is_unused (F:=Frame) ((i + 1) * 4096 + 7) = false /\
  containing_address (entry_addr (F:=Frame) ((i + 1) * 4096 + 7)) = Some (fr (i + 1)).
Proof.
  intros Hi. cbn [is_unused entry_addr word_entries]. split; [lia|].
  replace ((i + 1) * 4096 + 7 - ((i + 1) * 4096 + 7) mod 4096) with ((i + 1) * 4096) by dlia. apply fr_ok. lia.
Qed.

Lemma example_process_frames : process_frames (t_tables example_tables) (fr 1) = Some example_frames.
Proof.
  pose proof (example_table 1 ltac:(lia)) as T1. pose proof (example_table 2 ltac:(lia)) as T2.
  pose proof (example_table 3 ltac:(lia)) as T3. pose proof (example_table 4 ltac:(lia)) as T4.
  destruct (one_entry_child 1 ltac:(lia)) as [U2 C2]. destruct (one_entry_child 2 ltac:(lia)) as [U3 C3].
  destruct (one_entry_child 3 ltac:(lia)) as [U4 C4]. destruct (one_entry_child 4 ltac:(lia)) as [U5 C5].
  apply (process_frames_single _ _ _ _ _ [fr 5; fr 4; fr 3; fr 2] T1 U2 C2).
  apply (tree_frames_single _ 3 _ _ _ _ [fr 5; fr 4; fr 3] T2 U3 C3).
  apply (tree_frames_single _ 2 _ _ _ _ [fr 5; fr 4] T3 U4 C4).
  apply (tree_frames_single _ 1 _ _ _ _ [fr 5] T4 U5 C5). done.
Qed.

Lemma example_numbers : map frame_number example_frames = [5; 4; 3; 2; 1].
Proof. cbn [map example_frames]. by rewrite !fr_number. Qed.

Lemma example_can_free : can_free example_frames example_tables.
Proof.
  split.
  - apply (NoDup_fmap_1 frame_number). change (frame_number <$> ?l) with (map frame_number l).
    rewrite example_numbers. apply (bool_decide_unpack _). by vm_compute.
  - intros f Hf. assert (frame_number f ∈ [5; 4; 3; 2; 1]) as Hn.
    { rewrite <- example_numbers. by apply list_elem_of_fmap_2. }
    assert (Forall (fun i => i < 64 /\ used five_used i = true) [5; 4; 3; 2; 1]) as Hall by by repeat constructor.
    rewrite Forall_forall in Hall. destruct (Hall _ Hn) as [Hlt Hu]. split; [done|].
    cbn [avail global_store example_store t_frames example_tables]. intros [_ Hu']%elem_of_free_set. congruence.
Qed.

Lemma example_budget : ready (length example_frames + 0) (t_frames example_tables).
Proof. apply example_ready. cbn. lia. Qed.

Lemma clear_process_frames_exact_witness :
  exists s', clear_process_frames (fr 1) example_tables = (Ok tt, s') /\
    avail (t_frames s') = numbers example_frames ∪ avail (t_frames example_tables).
Proof.
  destruct (clear_process_frames_exact 0 (fr 1) example_frames example_tables
    example_full example_process_frames example_can_free example_budget) as (s' & E & Ha & _).
  exists s'. exact (conj E Ha).
Defined.

Lemma kernel_in_use : frame_number (fr 1) ∉ avail (t_frames example_tables).
Proof. apply (proj2 example_can_free). unfold example_frames. set_solver. Qed.
Lemma example_two : ready (2 + 0) (t_frames example_tables).
Proof. apply example_ready. lia. Qed.

Lemma create_then_clear_witness :
  exists frame s1 s2, create_process_page_table (fr 1) example_tables = (Ok frame, s1) /\
    clear_process_frames frame s1 = (Ok tt, s2) /\ avail (t_frames s2) = avail (t_frames example_tables).
Proof.
  destruct (create_then_clear 0 (fr 1) (one_entry 2) example_tables example_full
    (example_table 1 (conj (Z.le_refl 1) (ltac:(done) : 1 <= 4))) kernel_in_use example_two)
    as (frame & s1 & es & s2 & E1 & _ & _ & E2 & Ha & _).
  exists frame, s1, s2. exact (conj E1 (conj E2 Ha)).
Defined.

(** A core that is polling the event of process 1, which is running. *)
Definition example_runner : EventRunner := mkRunner [[]; []; []; []] 0 {[0]} (Some 0%nat) 1.
Definition example_event : Event Z := mkEvent 0 1 1 0 3 0.
Definition example_sys : Sys Z := mkSys 1 {[0 := example_runner]} [example_event] [[]].
Definition example_pcb (f : Frame) : PCB Frame := mkPCB 1 Running 0x9000 0x8000 Registers_new f.
Definition example_kernel (f : Frame) : Kernel Z Frame (option (GlobalFrameAllocator Frame)) Z Smp :=
  mkKernel example_sys (apic boot_coherence) example_tables 2 {[1 := 0%nat]} [example_pcb f] ∅ None.

(** Nothing is loaded into a new process here. *)
Definition load_nothing (f : Frame) (b : list Z) : M (Tables (option (GlobalFrameAllocator Frame)) Z) no_error (Z * Z) :=
  ret (0x700000002000, 0x400000).

Lemma example_table_ok f : table_ok (example_kernel f).
Proof.
  split; [| |done].
  - intros pid h. cbn [PROCESS_TABLE example_kernel]. intros [<- <-]%lookup_singleton_Some. by exists (example_pcb f).
  - intros pid. cbn [PROCESS_TABLE example_kernel]. intros [h [<- _]%lookup_singleton_Some]. done.
Qed.

Lemma example_timer f : (timer_handler (fun pid : Z => pid) 4096 (example_kernel f)).1 = Ok (Switch 0x9000 0x8000).
Proof. by vm_compute. Qed.

Lemma example_running f : running_pid (example_kernel f) = Some 1.
Proof. by vm_compute. Qed.

Lemma preempted_process_resumes_witness :
  let s := example_kernel (fr 1) in
  let s1 := (timer_handler (fun pid : Z => pid) 4096 s).2 in
  exists s3, enter_process 0x8000 1 0x9100 s1 = (Ok (saved_registers (k_mem s) 4096), s3) /\ cr3 s3 = Some (fr 1).
Proof.
  intros s s1.
  assert (timer_handler (fun pid : Z => pid) 4096 s = (Ok (Switch 0x9000 0x8000), s1)) as Et.
  { unfold s1. rewrite <- (example_timer (fr 1)). apply surjective_pairing. }
  destruct (preempted_process_resumes (fun pid : Z => pid) 0x8000 load_nothing (fr 1) s s1 s1 4096 1 0x9000 0x8000 0x9100
    (example_table_ok (fr 1)) (example_running (fr 1)) Et (without_refl _ _ _ _ _ _))
    as (_ & h & p & s3 & Hh & Hp & He & Hcr & _).
  assert (p = example_pcb (fr 1)) as ->.
  { injection Hh as <-. by injection Hp as <-. }
  exists s3. exact (conj He Hcr).
Defined.

Lemma example_runs f :
  EVENT_RUNNERS (k_sys (example_kernel f)) !! core_of (example_kernel f) = Some example_runner.
Proof. reflexivity. Qed.

Lemma exit_frees_process_witness :
  exists s', sys_exit (example_kernel (fr 1)) = (Ok (Switch 0x9000 0x8000), s') /\ PROCESS_TABLE s' = ∅ /\
    avail (t_frames (k_tables s')) = numbers example_frames ∪ avail (t_frames example_tables).
Proof.
  destruct (exit_frees_process 0 (example_kernel (fr 1)) 1 0 (example_pcb (fr 1)) example_frames
    example_runner 0 example_event (example_table_ok (fr 1))
    (example_runs (fr 1)) eq_refl eq_refl eq_refl eq_refl eq_refl example_full example_process_frames example_can_free example_budget)
    as (s' & E & Ht & _ & Ha & _).
  exists s'. exact (conj E (conj Ht Ha)).
Defined.

(** A process created after process 1 was preempted. *)
Definition preempted (f : Frame) : Kernel Z Frame (option (GlobalFrameAllocator Frame)) Z Smp :=
  (timer_handler (fun pid : Z => pid) 4096 (example_kernel f)).2.

Lemma preempted_runs f :
  rtc (fun a b => exists o, does (fun pid : Z => pid) 0x8000 load_nothing (fr 1) o a b) (example_kernel f) (preempted f).
Proof.
  apply rtc_once. exists (Timer 4096). apply does_timer with (c := Switch 0x9000 0x8000).
  rewrite <- (example_timer f). apply surjective_pairing.
Qed.

Lemma preempted_tables f : k_tables (preempted f) = example_tables.
Proof. reflexivity. Qed.
Lemma preempted_next f : NEXT_PID (preempted f) = 2.
Proof. by vm_compute. Qed.

Lemma create_in (s : Kernel Z Frame (option (GlobalFrameAllocator Frame)) Z Smp) t : k_tables s = example_tables -> NEXT_PID s = t ->
  exists s', create_process load_nothing (fr 1) [] s = (Ok t, s').
Proof.
  intros Hk <-. destruct (create_process_page_table_ok 1 (fr 1) (one_entry 2) example_tables example_full
    (example_table 1 (conj (Z.le_refl 1) (ltac:(done) : 1 <= 4))) kernel_in_use example_two)
    as (frame & t1 & es & E1 & _).
  unfold create_process. rewrite bind_get, bind_put.
  rewrite <- Hk in E1. eexists. unfold in_k_tables.
  rewrite (bind_ok _ _ _ _ _ (zoom_ok k_tables _ (create_process_page_table (fr 1)) (with_next_pid s (wrap 32 (NEXT_PID s + 1))) _ _ E1)).
  done.
Qed.

Lemma preempted_create f : exists s', create_process load_nothing (fr 1) [] (preempted f) = (Ok 2, s').
Proof. apply create_in; [apply preempted_tables|apply preempted_next]. Qed.
Lemma preempted_room f : NEXT_PID (preempted f) < 2 ^ 32 - 1.
Proof. rewrite preempted_next. lia. Qed.

